(** * Git-Lite: a shallow embedding of the repository engine

    The development follows the layering of the C++ sources:
    - [util]        (src/utils.cpp)            text helpers: [split], [trim], [isValidIdentifier];
    - [hashing]     (src/hashing.cpp)          SHA-256 digests printed by [toHex];
    - the file system the engine runs on (std::filesystem and the fstream classes);
    - [StorageManager] (src/storage_manager.cpp);
    - [RepoService]    (src/repo_service.cpp);
    - [GitLiteApp]     (src/gitlite_app.cpp): the permission gate and the command handlers.

    A std::string is a [string] (a sequence of 8-bit characters), a
    std::filesystem::path is the list of its components, and the disk is a
    finite map from resolved paths to nodes (a regular file with its bytes, or
    a directory).  Functions that touch the disk take the file system as an
    argument and return the new one; the clock read by [timestamp()] is an
    explicit argument of the operations that call it. *)

From Stdlib Require Import ZArith String Ascii List Lia Bool.
From stdpp Require Import base option list gmap strings.

Local Open Scope string_scope.
Local Open Scope list_scope.

(* ===================================================================== *)
(** ** Characters and text helpers (src/utils.cpp, std::string)           *)
(* ===================================================================== *)

Definition NL : ascii := "010"%char.
Definition TAB : ascii := "009"%char.
Definition CR : ascii := "013"%char.
Definition SP : ascii := " "%char.

Definition nl : string := String NL "".
Definition tab : string := String TAB "".

(** [std::getline(in, line, delim)] on a stream whose unread content is [s]:
    [None] when nothing can be extracted (end of input), otherwise the token
    before the first [delim] and the unread remainder (the delimiter is
    consumed). *)
Fixpoint until_delim (d : ascii) (s : string) : string * string :=
  match s with
  | EmptyString => (EmptyString, EmptyString)
  | String c s' =>
      if Ascii.eqb c d then (EmptyString, s')
      else let '(t, r) := until_delim d s' in (String c t, r)
  end.

Definition getline (d : ascii) (s : string) : option (string * string) :=
  match s with
  | EmptyString => None
  | _ => Some (until_delim d s)
  end.

(** The tokens read by [while (std::getline(ss, item, delim))]: this is
    [gitlite::util::split].  A trailing delimiter yields no empty last token,
    an empty text yields no token at all. *)
Fixpoint split (d : ascii) (s : string) : list string :=
  match s with
  | EmptyString => []
  | String c s' =>
      if Ascii.eqb c d then EmptyString :: split d s'
      else match split d s' with
           | [] => [String c EmptyString]
           | t :: ts => String c t :: ts
           end
  end.

(** The lines read by [while (std::getline(in, line))]. *)
Definition getlines (s : string) : list string := split NL s.

(** The first line of a file, [None] when [std::getline] fails. *)
Definition first_line (s : string) : option string :=
  match getline NL s with
  | Some (l, _) => Some l
  | None => None
  end.

(** [gitlite::util::trim]: strips the characters of [" \t\r\n"] at both ends. *)
Definition is_ws (c : ascii) : bool :=
  Ascii.eqb c SP || Ascii.eqb c TAB || Ascii.eqb c CR || Ascii.eqb c NL.

Fixpoint ltrim (s : string) : string :=
  match s with
  | EmptyString => EmptyString
  | String c s' => if is_ws c then ltrim s' else s
  end.

Fixpoint rtrim (s : string) : string :=
  match s with
  | EmptyString => EmptyString
  | String c s' =>
      match rtrim s' with
      | EmptyString => if is_ws c then EmptyString else String c EmptyString
      | r => String c r
      end
  end.

Definition trim (s : string) : string := rtrim (ltrim s).

(** [text.rfind(p, 0) == 0]: [p] is a prefix of [text]. *)
Fixpoint starts_with (p s : string) : bool :=
  match p, s with
  | EmptyString, _ => true
  | String a p', String b s' => Ascii.eqb a b && starts_with p' s'
  | String _ _, EmptyString => false
  end.

(** [text.substr(n)] for [n <= text.size()]. *)
Fixpoint substr (n : nat) (s : string) : string :=
  match n, s with
  | O, _ => s
  | S n', String _ s' => substr n' s'
  | S _, EmptyString => EmptyString
  end.

(** [text.substr(0, n)]. *)
Fixpoint substr0 (n : nat) (s : string) : string :=
  match n, s with
  | S n', String c s' => String c (substr0 n' s')
  | _, _ => EmptyString
  end.

(** [text.find(c)]: [None] stands for [std::string::npos]. *)
Fixpoint find (c : ascii) (s : string) : option nat :=
  match s with
  | EmptyString => None
  | String x s' => if Ascii.eqb x c then Some O else option_map S (find c s')
  end.

Definition is_alnum (c : ascii) : bool :=
  let n := nat_of_ascii c in
  (Nat.leb 48 n && Nat.leb n 57) || (Nat.leb 65 n && Nat.leb n 90) || (Nat.leb 97 n && Nat.leb n 122).

Fixpoint string_forallb (f : ascii -> bool) (s : string) : bool :=
  match s with
  | EmptyString => true
  | String c s' => f c && string_forallb f s'
  end.

(** [gitlite::util::isValidIdentifier]. *)
Definition isValidIdentifier (value : string) : bool :=
  match value with
  | EmptyString => false
  | _ => string_forallb (fun ch => is_alnum ch || Ascii.eqb ch "-" || Ascii.eqb ch "_" || Ascii.eqb ch ".") value
  end.

Fixpoint concat_strings (l : list string) : string :=
  match l with
  | [] => EmptyString
  | s :: r => s +:+ concat_strings r
  end.

(** [std::string::empty()]. *)
Definition empty (s : string) : bool :=
  match s with
  | EmptyString => true
  | _ => false
  end.

(* ===================================================================== *)
(** ** Hashing (src/hashing.cpp)                                          *)
(* ===================================================================== *)

(** Modelled from the spec: [crypto_hash_sha256] is libsodium's, which is not
    part of the sources; the spec fixes the digest algorithm as SHA-256, so the
    primitive is written out here after FIPS 180-4.  Words are 32-bit values
    held in [Z], with the wrap-around of each addition explicit. *)
Module SHA256.

Definition w32 (x : Z) : Z := Z.land x 4294967295.
Definition add32 (x y : Z) : Z := w32 (x + y).
Definition rotr (n x : Z) : Z := w32 (Z.lor (Z.shiftr x n) (Z.shiftl x (32 - n))).
Definition shr (n x : Z) : Z := Z.shiftr x n.

Definition Ch (x y z : Z) : Z := Z.lxor (Z.land x y) (Z.land (w32 (Z.lnot x)) z).
Definition Maj (x y z : Z) : Z := Z.lxor (Z.lxor (Z.land x y) (Z.land x z)) (Z.land y z).
Definition bsig0 (x : Z) : Z := Z.lxor (Z.lxor (rotr 2 x) (rotr 13 x)) (rotr 22 x).
Definition bsig1 (x : Z) : Z := Z.lxor (Z.lxor (rotr 6 x) (rotr 11 x)) (rotr 25 x).
Definition ssig0 (x : Z) : Z := Z.lxor (Z.lxor (rotr 7 x) (rotr 18 x)) (shr 3 x).
Definition ssig1 (x : Z) : Z := Z.lxor (Z.lxor (rotr 17 x) (rotr 19 x)) (shr 10 x).

Definition K : list Z :=
  [ 1116352408; 1899447441; 3049323471; 3921009573; 961987163; 1508970993; 2453635748; 2870763221;
    3624381080; 310598401; 607225278; 1426881987; 1925078388; 2162078206; 2614888103; 3248222580;
    3835390401; 4022224774; 264347078; 604807628; 770255983; 1249150122; 1555081692; 1996064986;
    2554220882; 2821834349; 2952996808; 3210313671; 3336571891; 3584528711; 113926993; 338241895;
    666307205; 773529912; 1294757372; 1396182291; 1695183700; 1986661051; 2177026350; 2456956037;
    2730485921; 2820302411; 3259730800; 3345764771; 3516065817; 3600352804; 4094571909; 275423344;
    430227734; 506948616; 659060556; 883997877; 958139571; 1322822218; 1537002063; 1747873779;
    1955562222; 2024104815; 2227730452; 2361852424; 2428436474; 2756734187; 3204031479; 3329325298 ]%Z.

(** The eight working variables / chaining values. *)
Record state := State { sa : Z; sb : Z; sc : Z; sd : Z; se : Z; sf : Z; sg : Z; sh : Z }.

Definition H0 : state :=
  State 1779033703%Z 3144134277%Z 1013904242%Z 2773480762%Z 1359893119%Z 2600822924%Z 528734635%Z 1541459225%Z.

(** Padding: the byte 0x80, zeros up to 56 modulo 64, the bit length on 8 bytes. *)
Definition be_bytes (n : nat) (x : Z) : list Z :=
  map (fun i => Z.land (Z.shiftr x (8 * Z.of_nat (n - 1 - i))) 255) (seq 0 n).

Definition pad (msg : list Z) : list Z :=
  let len := length msg in
  let zeros := (64 - ((len + 9) mod 64)) mod 64 in
  msg ++ [128%Z] ++ repeat 0%Z zeros ++ be_bytes 8 (8 * Z.of_nat len).

Definition be_word (b0 b1 b2 b3 : Z) : Z :=
  Z.lor (Z.shiftl b0 24) (Z.lor (Z.shiftl b1 16) (Z.lor (Z.shiftl b2 8) b3)).

Fixpoint words_of (bytes : list Z) : list Z :=
  match bytes with
  | b0 :: b1 :: b2 :: b3 :: r => be_word b0 b1 b2 b3 :: words_of r
  | _ => []
  end.

(** Message schedule: [w] holds W(t-1), W(t-2), ... (most recent first). *)
Fixpoint schedule (n : nat) (w : list Z) : list Z :=
  match n with
  | O => w
  | S n' =>
      let wt := add32 (add32 (ssig1 (nth 1 w 0%Z)) (nth 6 w 0%Z))
                      (add32 (ssig0 (nth 14 w 0%Z)) (nth 15 w 0%Z)) in
      schedule n' (wt :: w)
  end.

Definition round (s : state) (kw : Z * Z) : state :=
  let '(k, w) := kw in
  let t1 := add32 (add32 (add32 (sh s) (bsig1 (se s))) (add32 (Ch (se s) (sf s) (sg s)) k)) w in
  let t2 := add32 (bsig0 (sa s)) (Maj (sa s) (sb s) (sc s)) in
  State (add32 t1 t2) (sa s) (sb s) (sc s) (add32 (sd s) t1) (se s) (sf s) (sg s).

Definition compress (h : state) (block : list Z) : state :=
  let w := rev (schedule 48 (rev (words_of block))) in
  let s := fold_left round (combine K w) h in
  State (add32 (sa h) (sa s)) (add32 (sb h) (sb s)) (add32 (sc h) (sc s)) (add32 (sd h) (sd s))
        (add32 (se h) (se s)) (add32 (sf h) (sf s)) (add32 (sg h) (sg s)) (add32 (sh h) (sh s)).

Fixpoint blocks (n : nat) (bytes : list Z) (h : state) : state :=
  match n with
  | O => h
  | S n' => blocks n' (skipn 64 bytes) (compress h (firstn 64 bytes))
  end.

Definition digest_bytes (s : state) : list ascii :=
  flat_map (fun x => map (fun b => ascii_of_N (Z.to_N b)) (be_bytes 4 x))
           [sa s; sb s; sc s; sd s; se s; sf s; sg s; sh s].

(** [crypto_hash_sha256(hash, data, length)]: the 32 bytes written to [hash]. *)
Definition crypto_hash_sha256 (data : string) : list ascii :=
  let bytes := pad (map (fun c => Z.of_N (N_of_ascii c)) (list_ascii_of_string data)) in
  digest_bytes (blocks (length bytes / 64) bytes H0).

End SHA256.

Definition hex_digit (n : N) : ascii :=
  nth (N.to_nat n) (list_ascii_of_string "0123456789abcdef") "0"%char.

(** [toHex]: each byte printed with [std::hex], width 2, filled with '0'. *)
Fixpoint toHex (data : list ascii) : string :=
  match data with
  | [] => EmptyString
  | b :: r =>
      String (hex_digit (N.div (N_of_ascii b) 16))
             (String (hex_digit (N.modulo (N_of_ascii b) 16)) (toHex r))
  end.

(** [hashing::sha256String] (through [sha256Bytes]). *)
Definition sha256String (text : string) : string :=
  toHex (SHA256.crypto_hash_sha256 text).

Example sha256_abc :
  sha256String "abc" = "ba7816bf8f01cfea414140de5dae2223b00361a396177a9cb410ff61f20015ad".
Proof. vm_compute. reflexivity. Qed.

Example sha256_empty :
  sha256String "" = "e3b0c44298fc1c149afbf4c8996fb92427ae41e4649b934ca495991b7852b855".
Proof. vm_compute. reflexivity. Qed.

Example sha256_two_blocks :
  sha256String "abcdbcdecdefdefgefghfghighijhijkijkljklmklmnlmnomnopnopq"
  = "248d6a61d20638b8e5c026930c3e6039a33ce45964ff2167f6ecedd419db06c1".
Proof. vm_compute. reflexivity. Qed.

(* ===================================================================== *)
(** ** The file system (std::filesystem, std::ifstream, std::ofstream)    *)
(* ===================================================================== *)

(** A node of the disk: a regular file with its bytes, or a directory. *)
Inductive node :=
  | File (content : string)
  | Dir.

#[global] Instance node_eq_dec : EqDecision node.
Proof. solve_decision. Defined.

(** A plain component names an entry of a directory. *)
Definition plain (c : string) : bool :=
  negb (String.eqb c "") && negb (String.eqb c ".") && negb (String.eqb c "..").

(** Paths are resolved lexically, whatever the disk holds: empty components
    and "." are skipped and ".." steps back to the parent (the root is its
    own parent).  The operating system walks a path entry by entry instead.
    The two agree on a path whose components are all plain and on ".." after
    a directory that exists; they differ where ".." or "." follows a missing
    entry or a regular file, and where a path ends in "/".  Where a
    statement depends on how a name or a relative path given by a caller is
    resolved, it is stated for plain components ([is_name], [plain_path]).
    The disk maps resolved paths to nodes; the root [[]] is always a
    directory. *)
Definition resolve_step (acc : list string) (c : string) : list string :=
  if String.eqb c "" || String.eqb c "." then acc
  else if String.eqb c ".." then removelast acc
  else acc ++ [c].

Definition normalize (p : list string) : list string := fold_left resolve_step p [].

(** The components of a path given as text; a "/" at the end adds none. *)
Definition components (s : string) : list string := split "/" s.

(** [p / s] of std::filesystem::path: an absolute right operand replaces [p]. *)
Definition path_append (p : list string) (s : string) : list string :=
  if starts_with "/" s then components s else p ++ components s.

Definition lookup_node (fs : gmap (list string) node) (q : list string) : option node :=
  match q with
  | [] => Some Dir
  | _ => fs !! q
  end.

Definition node_at (fs : gmap (list string) node) (p : list string) : option node :=
  lookup_node fs (normalize p).

(** [fs::exists], [fs::is_directory]. *)
Definition fs_exists (fs : gmap (list string) node) (p : list string) : bool :=
  match node_at fs p with
  | Some _ => true
  | None => false
  end.

Definition is_directory (fs : gmap (list string) node) (p : list string) : bool :=
  match node_at fs p with
  | Some Dir => true
  | _ => false
  end.

(** [std::ifstream in(p)]: the bytes that can be read from the stream.  A
    stream on a missing file or on a directory yields nothing. *)
Definition ifstream (fs : gmap (list string) node) (p : list string) : option string :=
  match node_at fs p with
  | Some (File c) => Some c
  | _ => None
  end.

(** [std::ofstream out(p, ...)]: the stream opens when the parent of [p] is
    a directory and [p] itself is not one; the result is the resolved path. *)
Definition ofstream_target (fs : gmap (list string) node) (p : list string) : option (list string) :=
  let q := normalize p in
  match q with
  | [] => None
  | _ =>
      match lookup_node fs (removelast q), fs !! q with
      | Some Dir, Some Dir => None
      | Some Dir, _ => Some q
      | _, _ => None
      end
  end.

(** [std::ofstream out(p, std::ios::trunc); out << content;] with the flag
    [!out] negated.  A stream that failed to open writes nothing and throws
    nothing. *)
Definition write_file (fs : gmap (list string) node) (p : list string) (content : string)
  : gmap (list string) node * bool :=
  match ofstream_target fs p with
  | Some q => (<[q := File content]> fs, true)
  | None => (fs, false)
  end.

(** [std::ofstream out(p, std::ios::app); out << content;]. *)
Definition append_file (fs : gmap (list string) node) (p : list string) (content : string)
  : gmap (list string) node * bool :=
  match ofstream_target fs p with
  | Some q =>
      let old := match fs !! q with Some (File c) => c | _ => EmptyString end in
      (<[q := File (old +:+ content)]> fs, true)
  | None => (fs, false)
  end.

(** Calls of std::filesystem that may throw return the disk they leave and
    [false] when they threw. *)
Definition and_then (r : gmap (list string) node * bool)
    (k : gmap (list string) node -> gmap (list string) node * bool)
  : gmap (list string) node * bool :=
  if r.2 then k r.1 else r.

(** [fs::create_directories]: creates every missing directory of the
    resolved path, and throws at a component that is a regular file. *)
Fixpoint mkdirs (fs : gmap (list string) node) (done rest : list string)
  : gmap (list string) node * bool :=
  match rest with
  | [] => (fs, true)
  | c :: r =>
      let d := done ++ [c] in
      match fs !! d with
      | Some (File _) => (fs, false)
      | _ => mkdirs (<[d := Dir]> fs) d r
      end
  end.

Definition create_directories (fs : gmap (list string) node) (p : list string)
  : gmap (list string) node * bool :=
  mkdirs fs [] (normalize p).

(** [fs::remove_all]: the entry and everything below it. *)
Definition remove_all (fs : gmap (list string) node) (p : list string) : gmap (list string) node :=
  filter (fun kv => ~ normalize p `prefix_of` kv.1) fs.

(** The entries at and below a resolved path. *)
Definition subtree (fs : gmap (list string) node) (q : list string) : gmap (list string) node :=
  filter (fun kv => q `prefix_of` kv.1) fs.

(** [fs::remove]: a file or an empty directory; throws on a directory that
    has entries. *)
Definition remove (fs : gmap (list string) node) (p : list string)
  : gmap (list string) node * bool :=
  let q := normalize p in
  match fs !! q with
  | Some Dir =>
      if decide (delete q (subtree fs q) = ∅) then (delete q fs, true) else (fs, false)
  | _ => (delete q fs, true)
  end.

(** [fs::rename(from, to)] for a target that does not exist: the entry moves
    with everything below it.  Throws when the source is missing, the target's
    parent is not a directory, or the target lies below the source. *)
Definition rename (fs : gmap (list string) node) (old new : list string)
  : gmap (list string) node * bool :=
  let o := normalize old in
  let n := normalize new in
  match o, n, fs !! o, fs !! n, lookup_node fs (removelast n) with
  | _ :: _, _ :: _, Some _, None, Some Dir =>
      if decide (o `prefix_of` n) then (fs, false)
      else (map_fold (fun k v acc => <[n ++ drop (length o) k := v]> acc)
                     (remove_all fs o) (subtree fs o), true)
  | _, _, _, _, _ => (fs, false)
  end.

(** [fs::copy_file(from, to, options)]: the source must be a regular file,
    and an existing target is replaced only with [overwrite_existing]. *)
Definition copy_file (fs : gmap (list string) node) (from to : list string) (overwrite : bool)
  : gmap (list string) node * bool :=
  match node_at fs from with
  | Some (File c) =>
      let q := normalize to in
      match q with
      | [] => (fs, false)
      | _ =>
          match lookup_node fs (removelast q), fs !! q with
          | Some Dir, None => (<[q := File c]> fs, true)
          | Some Dir, Some (File _) =>
              if overwrite && negb (bool_decide (normalize from = q))
              then (<[q := File c]> fs, true) else (fs, false)
          | _, _ => (fs, false)
          end
      end
  | _ => (fs, false)
  end.

(** The entries strictly below a resolved path, as
    [fs::recursive_directory_iterator] lists them. *)
Definition descendants (fs : gmap (list string) node) (q : list string)
  : list (list string * node) :=
  map_to_list (delete q (subtree fs q)).

(* ===================================================================== *)
(** ** Results of the operations                                          *)
(* ===================================================================== *)

(** The C++ operations return [bool] and report through a [std::string &error].
    [Exception] stands for the text of [ex.what()] of a caught exception. *)
Inductive error :=
  | Message (text : string)
  | Exception.

Inductive outcome (A : Type) :=
  | Done (a : A)
  | Failed (e : error).

Arguments Done {A} a.
Arguments Failed {A} e.

Definition succeeded {A : Type} (o : outcome A) : bool :=
  match o with
  | Done _ => true
  | Failed _ => false
  end.

(* ===================================================================== *)
(** ** RepoService (src/repo_service.hpp, src/repo_service.cpp)           *)
(* ===================================================================== *)

Record CommitRecord := mkCommit {
  c_id : string;
  c_parent : string;
  c_author : string;
  c_timestamp : string;
  c_message : string;
  c_branch : string;
  c_files : list (string * string)
}.

(** [CommitRecord{}]. *)
Definition empty_record : CommitRecord :=
  mkCommit EmptyString EmptyString EmptyString EmptyString EmptyString EmptyString [].

Definition set_id (r : CommitRecord) (v : string) : CommitRecord :=
  mkCommit v (c_parent r) (c_author r) (c_timestamp r) (c_message r) (c_branch r) (c_files r).
Definition set_parent (r : CommitRecord) (v : string) : CommitRecord :=
  mkCommit (c_id r) v (c_author r) (c_timestamp r) (c_message r) (c_branch r) (c_files r).
Definition set_author (r : CommitRecord) (v : string) : CommitRecord :=
  mkCommit (c_id r) (c_parent r) v (c_timestamp r) (c_message r) (c_branch r) (c_files r).
Definition set_timestamp (r : CommitRecord) (v : string) : CommitRecord :=
  mkCommit (c_id r) (c_parent r) (c_author r) v (c_message r) (c_branch r) (c_files r).
Definition set_message (r : CommitRecord) (v : string) : CommitRecord :=
  mkCommit (c_id r) (c_parent r) (c_author r) (c_timestamp r) v (c_branch r) (c_files r).
Definition set_branch (r : CommitRecord) (v : string) : CommitRecord :=
  mkCommit (c_id r) (c_parent r) (c_author r) (c_timestamp r) (c_message r) v (c_files r).
Definition push_file (r : CommitRecord) (f : string * string) : CommitRecord :=
  mkCommit (c_id r) (c_parent r) (c_author r) (c_timestamp r) (c_message r) (c_branch r)
           (c_files r ++ [f]).

(** The layout of a repository below [repoRoot]. *)
Definition glite_dir (repoRoot : list string) : list string := repoRoot ++ [".glite"].
Definition head_file (repoRoot : list string) : list string := repoRoot ++ [".glite"; "HEAD"].
Definition index_file (repoRoot : list string) : list string := repoRoot ++ [".glite"; "index"].
Definition log_file (repoRoot : list string) : list string := repoRoot ++ [".glite"; "log"].
Definition config_file (repoRoot : list string) : list string := repoRoot ++ [".glite"; "config"].
Definition objects_dir (repoRoot : list string) : list string := repoRoot ++ [".glite"; "objects"].
Definition refs_dir (repoRoot : list string) : list string := repoRoot ++ [".glite"; "refs"].
Definition heads_dir (repoRoot : list string) : list string := repoRoot ++ [".glite"; "refs"; "heads"].
Definition tags_dir (repoRoot : list string) : list string := repoRoot ++ [".glite"; "refs"; "tags"].
Definition workspace_dir (repoRoot : list string) : list string := repoRoot ++ ["workspace"].
Definition object_file (repoRoot : list string) (id : string) : list string :=
  path_append (objects_dir repoRoot) id.
Definition ref_file (repoRoot : list string) (branch : string) : list string :=
  path_append (heads_dir repoRoot) branch.
Definition tag_file (repoRoot : list string) (tag : string) : list string :=
  path_append (tags_dir repoRoot) tag.

(** [RepoService::currentBranch]. *)
Definition currentBranch (fs : gmap (list string) node) (repoRoot : list string) : string :=
  match ifstream fs (head_file repoRoot) with
  | None => "main"
  | Some content =>
      match first_line content with
      | None => "main"
      | Some line =>
          let line := trim line in
          if starts_with "ref:" line then trim (substr 4 line) else "main"
      end
  end.

(** [RepoService::setCurrentBranch]. *)
Definition setCurrentBranch (fs : gmap (list string) node) (repoRoot : list string)
    (branch : string) : gmap (list string) node :=
  (write_file fs (head_file repoRoot) ("ref: " +:+ branch +:+ nl)).1.

(** [RepoService::branchHead]. *)
Definition branchHead (fs : gmap (list string) node) (repoRoot : list string)
    (branch : string) : string :=
  match ifstream fs (ref_file repoRoot branch) with
  | None => EmptyString
  | Some content =>
      match first_line content with
      | None => EmptyString
      | Some line => trim line
      end
  end.

(** [RepoService::updateBranchHead]: [false] when the stream did not open. *)
Definition updateBranchHead (fs : gmap (list string) node) (repoRoot : list string)
    (branch commitId : string) : gmap (list string) node * bool :=
  write_file fs (ref_file repoRoot branch) (commitId +:+ nl).

(** One line of the index: kept when it has exactly two tab-separated fields. *)
Definition index_entry (line : string) : option (string * string) :=
  if empty line then None
  else match split TAB line with
       | [a; b] => Some (a, b)
       | _ => None
       end.

(** [RepoService::readIndex]. *)
Definition readIndex (fs : gmap (list string) node) (repoRoot : list string)
  : list (string * string) :=
  match ifstream fs (index_file repoRoot) with
  | None => []
  | Some content => omap index_entry (getlines content)
  end.

Definition entry_line (entry : string * string) : string :=
  entry.1 +:+ tab +:+ entry.2 +:+ nl.

Definition entry_lines (entries : list (string * string)) : string :=
  concat_strings (map entry_line entries).

(** [RepoService::writeIndex]. *)
Definition writeIndex (fs : gmap (list string) node) (repoRoot : list string)
    (entries : list (string * string)) : gmap (list string) node :=
  (write_file fs (index_file repoRoot) (entry_lines entries)).1.

Definition log_line (record : CommitRecord) : string :=
  c_id record +:+ tab +:+ c_branch record +:+ tab +:+ c_timestamp record +:+ tab
  +:+ c_message record +:+ nl.

(** [RepoService::appendLog]. *)
Definition appendLog (fs : gmap (list string) node) (repoRoot : list string)
    (record : CommitRecord) : gmap (list string) node :=
  (append_file fs (log_file repoRoot) (log_line record)).1.

(** The text hashed by [commit] (the [body] stream). *)
Definition commit_body (author ts branch parent message : string)
    (indexEntries : list (string * string)) : string :=
  "author=" +:+ author +:+ nl
  +:+ "timestamp=" +:+ ts +:+ nl
  +:+ "branch=" +:+ branch +:+ nl
  +:+ "parent=" +:+ (if empty parent then "null" else parent) +:+ nl
  +:+ "message=" +:+ message +:+ nl
  +:+ "files:" +:+ nl
  +:+ entry_lines indexEntries.

(** [RepoService::commit]; [ts] is the value [timestamp()] returns.  The
    streams of the [try] block do not throw, so the [catch] is never entered;
    the result of [updateBranchHead] is dropped as in the source. *)
Definition commit (fs : gmap (list string) node) (repoRoot : list string)
    (author message ts : string) : outcome CommitRecord * gmap (list string) node :=
  let indexEntries := readIndex fs repoRoot in
  match indexEntries with
  | [] => (Failed (Message "Nothing to commit (index empty)."), fs)
  | _ =>
      let branch := currentBranch fs repoRoot in
      let parent := branchHead fs repoRoot branch in
      let bodyContent := commit_body author ts branch parent message indexEntries in
      let commitId := sha256String bodyContent in
      let fs1 := (write_file fs (object_file repoRoot commitId)
                             ("id=" +:+ commitId +:+ nl +:+ bodyContent)).1 in
      let fs2 := (updateBranchHead fs1 repoRoot branch commitId).1 in
      let fs3 := writeIndex fs2 repoRoot [] in
      let record := mkCommit commitId parent author ts message branch indexEntries in
      (Done record, appendLog fs3 repoRoot record)
  end.

(** [RepoService::createBranch]. *)
Definition createBranch (fs : gmap (list string) node) (repoRoot : list string)
    (branchName : string) : outcome unit * gmap (list string) node :=
  if fs_exists fs (ref_file repoRoot branchName)
  then (Failed (Message "Branch already exists."), fs)
  else
    let current := currentBranch fs repoRoot in
    let head := branchHead fs repoRoot current in
    (Done tt, (write_file fs (ref_file repoRoot branchName) (head +:+ nl)).1).

(** One header or file line of a commit object, as [readCommit] reads it. *)
Definition header_field (record : CommitRecord) (key value : string) : CommitRecord :=
  if String.eqb key "author" then set_author record value
  else if String.eqb key "timestamp" then set_timestamp record value
  else if String.eqb key "branch" then set_branch record value
  else if String.eqb key "parent"
       then set_parent record (if String.eqb value "null" then EmptyString else value)
  else if String.eqb key "message" then set_message record value
  else record.

Definition readCommit_line (st : CommitRecord * bool) (line : string) : CommitRecord * bool :=
  let '(record, filesSection) := st in
  if starts_with "id=" line then (set_id record (substr 3 line), filesSection)
  else if String.eqb line "files:" then (record, true)
  else if negb filesSection then
    match find "=" line with
    | None => (record, filesSection)
    | Some pos => (header_field record (substr0 pos line) (substr (S pos) line), filesSection)
    end
  else
    match split TAB line with
    | [a; b] => (push_file record (a, b), filesSection)
    | _ => (record, filesSection)
    end.

(** [RepoService::readCommit]. *)
Definition readCommit (fs : gmap (list string) node) (repoRoot : list string)
    (commitId : string) : CommitRecord :=
  let record := set_id empty_record commitId in
  match ifstream fs (object_file repoRoot commitId) with
  | None => record
  | Some content => (fold_left readCommit_line (getlines content) (record, false)).1
  end.

(** [RepoService::commitExists]. *)
Definition commitExists (fs : gmap (list string) node) (repoRoot : list string)
    (commitId : string) : bool :=
  fs_exists fs (object_file repoRoot commitId).

(** [RepoService::getCommit]. *)
Definition getCommit (fs : gmap (list string) node) (repoRoot : list string)
    (commitId : string) : CommitRecord :=
  if commitExists fs repoRoot commitId then readCommit fs repoRoot commitId else empty_record.

(** The loop of [RepoService::history]: [fuel] is [limit - result.size()]. *)
Fixpoint history_loop (fs : gmap (list string) node) (repoRoot : list string)
    (fuel : nat) (current : string) : list CommitRecord :=
  match fuel with
  | O => []
  | S fuel' =>
      if empty current then []
      else if negb (commitExists fs repoRoot current) then []
      else
        let record := readCommit fs repoRoot current in
        if empty (c_id record) then []
        else record :: history_loop fs repoRoot fuel' (c_parent record)
  end.

(** [RepoService::history]. *)
Definition history (fs : gmap (list string) node) (repoRoot : list string)
    (branch : string) (limit : nat) : list CommitRecord :=
  history_loop fs repoRoot limit (branchHead fs repoRoot branch).

(** The text [mergeBranch] and [revertCommit] write for their record. *)
Definition record_text (record : CommitRecord) : string :=
  "id: " +:+ c_id record +:+ nl
  +:+ "parent: " +:+ (if empty (c_parent record) then "null" else c_parent record) +:+ nl
  +:+ "author: " +:+ c_author record +:+ nl
  +:+ "timestamp: " +:+ c_timestamp record +:+ nl
  +:+ "branch: " +:+ c_branch record +:+ nl
  +:+ "message: " +:+ c_message record +:+ nl
  +:+ entry_lines (c_files record).

(** [RepoService::mergeBranch]; [ts_id] and [ts] are the values of the two
    calls of [timestamp()].  The result carries the local [mergeRecord]. *)
Definition mergeBranch (fs : gmap (list string) node) (repoRoot : list string)
    (branch ts_id ts : string) : outcome CommitRecord * gmap (list string) node :=
  let current := currentBranch fs repoRoot in
  if String.eqb current branch
  then (Failed (Message "Cannot merge branch into itself."), fs)
  else
    let branchHeadId := branchHead fs repoRoot branch in
    if empty branchHeadId
    then (Failed (Message ("Branch '" +:+ branch +:+ "' has no commits.")), fs)
    else
      let currentHeadId := branchHead fs repoRoot current in
      let branchCommit := readCommit fs repoRoot branchHeadId in
      let mergeRecord :=
        mkCommit (sha256String (branchHeadId +:+ currentHeadId +:+ ts_id))
                 currentHeadId "merge" ts
                 ("Merge branch '" +:+ branch +:+ "' into '" +:+ current +:+ "'")
                 current (c_files branchCommit) in
      let fs1 := (write_file fs (object_file repoRoot (c_id mergeRecord))
                             (record_text mergeRecord)).1 in
      let fs2 := (updateBranchHead fs1 repoRoot current (c_id mergeRecord)).1 in
      (Done mergeRecord, appendLog fs2 repoRoot mergeRecord).

(** [RepoService::rebaseBranch]. *)
Definition rebaseBranch (fs : gmap (list string) node) (repoRoot : list string)
    (branch : string) : outcome unit * gmap (list string) node :=
  let current := currentBranch fs repoRoot in
  if String.eqb current branch
  then (Failed (Message "Cannot rebase branch onto itself."), fs)
  else
    let branchHeadId := branchHead fs repoRoot branch in
    if empty branchHeadId
    then (Failed (Message ("Branch '" +:+ branch +:+ "' has no commits.")), fs)
    else (Done tt, (updateBranchHead fs repoRoot current branchHeadId).1).

(** [RepoService::renameBranch]. *)
Definition renameBranch (fs : gmap (list string) node) (repoRoot : list string)
    (oldName newName : string) : outcome unit * gmap (list string) node :=
  if negb (fs_exists fs (ref_file repoRoot oldName))
  then (Failed (Message ("Branch '" +:+ oldName +:+ "' not found.")), fs)
  else if fs_exists fs (ref_file repoRoot newName)
  then (Failed (Message ("Branch '" +:+ newName +:+ "' already exists.")), fs)
  else
    let '(fs1, ok) := rename fs (ref_file repoRoot oldName) (ref_file repoRoot newName) in
    if ok then
      if String.eqb (currentBranch fs1 repoRoot) oldName
      then (Done tt, setCurrentBranch fs1 repoRoot newName)
      else (Done tt, fs1)
    else (Failed Exception, fs1).

(** [RepoService::deleteBranch]. *)
Definition deleteBranch (fs : gmap (list string) node) (repoRoot : list string)
    (branchName : string) : outcome unit * gmap (list string) node :=
  if negb (fs_exists fs (ref_file repoRoot branchName))
  then (Failed (Message ("Branch '" +:+ branchName +:+ "' not found.")), fs)
  else if String.eqb (currentBranch fs repoRoot) branchName
  then (Failed (Message "Cannot delete current branch."), fs)
  else
    let '(fs1, ok) := remove fs (ref_file repoRoot branchName) in
    (if ok then Done tt else Failed Exception, fs1).

(** [RepoService::createTag]. *)
Definition createTag (fs : gmap (list string) node) (repoRoot : list string)
    (tagName : string) : outcome unit * gmap (list string) node :=
  let '(fs1, ok) := create_directories fs (tags_dir repoRoot) in
  if negb ok then (Failed Exception, fs1)
  else if fs_exists fs1 (tag_file repoRoot tagName)
  then (Failed (Message ("Tag '" +:+ tagName +:+ "' already exists.")), fs1)
  else
    let currentHead := branchHead fs1 repoRoot (currentBranch fs1 repoRoot) in
    if empty currentHead
    then (Failed (Message "No commits to tag."), fs1)
    else (Done tt, (write_file fs1 (tag_file repoRoot tagName) (currentHead +:+ nl)).1).

(** [RepoService::revertCommit]; [ts_id] and [ts] as in [mergeBranch]. *)
Definition revertCommit (fs : gmap (list string) node) (repoRoot : list string)
    (commitId author ts_id ts : string) : outcome CommitRecord * gmap (list string) node :=
  if negb (commitExists fs repoRoot commitId)
  then (Failed (Message "Commit not found."), fs)
  else
    let originalCommit := readCommit fs repoRoot commitId in
    let current := currentBranch fs repoRoot in
    let currentHead := branchHead fs repoRoot current in
    let revertRecord :=
      mkCommit (sha256String (commitId +:+ currentHead +:+ ts_id))
               currentHead author ts
               ("Revert: " +:+ c_message originalCommit)
               current
               (if empty (c_parent originalCommit) then []
                else c_files (readCommit fs repoRoot (c_parent originalCommit))) in
    let fs1 := (write_file fs (object_file repoRoot (c_id revertRecord))
                           (record_text revertRecord)).1 in
    let fs2 := (updateBranchHead fs1 repoRoot current (c_id revertRecord)).1 in
    (Done revertRecord, appendLog fs2 repoRoot revertRecord).

(** [entries.erase(it)] for the first entry of the path found by
    [std::find_if]; [None] when [it == entries.end()]. *)
Fixpoint erase_first (entries : list (string * string)) (relativePath : string)
  : option (list (string * string)) :=
  match entries with
  | [] => None
  | entry :: rest =>
      if String.eqb entry.1 relativePath then Some rest
      else option_map (cons entry) (erase_first rest relativePath)
  end.

(** [RepoService::resetFile]. *)
Definition resetFile (fs : gmap (list string) node) (repoRoot : list string)
    (relativePath : string) : outcome unit * gmap (list string) node :=
  match erase_first (readIndex fs repoRoot) relativePath with
  | None => (Failed (Message "File not in index."), fs)
  | Some entries => (Done tt, writeIndex fs repoRoot entries)
  end.

(** [RepoService::removeFile]; [fs::remove] is not guarded by a [try]. *)
Definition removeFile (fs : gmap (list string) node) (repoRoot : list string)
    (relativePath : string) : outcome unit * gmap (list string) node :=
  match erase_first (readIndex fs repoRoot) relativePath with
  | None => (Failed (Message "File not in index."), fs)
  | Some entries =>
      let fs1 := writeIndex fs repoRoot entries in
      let filePath := path_append (workspace_dir repoRoot) relativePath in
      if fs_exists fs1 filePath
      then let '(fs2, ok) := remove fs1 filePath in
           (if ok then Done tt else Failed Exception, fs2)
      else (Done tt, fs1)
  end.

(** [hashing::sha256File]: [None] when it throws, which it does when the
    stream did not open and, on a directory, when the read fails. *)
Definition sha256File (fs : gmap (list string) node) (p : list string) : option string :=
  match node_at fs p with
  | Some (File c) => Some (sha256String c)
  | Some Dir => None
  | None => None
  end.

(** The update of the index in [addFile]: every entry of the path gets the
    new blob, and the pair is appended when none did. *)
Definition upsert (entries : list (string * string)) (relativePath blobId : string)
  : list (string * string) :=
  let updated := map (fun entry => if String.eqb entry.1 relativePath
                                   then (entry.1, blobId) else entry) entries in
  if existsb (fun entry => String.eqb entry.1 relativePath) entries
  then updated else updated ++ [(relativePath, blobId)].

(** [RepoService::addFile]: the flag and the text left in [message]. *)
Definition addFile (fs : gmap (list string) node) (repoRoot : list string)
    (relativePath : string) : outcome string * gmap (list string) node :=
  let source := path_append (workspace_dir repoRoot) relativePath in
  if negb (fs_exists fs source)
  then (Failed (Message "File not found in workspace."), fs)
  else
    match sha256File fs source with
    | None => (Failed Exception, fs)
    | Some blobId =>
        let objectPath := object_file repoRoot blobId in
        let '(fs1, ok) := if fs_exists fs objectPath then (fs, true)
                          else copy_file fs source objectPath false in
        if ok then
          let entries := upsert (readIndex fs1 repoRoot) relativePath blobId in
          (Done ("File staged: " +:+ relativePath), writeIndex fs1 repoRoot entries)
        else (Failed Exception, fs1)
    end.

(** One step of the loop of [copyDirectory] over an entry below [from]. *)
Definition copy_entry (from to : list string) (fs : gmap (list string) node)
    (entry : list string * node) : gmap (list string) node * bool :=
  let target := to ++ drop (length from) entry.1 in
  match entry.2 with
  | Dir => create_directories fs target
  | File _ =>
      and_then (create_directories fs (removelast target))
               (fun fs1 => copy_file fs1 entry.1 target true)
  end.

(** [RepoService::copyDirectory].  The iterator throws when [from] is not a
    directory once [to] is in place; the entries of [from] are those present
    when the iteration starts. *)
Definition copyDirectory (fs : gmap (list string) node) (from to : list string)
  : gmap (list string) node * bool :=
  if negb (fs_exists fs from) then (fs, true)
  else
    let fs1 := if fs_exists fs to then remove_all fs to else fs in
    and_then (create_directories fs1 to)
      (fun fs2 =>
         if negb (is_directory fs2 from) then (fs2, false)
         else
           fold_left (fun acc entry => and_then acc (fun fs3 =>
                        copy_entry (normalize from) (normalize to) fs3 entry))
                     (descendants fs2 (normalize from)) (fs2, true)).

(** [RepoService::push]. *)
Definition push (fs : gmap (list string) node) (repoRoot remoteRoot : list string)
  : outcome unit * gmap (list string) node :=
  let fs1 := if fs_exists fs remoteRoot then remove_all fs remoteRoot else fs in
  let '(fs2, ok) :=
    and_then (create_directories fs1 remoteRoot) (fun fs2 =>
    and_then (copyDirectory fs2 (repoRoot ++ [".glite"]) (remoteRoot ++ [".glite"])) (fun fs3 =>
    copyDirectory fs3 (repoRoot ++ ["workspace"]) (remoteRoot ++ ["workspace"]))) in
  (if ok then Done tt else Failed Exception, fs2).

(** [RepoService::pull]. *)
Definition pull (fs : gmap (list string) node) (repoRoot remoteRoot : list string)
  : outcome unit * gmap (list string) node :=
  if negb (fs_exists fs remoteRoot)
  then (Failed (Message "Remote not found."), fs)
  else
    let '(fs2, ok) :=
      and_then (copyDirectory fs (remoteRoot ++ [".glite"]) (repoRoot ++ [".glite"])) (fun fs1 =>
      copyDirectory fs1 (remoteRoot ++ ["workspace"]) (repoRoot ++ ["workspace"])) in
    (if ok then Done tt else Failed Exception, fs2).

(* ===================================================================== *)
(** ** StorageManager (src/storage_manager.hpp, src/storage_manager.cpp)  *)
(* ===================================================================== *)

Record User := mkUser {
  username : string;
  passwordHash : string;
  role : string
}.

(** [root_] is an argument ([storageRoot]) of the operations below. *)
Definition users_file (storageRoot : list string) : list string := storageRoot ++ ["users.tsv"].
Definition permissions_file (storageRoot : list string) : list string :=
  storageRoot ++ ["permissions.tsv"].

Definition user_of_line (line : string) : option User :=
  if empty line then None
  else match split TAB line with
       | u :: h :: r :: _ => Some (mkUser u h r)
       | _ => None
       end.

(** [StorageManager::loadUsers]. *)
Definition loadUsers (fs : gmap (list string) node) (storageRoot : list string) : list User :=
  match ifstream fs (users_file storageRoot) with
  | None => []
  | Some content => omap user_of_line (getlines content)
  end.

(** [StorageManager::saveUsers]. *)
Definition user_line (user : User) : string :=
  username user +:+ tab +:+ passwordHash user +:+ tab +:+ role user +:+ nl.

Definition saveUsers (fs : gmap (list string) node) (storageRoot : list string)
    (users : list User) : gmap (list string) node :=
  (write_file fs (users_file storageRoot) (concat_strings (map user_line users))).1.

(** The collaborators named in the second field of a permission line. *)
Definition collaborators_of (names : list string) : gset string :=
  list_to_set (filter (fun name => name <> EmptyString) names).

Definition permissions_line (perms : gmap string (gset string)) (line : string)
  : gmap string (gset string) :=
  if empty line then perms
  else match split TAB line with
       | [] => perms
       | [key] => <[key := ∅]> perms
       | key :: names :: _ => <[key := collaborators_of (split "," names)]> perms
       end.

(** [StorageManager::loadPermissions]: a later line of a key replaces an
    earlier one. *)
Definition loadPermissions (fs : gmap (list string) node) (storageRoot : list string)
  : gmap string (gset string) :=
  match ifstream fs (permissions_file storageRoot) with
  | None => ∅
  | Some content => fold_left permissions_line (getlines content) ∅
  end.

(** A std::set<std::string> is iterated in increasing order. *)
Fixpoint insert_sorted (x : string) (l : list string) : list string :=
  match l with
  | [] => [x]
  | y :: r => if String.leb x y then x :: l else y :: insert_sorted x r
  end.

Definition sorted_elements (s : gset string) : list string :=
  fold_right insert_sorted [] (elements s).

Fixpoint join_commas (l : list string) : string :=
  match l with
  | [] => EmptyString
  | [x] => x
  | x :: r => x +:+ "," +:+ join_commas r
  end.

(** [StorageManager::savePermissions].  The order in which a
    std::unordered_map is iterated is not specified; the model writes the
    keys in the order of [map_to_list]. *)
Definition savePermissions (fs : gmap (list string) node) (storageRoot : list string)
    (perms : gmap string (gset string)) : gmap (list string) node :=
  (write_file fs (permissions_file storageRoot)
     (concat_strings (map (fun entry => entry.1 +:+ tab +:+ join_commas (sorted_elements entry.2) +:+ nl)
                          (map_to_list perms)))).1.

(** [StorageManager::repoPath], [StorageManager::repoExists]. *)
Definition repoPath (storageRoot : list string) (owner repo : string) : list string :=
  path_append (path_append storageRoot owner) repo.

Definition repoExists (fs : gmap (list string) node) (storageRoot : list string)
    (owner repo : string) : bool :=
  fs_exists fs (repoPath storageRoot owner repo).

(** [StorageManager::createRepo]; [ts] is the value of [timestamp()]. *)
Definition createRepo (fs : gmap (list string) node) (storageRoot : list string)
    (owner repo ts : string) : outcome unit * gmap (list string) node :=
  let repoRoot := repoPath storageRoot owner repo in
  if fs_exists fs repoRoot
  then (Failed (Message "Repository already exists."), fs)
  else
    let '(fs1, ok) :=
      and_then (create_directories fs (objects_dir repoRoot)) (fun fs1 =>
      and_then (create_directories fs1 (heads_dir repoRoot)) (fun fs2 =>
      and_then (create_directories fs2 (workspace_dir repoRoot)) (fun fs3 =>
        let fs4 := (write_file fs3 (head_file repoRoot) ("ref: main" +:+ nl)).1 in
        let fs5 := (write_file fs4 (heads_dir repoRoot ++ ["main"]) EmptyString).1 in
        let fs6 := (write_file fs5 (index_file repoRoot) EmptyString).1 in
        let fs7 := (write_file fs6 (config_file repoRoot)
                      ("name=" +:+ repo +:+ nl +:+ "owner=" +:+ owner +:+ nl
                       +:+ "visibility=private" +:+ nl +:+ "created=" +:+ ts +:+ nl)).1 in
        write_file fs7 (log_file repoRoot) EmptyString))) in
    (if ok then Done tt else Failed Exception, fs1).

(** [StorageManager::parseKeyValueFile]: the std::map as a finite map. *)
Definition key_value_line (kv : gmap string string) (line : string) : gmap string string :=
  if empty line then kv
  else match find "=" line with
       | None => kv
       | Some pos => <[substr0 pos line := substr (S pos) line]> kv
       end.

Definition parseKeyValueFile (fs : gmap (list string) node) (p : list string)
  : gmap string string :=
  match ifstream fs p with
  | None => ∅
  | Some content => fold_left key_value_line (getlines content) ∅
  end.

(** [StorageManager::getVisibility]. *)
Definition getVisibility (fs : gmap (list string) node) (storageRoot : list string)
    (owner repo : string) : string :=
  let cfg := config_file (repoPath storageRoot owner repo) in
  if negb (fs_exists fs cfg) then "private"
  else match parseKeyValueFile fs cfg !! "visibility" with
       | None => "private"
       | Some v => v
       end.

(** [StorageManager::writeKeyValueFile]: a std::map is iterated in the
    increasing order of its keys; [false] when the stream did not open. *)
Definition key_value_text (kv : gmap string string) : string :=
  concat_strings (map (fun key => key +:+ "=" +:+ default EmptyString (kv !! key) +:+ nl)
                      (sorted_elements (dom kv))).

Definition writeKeyValueFile (fs : gmap (list string) node) (p : list string)
    (kv : gmap string string) : gmap (list string) node * bool :=
  write_file fs p (key_value_text kv).

(** [StorageManager::setVisibility]. *)
Definition setVisibility (fs : gmap (list string) node) (storageRoot : list string)
    (owner repo : string) (public : bool) : gmap (list string) node * bool :=
  let cfg := config_file (repoPath storageRoot owner repo) in
  if negb (fs_exists fs cfg) then (fs, false)
  else
    let kv := parseKeyValueFile fs cfg in
    writeKeyValueFile fs cfg (<["visibility" := if public then "public" else "private"]> kv).

(** [RepoService::isPublic]. *)
Definition isPublic (fs : gmap (list string) node) (storageRoot : list string)
    (owner repo : string) : bool :=
  String.eqb (getVisibility fs storageRoot owner repo) "public".

(* ===================================================================== *)
(** ** GitLiteApp (src/gitlite_app.hpp, src/gitlite_app.cpp)              *)
(* ===================================================================== *)

(** What a command handler returns: its text, or ["Error: " + ex.what()]. *)
Inductive reply :=
  | Reply (text : string)
  | ReplyException.

Record RepoContext := mkContext {
  ctx_owner : string;
  ctx_name : string;
  ctx_root : list string
}.

(** [GitLiteApp::userExists]. *)
Definition userExists (fs : gmap (list string) node) (storageRoot : list string)
    (name : string) : bool :=
  existsb (fun u => String.eqb (username u) name) (loadUsers fs storageRoot).

(** [GitLiteApp::hasWriteAccess]; [session_] is the logged-in user, if any. *)
Definition hasWriteAccess (fs : gmap (list string) node) (storageRoot : list string)
    (session_ : option User) (owner repo : string) : bool :=
  match session_ with
  | None => false
  | Some user =>
      if String.eqb (role user) "admin" then true
      else if String.eqb (username user) owner then true
      else match loadPermissions fs storageRoot !! (owner +:+ "/" +:+ repo) with
           | None => false
           | Some collaborators => bool_decide (username user ∈ collaborators)
           end
  end.

(** [GitLiteApp::parseRepoIdentifier]: [owner] keeps its value when the
    identifier names no owner. *)
Definition parseRepoIdentifier (raw owner : string) : option (string * string) :=
  let value := trim raw in
  if empty value then None
  else match find "/" value with
       | None => Some (owner, value)
       | Some pos =>
           let left := substr0 pos value in
           let right := substr (S pos) value in
           if empty left || empty right then None else Some (left, right)
       end.

(** [GitLiteApp::readRepoIdentity]. *)
Definition identity_line (identity : string * string) (line : string) : string * string :=
  if empty line then identity
  else match find "=" line with
       | None => identity
       | Some pos =>
           let key := substr0 pos line in
           let value := substr (S pos) line in
           if String.eqb key "owner" then (value, identity.2)
           else if String.eqb key "name" then (identity.1, value)
           else identity
       end.

Definition readRepoIdentity (fs : gmap (list string) node) (repoRoot : list string)
  : string * string :=
  match ifstream fs (config_file repoRoot) with
  | None => (EmptyString, EmptyString)
  | Some content => fold_left identity_line (getlines content) (EmptyString, EmptyString)
  end.

(** The permission gate at the end of [resolveRepoContext]. *)
Definition access_gate (fs : gmap (list string) node) (storageRoot : list string)
    (session_ : option User) (requireWriteAccess : bool) (owner repoName : string)
    (repoRoot : list string) : outcome RepoContext :=
  let canWrite := hasWriteAccess fs storageRoot session_ owner repoName in
  let canRead := canWrite || isPublic fs storageRoot owner repoName in
  if requireWriteAccess && negb canWrite
  then Failed (Message ("Error: You don't have permission to modify '"
                        +:+ owner +:+ "/" +:+ repoName +:+ "'."))
  else if negb requireWriteAccess && negb canRead
  then Failed (Message ("Error: Repository '" +:+ owner +:+ "/" +:+ repoName +:+ "' is private."))
  else Done (mkContext owner repoName repoRoot).

(** [GitLiteApp::resolveRepoContext]; [currentDir_] is the directory of the
    terminal. *)
Definition resolveRepoContext (fs : gmap (list string) node) (storageRoot : list string)
    (session_ : option User) (currentDir_ : list string)
    (repoOverride : option string) (requireWriteAccess : bool) : outcome RepoContext :=
  match session_ with
  | None => Failed (Message "Error: Not logged in.")
  | Some user =>
      match repoOverride with
      | Some override =>
          match parseRepoIdentifier override (username user) with
          | None => Failed (Message "Error: Invalid repository identifier.")
          | Some (overrideOwner, overrideRepo) =>
              if negb (repoExists fs storageRoot overrideOwner overrideRepo)
              then Failed (Message ("Error: Repository '" +:+ overrideOwner +:+ "/"
                                    +:+ overrideRepo +:+ "' not found."))
              else access_gate fs storageRoot session_ requireWriteAccess
                     overrideOwner overrideRepo (repoPath storageRoot overrideOwner overrideRepo)
          end
      | None =>
          if negb (fs_exists fs (currentDir_ ++ [".glite"]))
          then Failed (Message
                 "Error: Not a GitLite repository. Run 'init' first or specify repository.")
          else
            let repoRoot := currentDir_ in
            let identity := readRepoIdentity fs repoRoot in
            let owner := if empty identity.1 then username user else identity.1 in
            let repoName := if empty identity.2 then default EmptyString (last (normalize repoRoot))
                            else identity.2 in
            if repoExists fs storageRoot owner repoName
            then access_gate fs storageRoot session_ requireWriteAccess owner repoName repoRoot
            else Done (mkContext owner repoName repoRoot)
      end
  end.

(** [GitLiteApp::handleCheckoutCommand]. *)
Definition handleCheckoutCommand (fs : gmap (list string) node) (storageRoot : list string)
    (session_ : option User) (currentDir_ : list string)
    (branch : string) (repoOverride : option string) : reply * gmap (list string) node :=
  match resolveRepoContext fs storageRoot session_ currentDir_ repoOverride true with
  | Failed (Message text) => (Reply text, fs)
  | Failed Exception => (ReplyException, fs)
  | Done ctx => (Reply ("Switched to branch: " +:+ branch),
                 setCurrentBranch fs (ctx_root ctx) branch)
  end.

(** [GitLiteApp::handleTransferCommand]. *)
Definition handleTransferCommand (fs : gmap (list string) node) (storageRoot : list string)
    (session_ : option User) (repo newOwner : string) : reply * gmap (list string) node :=
  match session_ with
  | None => (Reply "Error: Not logged in.", fs)
  | Some user =>
      if negb (String.eqb (role user) "admin")
         && negb (repoExists fs storageRoot (username user) repo)
      then (Reply "Error: Only repo owner or admin can transfer repositories.", fs)
      else if negb (userExists fs storageRoot newOwner)
      then (Reply ("Error: User '" +:+ newOwner +:+ "' not found."), fs)
      else if negb (repoExists fs storageRoot (username user) repo)
      then (Reply "Error: Repository not found.", fs)
      else
        let oldPath := repoPath storageRoot (username user) repo in
        let newPath := repoPath storageRoot newOwner repo in
        if fs_exists fs newPath
        then (Reply ("Error: Repository already exists for user '" +:+ newOwner +:+ "'."), fs)
        else
          let '(fs2, ok) :=
            and_then (create_directories fs (removelast newPath)) (fun fs1 =>
            rename fs1 oldPath newPath) in
          if ok then
            let perms := loadPermissions fs2 storageRoot in
            let oldKey := username user +:+ "/" +:+ repo in
            let newKey := newOwner +:+ "/" +:+ repo in
            let fs3 := match perms !! oldKey with
                       | Some collaborators =>
                           savePermissions fs2 storageRoot
                             (delete oldKey (<[newKey := collaborators]> perms))
                       | None => fs2
                       end in
            (Reply ("Repository transferred to '" +:+ newOwner +:+ "'."), fs3)
          else (ReplyException, fs2)
  end.

(** The text a handler returns for an engine call that failed. *)
Definition error_reply (e : error) : reply :=
  match e with
  | Message text => Reply ("Error: " +:+ text)
  | Exception => ReplyException
  end.

(** [GitLiteApp::handleCommitCommand]: the command acts on the directory of
    the terminal and does not call [resolveRepoContext]; [ts] as in
    [commit]. *)
Definition handleCommitCommand (fs : gmap (list string) node) (session_ : option User)
    (currentDir_ : list string) (message ts : string) : reply * gmap (list string) node :=
  match session_ with
  | None => (Reply "Error: Not logged in.", fs)
  | Some me =>
      let glitePath := currentDir_ ++ [".glite"] in
      if negb (fs_exists fs glitePath)
      then (Reply "Error: Not a GitLite repository. Run 'init' first.", fs)
      else match commit fs (removelast glitePath) (username me) message ts with
           | (Done record, fs') =>
               (Reply ("Commit created: " +:+ substr0 12 (c_id record) +:+ "..."), fs')
           | (Failed e, fs') => (error_reply e, fs')
           end
  end.

(** What the handlers do with the result of [resolveRepoContext]: the error
    text as it is, or the rest of the handler on the context. *)
Definition with_context (fs : gmap (list string) node) (r : outcome RepoContext)
    (k : RepoContext -> reply * gmap (list string) node) : reply * gmap (list string) node :=
  match r with
  | Failed (Message text) => (Reply text, fs)
  | Failed Exception => (ReplyException, fs)
  | Done ctx => k ctx
  end.

(** [GitLiteApp::handleBranchCreateCommand]. *)
Definition handleBranchCreateCommand (fs : gmap (list string) node) (storageRoot : list string)
    (session_ : option User) (currentDir_ : list string)
    (branchName : string) (repoOverride : option string) : reply * gmap (list string) node :=
  with_context fs (resolveRepoContext fs storageRoot session_ currentDir_ repoOverride true)
    (fun ctx =>
       if negb (isValidIdentifier branchName) then (Reply "Error: Invalid branch name.", fs)
       else match createBranch fs (ctx_root ctx) branchName with
            | (Done _, fs') => (Reply ("Branch '" +:+ branchName +:+ "' created."), fs')
            | (Failed e, fs') => (error_reply e, fs')
            end).

(** [GitLiteApp::handleMergeCommand]; [ts_id] and [ts] as in [mergeBranch]. *)
Definition handleMergeCommand (fs : gmap (list string) node) (storageRoot : list string)
    (session_ : option User) (currentDir_ : list string)
    (branch : string) (repoOverride : option string) (ts_id ts : string)
  : reply * gmap (list string) node :=
  with_context fs (resolveRepoContext fs storageRoot session_ currentDir_ repoOverride true)
    (fun ctx =>
       match mergeBranch fs (ctx_root ctx) branch ts_id ts with
       | (Done _, fs') => (Reply ("Merged branch '" +:+ branch +:+ "' into current branch."), fs')
       | (Failed e, fs') => (error_reply e, fs')
       end).

(** [GitLiteApp::handleRebaseCommand]. *)
Definition handleRebaseCommand (fs : gmap (list string) node) (storageRoot : list string)
    (session_ : option User) (currentDir_ : list string)
    (branch : string) (repoOverride : option string) : reply * gmap (list string) node :=
  with_context fs (resolveRepoContext fs storageRoot session_ currentDir_ repoOverride true)
    (fun ctx =>
       match rebaseBranch fs (ctx_root ctx) branch with
       | (Done _, fs') => (Reply ("Rebased current branch onto '" +:+ branch +:+ "'."), fs')
       | (Failed e, fs') => (error_reply e, fs')
       end).

(** [GitLiteApp::handleRenameBranchCommand]. *)
Definition handleRenameBranchCommand (fs : gmap (list string) node) (storageRoot : list string)
    (session_ : option User) (currentDir_ : list string)
    (oldName newName : string) (repoOverride : option string)
  : reply * gmap (list string) node :=
  with_context fs (resolveRepoContext fs storageRoot session_ currentDir_ repoOverride true)
    (fun ctx =>
       if negb (isValidIdentifier newName) then (Reply "Error: Invalid branch name.", fs)
       else match renameBranch fs (ctx_root ctx) oldName newName with
            | (Done _, fs') =>
                (Reply ("Branch renamed from '" +:+ oldName +:+ "' to '" +:+ newName +:+ "'."),
                 fs')
            | (Failed e, fs') => (error_reply e, fs')
            end).

(** [GitLiteApp::handleDeleteBranchCommand]. *)
Definition handleDeleteBranchCommand (fs : gmap (list string) node) (storageRoot : list string)
    (session_ : option User) (currentDir_ : list string)
    (branchName : string) (repoOverride : option string) : reply * gmap (list string) node :=
  with_context fs (resolveRepoContext fs storageRoot session_ currentDir_ repoOverride true)
    (fun ctx =>
       if String.eqb branchName (currentBranch fs (ctx_root ctx))
       then (Reply "Error: Cannot delete current branch. Switch to another branch first.", fs)
       else match deleteBranch fs (ctx_root ctx) branchName with
            | (Done _, fs') => (Reply ("Branch '" +:+ branchName +:+ "' deleted."), fs')
            | (Failed e, fs') => (error_reply e, fs')
            end).

(** [GitLiteApp::handleTagCommand]. *)
Definition handleTagCommand (fs : gmap (list string) node) (storageRoot : list string)
    (session_ : option User) (currentDir_ : list string)
    (tagName : string) (repoOverride : option string) : reply * gmap (list string) node :=
  with_context fs (resolveRepoContext fs storageRoot session_ currentDir_ repoOverride true)
    (fun ctx =>
       match createTag fs (ctx_root ctx) tagName with
       | (Done _, fs') => (Reply ("Tagged current commit as: " +:+ tagName), fs')
       | (Failed e, fs') => (error_reply e, fs')
       end).

(** [GitLiteApp::handlePermAddCommand]. *)
Definition handlePermAddCommand (fs : gmap (list string) node) (storageRoot : list string)
    (session_ : option User) (repo user : string) : reply * gmap (list string) node :=
  match session_ with
  | None => (Reply "Error: Not logged in.", fs)
  | Some me =>
      if negb (hasWriteAccess fs storageRoot session_ (username me) repo)
      then (Reply "Error: You don't have permission to manage collaborators for this repo.", fs)
      else if negb (userExists fs storageRoot user)
      then (Reply ("Error: User '" +:+ user +:+ "' not found."), fs)
      else if String.eqb user (username me)
      then (Reply "Error: Owner already has access.", fs)
      else
        let perms := loadPermissions fs storageRoot in
        let key := username me +:+ "/" +:+ repo in
        (Reply ("Added collaborator '" +:+ user +:+ "' to repository '" +:+ repo +:+ "'."),
         savePermissions fs storageRoot
           (<[key := {[user]} ∪ default ∅ (perms !! key)]> perms))
  end.

(** [GitLiteApp::handlePermRmCommand]; [perms[key]] creates a missing key. *)
Definition handlePermRmCommand (fs : gmap (list string) node) (storageRoot : list string)
    (session_ : option User) (repo user : string) : reply * gmap (list string) node :=
  match session_ with
  | None => (Reply "Error: Not logged in.", fs)
  | Some me =>
      if negb (hasWriteAccess fs storageRoot session_ (username me) repo)
      then (Reply "Error: You don't have permission to manage collaborators for this repo.", fs)
      else
        let perms := loadPermissions fs storageRoot in
        let key := username me +:+ "/" +:+ repo in
        (Reply ("Removed collaborator '" +:+ user +:+ "' from repository '" +:+ repo +:+ "'."),
         savePermissions fs storageRoot
           (<[key := default ∅ (perms !! key) ∖ {[user]}]> perms))
  end.

(** [GitLiteApp::handleDeleteCommand]. *)
Definition handleDeleteCommand (fs : gmap (list string) node) (storageRoot : list string)
    (session_ : option User) (repo : string) : reply * gmap (list string) node :=
  match session_ with
  | None => (Reply "Error: Not logged in.", fs)
  | Some me =>
      if negb (repoExists fs storageRoot (username me) repo)
      then (Reply "Error: Repository not found.", fs)
      else if negb (String.eqb (role me) "admin")
              && negb (hasWriteAccess fs storageRoot session_ (username me) repo)
      then (Reply "Error: You don't have permission to delete this repository.", fs)
      else
        let fs1 := remove_all fs (repoPath storageRoot (username me) repo) in
        let perms := loadPermissions fs1 storageRoot in
        let key := username me +:+ "/" +:+ repo in
        (Reply ("Repository '" +:+ repo +:+ "' deleted."),
         savePermissions fs1 storageRoot (delete key perms))
  end.

(* ===================================================================== *)
(** ** CommandParser (src/command_parser.cpp)                             *)
(* ===================================================================== *)

Definition QUOTE : ascii := "034"%char.

(** The loop of [CommandParser::splitCommand] over the characters left. *)
Fixpoint splitCommand_loop (command : string) (inQuotes : bool) (current : string)
    (args : list string) : list string :=
  match command with
  | EmptyString => if empty current then args else args ++ [current]
  | String c rest =>
      if Ascii.eqb c QUOTE then splitCommand_loop rest (negb inQuotes) current args
      else if Ascii.eqb c SP && negb inQuotes
           then (if empty current then splitCommand_loop rest inQuotes current args
                 else splitCommand_loop rest inQuotes EmptyString (args ++ [current]))
           else splitCommand_loop rest inQuotes (current +:+ String c EmptyString) args
  end.

(** [CommandParser::splitCommand]. *)
Definition splitCommand (command : string) : list string :=
  splitCommand_loop command false EmptyString [].

(* ===================================================================== *)
(** ** Predicates used in the statements                                  *)
(* ===================================================================== *)

(** A lowercase hexadecimal digit. *)
Definition is_hex (c : ascii) : bool :=
  existsb (Ascii.eqb c) (list_ascii_of_string "0123456789abcdef").

(** A name of one directory entry: a plain component without separator.
    Branch, tag, user and repository names that pass [isValidIdentifier]
    are such names, except "." and "..". *)
Definition is_name (s : string) : bool :=
  plain s && negb (starts_with "/" s) && bool_decide (find "/" s = None).

(** No directory stands below [p]: the directory is flat, as the object
    directory and the directory of the branch heads are. *)
Definition no_subdirectories (fs : gmap (list string) node) (p : list string) : Prop :=
  map_Forall (fun k n => normalize p `prefix_of` k -> k <> normalize p -> n <> Dir) fs.

#[global] Instance no_subdirectories_dec (fs : gmap (list string) node) (p : list string) :
  Decision (no_subdirectories fs p).
Proof. unfold no_subdirectories. apply _. Defined.

(** The part of the skeleton of a repository (invariant I5 of the data
    model) that the operations on commits rely on. *)
Record repo_layout (fs : gmap (list string) node) (repoRoot : list string) : Prop := {
  layout_glite : is_directory fs (glite_dir repoRoot) = true;
  layout_objects : is_directory fs (objects_dir repoRoot) = true;
  layout_heads : is_directory fs (heads_dir repoRoot) = true;
  layout_index : is_directory fs (index_file repoRoot) = false;
  layout_log : is_directory fs (log_file repoRoot) = false;
  layout_objects_flat : no_subdirectories fs (objects_dir repoRoot);
  layout_heads_flat : no_subdirectories fs (heads_dir repoRoot)
}.

(** Two disks with the same directories. *)
Definition same_dirs (fs fs' : gmap (list string) node) : Prop :=
  forall k, fs' !! k = Some Dir <-> fs !! k = Some Dir.

(* ===================================================================== *)
(** ** Auxiliary definitions of the statements                            *)
(* ===================================================================== *)

(** The three writes that [mergeBranch] and [revertCommit] share. *)
Definition store_record (fs : gmap (list string) node) (repoRoot : list string)
    (record : CommitRecord) : gmap (list string) node :=
  appendLog
    (updateBranchHead
       (write_file fs (object_file repoRoot (c_id record)) (record_text record)).1
       repoRoot (c_branch record) (c_id record)).1
    repoRoot record.

(** What [mergeBranch] builds when it does not fail. *)
Definition merge_record (fs : gmap (list string) node) (repoRoot : list string)
    (branch ts_id ts : string) : CommitRecord :=
  let current := currentBranch fs repoRoot in
  let branchHeadId := branchHead fs repoRoot branch in
  let currentHeadId := branchHead fs repoRoot current in
  mkCommit (sha256String (branchHeadId +:+ currentHeadId +:+ ts_id))
           currentHeadId "merge" ts
           ("Merge branch '" +:+ branch +:+ "' into '" +:+ current +:+ "'")
           current (c_files (readCommit fs repoRoot branchHeadId)).

(** What [revertCommit] builds when the commit exists. *)
Definition revert_record (fs : gmap (list string) node) (repoRoot : list string)
    (commitId author ts_id ts : string) : CommitRecord :=
  let originalCommit := readCommit fs repoRoot commitId in
  let current := currentBranch fs repoRoot in
  let currentHead := branchHead fs repoRoot current in
  mkCommit (sha256String (commitId +:+ currentHead +:+ ts_id))
           currentHead author ts
           ("Revert: " +:+ c_message originalCommit)
           current
           (if empty (c_parent originalCommit) then []
            else c_files (readCommit fs repoRoot (c_parent originalCommit))).

(** The keys of the header lines that [readCommit] stores in a record. *)
Definition header_keys : list string := ["author"; "timestamp"; "branch"; "parent"; "message"].

(** A path that reads as a header line: it begins with a key and "=". *)
Definition shadows_header (path : string) : bool :=
  existsb (fun key => starts_with (key +:+ "=") path) header_keys.

(** A record in which nothing but the id is set. *)
Definition only_id (r : CommitRecord) : Prop :=
  c_id r <> "" /\ c_parent r = "" /\ c_author r = "" /\ c_timestamp r = ""
  /\ c_message r = "" /\ c_branch r = "" /\ c_files r = [].

(** Every field of the record fits on one line. *)
Definition single_lines (r : CommitRecord) : Prop :=
  find NL (c_id r) = None /\ find NL (c_parent r) = None /\ find NL (c_author r) = None
  /\ find NL (c_timestamp r) = None /\ find NL (c_message r) = None
  /\ find NL (c_branch r) = None
  /\ Forall (fun e : string * string => find NL e.1 = None /\ find NL e.2 = None) (c_files r).

(** The text of the object that [commit] writes for a record. *)
Definition commit_text (r : CommitRecord) : string :=
  "id=" +:+ c_id r +:+ nl
  +:+ commit_body (c_author r) (c_timestamp r) (c_branch r) (c_parent r) (c_message r)
        (c_files r).

(** A record that [readCommit] reads back from that text as it is: no
    field holds a line end, the parent is not the text "null", and each
    file entry is a path without tab that does not begin with "id=" and a
    blob id that is not empty and holds no tab. *)
Definition commit_readable (r : CommitRecord) : Prop :=
  single_lines r
  /\ c_parent r <> "null"
  /\ Forall (fun e : string * string =>
               find TAB e.1 = None /\ find TAB e.2 = None /\ e.2 <> ""
               /\ starts_with "id=" e.1 = false) (c_files r).

(** The lines a merge or revert object consists of. *)
Definition foreign_line (line : string) : Prop :=
  (exists label value,
      In label ["id: "; "parent: "; "author: "; "timestamp: "; "branch: "; "message: "]
      /\ line = label +:+ value)
  \/ (exists p b, line = p +:+ String TAB b /\ shadows_header p = false).

(** The message and the file entries [readCommit] returns were read from
    lines, so they hold no line end. *)
Definition line_fields (r : CommitRecord) : Prop :=
  find NL (c_message r) = None
  /\ Forall (fun e : string * string => find NL e.1 = None /\ find NL e.2 = None) (c_files r).

(** A well-formed disk: every entry has a resolved, non-empty path and lies
    in a directory. *)
Definition disk_wf (fs : gmap (list string) node) : Prop :=
  map_Forall (fun k _ => k <> [] /\ Forall (fun c => plain c = true) k
                         /\ lookup_node fs (removelast k) = Some Dir) fs.

#[global] Instance disk_wf_dec (fs : gmap (list string) node) : Decision (disk_wf fs).
Proof. unfold disk_wf. apply _. Defined.

(** No regular file stands at the path or above it, so that
    [create_directories] can make the path a directory. *)
Definition creatable (fs : gmap (list string) node) (p : list string) : Prop :=
  forall k c, k `prefix_of` normalize p -> fs !! k <> Some (File c).

(** Neither path lies at or below the other. *)
Definition apart (p q : list string) : Prop :=
  ~ normalize p `prefix_of` normalize q /\ ~ normalize q `prefix_of` normalize p.

(** The disk after [remove_all] and [create_directories] on [T], entry by
    entry: the directories down to [T], nothing below it, the rest of [fs]. *)
Definition cleared (fs : gmap (list string) node) (T x : list string) : option node :=
  if decide (x `prefix_of` T /\ x <> []) then Some Dir
  else if decide (T `prefix_of` x) then None
  else fs !! x.

(** The disk [copyDirectory] leaves, entry by entry: the tree below [F]
    grafted at [T], the directories down to [T], and the rest of [fs]. *)
Definition grafted (fs : gmap (list string) node) (F T x : list string) : option node :=
  if decide (T `prefix_of` x)
  then (if decide (x = T) then Some Dir else fs !! (F ++ drop (length T) x))
  else if decide (x `prefix_of` T /\ x <> []) then Some Dir
  else fs !! x.

(** What holds of the disk [m] while the loop of [copyDirectory] runs: every
    entry is an entry of the final disk, and outside the target tree the
    disk is final already. *)
Definition copying (fs : gmap (list string) node) (F T : list string)
    (m : gmap (list string) node) : Prop :=
  (forall x, m !! x = None \/ m !! x = grafted fs F T x)
  /\ (forall x, ~ (T `prefix_of` x /\ x <> T) -> m !! x = grafted fs F T x).

(** No entry is lost from [m] to [m']. *)
Definition grows (m m' : gmap (list string) node) : Prop :=
  forall x, is_Some (m !! x) -> is_Some (m' !! x).

(** A field of a tab-separated line: it holds no tab and no line end. *)
Definition field (s : string) : Prop := find TAB s = None /\ find NL s = None.

(** An index entry that is read back as it was written. *)
Definition index_entry_ok (entry : string * string) : Prop :=
  field entry.1 /\ field entry.2 /\ entry.2 <> "".

(** A user that is read back as it was written. *)
Definition user_ok (user : User) : Prop :=
  field (username user) /\ field (passwordHash user) /\ field (role user) /\ role user <> "".

(** A collaborator name, and a permission map, that are read back as they
    were written. *)
Definition name_ok (name : string) : Prop :=
  name <> "" /\ find "," name = None /\ field name.

Definition perms_ok (perms : gmap string (gset string)) : Prop :=
  map_Forall (fun key names => field key /\ set_Forall name_ok names) perms.

(** A key-value map that is read back as it was written: no key holds
    "=" and neither keys nor values hold a line end. *)
Definition config_ok (kv : gmap string string) : Prop :=
  map_Forall (fun key value => find "=" key = None /\ find NL key = None
                               /\ find NL value = None) kv.

(** The first and the last character of a text. *)
Definition first_char (s : string) : option ascii :=
  match s with
  | EmptyString => None
  | String c _ => Some c
  end.

Fixpoint last_char (s : string) : option ascii :=
  match s with
  | EmptyString => None
  | String c EmptyString => Some c
  | String _ r => last_char r
  end.

(** A path below a directory given by its entries: it is not empty, each
    of its components is plain, and it does not end in "/". *)
Definition plain_path (s : string) : bool :=
  negb (empty s) && forallb plain (components s)
  && negb (bool_decide (last_char s = Some "/"%char)).

(** The text of a file written line by line, each line ended by ["\n"]. *)
Definition lines_text (lines : list string) : string :=
  concat_strings (map (fun line => line +:+ nl) lines).

(** HEAD is missing, or empty, or its first line, trimmed, does not begin
    with "ref:". *)
Definition head_degenerate (fs : gmap (list string) node) (repoRoot : list string) : Prop :=
  match node_at fs (head_file repoRoot) with
  | None => True
  | Some Dir => False
  | Some (File content) =>
      match first_line content with
      | None => True
      | Some line => starts_with "ref:" (trim line) = false
      end
  end.

(** The same disk with a HEAD that holds "ref: main". *)
Definition with_head_main (fs : gmap (list string) node) (repoRoot : list string)
  : gmap (list string) node :=
  <[normalize (head_file repoRoot) := File ("ref: main" +:+ nl)]> fs.

(** The result of an operation, on the disk with that HEAD. *)
Definition on_head_main {A : Type} (repoRoot : list string)
    (r : A * gmap (list string) node) : A * gmap (list string) node :=
  (r.1, with_head_main r.2 repoRoot).

(** Invariant I4: HEAD names a branch whose file under refs/heads/ exists. *)
Definition head_valid (fs : gmap (list string) node) (repoRoot : list string) : bool :=
  match ifstream fs (ref_file repoRoot (currentBranch fs repoRoot)) with
  | Some _ => true
  | None => false
  end.

(** The part of an object after its first line (the line of the id). *)
Definition object_body (text : string) : string :=
  match getline NL text with
  | Some (_, rest) => rest
  | None => EmptyString
  end.

(** Invariant I2 for the object stored under [id]: the id is the SHA-256 of
    the body of the object. *)
Definition id_is_body_hash (fs : gmap (list string) node) (repoRoot : list string)
    (id : string) : bool :=
  match ifstream fs (object_file repoRoot id) with
  | Some text => String.eqb (sha256String (object_body text)) id
  | None => false
  end.

(* ===================================================================== *)
(** ** A small storage tree used in the examples                          *)
(* ===================================================================== *)

Definition demo_storage : list string := ["storage"].

(** Three users; alice registered first and is the admin.  bob is a
    collaborator of alice/proj. *)
Definition demo_alice : User := mkUser "alice" "hash-a" "admin".
Definition demo_bob : User := mkUser "bob" "hash-b" "user".
Definition demo_carol : User := mkUser "carol" "hash-c" "user".

Definition demo_users : string :=
  "alice" +:+ tab +:+ "hash-a" +:+ tab +:+ "admin" +:+ nl
  +:+ "bob" +:+ tab +:+ "hash-b" +:+ tab +:+ "user" +:+ nl
  +:+ "carol" +:+ tab +:+ "hash-c" +:+ tab +:+ "user" +:+ nl.

Definition demo_disk : gmap (list string) node :=
  <[ ["storage"; "permissions.tsv"] := File ("alice/proj" +:+ tab +:+ "bob" +:+ nl) ]>
    (<[ ["storage"; "users.tsv"] := File demo_users ]>
       (<[ ["storage"; "bob"] := Dir ]>
          (<[ ["storage"; "alice"] := Dir ]> {[ ["storage"] := Dir ]}))).

Definition demo_repo : list string := repoPath demo_storage "alice" "proj".

(** alice creates [proj]. *)
Definition demo_created : gmap (list string) node :=
  (createRepo demo_disk demo_storage "alice" "proj" "2024-01-01T00:00:00").2.

(** She writes [workspace/a.txt] and stages it. *)
Definition demo_staged : gmap (list string) node :=
  (addFile (write_file demo_created (workspace_dir demo_repo ++ ["a.txt"]) ("hi" +:+ nl)).1
           demo_repo "a.txt").2.

(** She commits. *)
Definition demo_committed : gmap (list string) node :=
  (commit demo_staged demo_repo "alice" "c1" "2024-01-01T00:00:01").2.

(** A remote for [proj], a place for a copy of it, and the round trip. *)
Definition demo_remote : list string := ["storage"; "_remotes"; "alice"; "proj"].
Definition demo_clone : list string := ["storage"; "bob"; "clone"].
Definition demo_pushed : outcome unit * gmap (list string) node :=
  push demo_committed demo_repo demo_remote.
Definition demo_pulled : outcome unit * gmap (list string) node :=
  pull demo_pushed.2 demo_clone demo_remote.

(** She creates the branch [feature] at the head of [main]. *)
Definition demo_branched : gmap (list string) node :=
  (createBranch demo_committed demo_repo "feature").2.

(** She merges [feature] into [main]. *)
Definition demo_merge : outcome CommitRecord * gmap (list string) node :=
  mergeBranch demo_branched demo_repo "feature" "2024-01-01T00:00:02" "2024-01-01T00:00:02".

(** Or she reverts her commit. *)
Definition demo_revert : outcome CommitRecord * gmap (list string) node :=
  revertCommit demo_branched demo_repo (branchHead demo_branched demo_repo "main") "alice"
               "2024-01-01T00:00:03" "2024-01-01T00:00:03".

(** A second history: the file alice commits is named [author=eve]; then
    she creates [feature] and merges it into [main]. *)
Definition shadow_committed : gmap (list string) node :=
  (commit
     (addFile (write_file demo_created (workspace_dir demo_repo ++ ["author=eve"]) ("hi" +:+ nl)).1
              demo_repo "author=eve").2
     demo_repo "alice" "c1" "2024-01-01T00:00:01").2.

Definition shadow_merge : outcome CommitRecord * gmap (list string) node :=
  mergeBranch (createBranch shadow_committed demo_repo "feature").2 demo_repo "feature"
              "2024-01-01T00:00:02" "2024-01-01T00:00:02".

(** The merge of [feature] in a repository that lost its object directory. *)
Definition lost_merge : outcome CommitRecord * gmap (list string) node :=
  mergeBranch (remove_all demo_branched (objects_dir demo_repo)) demo_repo "feature"
              "2024-01-01T00:00:02" "2024-01-01T00:00:02".

(** A revert whose author holds a line end. *)
Definition split_author_revert : outcome CommitRecord * gmap (list string) node :=
  revertCommit demo_branched demo_repo (branchHead demo_branched demo_repo "main")
               ("alice" +:+ nl +:+ "author=eve") "2024-01-01T00:00:03" "2024-01-01T00:00:03".

(** The merge of a branch whose name holds a line end. *)
Definition split_name_merge : outcome CommitRecord * gmap (list string) node :=
  mergeBranch (createBranch demo_committed demo_repo ("x" +:+ nl +:+ "author=eve")).2
              demo_repo ("x" +:+ nl +:+ "author=eve")
              "2024-01-01T00:00:02" "2024-01-01T00:00:02".

(** bob creates [lib] in his own namespace. *)
Definition demo_two_repos : gmap (list string) node :=
  (createRepo demo_committed demo_storage "bob" "lib" "2024-01-02T00:00:00").2.

(** carol creates [own] in her namespace, beside alice's staged [proj]. *)
Definition demo_carol_own : gmap (list string) node :=
  (createRepo demo_staged demo_storage "carol" "own" "2024-01-02T00:00:00").2.

(** The staged repository with an empty HEAD. *)
Definition demo_empty_head : gmap (list string) node :=
  (write_file demo_staged (head_file demo_repo) EmptyString).1.

(** A HEAD whose first line begins with a blank. *)
Definition demo_blank_head : gmap (list string) node :=
  (write_file demo_created (head_file demo_repo) (" ref: dev" +:+ nl)).1.

(** A HEAD that does not begin with "ref:" and reads as the file section of
    a commit object, and a branch [feature] whose head file names that HEAD
    from the object directory. *)
Definition demo_head_as_object : gmap (list string) node :=
  (write_file (write_file demo_created (ref_file demo_repo "feature") ("../HEAD" +:+ nl)).1
     (head_file demo_repo) ("files:" +:+ nl +:+ "x" +:+ tab +:+ "y" +:+ nl)).1.

(** The repository with alice's commit, without its HEAD. *)
Definition demo_no_head : gmap (list string) node :=
  remove_all demo_committed (head_file demo_repo).



(** The record of an outcome ([CommitRecord{}] when it failed). *)
Definition record_of (o : outcome CommitRecord) : CommitRecord :=
  match o with
  | Done r => r
  | Failed _ => empty_record
  end.

(** After the merge of [feature] into [main] alice checks [feature] out and
    merges [main], whose head is the merge commit. *)
Definition demo_on_feature : gmap (list string) node :=
  (handleCheckoutCommand demo_merge.2 demo_storage (Some demo_alice) demo_storage
     "feature" (Some "proj")).2.

Definition demo_second_merge : outcome CommitRecord * gmap (list string) node :=
  mergeBranch demo_on_feature demo_repo "main" "2024-01-01T00:00:04" "2024-01-01T00:00:04".

(** After [checkout a/b] in the repository with the branch [feature], the
    merge of [feature]. *)
Definition demo_slash_merge : outcome CommitRecord * gmap (list string) node :=
  mergeBranch
    (handleCheckoutCommand demo_branched demo_storage (Some demo_alice) demo_storage
       "a/b" (Some "proj")).2
    demo_repo "feature" "2024-01-01T00:00:02" "2024-01-01T00:00:02".

(* ===================================================================== *)
(** * Properties                                                          *)
(* ===================================================================== *)

#[local] Arguments String.append !_ _ / : simpl nomatch.

(** ** Text *)

Section Text.

Lemma append_nil_r (s : string) : s +:+ "" = s.
Proof. induction s as [|c s IH]; simpl; [reflexivity | now rewrite IH]. Qed.

Lemma append_assoc (a b c : string) : (a +:+ b) +:+ c = a +:+ (b +:+ c).
Proof. induction a as [|x a IH]; simpl; [reflexivity | now rewrite IH]. Qed.

Lemma empty_true (s : string) : empty s = true <-> s = "".
Proof. destruct s; simpl; split; congruence. Qed.

Lemma empty_false (s : string) : empty s = false <-> s <> "".
Proof. destruct s; simpl; split; congruence. Qed.

Lemma find_cons_None (d c : ascii) (s : string) :
  find d (String c s) = None <-> c <> d /\ find d s = None.
Proof.
  simpl. destruct (Ascii.eqb_spec c d) as [->|Hne].
  - split; [discriminate | intros [H _]; congruence].
  - destruct (find d s); simpl; split; try discriminate; intuition congruence.
Qed.

Lemma find_app_None (d : ascii) (a b : string) :
  find d (a +:+ b) = None <-> find d a = None /\ find d b = None.
Proof.
  induction a as [|c a IH].
  - simpl. intuition.
  - change (String c a +:+ b) with (String c (a +:+ b)).
    rewrite !find_cons_None, IH. intuition.
Qed.

Lemma until_delim_app (d : ascii) (a rest : string) :
  find d a = None -> until_delim d (a +:+ String d rest) = (a, rest).
Proof.
  induction a as [|c a IH]; intros H.
  - simpl. now rewrite Ascii.eqb_refl.
  - apply find_cons_None in H as [Hc Ha]. simpl.
    destruct (Ascii.eqb_spec c d) as [->|_]; [congruence|].
    now rewrite (IH Ha).
Qed.

Lemma until_delim_no_delim (d : ascii) (a : string) :
  find d a = None -> until_delim d a = (a, "").
Proof.
  induction a as [|c a IH]; intros H; [reflexivity|].
  apply find_cons_None in H as [Hc Ha]. simpl.
  destruct (Ascii.eqb_spec c d) as [->|_]; [congruence|].
  now rewrite (IH Ha).
Qed.

(** [split] lists what successive calls of [getline] return. *)
Lemma split_getline (d : ascii) (s : string) :
  split d s = match getline d s with
              | None => []
              | Some (t, r) => t :: split d r
              end.
Proof.
  induction s as [|c s IH]; [reflexivity|].
  cbn [split getline until_delim]. destruct (Ascii.eqb c d); [reflexivity|].
  rewrite IH. unfold getline. destruct s as [|c' s]; [reflexivity|].
  destruct (until_delim d (String c' s)) as [t r]. reflexivity.
Qed.

Lemma split_app_delim (d : ascii) (a rest : string) :
  find d a = None -> split d (a +:+ String d rest) = a :: split d rest.
Proof.
  induction a as [|c a IH]; intros H.
  - simpl. now rewrite Ascii.eqb_refl.
  - apply find_cons_None in H as [Hc Ha]. simpl.
    destruct (Ascii.eqb_spec c d) as [->|_]; [congruence|].
    now rewrite (IH Ha).
Qed.

Lemma split_no_delim (d : ascii) (a : string) :
  find d a = None -> a <> "" -> split d a = [a].
Proof.
  induction a as [|c a IH]; intros H Hne; [congruence|].
  apply find_cons_None in H as [Hc Ha]. simpl.
  destruct (Ascii.eqb_spec c d) as [->|_]; [congruence|].
  destruct a as [|c' a]; [reflexivity|].
  rewrite IH; [reflexivity | assumption | discriminate].
Qed.

(** No token of [split] holds the delimiter. *)
Lemma split_tokens_free (d : ascii) (s t : string) :
  In t (split d s) -> find d t = None.
Proof.
  revert t. induction s as [|c s IH]; intros t; simpl; [tauto|].
  destruct (Ascii.eqb_spec c d) as [->|Hne].
  - intros [<-|Hin]; [reflexivity | now apply IH].
  - destruct (split d s) as [|t0 ts] eqn:E.
    + intros [<-|[]]. apply find_cons_None. split; [assumption | reflexivity].
    + intros [<-|Hin].
      * apply find_cons_None. split; [assumption|]. apply IH. now left.
      * apply IH. now right.
Qed.

(** A character other than the delimiter that is missing from the text is
    missing from every token. *)
Lemma split_tokens_free_other (d x : ascii) (s t : string) :
  find x s = None -> In t (split d s) -> find x t = None.
Proof.
  revert t. induction s as [|c s IH]; intros t Hs; simpl; [tauto|].
  apply find_cons_None in Hs as [Hc Hs].
  destruct (Ascii.eqb_spec c d) as [->|Hne].
  - intros [<-|Hin]; [reflexivity | now apply IH].
  - destruct (split d s) as [|t0 ts] eqn:E.
    + intros [<-|[]]. apply find_cons_None. split; [assumption | reflexivity].
    + intros [<-|Hin].
      * apply find_cons_None. split; [assumption|]. apply IH; [assumption | now left].
      * apply IH; [assumption | now right].
Qed.

Lemma first_line_app (a rest : string) :
  find NL a = None -> first_line (a +:+ String NL rest) = Some a.
Proof.
  intros H. unfold first_line, getline.
  destruct (a +:+ String NL rest) eqn:E.
  - destruct a; discriminate.
  - rewrite <- E, until_delim_app by assumption. reflexivity.
Qed.

Lemma first_line_free (s l : string) : first_line s = Some l -> find NL l = None.
Proof.
  unfold first_line. intros H.
  pose proof (split_getline NL s) as Hs.
  destruct (getline NL s) as [[t r]|]; [|discriminate].
  injection H as <-. apply (split_tokens_free NL s). rewrite Hs. now left.
Qed.

Lemma string_forallb_find (f : ascii -> bool) (d : ascii) (s : string) :
  f d = false -> string_forallb f s = true -> find d s = None.
Proof.
  intros Hd. induction s as [|c s IH]; simpl; [reflexivity|].
  intros [Hc Hs]%andb_prop. apply find_cons_None.
  split; [intros ->; congruence | now apply IH].
Qed.

Lemma ltrim_id (c : ascii) (s : string) : is_ws c = false -> ltrim (String c s) = String c s.
Proof. intros H. simpl. now rewrite H. Qed.

Lemma rtrim_id (f : ascii -> bool) (s : string) :
  (forall c, f c = true -> is_ws c = false) -> string_forallb f s = true -> rtrim s = s.
Proof.
  intros Hf. induction s as [|c s IH]; simpl; [reflexivity|].
  intros [Hc Hs]%andb_prop. rewrite (IH Hs).
  destruct s; [now rewrite (Hf c Hc) | reflexivity].
Qed.

Lemma trim_id (f : ascii -> bool) (s : string) :
  (forall c, f c = true -> is_ws c = false) -> string_forallb f s = true -> trim s = s.
Proof.
  intros Hf Hs. unfold trim.
  destruct s as [|c s]; [reflexivity|].
  pose proof Hs as Hs'. simpl in Hs'. apply andb_prop in Hs' as [Hc _].
  rewrite ltrim_id by now apply Hf. now apply (rtrim_id f).
Qed.

(** Trimming never introduces a character. *)
Lemma ltrim_find (d : ascii) (s : string) : find d s = None -> find d (ltrim s) = None.
Proof.
  induction s as [|c s IH]; intros H; [reflexivity|].
  simpl. destruct (is_ws c); [|assumption].
  apply find_cons_None in H as [_ H]. now apply IH.
Qed.

Lemma rtrim_find (d : ascii) (s : string) : find d s = None -> find d (rtrim s) = None.
Proof.
  induction s as [|c s IH]; intros H; [reflexivity|].
  apply find_cons_None in H as [Hc H]. specialize (IH H). simpl.
  destruct (rtrim s) as [|c' r].
  - destruct (is_ws c); [reflexivity|]. apply find_cons_None. now split.
  - apply find_cons_None. now split.
Qed.

Lemma trim_find (d : ascii) (s : string) : find d s = None -> find d (trim s) = None.
Proof. intros H. unfold trim. now apply rtrim_find, ltrim_find. Qed.

Lemma substr_find (d : ascii) (n : nat) (s : string) :
  find d s = None -> find d (substr n s) = None.
Proof.
  revert s. induction n as [|n IH]; intros s H; [assumption|].
  destruct s as [|c s]; [reflexivity|]. simpl.
  apply find_cons_None in H as [_ H]. now apply IH.
Qed.

Lemma substr0_find (d : ascii) (n : nat) (s : string) :
  find d s = None -> find d (substr0 n s) = None.
Proof.
  revert s. induction n as [|n IH]; intros s H; [now destruct s|].
  destruct s as [|c s]; [reflexivity|]. simpl substr0.
  apply find_cons_None in H as [Hc H]. apply find_cons_None. split; [assumption | now apply IH].
Qed.

End Text.

(** ** Hashing *)

Section Hashing.

Lemma hex_digit_is_hex (n : N) : is_hex (hex_digit n) = true.
Proof.
  unfold hex_digit, is_hex.
  destruct (nth_in_or_default (N.to_nat n) (list_ascii_of_string "0123456789abcdef") "0"%char)
    as [Hin | ->]; [|reflexivity].
  apply existsb_exists. eexists. split; [exact Hin | apply Ascii.eqb_refl].
Qed.

Lemma toHex_is_hex (data : list ascii) : string_forallb is_hex (toHex data) = true.
Proof.
  induction data as [|b r IH]; [reflexivity|].
  cbn [toHex string_forallb]. now rewrite !hex_digit_is_hex, IH.
Qed.

Lemma toHex_length (data : list ascii) : String.length (toHex data) = 2 * length data.
Proof. induction data as [|b r IH]; [reflexivity|]. cbn [toHex String.length length]. lia. Qed.

Lemma digest_length (data : string) : length (SHA256.crypto_hash_sha256 data) = 32.
Proof. reflexivity. Qed.

(** A digest is printed as 64 lowercase hexadecimal digits. *)
Lemma sha256String_length (text : string) : String.length (sha256String text) = 64.
Proof. unfold sha256String. now rewrite toHex_length, digest_length. Qed.

Lemma sha256String_is_hex (text : string) : string_forallb is_hex (sha256String text) = true.
Proof. apply toHex_is_hex. Qed.

Lemma sha256String_nonempty (text : string) : sha256String text <> "".
Proof.
  intros H. pose proof (sha256String_length text) as L. rewrite H in L. discriminate.
Qed.

Lemma sha256String_free (d : ascii) (text : string) :
  is_hex d = false -> find d (sha256String text) = None.
Proof. intros H. eapply string_forallb_find; [exact H | apply sha256String_is_hex]. Qed.

Lemma is_hex_not_ws (c : ascii) : is_hex c = true -> is_ws c = false.
Proof.
  unfold is_hex. intros H. apply existsb_exists in H as [x [Hin Heq]].
  apply Ascii.eqb_eq in Heq as <-.
  repeat (destruct Hin as [<-|Hin]; [reflexivity|]). destruct Hin.
Qed.

Lemma sha256String_trim (text : string) : trim (sha256String text) = sha256String text.
Proof. apply (trim_id is_hex); [apply is_hex_not_ws | apply sha256String_is_hex]. Qed.

Lemma hex_is_name (s : string) :
  string_forallb is_hex s = true -> s <> "" -> is_name s = true.
Proof.
  intros Hs Hne. unfold is_name.
  assert (Hslash : find "/" s = None) by (now apply (string_forallb_find is_hex)).
  rewrite (bool_decide_eq_true_2 _ Hslash).
  destruct s as [|c s]; [congruence|].
  simpl in Hs. apply andb_prop in Hs as [Hc _].
  assert (Hdot : c <> "."%char) by (intros ->; discriminate).
  assert (Hsl : c <> "/"%char) by (intros ->; discriminate).
  unfold plain.
  destruct (String.eqb_spec (String c s) ""); [discriminate|].
  destruct (String.eqb_spec (String c s) "."); [congruence|].
  destruct (String.eqb_spec (String c s) ".."); [congruence|].
  cbn [starts_with negb andb]. destruct (Ascii.eqb_spec "/" c); [congruence|]. reflexivity.
Qed.

Lemma sha256String_is_name (text : string) : is_name (sha256String text) = true.
Proof. apply hex_is_name; [apply sha256String_is_hex | apply sha256String_nonempty]. Qed.

End Hashing.

#[local] Arguments sha256String : simpl never.
#[local] Opaque sha256String.

(** ** Paths and the disk *)

Section Disk.

Implicit Types (fs : gmap (list string) node) (p q : list string).

Lemma resolve_plain (acc s : list string) :
  Forall (fun c => plain c = true) s -> fold_left resolve_step s acc = acc ++ s.
Proof.
  revert acc. induction s as [|c s IH]; intros acc H.
  - now rewrite app_nil_r.
  - inversion H as [|? ? Hc Hs]; subst. cbn [fold_left].
    rewrite IH by assumption. unfold resolve_step, plain in *.
    destruct (String.eqb c ""), (String.eqb c "."), (String.eqb c ".."); try discriminate.
    cbn [orb]. now rewrite <- app_assoc.
Qed.

Lemma normalize_app_plain p (s : list string) :
  Forall (fun c => plain c = true) s -> normalize (p ++ s) = normalize p ++ s.
Proof. intros H. unfold normalize. rewrite fold_left_app. now apply resolve_plain. Qed.

Lemma is_name_plain (n : string) : is_name n = true -> plain n = true.
Proof. unfold is_name. intros H. now apply andb_prop in H as [[H _]%andb_prop _]. Qed.

Lemma is_name_nonempty (n : string) : is_name n = true -> n <> "".
Proof. intros H%is_name_plain ->. discriminate. Qed.

Lemma is_name_components (n : string) : is_name n = true -> components n = [n].
Proof.
  intros H. pose proof (is_name_nonempty n H) as Hne.
  unfold is_name in H. apply andb_prop in H as [_ H].
  apply bool_decide_eq_true_1 in H. now apply split_no_delim.
Qed.

Lemma path_append_name p (n : string) : is_name n = true -> path_append p n = p ++ [n].
Proof.
  intros H. unfold path_append. rewrite (is_name_components n H).
  unfold is_name in H. apply andb_prop in H as [[_ H]%andb_prop _].
  now destruct (starts_with "/" n).
Qed.

Lemma normalize_child p (n : string) :
  is_name n = true -> normalize (path_append p n) = normalize p ++ [n].
Proof.
  intros H. rewrite path_append_name by assumption.
  apply normalize_app_plain. repeat constructor. now apply is_name_plain.
Qed.

Lemma lookup_node_app fs p (s : list string) :
  s <> [] -> lookup_node fs (p ++ s) = fs !! (p ++ s).
Proof. intros H. destruct p, s; try congruence; reflexivity. Qed.

Lemma removelast_snoc p (c : string) : removelast (p ++ [c]) = p.
Proof. rewrite removelast_app by discriminate. cbn. now rewrite app_nil_r. Qed.

(** *** Resolved paths of a repository *)

Lemma norm_glite p : normalize (glite_dir p) = normalize p ++ [".glite"].
Proof. apply normalize_app_plain. repeat constructor. Qed.

Lemma norm_head p : normalize (head_file p) = normalize p ++ [".glite"; "HEAD"].
Proof. apply normalize_app_plain. repeat constructor. Qed.

Lemma norm_index p : normalize (index_file p) = normalize p ++ [".glite"; "index"].
Proof. apply normalize_app_plain. repeat constructor. Qed.

Lemma norm_log p : normalize (log_file p) = normalize p ++ [".glite"; "log"].
Proof. apply normalize_app_plain. repeat constructor. Qed.


Lemma norm_objects p : normalize (objects_dir p) = normalize p ++ [".glite"; "objects"].
Proof. apply normalize_app_plain. repeat constructor. Qed.

Lemma norm_heads p : normalize (heads_dir p) = normalize p ++ [".glite"; "refs"; "heads"].
Proof. apply normalize_app_plain. repeat constructor. Qed.

Lemma norm_tags p : normalize (tags_dir p) = normalize p ++ [".glite"; "refs"; "tags"].
Proof. apply normalize_app_plain. repeat constructor. Qed.

Lemma norm_object p (n : string) :
  is_name n = true -> normalize (object_file p n) = normalize p ++ [".glite"; "objects"; n].
Proof.
  intros H. unfold object_file. rewrite normalize_child, norm_objects by assumption.
  now rewrite <- app_assoc.
Qed.

Lemma norm_ref p (n : string) :
  is_name n = true -> normalize (ref_file p n) = normalize p ++ [".glite"; "refs"; "heads"; n].
Proof.
  intros H. unfold ref_file. rewrite normalize_child, norm_heads by assumption.
  now rewrite <- app_assoc.
Qed.

Lemma norm_tag p (n : string) :
  is_name n = true -> normalize (tag_file p n) = normalize p ++ [".glite"; "refs"; "tags"; n].
Proof.
  intros H. unfold tag_file. rewrite normalize_child, norm_tags by assumption.
  now rewrite <- app_assoc.
Qed.

(** *** Streams on resolved paths *)

Lemma ifstream_at fs p q :
  normalize p = q -> q <> [] ->
  ifstream fs p = match fs !! q with Some (File c) => Some c | _ => None end.
Proof. intros <- Hq. unfold ifstream, node_at, lookup_node. now destruct (normalize p). Qed.

Lemma fs_exists_at fs p q :
  normalize p = q -> q <> [] ->
  fs_exists fs p = match fs !! q with Some _ => true | None => false end.
Proof. intros <- Hq. unfold fs_exists, node_at, lookup_node. now destruct (normalize p). Qed.

Lemma is_directory_at fs p q :
  normalize p = q -> q <> [] ->
  is_directory fs p = match fs !! q with Some Dir => true | _ => false end.
Proof. intros <- Hq. unfold is_directory, node_at, lookup_node. now destruct (normalize p). Qed.

Lemma ofstream_target_at fs p (R l : list string) (c : string) :
  normalize p = R ++ l ++ [c] ->
  lookup_node fs (R ++ l) = Some Dir ->
  fs !! (R ++ l ++ [c]) <> Some Dir ->
  ofstream_target fs p = Some (R ++ l ++ [c]).
Proof.
  intros Hp Hd Hf. unfold ofstream_target. rewrite Hp.
  rewrite app_assoc, removelast_snoc, Hd.
  destruct ((R ++ l) ++ [c]) as [|x r] eqn:E.
  - destruct (R ++ l); discriminate.
  - rewrite <- E, <- app_assoc.
    destruct (fs !! (R ++ l ++ [c])) as [[|]|]; congruence.
Qed.

Lemma ofstream_target_spec fs p q :
  ofstream_target fs p = Some q -> q = normalize p /\ q <> [] /\ fs !! q <> Some Dir.
Proof.
  unfold ofstream_target. destruct (normalize p) as [|x r] eqn:E; [discriminate|].
  destruct (lookup_node fs (removelast (x :: r))) as [[|]|]; try discriminate.
  destruct (fs !! (x :: r)) as [[|]|] eqn:F; try discriminate;
    intros [= <-]; repeat split; congruence.
Qed.

Lemma write_file_at fs p (R l : list string) (c : string) (content : string) :
  normalize p = R ++ l ++ [c] ->
  lookup_node fs (R ++ l) = Some Dir ->
  fs !! (R ++ l ++ [c]) <> Some Dir ->
  write_file fs p content = (<[R ++ l ++ [c] := File content]> fs, true).
Proof. intros. unfold write_file. now rewrite (ofstream_target_at fs p R l c). Qed.

Lemma append_file_at fs p (R l : list string) (c : string) (content : string) :
  normalize p = R ++ l ++ [c] ->
  lookup_node fs (R ++ l) = Some Dir ->
  fs !! (R ++ l ++ [c]) <> Some Dir ->
  append_file fs p content =
    (<[R ++ l ++ [c] :=
         File (match fs !! (R ++ l ++ [c]) with Some (File o) => o | _ => "" end +:+ content)]> fs,
     true).
Proof. intros. unfold append_file. now rewrite (ofstream_target_at fs p R l c). Qed.

(** *** Writing files leaves the directories as they are *)

Lemma same_dirs_refl fs : same_dirs fs fs.
Proof. intros k. reflexivity. Qed.

Lemma same_dirs_trans fs1 fs2 fs3 : same_dirs fs1 fs2 -> same_dirs fs2 fs3 -> same_dirs fs1 fs3.
Proof. intros H12 H23 k. etransitivity; [apply H23 | apply H12]. Qed.

Lemma same_dirs_insert_file fs q (c : string) :
  fs !! q <> Some Dir -> same_dirs fs (<[q := File c]> fs).
Proof.
  intros Hq k. destruct (decide (q = k)) as [->|Hne].
  - rewrite lookup_insert_eq. split; [discriminate | congruence].
  - now rewrite lookup_insert_ne.
Qed.

Lemma write_file_same_dirs fs p (content : string) : same_dirs fs (write_file fs p content).1.
Proof.
  unfold write_file. destruct (ofstream_target fs p) as [q|] eqn:E; [|apply same_dirs_refl].
  apply ofstream_target_spec in E as (_ & _ & E). now apply same_dirs_insert_file.
Qed.

Lemma append_file_same_dirs fs p (content : string) : same_dirs fs (append_file fs p content).1.
Proof.
  unfold append_file. destruct (ofstream_target fs p) as [q|] eqn:E; [|apply same_dirs_refl].
  apply ofstream_target_spec in E as (_ & _ & E). now apply same_dirs_insert_file.
Qed.

Lemma same_dirs_lookup_node fs fs' q :
  same_dirs fs fs' -> lookup_node fs' q = Some Dir <-> lookup_node fs q = Some Dir.
Proof. intros H. destruct q; [reflexivity | apply H]. Qed.

Lemma same_dirs_not_dir fs fs' q : same_dirs fs fs' -> fs !! q <> Some Dir -> fs' !! q <> Some Dir.
Proof. intros H Hq Hq'. now apply Hq, H. Qed.

End Disk.

(** ** The layout of a repository, on resolved paths *)

Ltac path_ne :=
  let H := fresh in
  intros H; apply app_inv_head in H; (discriminate H || congruence).

Section Layout.

Implicit Types (fs : gmap (list string) node) (repoRoot : list string).

Lemma is_directory_true fs p q :
  normalize p = q -> q <> [] -> is_directory fs p = true -> fs !! q = Some Dir.
Proof.
  intros Hp Hq. rewrite (is_directory_at fs p q Hp Hq).
  destruct (fs !! q) as [[|]|]; congruence.
Qed.

Lemma is_directory_false fs p q :
  normalize p = q -> q <> [] -> is_directory fs p = false -> fs !! q <> Some Dir.
Proof.
  intros Hp Hq. rewrite (is_directory_at fs p q Hp Hq).
  destruct (fs !! q) as [[|]|]; congruence.
Qed.

Lemma app_nonempty (R l : list string) : l <> [] -> R ++ l <> [].
Proof. intros H. destruct R, l; cbn; congruence. Qed.

Lemma no_subdirectories_child fs p (R l : list string) (n : string) :
  normalize p = R ++ l -> no_subdirectories fs p -> fs !! (R ++ l ++ [n]) <> Some Dir.
Proof.
  intros Hp Hflat Hk. specialize (Hflat _ _ Hk). cbn beta in Hflat. rewrite Hp in Hflat.
  apply Hflat; [| | reflexivity].
  - exists [n]. now rewrite app_assoc.
  - intros E. apply (f_equal length) in E. rewrite !length_app in E. cbn in E. lia.
Qed.

Lemma layout_facts fs repoRoot :
  repo_layout fs repoRoot ->
  let R := normalize repoRoot in
  fs !! (R ++ [".glite"]) = Some Dir
  /\ fs !! (R ++ [".glite"; "objects"]) = Some Dir
  /\ fs !! (R ++ [".glite"; "refs"; "heads"]) = Some Dir
  /\ fs !! (R ++ [".glite"; "index"]) <> Some Dir
  /\ fs !! (R ++ [".glite"; "log"]) <> Some Dir
  /\ (forall n : string, fs !! (R ++ [".glite"; "objects"; n]) <> Some Dir)
  /\ (forall n : string, fs !! (R ++ [".glite"; "refs"; "heads"; n]) <> Some Dir).
Proof.
  intros [Hg Ho Hh Hi Hl Hof Hhf] R. repeat split.
  - eapply is_directory_true; [apply norm_glite | now apply app_nonempty | exact Hg].
  - eapply is_directory_true; [apply norm_objects | now apply app_nonempty | exact Ho].
  - eapply is_directory_true; [apply norm_heads | now apply app_nonempty | exact Hh].
  - eapply is_directory_false; [apply norm_index | now apply app_nonempty | exact Hi].
  - eapply is_directory_false; [apply norm_log | now apply app_nonempty | exact Hl].
  - intros n. apply (no_subdirectories_child fs (objects_dir repoRoot) R [".glite"; "objects"] n);
      [apply norm_objects | exact Hof].
  - intros n. apply (no_subdirectories_child fs (heads_dir repoRoot) R [".glite"; "refs"; "heads"] n);
      [apply norm_heads | exact Hhf].
Qed.

(** A sequence of stream writes keeps the layout. *)
Lemma no_subdirectories_same_dirs fs fs' p :
  same_dirs fs fs' -> no_subdirectories fs p -> no_subdirectories fs' p.
Proof.
  intros Hs Hflat k n Hk Hpre Hne ->. apply Hs in Hk.
  now apply (Hflat _ _ Hk Hpre Hne).
Qed.

Lemma is_directory_same_dirs fs fs' p :
  same_dirs fs fs' -> is_directory fs' p = is_directory fs p.
Proof.
  intros Hs. unfold is_directory, node_at.
  pose proof (same_dirs_lookup_node fs fs' (normalize p) Hs) as H.
  destruct (lookup_node fs' (normalize p)) as [[|]|], (lookup_node fs (normalize p)) as [[|]|];
    try reflexivity; intuition congruence.
Qed.

Lemma repo_layout_same_dirs fs fs' repoRoot :
  same_dirs fs fs' -> repo_layout fs repoRoot -> repo_layout fs' repoRoot.
Proof.
  intros Hs [Hg Ho Hh Hi Hl Hof Hhf].
  split; rewrite ?(is_directory_same_dirs fs fs' _ Hs); try assumption;
    now apply (no_subdirectories_same_dirs fs fs').
Qed.

End Layout.

(** ** RepoService: reading the refs *)

Section Refs.

Implicit Types (fs : gmap (list string) node) (repoRoot : list string).

Lemma currentBranch_free fs repoRoot : find NL (currentBranch fs repoRoot) = None.
Proof.
  unfold currentBranch.
  destruct (ifstream fs (head_file repoRoot)) as [content|]; [|reflexivity].
  destruct (first_line content) as [line|] eqn:E; [|reflexivity].
  apply first_line_free in E.
  destruct (starts_with "ref:" (trim line)); [|reflexivity].
  now apply trim_find, substr_find, trim_find.
Qed.

Lemma branchHead_free fs repoRoot (branch : string) :
  find NL (branchHead fs repoRoot branch) = None.
Proof.
  unfold branchHead.
  destruct (ifstream fs (ref_file repoRoot branch)) as [content|]; [|reflexivity].
  destruct (first_line content) as [line|] eqn:E; [|reflexivity].
  apply first_line_free in E. now apply trim_find.
Qed.

(** The head of a branch whose file holds a digest and a line end. *)
Lemma branchHead_digest fs repoRoot (branch text : string) :
  ifstream fs (ref_file repoRoot branch) = Some (sha256String text +:+ nl) ->
  branchHead fs repoRoot branch = sha256String text.
Proof.
  intros H. unfold branchHead. rewrite H. unfold nl.
  rewrite first_line_app by (now apply sha256String_free).
  apply sha256String_trim.
Qed.

End Refs.

(** ** RepoService: commit *)

Section Commit.

Implicit Types (fs : gmap (list string) node) (repoRoot : list string).

(** The disk a successful [commit] leaves, on resolved paths. *)
Lemma commit_run fs repoRoot (author message ts : string) :
  repo_layout fs repoRoot ->
  is_name (currentBranch fs repoRoot) = true ->
  readIndex fs repoRoot <> [] ->
  let R := normalize repoRoot in
  let branch := currentBranch fs repoRoot in
  let parent := branchHead fs repoRoot branch in
  let entries := readIndex fs repoRoot in
  let body := commit_body author ts branch parent message entries in
  let cid := sha256String body in
  let record := mkCommit cid parent author ts message branch entries in
  let old := match fs !! (R ++ [".glite"; "log"]) with Some (File o) => o | _ => "" end in
  commit fs repoRoot author message ts =
    (Done record,
     <[R ++ [".glite"; "log"] := File (old +:+ log_line record)]>
       (<[R ++ [".glite"; "index"] := File ""]>
          (<[R ++ [".glite"; "refs"; "heads"; branch] := File (cid +:+ nl)]>
             (<[R ++ [".glite"; "objects"; cid] := File ("id=" +:+ cid +:+ nl +:+ body)]> fs)))).
Proof.
  intros L Hb Hne. cbv zeta.
  destruct (layout_facts fs repoRoot L) as (Hg & Ho & Hh & Hi & Hl & Hof & Hhf).
  unfold commit.
  destruct (readIndex fs repoRoot) as [|e es] eqn:Ee; [congruence|].
  set (R := normalize repoRoot) in *.
  set (branch := currentBranch fs repoRoot) in *.
  set (parent := branchHead fs repoRoot branch).
  set (body := commit_body author ts branch parent message (e :: es)).
  set (cid := sha256String body).
  unfold updateBranchHead, writeIndex, appendLog.
  rewrite (write_file_at fs (object_file repoRoot cid) R [".glite"; "objects"] cid);
    [| apply norm_object, sha256String_is_name
     | rewrite lookup_node_app by discriminate; exact Ho
     | apply Hof ].
  cbn [fst].
  rewrite (write_file_at _ (ref_file repoRoot branch) R [".glite"; "refs"; "heads"] branch);
    [| apply norm_ref, Hb
     | rewrite lookup_node_app by discriminate; rewrite lookup_insert_ne by path_ne; exact Hh
     | rewrite lookup_insert_ne by path_ne; apply Hhf ].
  cbn [fst].
  rewrite (write_file_at _ (index_file repoRoot) R [".glite"] "index");
    [| apply norm_index
     | rewrite lookup_node_app by discriminate; rewrite !lookup_insert_ne by path_ne; exact Hg
     | rewrite !lookup_insert_ne by path_ne; exact Hi ].
  cbn [fst entry_lines map concat_strings].
  rewrite (append_file_at _ (log_file repoRoot) R [".glite"] "log");
    [| apply norm_log
     | rewrite lookup_node_app by discriminate; rewrite !lookup_insert_ne by path_ne; exact Hg
     | rewrite !lookup_insert_ne by path_ne; exact Hl ].
  cbn [fst app]. rewrite !lookup_insert_ne by path_ne. reflexivity.
Qed.

End Commit.

Section CommitSpec.

Implicit Types (fs : gmap (list string) node) (repoRoot : list string).


End CommitSpec.

Lemma demo_layout (fs : gmap (list string) node) :
  is_directory fs (glite_dir demo_repo) = true ->
  is_directory fs (objects_dir demo_repo) = true ->
  is_directory fs (heads_dir demo_repo) = true ->
  is_directory fs (index_file demo_repo) = false ->
  is_directory fs (log_file demo_repo) = false ->
  bool_decide (no_subdirectories fs (objects_dir demo_repo)) = true ->
  bool_decide (no_subdirectories fs (heads_dir demo_repo)) = true ->
  repo_layout fs demo_repo.
Proof.
  intros H1 H2 H3 H4 H5 H6 H7.
  split; try assumption.
  - exact (bool_decide_eq_true_1 _ H6).
  - exact (bool_decide_eq_true_1 _ H7).
Defined.



(** ** RepoService: merge and revert *)

Section MergeRevert.

Implicit Types (fs : gmap (list string) node) (repoRoot : list string).

Lemma store_record_run fs repoRoot (record : CommitRecord) :
  repo_layout fs repoRoot ->
  is_name (c_branch record) = true ->
  is_name (c_id record) = true ->
  let R := normalize repoRoot in
  let old := match fs !! (R ++ [".glite"; "log"]) with Some (File o) => o | _ => "" end in
  store_record fs repoRoot record =
    <[R ++ [".glite"; "log"] := File (old +:+ log_line record)]>
      (<[R ++ [".glite"; "refs"; "heads"; c_branch record] := File (c_id record +:+ nl)]>
         (<[R ++ [".glite"; "objects"; c_id record] := File (record_text record)]> fs)).
Proof.
  intros L Hb Hi. cbv zeta.
  destruct (layout_facts fs repoRoot L) as (Hg & Ho & Hh & _ & Hl & Hof & Hhf).
  set (R := normalize repoRoot) in *.
  unfold store_record, updateBranchHead, appendLog.
  rewrite (write_file_at fs (object_file repoRoot (c_id record)) R [".glite"; "objects"]
             (c_id record));
    [| apply norm_object, Hi
     | rewrite lookup_node_app by discriminate; exact Ho
     | apply Hof ].
  cbn [fst].
  rewrite (write_file_at _ (ref_file repoRoot (c_branch record)) R [".glite"; "refs"; "heads"]
             (c_branch record));
    [| apply norm_ref, Hb
     | rewrite lookup_node_app by discriminate; rewrite lookup_insert_ne by path_ne; exact Hh
     | rewrite lookup_insert_ne by path_ne; apply Hhf ].
  cbn [fst].
  rewrite (append_file_at _ (log_file repoRoot) R [".glite"] "log");
    [| apply norm_log
     | rewrite lookup_node_app by discriminate; rewrite !lookup_insert_ne by path_ne; exact Hg
     | rewrite !lookup_insert_ne by path_ne; exact Hl ].
  cbn [fst app]. rewrite !lookup_insert_ne by path_ne. reflexivity.
Qed.

Lemma mergeBranch_unfold fs repoRoot (branch ts_id ts : string) :
  mergeBranch fs repoRoot branch ts_id ts =
    if String.eqb (currentBranch fs repoRoot) branch
    then (Failed (Message "Cannot merge branch into itself."), fs)
    else if empty (branchHead fs repoRoot branch)
    then (Failed (Message ("Branch '" +:+ branch +:+ "' has no commits.")), fs)
    else (Done (merge_record fs repoRoot branch ts_id ts),
          store_record fs repoRoot (merge_record fs repoRoot branch ts_id ts)).
Proof. reflexivity. Qed.

Lemma revertCommit_unfold fs repoRoot (commitId author ts_id ts : string) :
  revertCommit fs repoRoot commitId author ts_id ts =
    if negb (commitExists fs repoRoot commitId)
    then (Failed (Message "Commit not found."), fs)
    else (Done (revert_record fs repoRoot commitId author ts_id ts),
          store_record fs repoRoot (revert_record fs repoRoot commitId author ts_id ts)).
Proof. reflexivity. Qed.

(** What [mergeBranch] returns, read off its definition: it fails exactly
    when the other branch is the current one or has an empty head, and
    then leaves the disk as it is; the record it creates has the head of the
    current branch as parent, author "merge", the message
    "Merge branch '<other>' into '<current>'" and the files that [readCommit]
    returns for the head of the other branch; on a repository whose
    skeleton is in place and whose HEAD names a branch by one path
    component the record is written to the object directory and becomes the
    head of the current branch. *)
Lemma mergeBranch_spec fs repoRoot (other ts_id ts : string) :
  let current := currentBranch fs repoRoot in
  let result := mergeBranch fs repoRoot other ts_id ts in
  (succeeded result.1 = false <-> other = current \/ branchHead fs repoRoot other = "")
  /\ (succeeded result.1 = false -> result.2 = fs)
  /\ (forall record, result.1 = Done record ->
        c_parent record = branchHead fs repoRoot current
        /\ c_author record = "merge"
        /\ c_message record = "Merge branch '" +:+ other +:+ "' into '" +:+ current +:+ "'"
        /\ c_branch record = current
        /\ c_files record = c_files (readCommit fs repoRoot (branchHead fs repoRoot other))
        /\ (repo_layout fs repoRoot -> is_name current = true ->
              ifstream result.2 (object_file repoRoot (c_id record)) = Some (record_text record)
              /\ branchHead result.2 repoRoot current = c_id record)).
Proof.
  cbv zeta. rewrite mergeBranch_unfold.
  destruct (String.eqb_spec (currentBranch fs repoRoot) other) as [Heq|Hne].
  { cbn. split; [split; [left; congruence | reflexivity] |].
    split; [reflexivity | discriminate]. }
  destruct (empty (branchHead fs repoRoot other)) eqn:Hhead.
  { cbn. apply empty_true in Hhead.
    split; [split; [right; assumption | reflexivity] |].
    split; [reflexivity | discriminate]. }
  apply empty_false in Hhead. cbn [fst snd succeeded].
  split; [split; [discriminate | intros [?|?]; congruence] |].
  split; [discriminate|].
  intros record [= <-]. cbn [merge_record c_parent c_author c_message c_branch c_files c_id].
  split; [reflexivity|]. split; [reflexivity|]. split; [reflexivity|].
  split; [reflexivity|]. split; [reflexivity|].
  intros L Hb.
  set (rec := merge_record fs repoRoot other ts_id ts).
  assert (Hid : c_id rec = sha256String (branchHead fs repoRoot other
                  +:+ branchHead fs repoRoot (currentBranch fs repoRoot) +:+ ts_id))
    by reflexivity.
  assert (Hbr : c_branch rec = currentBranch fs repoRoot) by reflexivity.
  rewrite (store_record_run fs repoRoot rec L);
    [| rewrite Hbr; exact Hb | rewrite Hid; apply sha256String_is_name ].
  rewrite Hbr. fold (c_id rec). set (R := normalize repoRoot).
  assert (Href : ifstream
            (<[R ++ [".glite"; "log"] := File
                 (match fs !! (R ++ [".glite"; "log"]) with Some (File o) => o | _ => "" end
                  +:+ log_line rec)]>
               (<[R ++ [".glite"; "refs"; "heads"; currentBranch fs repoRoot]
                    := File (c_id rec +:+ nl)]>
                  (<[R ++ [".glite"; "objects"; c_id rec] := File (record_text rec)]> fs)))
            (ref_file repoRoot (currentBranch fs repoRoot)) = Some (c_id rec +:+ nl)).
  { rewrite (ifstream_at _ _ (R ++ [".glite"; "refs"; "heads"; currentBranch fs repoRoot]));
      [| apply norm_ref; exact Hb | now apply app_nonempty].
    rewrite lookup_insert_ne by path_ne. rewrite lookup_insert_eq. reflexivity. }
  split.
  - rewrite (ifstream_at _ _ (R ++ [".glite"; "objects"; c_id rec]));
      [| apply norm_object; rewrite Hid; apply sha256String_is_name | now apply app_nonempty].
    rewrite !lookup_insert_ne by path_ne. rewrite lookup_insert_eq. reflexivity.
  - rewrite Hid in Href |- *. apply branchHead_digest. exact Href.
Qed.

End MergeRevert.

(** ** Reading back a commit object *)

Section ReadCommit.

Implicit Types (fs : gmap (list string) node) (repoRoot : list string).

Lemma find_split (c : ascii) (s : string) (pos : nat) :
  find c s = Some pos -> s = substr0 pos s +:+ String c (substr (S pos) s).
Proof.
  revert pos. induction s as [|x s IH]; intros pos; [discriminate|].
  cbn [find]. destruct (Ascii.eqb_spec x c) as [->|Hne].
  - intros [= <-]. reflexivity.
  - destruct (find c s) as [n|]; [|discriminate].
    intros [= <-]. cbn. f_equal. now apply IH.
Qed.

Lemma starts_with_app (a b : string) : starts_with a (a +:+ b) = true.
Proof.
  induction a as [|x a IH]; [reflexivity|].
  cbn. now rewrite Ascii.eqb_refl.
Qed.

(** A prefix without tabulation of [p <TAB> b] is a prefix of [p]. *)
Lemma starts_with_before_tab (k p b : string) :
  find TAB k = None -> starts_with k (p +:+ String TAB b) = true -> starts_with k p = true.
Proof.
  revert p. induction k as [|x k IH]; intros p Hk; [reflexivity|].
  apply find_cons_None in Hk as [Hx Hk].
  destruct p as [|y p]; cbn.
  - destruct (Ascii.eqb_spec x TAB); [congruence | discriminate].
  - intros [Hxy H]%andb_prop. rewrite Hxy. cbn. now apply IH.
Qed.

Lemma find_tab_line (p b : string) : find TAB (p +:+ String TAB b) <> None.
Proof.
  induction p as [|x p IH]; cbn.
  - discriminate.
  - destruct (Ascii.eqb x TAB); [discriminate|].
    destruct (find TAB (p +:+ String TAB b)); [discriminate | congruence].
Qed.

Lemma header_field_other (r : CommitRecord) (key value : string) :
  ~ In key header_keys -> header_field r key value = r.
Proof.
  intros H. unfold header_field.
  destruct (String.eqb_spec key "author") as [->|_]; [exfalso; apply H; cbn; tauto|].
  destruct (String.eqb_spec key "timestamp") as [->|_]; [exfalso; apply H; cbn; tauto|].
  destruct (String.eqb_spec key "branch") as [->|_]; [exfalso; apply H; cbn; tauto|].
  destruct (String.eqb_spec key "parent") as [->|_]; [exfalso; apply H; cbn; tauto|].
  destruct (String.eqb_spec key "message") as [->|_]; [exfalso; apply H; cbn; tauto|].
  reflexivity.
Qed.

(** The lines [mergeBranch] and [revertCommit] write before the files are
    not read as header lines: the text before a "=" in them is no key. *)
Lemma colon_line_ignored (r : CommitRecord) (label value : string) :
  In label ["id: "; "parent: "; "author: "; "timestamp: "; "branch: "; "message: "] ->
  readCommit_line (r, false) (label +:+ value) = (r, false).
Proof.
  intros H. unfold readCommit_line.
  repeat (destruct H as [<-|H];
          [cbn; destruct (find "=" value); reflexivity|]).
  destruct H.
Qed.

Lemma starts_with_inv (k p : string) :
  starts_with k p = true -> exists rest, p = k +:+ rest.
Proof.
  revert p. induction k as [|x k IH]; intros p; [exists p; reflexivity|].
  destruct p as [|y p]; [discriminate|]. cbn.
  intros [Hxy H]%andb_prop. apply Ascii.eqb_eq in Hxy as ->.
  destruct (IH p H) as [rest ->]. now exists rest.
Qed.

Lemma header_key_no_tab (key : string) : In key header_keys -> find TAB (key +:+ "=") = None.
Proof. intros H. repeat (destruct H as [<-|H]; [reflexivity|]). destruct H. Qed.

(** A file line [p <TAB> b] read outside the "files:" section leaves a record
    with nothing but an id as it is, unless [p] reads as a header line. *)
Lemma file_line_keeps_only_id (r : CommitRecord) (p b : string) :
  only_id r -> shadows_header p = false ->
  exists r', readCommit_line (r, false) (p +:+ String TAB b) = (r', false) /\ only_id r'.
Proof.
  intros Hr Hp. unfold readCommit_line.
  destruct (starts_with "id=" (p +:+ String TAB b)) eqn:Hid.
  { eexists. split; [reflexivity|].
    apply starts_with_before_tab in Hid; [|reflexivity].
    apply starts_with_inv in Hid as [rest ->].
    destruct Hr as (_ & H). split; [|exact H].
    cbn. destruct rest; discriminate. }
  destruct (String.eqb_spec (p +:+ String TAB b) "files:") as [E|_].
  { exfalso. apply (find_tab_line p b). rewrite E. reflexivity. }
  cbn [negb]. destruct (find "=" (p +:+ String TAB b)) as [pos|] eqn:Hf;
    [|exists r; split; [reflexivity | exact Hr]].
  exists r. split; [|exact Hr]. f_equal. apply header_field_other. intros Hin.
  assert (Hs : starts_with (substr0 pos (p +:+ String TAB b) +:+ "=") p = true).
  { apply (starts_with_before_tab _ p b); [now apply header_key_no_tab|].
    rewrite (find_split _ _ _ Hf) at 2.
    replace (substr0 pos (p +:+ String TAB b)
             +:+ String "=" (substr (S pos) (p +:+ String TAB b)))
      with ((substr0 pos (p +:+ String TAB b) +:+ "=")
            +:+ substr (S pos) (p +:+ String TAB b))
      by (rewrite append_assoc; reflexivity).
    apply starts_with_app. }
  unfold shadows_header in Hp.
  assert (Hex : existsb (fun key => starts_with (key +:+ "=") p) header_keys = true).
  { apply existsb_exists. eexists. split; [exact Hin | exact Hs]. }
  congruence.
Qed.

Lemma foreign_lines_keep_only_id (lines : list string) (r : CommitRecord) :
  only_id r -> Forall foreign_line lines ->
  exists r', fold_left readCommit_line lines (r, false) = (r', false) /\ only_id r'.
Proof.
  revert r. induction lines as [|line lines IH]; intros r Hr Hl.
  - exists r. split; [reflexivity | exact Hr].
  - inversion Hl as [|? ? Hline Hrest]; subst. cbn [fold_left].
    destruct Hline as [(label & value & Hin & ->) | (p & b & -> & Hp)].
    + rewrite colon_line_ignored by exact Hin. now apply IH.
    + destruct (file_line_keeps_only_id r p b Hr Hp) as (r' & -> & Hr').
      now apply IH.
Qed.

Lemma getlines_cons (a b rest : string) :
  find NL a = None -> find NL b = None ->
  getlines (a +:+ b +:+ nl +:+ rest) = (a +:+ b) :: getlines rest.
Proof.
  intros Ha Hb. unfold getlines.
  replace (a +:+ b +:+ nl +:+ rest) with ((a +:+ b) +:+ String NL rest)
    by (rewrite append_assoc; reflexivity).
  apply split_app_delim. apply find_app_None. now split.
Qed.

Lemma getlines_entry_lines (files : list (string * string)) :
  Forall (fun e : string * string => find NL e.1 = None /\ find NL e.2 = None) files ->
  getlines (entry_lines files) = map (fun e => e.1 +:+ String TAB e.2) files.
Proof.
  induction 1 as [|e files [H1 H2] _ IH]; [reflexivity|].
  unfold entry_lines in *. cbn [map concat_strings]. unfold entry_line at 1.
  replace ((e.1 +:+ tab +:+ e.2 +:+ nl) +:+ concat_strings (map entry_line files))
    with (e.1 +:+ String TAB e.2 +:+ nl +:+ concat_strings (map entry_line files))
    by (rewrite !append_assoc; reflexivity).
  rewrite getlines_cons; [now rewrite IH | exact H1 |].
  apply find_cons_None. split; [discriminate | exact H2].
Qed.

Lemma getlines_record_text (r : CommitRecord) :
  single_lines r ->
  getlines (record_text r) =
    ["id: " +:+ c_id r;
     "parent: " +:+ (if empty (c_parent r) then "null" else c_parent r);
     "author: " +:+ c_author r;
     "timestamp: " +:+ c_timestamp r;
     "branch: " +:+ c_branch r;
     "message: " +:+ c_message r]
    ++ map (fun e => e.1 +:+ String TAB e.2) (c_files r).
Proof.
  intros (Hi & Hp & Ha & Ht & Hm & Hb & Hf). unfold record_text.
  rewrite 6 getlines_cons; try reflexivity; try assumption.
  - now rewrite getlines_entry_lines.
  - destruct (empty (c_parent r)); [reflexivity | exact Hp].
Qed.

(** An object written by [mergeBranch] or [revertCommit] reads back as a
    record with nothing but an id. *)
Lemma readCommit_record_text fs repoRoot (commitId : string) (r : CommitRecord) :
  ifstream fs (object_file repoRoot commitId) = Some (record_text r) ->
  commitId <> "" ->
  single_lines r ->
  forallb (fun e : string * string => negb (shadows_header e.1)) (c_files r) = true ->
  only_id (readCommit fs repoRoot commitId).
Proof.
  intros Hobj Hid Hs Hfiles. unfold readCommit. rewrite Hobj.
  rewrite (getlines_record_text r Hs).
  destruct (foreign_lines_keep_only_id
              (["id: " +:+ c_id r;
                "parent: " +:+ (if empty (c_parent r) then "null" else c_parent r);
                "author: " +:+ c_author r;
                "timestamp: " +:+ c_timestamp r;
                "branch: " +:+ c_branch r;
                "message: " +:+ c_message r]
               ++ map (fun e => e.1 +:+ String TAB e.2) (c_files r))
              (set_id empty_record commitId)) as (r' & -> & Hr').
  - unfold only_id. cbn. tauto.
  - apply Forall_app. split.
    + repeat (apply Forall_cons; split;
              [left; eexists _, _; split; [|reflexivity]; cbn; tauto|]).
      apply Forall_nil. exact I.
    + apply Forall_forall. intros line Hin. apply list_elem_of_In, in_map_iff in Hin.
      destruct Hin as (e & <- & Hin). right. exists e.1, e.2. split; [reflexivity|].
      rewrite forallb_forall in Hfiles. specialize (Hfiles e Hin).
      now apply negb_true_iff in Hfiles.
  - exact Hr'.
Qed.

End ReadCommit.

Section ReadBack.

Implicit Types (fs : gmap (list string) node) (repoRoot : list string).

Lemma readCommit_line_fields (st : CommitRecord * bool) (line : string) :
  find NL line = None -> line_fields st.1 -> line_fields (readCommit_line st line).1.
Proof.
  destruct st as [r s]. cbn [fst]. intros Hl [Hm Hf]. unfold readCommit_line.
  destruct (starts_with "id=" line); [split; assumption|].
  destruct (String.eqb line "files:"); [split; assumption|].
  destruct s; cbn [negb fst].
  - destruct (split TAB line) as [|a [|b [|c l]]] eqn:E; try (split; assumption).
    split; [exact Hm|]. cbn. apply Forall_app. split; [exact Hf|].
    apply Forall_cons; split; [|constructor]. cbn.
    split; apply (split_tokens_free_other TAB NL line); try exact Hl;
      rewrite E; cbn; tauto.
  - destruct (find "=" line) as [pos|]; [|split; assumption].
    cbn [fst]. unfold header_field.
    repeat match goal with
           | |- context [String.eqb ?a ?b] => destruct (String.eqb a b)
           end; try (split; assumption).
    split; [|exact Hf]. cbn -[substr]. now apply substr_find.
Qed.

Lemma fold_line_fields (lines : list string) (st : CommitRecord * bool) :
  Forall (fun line => find NL line = None) lines -> line_fields st.1 ->
  line_fields (fold_left readCommit_line lines st).1.
Proof.
  revert st. induction lines as [|line lines IH]; intros st Hl Hst; [exact Hst|].
  inversion Hl; subst. cbn [fold_left]. apply IH; [assumption|].
  now apply readCommit_line_fields.
Qed.

Lemma readCommit_line_fields_all fs repoRoot (commitId : string) :
  line_fields (readCommit fs repoRoot commitId).
Proof.
  unfold readCommit. destruct (ifstream fs (object_file repoRoot commitId)) as [content|].
  - apply fold_line_fields.
    + apply Forall_forall. intros line Hin. apply list_elem_of_In in Hin.
      now apply (split_tokens_free NL content).
    + split; [reflexivity | constructor].
  - split; [reflexivity | constructor].
Qed.

Lemma merge_record_single_lines fs repoRoot (other ts_id ts : string) :
  find NL other = None -> find NL ts = None ->
  single_lines (merge_record fs repoRoot other ts_id ts).
Proof.
  intros Ho Ht. unfold single_lines, merge_record.
  cbn [c_id c_parent c_author c_timestamp c_message c_branch c_files].
  split; [apply sha256String_free; reflexivity|].
  split; [apply branchHead_free|].
  split; [reflexivity|]. split; [exact Ht|].
  split.
  { pose proof (currentBranch_free fs repoRoot) as Hc.
    repeat (apply find_app_None; split); try reflexivity; assumption. }
  split; [apply currentBranch_free|].
  apply readCommit_line_fields_all.
Qed.

Lemma revert_record_single_lines fs repoRoot (commitId author ts_id ts : string) :
  find NL author = None -> find NL ts = None ->
  single_lines (revert_record fs repoRoot commitId author ts_id ts).
Proof.
  intros Ha Ht. unfold single_lines, revert_record.
  cbn [c_id c_parent c_author c_timestamp c_message c_branch c_files].
  split; [apply sha256String_free; reflexivity|].
  split; [apply branchHead_free|].
  split; [exact Ha|]. split; [exact Ht|].
  split.
  { apply find_app_None. split; [reflexivity | apply readCommit_line_fields_all]. }
  split; [apply currentBranch_free|].
  destruct (empty (c_parent (readCommit fs repoRoot commitId))); [constructor|].
  apply readCommit_line_fields_all.
Qed.

Lemma history_loop_blank fs repoRoot (n : nat) : history_loop fs repoRoot n "" = [].
Proof. destruct n; reflexivity. Qed.

(** A record whose object holds the text [mergeBranch] and [revertCommit]
    write, read back. *)
Lemma foreign_record_read_back fs repoRoot (r : CommitRecord) (text : string) :
  c_id r = sha256String text ->
  single_lines r ->
  forallb (fun e : string * string => negb (shadows_header e.1)) (c_files r) = true ->
  ifstream fs (object_file repoRoot (c_id r)) = Some (record_text r) ->
  only_id (getCommit fs repoRoot (c_id r))
  /\ forall (b : string) n, branchHead fs repoRoot b = c_id r ->
       history fs repoRoot b (S n) = [getCommit fs repoRoot (c_id r)].
Proof.
  intros Hid Hs Hf Hread.
  assert (Hne : c_id r <> "") by (rewrite Hid; apply sha256String_nonempty).
  assert (Hex : commitExists fs repoRoot (c_id r) = true).
  { unfold commitExists, fs_exists. unfold ifstream in Hread.
    destruct (node_at fs (object_file repoRoot (c_id r))) as [[c|]|];
      [reflexivity | discriminate Hread | discriminate Hread]. }
  pose proof (readCommit_record_text fs repoRoot (c_id r) r Hread Hne Hs Hf) as Honly.
  unfold getCommit. rewrite Hex. split; [exact Honly|].
  intros b n Hhead. unfold history. rewrite Hhead. cbn [history_loop].
  apply empty_false in Hne. rewrite Hne, Hex. cbn [negb].
  destruct Honly as (Hi & Hp & _). apply empty_false in Hi. rewrite Hi, Hp.
  now rewrite history_loop_blank.
Qed.

End ReadBack.

Section ForeignRecords.

Implicit Types (fs : gmap (list string) node) (repoRoot : list string).

(** C9, counterexample.  alice commits a file named [author=eve], creates
    [feature] and merges it into [main]: the merge record read back by
    [getCommit] has an author, the text after "author=" in the file line.
    The same happens to a revert whose author holds a line end and to the
    merge of a branch whose name holds one.  In a repository without
    object directory the merge returns a record and no object is stored:
    [getCommit] returns a record without id, and [history] on a branch
    whose head is the id returns no record. *)
Lemma merge_read_back_counterexample :
  (succeeded shadow_merge.1 = true
   /\ c_files (record_of shadow_merge.1)
      = [("author=eve", "98ea6e4f216f2fb4b69fff9b3a44842c38686ca685f3f55dc48c5d3fb1107be4")]
   /\ c_author (getCommit shadow_merge.2 demo_repo (c_id (record_of shadow_merge.1)))
      = "eve" +:+ tab +:+ "98ea6e4f216f2fb4b69fff9b3a44842c38686ca685f3f55dc48c5d3fb1107be4")
  /\ (succeeded split_author_revert.1 = true
      /\ c_author (getCommit split_author_revert.2 demo_repo
                     (c_id (record_of split_author_revert.1))) = "eve")
  /\ (succeeded split_name_merge.1 = true
      /\ c_author (getCommit split_name_merge.2 demo_repo
                     (c_id (record_of split_name_merge.1))) = "eve' into 'main'")
  /\ (succeeded lost_merge.1 = true
      /\ c_id (record_of lost_merge.1) <> ""
      /\ c_id (getCommit lost_merge.2 demo_repo (c_id (record_of lost_merge.1))) = ""
      /\ branchHead lost_merge.2 demo_repo "main" = c_id (record_of lost_merge.1)
      /\ history lost_merge.2 demo_repo "main" 5 = []).
Proof.
  split; [vm_compute; repeat split; reflexivity|].
  split; [vm_compute; split; reflexivity|].
  split; [vm_compute; split; reflexivity|].
  vm_compute. split; [reflexivity|]. split; [discriminate|]. repeat split; reflexivity.
Qed.

(** C9, amended.  Take a record created by [mergeBranch] of a branch named
    by one path component, or by [revertCommit] of a commit id of one path
    component, where the branch name (for a merge), the author (for a
    revert) and the timestamp hold no line end, and no path of the file
    list of the record begins with "author=", "timestamp=", "branch=",
    "parent=" or "message=".  On every disk on which the object file of
    the record holds the text the call wrote, [getCommit] on its id returns
    a record in which only the id is set, and for every n >= 1 [history] on
    a branch, named by one path component, whose head is that commit
    returns exactly that one record. *)
Theorem merge_revert_read_back fs0 repoRoot fs :
  (forall (other ts_id ts : string) record fs',
      is_name other = true -> find NL other = None -> find NL ts = None ->
      mergeBranch fs0 repoRoot other ts_id ts = (Done record, fs') ->
      forallb (fun e : string * string => negb (shadows_header e.1)) (c_files record) = true ->
      ifstream fs (object_file repoRoot (c_id record)) = Some (record_text record) ->
      only_id (getCommit fs repoRoot (c_id record))
      /\ forall (b : string) n, is_name b = true -> branchHead fs repoRoot b = c_id record ->
           history fs repoRoot b (S n) = [getCommit fs repoRoot (c_id record)])
  /\ (forall (commitId author ts_id ts : string) record fs',
      is_name commitId = true -> find NL author = None -> find NL ts = None ->
      revertCommit fs0 repoRoot commitId author ts_id ts = (Done record, fs') ->
      forallb (fun e : string * string => negb (shadows_header e.1)) (c_files record) = true ->
      ifstream fs (object_file repoRoot (c_id record)) = Some (record_text record) ->
      only_id (getCommit fs repoRoot (c_id record))
      /\ forall (b : string) n, is_name b = true -> branchHead fs repoRoot b = c_id record ->
           history fs repoRoot b (S n) = [getCommit fs repoRoot (c_id record)]).
Proof.
  split.
  - intros other ts_id ts record fs' _ Ho Ht Hrun Hfiles Hread.
    rewrite mergeBranch_unfold in Hrun.
    destruct (String.eqb (currentBranch fs0 repoRoot) other); [discriminate|].
    destruct (empty (branchHead fs0 repoRoot other)); [discriminate|].
    injection Hrun as <- <-.
    destruct (foreign_record_read_back fs repoRoot (merge_record fs0 repoRoot other ts_id ts)
                (branchHead fs0 repoRoot other
                 +:+ branchHead fs0 repoRoot (currentBranch fs0 repoRoot) +:+ ts_id))
      as [H1 H2];
      [reflexivity | now apply merge_record_single_lines | exact Hfiles | exact Hread |].
    split; [exact H1|]. intros b n _. apply H2.
  - intros commitId author ts_id ts record fs' _ Ha Ht Hrun Hfiles Hread.
    rewrite revertCommit_unfold in Hrun.
    destruct (negb (commitExists fs0 repoRoot commitId)); [discriminate|].
    injection Hrun as <- <-.
    destruct (foreign_record_read_back fs repoRoot
                (revert_record fs0 repoRoot commitId author ts_id ts)
                (commitId +:+ branchHead fs0 repoRoot (currentBranch fs0 repoRoot) +:+ ts_id))
      as [H1 H2];
      [reflexivity | now apply revert_record_single_lines | exact Hfiles | exact Hread |].
    split; [exact H1|]. intros b n _. apply H2.
Qed.

Lemma done_eta {A : Type} (x : outcome CommitRecord * A) :
  succeeded x.1 = true -> x = (Done (record_of x.1), x.2).
Proof. destruct x as [[r|e] a]; [reflexivity | discriminate]. Defined.

Lemma merge_revert_read_back_witness :
  only_id (getCommit demo_merge.2 demo_repo (c_id (record_of demo_merge.1)))
  /\ branchHead demo_merge.2 demo_repo "main" = c_id (record_of demo_merge.1)
  /\ history demo_merge.2 demo_repo "main" 10
     = [getCommit demo_merge.2 demo_repo (c_id (record_of demo_merge.1))]
  /\ only_id (getCommit demo_revert.2 demo_repo (c_id (record_of demo_revert.1))).
Proof.
  destruct (merge_revert_read_back demo_branched demo_repo demo_merge.2) as [Hmerge _].
  destruct (merge_revert_read_back demo_branched demo_repo demo_revert.2) as [_ Hrevert].
  assert (Em : mergeBranch demo_branched demo_repo "feature" "2024-01-01T00:00:02"
                 "2024-01-01T00:00:02" = (Done (record_of demo_merge.1), demo_merge.2))
    by (apply (done_eta demo_merge); vm_compute; reflexivity).
  assert (Er : revertCommit demo_branched demo_repo (branchHead demo_branched demo_repo "main")
                 "alice" "2024-01-01T00:00:03" "2024-01-01T00:00:03"
               = (Done (record_of demo_revert.1), demo_revert.2))
    by (apply (done_eta demo_revert); vm_compute; reflexivity).
  assert (Fm : forallb (fun e : string * string => negb (shadows_header e.1))
                 (c_files (record_of demo_merge.1)) = true)
    by (vm_compute; reflexivity).
  assert (Fr : forallb (fun e : string * string => negb (shadows_header e.1))
                 (c_files (record_of demo_revert.1)) = true)
    by (vm_compute; reflexivity).
  assert (Om : ifstream demo_merge.2 (object_file demo_repo (c_id (record_of demo_merge.1)))
               = Some (record_text (record_of demo_merge.1))) by (vm_compute; reflexivity).
  assert (Or : ifstream demo_revert.2 (object_file demo_repo (c_id (record_of demo_revert.1)))
               = Some (record_text (record_of demo_revert.1))) by (vm_compute; reflexivity).
  assert (Hh : branchHead demo_merge.2 demo_repo "main" = c_id (record_of demo_merge.1))
    by (vm_compute; reflexivity).
  assert (Ni : is_name (branchHead demo_branched demo_repo "main") = true)
    by (vm_compute; reflexivity).
  destruct (Hmerge "feature" "2024-01-01T00:00:02" "2024-01-01T00:00:02" _ _
              eq_refl eq_refl eq_refl Em Fm Om) as [Hm1 Hm2].
  destruct (Hrevert (branchHead demo_branched demo_repo "main") "alice"
              "2024-01-01T00:00:03" "2024-01-01T00:00:03" _ _
              Ni eq_refl eq_refl Er Fr Or) as [Hr1 _].
  split; [exact Hm1|]. split; [exact Hh|].
  split; [exact (Hm2 "main" 9 eq_refl Hh) | exact Hr1].
Defined.

Lemma mergeBranch_spec_witness :
  repo_layout demo_branched demo_repo
  /\ is_name (currentBranch demo_branched demo_repo) = true
  /\ succeeded demo_merge.1 = true
  /\ c_parent (record_of demo_merge.1)
     = branchHead demo_branched demo_repo (currentBranch demo_branched demo_repo)
  /\ c_author (record_of demo_merge.1) = "merge"
  /\ c_files (record_of demo_merge.1)
     = c_files (readCommit demo_branched demo_repo (branchHead demo_branched demo_repo "feature"))
  /\ branchHead demo_merge.2 demo_repo (currentBranch demo_branched demo_repo)
     = c_id (record_of demo_merge.1)
  /\ succeeded (mergeBranch demo_branched demo_repo "main" "2024-01-01T00:00:02"
                            "2024-01-01T00:00:02").1 = false
  /\ (mergeBranch demo_branched demo_repo "main" "2024-01-01T00:00:02"
                  "2024-01-01T00:00:02").2 = demo_branched.
Proof.
  assert (L : repo_layout demo_branched demo_repo)
    by (apply demo_layout; vm_compute; reflexivity).
  assert (N : is_name (currentBranch demo_branched demo_repo) = true)
    by (vm_compute; reflexivity).
  assert (S : succeeded demo_merge.1 = true) by (vm_compute; reflexivity).
  pose proof (f_equal fst (done_eta demo_merge S)) as Em. cbn [fst] in Em.
  destruct (mergeBranch_spec demo_branched demo_repo "feature" "2024-01-01T00:00:02"
              "2024-01-01T00:00:02") as (_ & _ & Hdone).
  destruct (Hdone (record_of demo_merge.1) Em) as (Hp & Ha & _ & _ & Hf & Hstore).
  destruct (Hstore L N) as [_ Hhead].
  destruct (mergeBranch_spec demo_branched demo_repo "main" "2024-01-01T00:00:02"
              "2024-01-01T00:00:02") as (Hfail & Hsame & _).
  assert (F : succeeded (mergeBranch demo_branched demo_repo "main" "2024-01-01T00:00:02"
                           "2024-01-01T00:00:02").1 = false).
  { apply Hfail. left. vm_compute. reflexivity. }
  split; [exact L|]. split; [exact N|]. split; [exact S|]. split; [exact Hp|].
  split; [exact Ha|]. split; [exact Hf|]. split; [exact Hhead|].
  split; [exact F | exact (Hsame F)].
Defined.

(** C2.  The object [commit] writes satisfies invariant I2, the objects
    [mergeBranch] and [revertCommit] write do not: their id is the digest of
    the two head ids and a timestamp, not of the body they store. *)
Theorem merge_revert_id_not_body_hash :
  id_is_body_hash demo_committed demo_repo (branchHead demo_committed demo_repo "main") = true
  /\ succeeded demo_merge.1 = true
  /\ ifstream demo_merge.2 (object_file demo_repo (c_id (record_of demo_merge.1)))
     = Some (record_text (record_of demo_merge.1))
  /\ id_is_body_hash demo_merge.2 demo_repo (c_id (record_of demo_merge.1)) = false
  /\ succeeded demo_revert.1 = true
  /\ ifstream demo_revert.2 (object_file demo_repo (c_id (record_of demo_revert.1)))
     = Some (record_text (record_of demo_revert.1))
  /\ id_is_body_hash demo_revert.2 demo_repo (c_id (record_of demo_revert.1)) = false.
Proof. vm_compute. repeat split; reflexivity. Qed.

(** C3.  Two merges in a row lose the files.  alice merges [feature] into
    [main]: the merge commit lists a.txt.  She checks [feature] out and
    merges [main], whose head is that merge commit: the call succeeds, and
    the record it creates lists no file, although the head commit of [main]
    lists one.  [mergeBranch] takes the files from [readCommit], which does
    not read the file lines of an object that [mergeBranch] wrote.  And
    after the terminal command [checkout a/b] the merge of [feature]
    succeeds while no head is written for the current branch [a/b]:
    [mergeBranch] does not look at what [updateBranchHead] returns. *)
Theorem merge_of_merge_loses_files :
  (succeeded demo_slash_merge.1 = true
   /\ c_branch (record_of demo_slash_merge.1) = "a/b"
   /\ ifstream demo_slash_merge.2 (ref_file demo_repo "a/b") = None
   /\ branchHead demo_slash_merge.2 demo_repo "a/b" = "")
  /\ succeeded demo_merge.1 = true
  /\ c_files (record_of demo_merge.1)
     = [("a.txt", "98ea6e4f216f2fb4b69fff9b3a44842c38686ca685f3f55dc48c5d3fb1107be4")]
  /\ currentBranch demo_on_feature demo_repo = "feature"
  /\ branchHead demo_on_feature demo_repo "main" = c_id (record_of demo_merge.1)
  /\ ifstream demo_on_feature (object_file demo_repo (c_id (record_of demo_merge.1)))
     = Some (record_text (record_of demo_merge.1))
  /\ c_files (readCommit demo_on_feature demo_repo (branchHead demo_on_feature demo_repo "main"))
     = []
  /\ succeeded demo_second_merge.1 = true
  /\ c_files (record_of demo_second_merge.1) = []
  /\ branchHead demo_second_merge.2 demo_repo "feature" = c_id (record_of demo_second_merge.1).
Proof.
  split; [vm_compute; repeat split; reflexivity|].
  vm_compute. repeat split; reflexivity.
Qed.

End ForeignRecords.

(** ** Checkout, staging, transfer *)

Section Handlers.

Implicit Types (fs : gmap (list string) node) (repoRoot : list string).

(** C5.  After [create_repo] HEAD names [main], whose head file exists.  The
    command [checkout ghost] succeeds although no branch [ghost] exists, and
    leaves a HEAD that names a branch without a file under refs/heads/. *)
Theorem checkout_breaks_head_validity :
  let result :=
    handleCheckoutCommand demo_created demo_storage (Some demo_alice) demo_storage
                          "ghost" (Some "proj") in
  head_valid demo_created demo_repo = true
  /\ result.1 = Reply "Switched to branch: ghost"
  /\ ifstream result.2 (head_file demo_repo) = Some ("ref: ghost" +:+ nl)
  /\ currentBranch result.2 demo_repo = "ghost"
  /\ fs_exists result.2 (ref_file demo_repo "ghost") = false
  /\ head_valid result.2 demo_repo = false.
Proof. vm_compute. repeat split; reflexivity. Qed.

(** [setCurrentBranch] writes HEAD whatever the name is. *)
Lemma setCurrentBranch_unchecked fs repoRoot (branch : string) :
  is_directory fs (glite_dir repoRoot) = true ->
  is_directory fs (head_file repoRoot) = false ->
  ifstream (setCurrentBranch fs repoRoot branch) (head_file repoRoot)
  = Some ("ref: " +:+ branch +:+ nl).
Proof.
  intros Hg Hh. unfold setCurrentBranch.
  rewrite (write_file_at fs (head_file repoRoot) (normalize repoRoot) [".glite"] "HEAD");
    [| apply norm_head
     | rewrite lookup_node_app by discriminate;
       eapply is_directory_true; [apply norm_glite | now apply app_nonempty | exact Hg]
     | eapply is_directory_false; [apply norm_head | now apply app_nonempty | exact Hh] ].
  cbn [fst].
  rewrite (ifstream_at _ _ (normalize repoRoot ++ [".glite"; "HEAD"]));
    [| apply norm_head | now apply app_nonempty].
  rewrite lookup_insert_eq. reflexivity.
Qed.

(** C6.  [addFile] with a path that leaves workspace/ through ".." succeeds:
    the registry of the users, three directories above the workspace, is
    read, copied to the object directory and staged under the escaping
    path. *)
Theorem addFile_escapes_workspace :
  let result := addFile demo_committed demo_repo "../../../users.tsv" in
  readIndex demo_committed demo_repo = []
  /\ commitExists demo_committed demo_repo (sha256String demo_users) = false
  /\ result.1 = Done "File staged: ../../../users.tsv"
  /\ readIndex result.2 demo_repo = [("../../../users.tsv", sha256String demo_users)]
  /\ ifstream result.2 (object_file demo_repo (sha256String demo_users)) = Some demo_users.
Proof. vm_compute. repeat split; reflexivity. Qed.

(** C7.  [handleTransferCommand] looks the repository up in the namespace
    of the session only: whoever the user is, admin or not, a repository
    that is not in the user's own namespace is not transferred, and the
    disk is unchanged. *)
Theorem transfer_needs_own_repository fs (storageRoot : list string) (user : User)
    (repo newOwner : string) :
  repoExists fs storageRoot (username user) repo = false ->
  exists text,
    handleTransferCommand fs storageRoot (Some user) repo newOwner = (Reply text, fs)
    /\ starts_with "Error: " text = true.
Proof.
  intros H. unfold handleTransferCommand. rewrite H. cbn [negb andb].
  destruct (String.eqb (role user) "admin"); cbn [negb andb].
  - destruct (userExists fs storageRoot newOwner); cbn [negb];
      eexists; (split; [reflexivity|]); reflexivity.
  - eexists; (split; [reflexivity|]); reflexivity.
Qed.

Lemma transfer_needs_own_repository_witness :
  role demo_alice = "admin"
  /\ repoExists demo_two_repos demo_storage "bob" "lib" = true
  /\ userExists demo_two_repos demo_storage "carol" = true
  /\ repoExists demo_two_repos demo_storage "carol" "lib" = false
  /\ (handleTransferCommand demo_two_repos demo_storage (Some demo_alice) "lib" "carol").1
     = Reply "Error: Repository not found."
  /\ exists text,
       handleTransferCommand demo_two_repos demo_storage (Some demo_alice) "lib" "carol"
       = (Reply text, demo_two_repos)
       /\ starts_with "Error: " text = true.
Proof.
  split; [reflexivity|]. split; [vm_compute; reflexivity|].
  split; [vm_compute; reflexivity|]. split; [vm_compute; reflexivity|].
  split; [vm_compute; reflexivity|].
  apply (transfer_needs_own_repository demo_two_repos demo_storage demo_alice "lib" "carol").
  vm_compute. reflexivity.
Defined.

(** The owner's transfer, for comparison: alice hands [proj] to carol; the
    directory moves and the key of the permission map follows. *)
Example transfer_by_owner :
  let result := handleTransferCommand demo_two_repos demo_storage (Some demo_alice)
                                      "proj" "carol" in
  result.1 = Reply "Repository transferred to 'carol'."
  /\ repoExists result.2 demo_storage "alice" "proj" = false
  /\ repoExists result.2 demo_storage "carol" "proj" = true
  /\ ifstream result.2 (head_file (repoPath demo_storage "carol" "proj"))
     = Some ("ref: main" +:+ nl)
  /\ ifstream result.2 (permissions_file demo_storage)
     = Some ("carol/proj" +:+ tab +:+ "bob" +:+ nl).
Proof. vm_compute. repeat split; reflexivity. Qed.

End Handlers.

(** ** The permission gate *)

Section Access.

Implicit Types (fs : gmap (list string) node) (storageRoot : list string).

Lemma hasWriteAccess_iff fs storageRoot (user : User) (owner repo : string) :
  hasWriteAccess fs storageRoot (Some user) owner repo = true
  <-> role user = "admin" \/ username user = owner
      \/ exists collaborators,
           loadPermissions fs storageRoot !! (owner +:+ "/" +:+ repo) = Some collaborators
           /\ username user ∈ collaborators.
Proof.
  unfold hasWriteAccess.
  destruct (String.eqb_spec (role user) "admin") as [Ha|Ha]; [tauto|].
  destruct (String.eqb_spec (username user) owner) as [Ho|Ho]; [tauto|].
  destruct (loadPermissions fs storageRoot !! (owner +:+ "/" +:+ repo)) as [cs|].
  - rewrite bool_decide_eq_true. split.
    + intros H. right. right. exists cs. split; [reflexivity | exact H].
    + intros [H|[H|(cs' & [= <-] & H)]]; [contradiction | contradiction | exact H].
  - split; [discriminate|].
    intros [H|[H|(cs' & [=] & _)]]; contradiction.
Qed.

Lemma access_gate_iff fs storageRoot (session_ : option User) (requireWriteAccess : bool)
    (owner repoName : string) (repoRoot : list string) :
  succeeded (access_gate fs storageRoot session_ requireWriteAccess owner repoName repoRoot) = true
  <-> (if requireWriteAccess
       then hasWriteAccess fs storageRoot session_ owner repoName = true
       else hasWriteAccess fs storageRoot session_ owner repoName = true
            \/ getVisibility fs storageRoot owner repoName = "public").
Proof.
  unfold access_gate, isPublic.
  destruct (hasWriteAccess fs storageRoot session_ owner repoName), requireWriteAccess;
    cbn [negb andb orb succeeded]; try tauto.
  destruct (String.eqb_spec (getVisibility fs storageRoot owner repoName) "public") as [E|E];
    cbn [negb andb succeeded].
  - tauto.
  - split; [discriminate | intros [H|H]; [discriminate | contradiction]].
Qed.

(** The permission gate on a repository of the storage named by an
    identifier: write access is granted exactly to an admin, to the owner
    named in the identifier, and to a member of the collaborator set stored
    under the key <owner>/<repo>; a request that requires write access passes
    [resolveRepoContext] exactly with write access, and a read-only one
    passes exactly with write access or when the visibility is "public". *)
Lemma access_spec fs storageRoot (user : User) (currentDir_ : list string)
    (identifier owner repo : string) :
  parseRepoIdentifier identifier (username user) = Some (owner, repo) ->
  repoExists fs storageRoot owner repo = true ->
  let granted :=
    role user = "admin" \/ username user = owner
    \/ exists collaborators,
         loadPermissions fs storageRoot !! (owner +:+ "/" +:+ repo) = Some collaborators
         /\ username user ∈ collaborators in
  (hasWriteAccess fs storageRoot (Some user) owner repo = true <-> granted)
  /\ (succeeded (resolveRepoContext fs storageRoot (Some user) currentDir_
                   (Some identifier) true) = true <-> granted)
  /\ (succeeded (resolveRepoContext fs storageRoot (Some user) currentDir_
                   (Some identifier) false) = true
      <-> granted \/ getVisibility fs storageRoot owner repo = "public").
Proof.
  intros Hid Hex. cbv zeta.
  pose proof (hasWriteAccess_iff fs storageRoot user owner repo) as Hw.
  split; [exact Hw|].
  unfold resolveRepoContext. rewrite Hid, Hex. cbn [negb].
  rewrite !access_gate_iff. rewrite Hw. tauto.
Qed.

Lemma access_spec_witness :
  parseRepoIdentifier "alice/proj" "bob" = Some ("alice", "proj")
  /\ repoExists demo_committed demo_storage "alice" "proj" = true
  /\ succeeded (resolveRepoContext demo_committed demo_storage (Some demo_bob) demo_storage
                  (Some "alice/proj") true) = true
  /\ succeeded (resolveRepoContext demo_committed demo_storage (Some demo_carol) demo_storage
                  (Some "alice/proj") true) = false
  /\ succeeded (resolveRepoContext demo_committed demo_storage (Some demo_carol) demo_storage
                  (Some "alice/proj") false) = false.
Proof.
  assert (P : parseRepoIdentifier "alice/proj" (username demo_bob) = Some ("alice", "proj"))
    by reflexivity.
  assert (E : repoExists demo_committed demo_storage "alice" "proj" = true)
    by (vm_compute; reflexivity).
  destruct (access_spec demo_committed demo_storage demo_bob demo_storage
              "alice/proj" "alice" "proj" P E) as (_ & Hwrite & _).
  split; [exact P|]. split; [exact E|].
  split; [| split; vm_compute; reflexivity].
  apply Hwrite. right. right.
  exists (loadPermissions demo_committed demo_storage !!! ("alice" +:+ "/" +:+ "proj")).
  split; [vm_compute; reflexivity|].
  assert (M : bool_decide (username demo_bob
                           ∈ loadPermissions demo_committed demo_storage
                               !!! ("alice" +:+ "/" +:+ "proj")) = true)
    by (vm_compute; reflexivity).
  exact (bool_decide_eq_true_1 _ M).
Defined.

(** C4.  carol is no admin, does not own alice/proj and is not among its
    collaborators: she has no write access, and [resolveRepoContext], asked
    for write access in the directory of alice/proj, refuses her.  The
    terminal command [commit], which she runs in that directory, does not
    ask: it creates a commit whose author is carol in alice's repository and
    moves the head of [main].  And once carol has a repository of her own,
    the gate takes her for the owner of the identifier
    "carol/../alice/proj", which names alice's repository: her [checkout]
    rewrites its HEAD. *)
Theorem commit_command_skips_gate :
  (hasWriteAccess demo_carol_own demo_storage (Some demo_carol) "alice" "proj" = false
   /\ resolveRepoContext demo_carol_own demo_storage (Some demo_carol) demo_storage
        (Some "alice/proj") true
      = Failed (Message "Error: You don't have permission to modify 'alice/proj'.")
   /\ parseRepoIdentifier "carol/../alice/proj" "carol" = Some ("carol", "../alice/proj")
   /\ is_directory demo_carol_own (demo_storage ++ ["carol"]) = true
   /\ currentBranch demo_carol_own demo_repo = "main"
   /\ (handleCheckoutCommand demo_carol_own demo_storage (Some demo_carol) demo_storage
         "x" (Some "carol/../alice/proj")).1 = Reply "Switched to branch: x"
   /\ currentBranch (handleCheckoutCommand demo_carol_own demo_storage (Some demo_carol)
                       demo_storage "x" (Some "carol/../alice/proj")).2 demo_repo = "x")
  /\ hasWriteAccess demo_staged demo_storage (Some demo_carol) "alice" "proj" = false
  /\ resolveRepoContext demo_staged demo_storage (Some demo_carol) demo_repo None true
     = Failed (Message "Error: You don't have permission to modify 'alice/proj'.")
  /\ branchHead demo_staged demo_repo "main" = ""
  /\ (handleCommitCommand demo_staged (Some demo_carol) demo_repo "c1"
                          "2024-01-01T00:00:01").1
     = Reply "Commit created: f803a6cd3048..."
  /\ branchHead (handleCommitCommand demo_staged (Some demo_carol) demo_repo "c1"
                                     "2024-01-01T00:00:01").2 demo_repo "main"
     = "f803a6cd3048afefa2952159721b6658311e52ee18d2098d9a2d3fbea06d54b2"
  /\ c_author (getCommit (handleCommitCommand demo_staged (Some demo_carol) demo_repo "c1"
                                              "2024-01-01T00:00:01").2 demo_repo
                         "f803a6cd3048afefa2952159721b6658311e52ee18d2098d9a2d3fbea06d54b2")
     = "carol".
Proof.
  split; [vm_compute; repeat split; reflexivity|].
  vm_compute. repeat split; reflexivity.
Qed.

End Access.

(** ** A file written beside the paths an operation uses *)

Section BesideFile.

Context (hp : list string) (h : string).

Implicit Types (fs : gmap (list string) node) (p : list string).

Lemma ofstream_target_same_dirs fs fs' p :
  same_dirs fs fs' -> ofstream_target fs' p = ofstream_target fs p.
Proof.
  intros Hs. unfold ofstream_target. destruct (normalize p) as [|x r]; [reflexivity|].
  pose proof (same_dirs_lookup_node fs fs' (removelast (x :: r)) Hs) as Hp.
  pose proof (Hs (x :: r)) as Hq.
  destruct (lookup_node fs' (removelast (x :: r))) as [[|]|],
           (lookup_node fs (removelast (x :: r))) as [[|]|];
    try reflexivity; try (exfalso; intuition congruence);
    destruct (fs' !! (x :: r)) as [[|]|], (fs !! (x :: r)) as [[|]|];
    try reflexivity; exfalso; intuition congruence.
Qed.

Lemma write_keeps_not_dir fs p (content : string) (k : list string) :
  fs !! k <> Some Dir -> (write_file fs p content).1 !! k <> Some Dir.
Proof. apply same_dirs_not_dir, write_file_same_dirs. Qed.

Lemma append_keeps_not_dir fs p (content : string) (k : list string) :
  fs !! k <> Some Dir -> (append_file fs p content).1 !! k <> Some Dir.
Proof. apply same_dirs_not_dir, append_file_same_dirs. Qed.

Lemma node_at_beside fs p :
  normalize p <> hp -> node_at (<[hp := File h]> fs) p = node_at fs p.
Proof.
  intros Hne. unfold node_at, lookup_node. destruct (normalize p); [reflexivity|].
  now rewrite lookup_insert_ne.
Qed.

Lemma ifstream_beside fs p :
  normalize p <> hp -> ifstream (<[hp := File h]> fs) p = ifstream fs p.
Proof. intros Hne. unfold ifstream. now rewrite node_at_beside. Qed.

Lemma fs_exists_beside fs p :
  normalize p <> hp -> fs_exists (<[hp := File h]> fs) p = fs_exists fs p.
Proof. intros Hne. unfold fs_exists. now rewrite node_at_beside. Qed.

Lemma write_file_beside fs p (content : string) :
  fs !! hp <> Some Dir -> normalize p <> hp ->
  write_file (<[hp := File h]> fs) p content
  = (<[hp := File h]> (write_file fs p content).1, (write_file fs p content).2).
Proof.
  intros Hd Hne. unfold write_file.
  rewrite (ofstream_target_same_dirs fs) by now apply same_dirs_insert_file.
  destruct (ofstream_target fs p) as [q|] eqn:E; [|reflexivity].
  apply ofstream_target_spec in E as (-> & _ & _). cbn [fst snd].
  now rewrite insert_insert_ne by congruence.
Qed.

Lemma append_file_beside fs p (content : string) :
  fs !! hp <> Some Dir -> normalize p <> hp ->
  append_file (<[hp := File h]> fs) p content
  = (<[hp := File h]> (append_file fs p content).1, (append_file fs p content).2).
Proof.
  intros Hd Hne. unfold append_file.
  rewrite (ofstream_target_same_dirs fs) by now apply same_dirs_insert_file.
  destruct (ofstream_target fs p) as [q|] eqn:E; [|reflexivity].
  apply ofstream_target_spec in E as (-> & _ & _). cbn [fst snd].
  rewrite lookup_insert_ne by congruence.
  now rewrite insert_insert_ne by congruence.
Qed.

Lemma mkdirs_beside fs (done rest : list string) :
  ~ hp `prefix_of` done ++ rest -> done <> hp ->
  mkdirs (<[hp := File h]> fs) done rest
  = (<[hp := File h]> (mkdirs fs done rest).1, (mkdirs fs done rest).2).
Proof.
  revert fs done. induction rest as [|c r IH]; intros fs done Hpre Hdone; [reflexivity|].
  cbn [mkdirs].
  assert (Hd : done ++ [c] <> hp).
  { intros <-. apply Hpre. exists r. now rewrite <- app_assoc. }
  rewrite lookup_insert_ne by congruence.
  destruct (fs !! (done ++ [c])) as [[|]|]; [reflexivity | |];
    (rewrite insert_insert_ne by congruence;
     apply IH; [now rewrite <- app_assoc | exact Hd]).
Qed.

Lemma mkdirs_keeps fs (done rest k : list string) :
  ~ k `prefix_of` done ++ rest -> (mkdirs fs done rest).1 !! k = fs !! k.
Proof.
  revert fs done. induction rest as [|c r IH]; intros fs done Hpre; [reflexivity|].
  cbn [mkdirs].
  assert (Hd : done ++ [c] <> k).
  { intros <-. apply Hpre. exists r. now rewrite <- app_assoc. }
  destruct (fs !! (done ++ [c])) as [[|]|]; [reflexivity | |];
    (rewrite IH by (now rewrite <- app_assoc); now rewrite lookup_insert_ne).
Qed.

End BesideFile.

(** ** A HEAD that names no branch *)

Section DegenerateHead.

Implicit Types (fs : gmap (list string) node) (repoRoot : list string).

Lemma head_resolved_nonempty repoRoot : normalize (head_file repoRoot) <> [].
Proof. rewrite norm_head. now apply app_nonempty. Qed.

Lemma index_beside_head repoRoot : normalize (index_file repoRoot) <> normalize (head_file repoRoot).
Proof. rewrite norm_index, norm_head. path_ne. Qed.

Lemma log_beside_head repoRoot : normalize (log_file repoRoot) <> normalize (head_file repoRoot).
Proof. rewrite norm_log, norm_head. path_ne. Qed.

Lemma object_beside_head repoRoot (n : string) :
  is_name n = true -> normalize (object_file repoRoot n) <> normalize (head_file repoRoot).
Proof. intros H. rewrite norm_object, norm_head by exact H. path_ne. Qed.

Lemma ref_beside_head repoRoot (n : string) :
  is_name n = true -> normalize (ref_file repoRoot n) <> normalize (head_file repoRoot).
Proof. intros H. rewrite norm_ref, norm_head by exact H. path_ne. Qed.

Lemma tag_beside_head repoRoot (n : string) :
  is_name n = true -> normalize (tag_file repoRoot n) <> normalize (head_file repoRoot).
Proof. intros H. rewrite norm_tag, norm_head by exact H. path_ne. Qed.

Lemma currentBranch_with_head_main fs repoRoot :
  currentBranch (with_head_main fs repoRoot) repoRoot = "main".
Proof.
  unfold currentBranch, with_head_main.
  rewrite (ifstream_at _ _ (normalize (head_file repoRoot)) eq_refl (head_resolved_nonempty _)).
  rewrite lookup_insert_eq. reflexivity.
Qed.

Lemma currentBranch_degenerate fs repoRoot :
  head_degenerate fs repoRoot -> currentBranch fs repoRoot = "main".
Proof.
  unfold head_degenerate, currentBranch, ifstream.
  destruct (node_at fs (head_file repoRoot)) as [[content|]|]; try reflexivity.
  destruct (first_line content) as [line|]; [|reflexivity].
  now intros ->.
Qed.

Lemma head_degenerate_not_dir fs repoRoot :
  head_degenerate fs repoRoot -> fs !! normalize (head_file repoRoot) <> Some Dir.
Proof.
  unfold head_degenerate, node_at, lookup_node.
  pose proof (head_resolved_nonempty repoRoot) as Hne.
  destruct (normalize (head_file repoRoot)) as [|x r]; [congruence|].
  destruct (fs !! (x :: r)) as [[|]|]; intros H; [discriminate | contradiction | discriminate].
Qed.

Lemma branchHead_on_head_main fs repoRoot (branch : string) :
  is_name branch = true ->
  branchHead (with_head_main fs repoRoot) repoRoot branch = branchHead fs repoRoot branch.
Proof.
  intros H. unfold branchHead, with_head_main.
  now rewrite ifstream_beside by now apply ref_beside_head.
Qed.

Lemma readIndex_on_head_main fs repoRoot :
  readIndex (with_head_main fs repoRoot) repoRoot = readIndex fs repoRoot.
Proof.
  unfold readIndex, with_head_main.
  now rewrite ifstream_beside by apply index_beside_head.
Qed.

Lemma readCommit_on_head_main fs repoRoot (commitId : string) :
  is_name commitId = true ->
  readCommit (with_head_main fs repoRoot) repoRoot commitId = readCommit fs repoRoot commitId.
Proof.
  intros H. unfold readCommit, with_head_main.
  now rewrite ifstream_beside by now apply object_beside_head.
Qed.

(** The three writes of a record, on the disk with the other HEAD. *)
Lemma store_record_on_head_main fs repoRoot (r : CommitRecord) :
  fs !! normalize (head_file repoRoot) <> Some Dir ->
  is_name (c_id r) = true -> is_name (c_branch r) = true ->
  store_record (with_head_main fs repoRoot) repoRoot r
  = with_head_main (store_record fs repoRoot r) repoRoot.
Proof.
  intros Hd Hi Hb. unfold store_record, updateBranchHead, appendLog, with_head_main.
  rewrite write_file_beside by (try assumption; now apply object_beside_head).
  cbn [fst].
  rewrite write_file_beside
    by (try (now apply ref_beside_head); now apply write_keeps_not_dir).
  cbn [fst].
  rewrite append_file_beside
    by (try apply log_beside_head; now do 2 apply write_keeps_not_dir).
  reflexivity.
Qed.

Lemma commit_on_head_main fs repoRoot (author message ts : string) :
  head_degenerate fs repoRoot ->
  commit (with_head_main fs repoRoot) repoRoot author message ts
  = on_head_main repoRoot (commit fs repoRoot author message ts).
Proof.
  intros Hdeg. pose proof (head_degenerate_not_dir fs repoRoot Hdeg) as Hd.
  unfold commit, on_head_main.
  rewrite readIndex_on_head_main, currentBranch_with_head_main,
    (currentBranch_degenerate fs repoRoot Hdeg).
  rewrite branchHead_on_head_main by reflexivity.
  destruct (readIndex fs repoRoot) as [|e es]; [reflexivity|].
  cbn [fst snd]. f_equal.
  unfold updateBranchHead, writeIndex, appendLog, with_head_main.
  rewrite write_file_beside
    by (try assumption; apply object_beside_head, sha256String_is_name).
  cbn [fst].
  rewrite write_file_beside
    by (try (now apply ref_beside_head); now apply write_keeps_not_dir).
  cbn [fst].
  rewrite write_file_beside
    by (try apply index_beside_head; now do 2 apply write_keeps_not_dir).
  cbn [fst].
  rewrite append_file_beside
    by (try apply log_beside_head; now do 3 apply write_keeps_not_dir).
  reflexivity.
Qed.

End DegenerateHead.

Section DegenerateHeadOps.

Implicit Types (fs : gmap (list string) node) (repoRoot : list string).

Lemma mergeBranch_on_head_main fs repoRoot (other ts_id ts : string) :
  head_degenerate fs repoRoot ->
  is_name other = true ->
  branchHead fs repoRoot other = "" \/ is_name (branchHead fs repoRoot other) = true ->
  mergeBranch (with_head_main fs repoRoot) repoRoot other ts_id ts
  = on_head_main repoRoot (mergeBranch fs repoRoot other ts_id ts).
Proof.
  intros Hdeg Ho Hhead. pose proof (head_degenerate_not_dir fs repoRoot Hdeg) as Hd.
  rewrite !mergeBranch_unfold. unfold on_head_main.
  rewrite currentBranch_with_head_main, (currentBranch_degenerate fs repoRoot Hdeg).
  rewrite (branchHead_on_head_main fs repoRoot other Ho).
  destruct (String.eqb "main" other); [reflexivity|].
  destruct (empty (branchHead fs repoRoot other)) eqn:He; [reflexivity|].
  destruct Hhead as [Hhead|Hhead]; [apply empty_false in He; contradiction|].
  assert (Hrec : merge_record (with_head_main fs repoRoot) repoRoot other ts_id ts
                 = merge_record fs repoRoot other ts_id ts).
  { unfold merge_record.
    rewrite currentBranch_with_head_main, (currentBranch_degenerate fs repoRoot Hdeg).
    rewrite (branchHead_on_head_main fs repoRoot other Ho).
    rewrite (branchHead_on_head_main fs repoRoot "main" eq_refl).
    now rewrite (readCommit_on_head_main fs repoRoot _ Hhead). }
  rewrite Hrec. cbn [fst snd]. f_equal.
  apply store_record_on_head_main; [exact Hd | apply sha256String_is_name |].
  unfold merge_record. cbn [c_branch].
  now rewrite (currentBranch_degenerate fs repoRoot Hdeg).
Qed.

Lemma rebaseBranch_on_head_main fs repoRoot (other : string) :
  head_degenerate fs repoRoot ->
  is_name other = true ->
  rebaseBranch (with_head_main fs repoRoot) repoRoot other
  = on_head_main repoRoot (rebaseBranch fs repoRoot other).
Proof.
  intros Hdeg Ho. pose proof (head_degenerate_not_dir fs repoRoot Hdeg) as Hd.
  unfold rebaseBranch, on_head_main.
  rewrite currentBranch_with_head_main, (currentBranch_degenerate fs repoRoot Hdeg).
  rewrite (branchHead_on_head_main fs repoRoot other Ho).
  destruct (String.eqb "main" other); [reflexivity|].
  destruct (empty (branchHead fs repoRoot other)); [reflexivity|].
  cbn [fst snd]. f_equal. unfold updateBranchHead, with_head_main.
  now rewrite write_file_beside by (try assumption; now apply ref_beside_head).
Qed.

Lemma createBranch_on_head_main fs repoRoot (branchName : string) :
  head_degenerate fs repoRoot ->
  is_name branchName = true ->
  createBranch (with_head_main fs repoRoot) repoRoot branchName
  = on_head_main repoRoot (createBranch fs repoRoot branchName).
Proof.
  intros Hdeg Hn. pose proof (head_degenerate_not_dir fs repoRoot Hdeg) as Hd.
  unfold createBranch, on_head_main.
  rewrite currentBranch_with_head_main, (currentBranch_degenerate fs repoRoot Hdeg).
  rewrite (branchHead_on_head_main fs repoRoot "main" eq_refl).
  unfold with_head_main at 1.
  rewrite fs_exists_beside by now apply ref_beside_head.
  destruct (fs_exists fs (ref_file repoRoot branchName)); [reflexivity|].
  cbn [fst snd]. f_equal. unfold with_head_main.
  now rewrite write_file_beside by (try assumption; now apply ref_beside_head).
Qed.

Lemma head_not_below_tags repoRoot :
  ~ normalize (head_file repoRoot) `prefix_of` normalize (tags_dir repoRoot).
Proof.
  rewrite norm_head, norm_tags. intros H%prefix_app_inv.
  apply prefix_cons_inv_2, prefix_cons_inv_1 in H. discriminate H.
Qed.

Lemma createTag_on_head_main fs repoRoot (tagName : string) :
  head_degenerate fs repoRoot ->
  is_name tagName = true ->
  createTag (with_head_main fs repoRoot) repoRoot tagName
  = on_head_main repoRoot (createTag fs repoRoot tagName).
Proof.
  intros Hdeg Hn. pose proof (head_degenerate_not_dir fs repoRoot Hdeg) as Hd.
  pose proof (head_not_below_tags repoRoot) as Hpre.
  unfold createTag, on_head_main, create_directories.
  unfold with_head_main at 1.
  rewrite mkdirs_beside by (try exact Hpre; apply not_eq_sym, head_resolved_nonempty).
  pose proof (mkdirs_keeps fs [] (normalize (tags_dir repoRoot))
                (normalize (head_file repoRoot)) Hpre) as Hkeep.
  destruct (mkdirs fs [] (normalize (tags_dir repoRoot))) as [fs1 ok].
  cbn [fst snd] in *.
  assert (Hdeg1 : head_degenerate fs1 repoRoot).
  { unfold head_degenerate, node_at, lookup_node in *.
    destruct (normalize (head_file repoRoot)); [exact Hdeg | now rewrite Hkeep]. }
  assert (Hd1 : fs1 !! normalize (head_file repoRoot) <> Some Dir) by now rewrite Hkeep.
  fold (with_head_main fs1 repoRoot).
  destruct ok; cbn [negb]; [|reflexivity].
  unfold with_head_main at 1.
  rewrite fs_exists_beside by now apply tag_beside_head.
  destruct (fs_exists fs1 (tag_file repoRoot tagName)); [reflexivity|].
  fold (with_head_main fs1 repoRoot).
  rewrite currentBranch_with_head_main, (currentBranch_degenerate fs1 repoRoot Hdeg1).
  rewrite (branchHead_on_head_main fs1 repoRoot "main" eq_refl).
  destruct (empty (branchHead fs1 repoRoot "main")); [reflexivity|].
  cbn [fst snd]. f_equal. unfold with_head_main.
  now rewrite write_file_beside by (try assumption; now apply tag_beside_head).
Qed.

(** C10, counterexample.  Three disks.  The first line of HEAD is
    " ref: dev": it does not begin with "ref:", and the current branch is
    reported as [dev].  HEAD does not begin with "ref:" and the head file
    of [feature] holds "../HEAD": [mergeBranch] reads HEAD as the commit of
    [feature] and records the file it lists, and records no file once HEAD
    holds "ref: main".  HEAD is missing and the name given is
    "../../HEAD": [createBranch] and [createTag] succeed, and fail once
    HEAD holds "ref: main"; [rebaseBranch] and [mergeBranch] fail, and
    succeed once HEAD holds "ref: main". *)
Lemma blank_head_counterexample :
  (first_line (" ref: dev" +:+ nl) = Some " ref: dev"
   /\ ifstream demo_blank_head (head_file demo_repo) = Some (" ref: dev" +:+ nl)
   /\ starts_with "ref:" " ref: dev" = false
   /\ currentBranch demo_blank_head demo_repo = "dev")
  /\ (ifstream demo_head_as_object (head_file demo_repo)
      = Some ("files:" +:+ nl +:+ "x" +:+ tab +:+ "y" +:+ nl)
      /\ currentBranch demo_head_as_object demo_repo = "main"
      /\ branchHead demo_head_as_object demo_repo "feature" = "../HEAD"
      /\ c_files (record_of (mergeBranch demo_head_as_object demo_repo "feature"
                               "2024-01-01T00:00:02" "2024-01-01T00:00:02").1)
         = [("x", "y")]
      /\ c_files (record_of (mergeBranch (with_head_main demo_head_as_object demo_repo)
                               demo_repo "feature"
                               "2024-01-01T00:00:02" "2024-01-01T00:00:02").1)
         = [])
  /\ (ifstream demo_no_head (head_file demo_repo) = None
      /\ currentBranch demo_no_head demo_repo = "main"
      /\ (createBranch demo_no_head demo_repo "../../HEAD").1 = Done tt
      /\ (createBranch (with_head_main demo_no_head demo_repo) demo_repo "../../HEAD").1
         = Failed (Message "Branch already exists.")
      /\ (createTag demo_no_head demo_repo "../../HEAD").1 = Done tt
      /\ (createTag (with_head_main demo_no_head demo_repo) demo_repo "../../HEAD").1
         = Failed (Message "Tag '../../HEAD' already exists.")
      /\ (rebaseBranch demo_no_head demo_repo "../../HEAD").1
         = Failed (Message "Branch '../../HEAD' has no commits.")
      /\ (rebaseBranch (with_head_main demo_no_head demo_repo) demo_repo "../../HEAD").1
         = Done tt
      /\ succeeded (mergeBranch demo_no_head demo_repo "../../HEAD"
                                "2024-01-01T00:00:02" "2024-01-01T00:00:02").1 = false
      /\ succeeded (mergeBranch (with_head_main demo_no_head demo_repo) demo_repo
                                "../../HEAD" "2024-01-01T00:00:02" "2024-01-01T00:00:02").1
         = true).
Proof.
  split; [vm_compute; repeat split; reflexivity|].
  split; vm_compute; repeat split; reflexivity.
Qed.

(** C10, amended.  When HEAD is missing, empty, or its first line does not
    begin with "ref:" once the blanks around it are trimmed, the current
    branch is "main", and [commit], [mergeBranch], [rebaseBranch],
    [createBranch] and [createTag] return what they return on the same
    disk with a HEAD that holds "ref: main", and leave the same disk apart
    from HEAD; this for a branch or tag name given to them that is one
    plain path component and, for [mergeBranch], when the head stored for
    the other branch is empty or one plain path component. *)
Theorem degenerate_head_is_main fs repoRoot :
  head_degenerate fs repoRoot ->
  currentBranch fs repoRoot = "main"
  /\ currentBranch (with_head_main fs repoRoot) repoRoot = "main"
  /\ (forall author message ts : string,
        commit (with_head_main fs repoRoot) repoRoot author message ts
        = on_head_main repoRoot (commit fs repoRoot author message ts))
  /\ (forall other ts_id ts : string,
        is_name other = true ->
        branchHead fs repoRoot other = "" \/ is_name (branchHead fs repoRoot other) = true ->
        mergeBranch (with_head_main fs repoRoot) repoRoot other ts_id ts
        = on_head_main repoRoot (mergeBranch fs repoRoot other ts_id ts))
  /\ (forall other : string,
        is_name other = true ->
        rebaseBranch (with_head_main fs repoRoot) repoRoot other
        = on_head_main repoRoot (rebaseBranch fs repoRoot other))
  /\ (forall branchName : string,
        is_name branchName = true ->
        createBranch (with_head_main fs repoRoot) repoRoot branchName
        = on_head_main repoRoot (createBranch fs repoRoot branchName))
  /\ (forall tagName : string,
        is_name tagName = true ->
        createTag (with_head_main fs repoRoot) repoRoot tagName
        = on_head_main repoRoot (createTag fs repoRoot tagName)).
Proof.
  intros Hdeg.
  split; [now apply currentBranch_degenerate|].
  split; [apply currentBranch_with_head_main|].
  split; [intros; now apply commit_on_head_main|].
  split; [intros; now apply mergeBranch_on_head_main|].
  split; [intros; now apply rebaseBranch_on_head_main|].
  split; [intros; now apply createBranch_on_head_main|].
  intros; now apply createTag_on_head_main.
Qed.

Lemma degenerate_head_is_main_witness :
  head_degenerate demo_empty_head demo_repo
  /\ currentBranch demo_empty_head demo_repo = "main"
  /\ commit (with_head_main demo_empty_head demo_repo) demo_repo "alice" "c1"
            "2024-01-01T00:00:01"
     = on_head_main demo_repo
         (commit demo_empty_head demo_repo "alice" "c1" "2024-01-01T00:00:01")
  /\ createTag (with_head_main demo_empty_head demo_repo) demo_repo "v1"
     = on_head_main demo_repo (createTag demo_empty_head demo_repo "v1").
Proof.
  assert (D : head_degenerate demo_empty_head demo_repo) by (vm_compute; exact I).
  destruct (degenerate_head_is_main demo_empty_head demo_repo D)
    as (Hmain & _ & Hcommit & _ & _ & _ & Htag).
  split; [exact D|]. split; [exact Hmain|].
  split; [apply Hcommit | apply Htag; reflexivity].
Defined.

End DegenerateHeadOps.

(** ** Resolved paths, removal and creation of directories *)

Section Paths.

Implicit Types (fs : gmap (list string) node) (p q k x F T : list string).

Lemma plain_removelast k :
  Forall (fun c => plain c = true) k -> Forall (fun c => plain c = true) (removelast k).
Proof.
  destruct k as [|c k _] using rev_ind; [trivial|].
  rewrite removelast_snoc. now intros [H _]%Forall_app.
Qed.

Lemma resolve_keeps_plain (s acc : list string) :
  Forall (fun c => plain c = true) acc ->
  Forall (fun c => plain c = true) (fold_left resolve_step s acc).
Proof.
  revert acc. induction s as [|c s IH]; intros acc H; [exact H|].
  cbn [fold_left]. apply IH. unfold resolve_step.
  destruct (String.eqb c "") eqn:E1; [exact H|].
  destruct (String.eqb c ".") eqn:E2; [exact H|]. cbn [orb].
  destruct (String.eqb c "..") eqn:E3; [now apply plain_removelast|].
  apply Forall_app. split; [exact H|]. constructor; [|constructor].
  unfold plain. now rewrite E1, E2, E3.
Qed.

Lemma normalize_plain p : Forall (fun c => plain c = true) (normalize p).
Proof. apply resolve_keeps_plain. constructor. Qed.

Lemma normalize_resolved p : Forall (fun c => plain c = true) p -> normalize p = p.
Proof. intros H. unfold normalize. now rewrite resolve_plain. Qed.

Lemma apart_app (P Q s t : list string) :
  ~ P `prefix_of` Q -> ~ Q `prefix_of` P -> ~ (P ++ s) `prefix_of` (Q ++ t).
Proof.
  intros HPQ HQP H.
  destruct (prefix_weak_total P Q (Q ++ t)) as [H1|H1]; try contradiction.
  - eapply prefix_app_l. exact H.
  - now apply prefix_app_r.
Qed.

Lemma sibling_not_prefix (P : list string) (a b : string) (s t : list string) :
  a <> b -> ~ (P ++ a :: s) `prefix_of` (P ++ b :: t).
Proof. intros Hab H%prefix_app_inv. now apply prefix_cons_inv_1 in H. Qed.

Lemma remove_all_lookup fs p x :
  remove_all fs p !! x = if decide (normalize p `prefix_of` x) then None else fs !! x.
Proof.
  unfold remove_all. apply option_eq. intros n.
  rewrite map_lookup_filter_Some. cbn [fst].
  destruct (decide (normalize p `prefix_of` x)) as [H|H]; [|tauto].
  split; [tauto | discriminate].
Qed.

Lemma elem_of_descendants fs F k (n : node) :
  (k, n) ∈ descendants fs F <-> fs !! k = Some n /\ F `prefix_of` k /\ k <> F.
Proof.
  unfold descendants, subtree.
  rewrite elem_of_map_to_list, lookup_delete_Some, map_lookup_filter_Some. cbn [fst].
  split; [intros (H1 & H2 & H3) | intros (H1 & H2 & H3)]; repeat split; try assumption;
    congruence.
Qed.

Lemma mkdirs_spec (rest : list string) : forall fs (done : list string),
  (forall x c, done `prefix_of` x -> x `prefix_of` done ++ rest -> x <> done ->
               fs !! x <> Some (File c)) ->
  exists fs', mkdirs fs done rest = (fs', true)
    /\ forall x, fs' !! x
                 = if decide (done `prefix_of` x /\ x `prefix_of` done ++ rest /\ x <> done)
                   then Some Dir else fs !! x.
Proof.
  induction rest as [|c r IH]; intros fs done Hfree.
  - exists fs. split; [reflexivity|]. intros x. rewrite app_nil_r.
    destruct (decide _) as [(H1 & H2 & H3)|_]; [|reflexivity].
    exfalso. apply H3. now apply (anti_symm prefix).
  - cbn [mkdirs].
    assert (Hd : forall f, fs !! (done ++ [c]) <> Some (File f)).
    { intros f. apply Hfree.
      - now apply prefix_app_r.
      - apply prefix_app, prefix_cons, prefix_nil.
      - intros E. apply (f_equal length) in E. rewrite length_app in E. cbn in E. lia. }
    destruct (IH (<[done ++ [c] := Dir]> fs) (done ++ [c])) as (fs' & Hrun & Hlook).
    { intros x f H1 H2 H3. rewrite lookup_insert_ne by (intros EE; symmetry in EE; contradiction).
      apply Hfree.
      - etransitivity; [|exact H1]. now apply prefix_app_r.
      - now rewrite <- app_assoc in H2.
      - intros ->. apply prefix_length in H1. rewrite length_app in H1. cbn in H1. lia. }
    exists fs'. split.
    { destruct (fs !! (done ++ [c])) as [[f|]|] eqn:E; [now destruct (Hd f) | exact Hrun..]. }
    intros x. rewrite Hlook. rewrite <- app_assoc. cbn [app].
    destruct (decide (x = done ++ [c])) as [->|Hx].
    + rewrite lookup_insert_eq.
      destruct (decide (done ++ [c] `prefix_of` done ++ [c] /\ _ /\ _)) as [(_ & _ & H)|_];
        [now destruct H|].
      rewrite decide_True; [reflexivity|].
      split; [now apply prefix_app_r|]. split; [apply prefix_app, prefix_cons, prefix_nil|].
      intros E. apply (f_equal length) in E. rewrite length_app in E. cbn in E. lia.
    + rewrite lookup_insert_ne by (intros EE; symmetry in EE; contradiction).
      destruct (decide (done ++ [c] `prefix_of` x /\ _ /\ _)) as [(H1 & H2 & H3)|Hn].
      * rewrite decide_True; [reflexivity|].
        split; [etransitivity; [|exact H1]; now apply prefix_app_r|]. split; [exact H2|].
        intros ->. apply prefix_length in H1. rewrite length_app in H1. cbn in H1. lia.
      * rewrite decide_False; [reflexivity|]. intros (H1 & H2 & H3). apply Hn.
        destruct H1 as [y ->]. apply prefix_app_inv in H2.
        destruct y as [|c' y]; [now rewrite app_nil_r in H3|].
        pose proof (prefix_cons_inv_1 _ _ _ _ H2) as ->.
        apply prefix_cons_inv_2 in H2.
        split; [exists y; now rewrite <- app_assoc|].
        split; [|exact Hx].
        change (done ++ c :: y) with (done ++ [c] ++ y). change (done ++ c :: r) with (done ++ [c] ++ r).
        now apply prefix_app, prefix_app.
Qed.

Lemma create_directories_spec fs p :
  (forall x c, x `prefix_of` normalize p -> x <> [] -> fs !! x <> Some (File c)) ->
  exists fs', create_directories fs p = (fs', true)
    /\ forall x, fs' !! x
                 = if decide (x `prefix_of` normalize p /\ x <> []) then Some Dir else fs !! x.
Proof.
  intros Hfree. unfold create_directories.
  destruct (mkdirs_spec (normalize p) fs []) as (fs' & Hrun & Hlook).
  { intros x c _ H1 H2. now apply Hfree. }
  exists fs'. split; [exact Hrun|]. intros x. rewrite Hlook. cbn [app].
  destruct (decide (x `prefix_of` normalize p /\ x <> [])) as [[H1 H2]|Hn].
  - rewrite decide_True; [reflexivity|]. split; [apply prefix_nil|]. now split.
  - rewrite decide_False; [reflexivity|]. intros (_ & H1 & H2). now apply Hn.
Qed.

End Paths.

(** ** Well-formed disks *)

Section WellFormed.

Implicit Types (fs : gmap (list string) node) (p q k x F T : list string).

Lemma removelast_prefix k : removelast k `prefix_of` k.
Proof.
  destruct k as [|c k _] using rev_ind; [reflexivity|].
  rewrite removelast_snoc. now apply prefix_app_r.
Qed.

Lemma snoc_nonempty (l : list string) (c : string) : l ++ [c] <> [].
Proof. now destruct l. Qed.

Lemma removelast_shorter k : k <> [] -> length (removelast k) < length k.
Proof.
  destruct k as [|c k _] using rev_ind; [congruence|]. intros _.
  rewrite removelast_snoc, length_app. cbn. lia.
Qed.

Lemma plain_prefix k x :
  x `prefix_of` k -> Forall (fun c => plain c = true) k -> Forall (fun c => plain c = true) x.
Proof. intros [s ->] H. now apply Forall_app in H as [H _]. Qed.

Lemma lookup_node_nonempty fs q : q <> [] -> lookup_node fs q = fs !! q.
Proof. now destruct q. Qed.

Lemma disk_wf_lookup fs k (n : node) :
  disk_wf fs -> fs !! k = Some n ->
  k <> [] /\ Forall (fun c => plain c = true) k /\ lookup_node fs (removelast k) = Some Dir.
Proof. intros Hwf Hk. exact (Hwf k n Hk). Qed.

Lemma disk_wf_ancestor fs (s a : list string) : forall n : node,
  disk_wf fs -> fs !! (a ++ s) = Some n -> a <> [] -> s <> [] -> fs !! a = Some Dir.
Proof.
  induction s as [|c s IH] using rev_ind; intros n Hwf Hk Ha Hs; [congruence|].
  destruct (disk_wf_lookup fs _ n Hwf Hk) as (_ & _ & Hparent).
  rewrite app_assoc, removelast_snoc in Hparent.
  destruct s as [|c' s].
  - rewrite app_nil_r in Hparent. now rewrite lookup_node_nonempty in Hparent.
  - rewrite lookup_node_app in Hparent by discriminate.
    apply (IH Dir); [assumption.. | discriminate].
Qed.

Lemma disk_wf_below_missing fs T x :
  disk_wf fs -> T <> [] -> fs !! T = None -> T `prefix_of` x -> fs !! x = None.
Proof.
  intros Hwf HT Hnone [s ->].
  destruct s as [|c s]; [now rewrite app_nil_r|].
  destruct (fs !! (T ++ c :: s)) as [n|] eqn:E; [|reflexivity].
  rewrite (disk_wf_ancestor fs (c :: s) T n Hwf E HT) in Hnone; [discriminate|discriminate].
Qed.

(** A disk given entry by entry is well formed when every entry is. *)
Lemma disk_wf_pointwise fs (g : list string -> option node) :
  (forall x, fs !! x = g x) ->
  (forall x n, g x = Some n ->
     x <> [] /\ Forall (fun c => plain c = true) x
     /\ (removelast x = [] \/ g (removelast x) = Some Dir)) ->
  disk_wf fs.
Proof.
  intros Hg Hwf x n Hx. rewrite Hg in Hx. destruct (Hwf x n Hx) as (H1 & H2 & H3).
  split; [exact H1|]. split; [exact H2|].
  destruct H3 as [-> | H3]; [reflexivity|].
  destruct (removelast x) eqn:E; [reflexivity|]. rewrite <- E in *.
  rewrite lookup_node_nonempty by (rewrite E; discriminate). now rewrite Hg.
Qed.

(** *** Entries of [cleared] and [grafted] *)

Lemma cleared_above fs T x : x `prefix_of` T -> x <> [] -> cleared fs T x = Some Dir.
Proof. intros H1 H2. unfold cleared. now rewrite decide_True. Qed.

Lemma cleared_beside fs T x :
  ~ T `prefix_of` x -> ~ x `prefix_of` T -> cleared fs T x = fs !! x.
Proof.
  intros H1 H2. unfold cleared.
  rewrite decide_False by tauto. now rewrite decide_False.
Qed.

Lemma grafted_at fs F T : grafted fs F T T = Some Dir.
Proof. unfold grafted. rewrite decide_True by reflexivity. now rewrite decide_True. Qed.

Lemma grafted_above fs F T x : x `prefix_of` T -> x <> [] -> grafted fs F T x = Some Dir.
Proof.
  intros H1 H2. unfold grafted. destruct (decide (T `prefix_of` x)) as [H|H].
  - assert (x = T) as -> by now apply (anti_symm prefix). now rewrite decide_True.
  - now rewrite decide_True.
Qed.

Lemma grafted_below fs F T (rel : list string) :
  rel <> [] -> grafted fs F T (T ++ rel) = fs !! (F ++ rel).
Proof.
  intros H. unfold grafted. rewrite decide_True by now apply prefix_app_r.
  rewrite decide_False.
  - now rewrite drop_app_length.
  - intros E. apply H. apply (app_inv_head T). now rewrite app_nil_r.
Qed.

Lemma grafted_off fs F T x :
  ~ T `prefix_of` x -> ~ (x `prefix_of` T /\ x <> []) -> grafted fs F T x = fs !! x.
Proof.
  intros H1 H2. unfold grafted.
  rewrite decide_False by assumption. now rewrite decide_False.
Qed.

Lemma grafted_beside fs F T x :
  ~ T `prefix_of` x -> ~ x `prefix_of` T -> grafted fs F T x = fs !! x.
Proof.
  intros H1 H2. unfold grafted.
  rewrite decide_False by assumption. now rewrite decide_False by tauto.
Qed.

Lemma parent_not_below T x : ~ T `prefix_of` x -> ~ T `prefix_of` removelast x.
Proof. intros H H'. apply H. etransitivity; [exact H' | apply removelast_prefix]. Qed.

Lemma parent_above T x :
  x `prefix_of` T -> removelast x = [] \/ (removelast x `prefix_of` T /\ removelast x <> []).
Proof.
  intros H. destruct (removelast x) eqn:E; [now left|]. right. rewrite <- E.
  split; [etransitivity; [apply removelast_prefix | exact H] | rewrite E; discriminate].
Qed.

Lemma cleared_wf fs fs' T :
  disk_wf fs -> T <> [] -> Forall (fun c => plain c = true) T ->
  (forall x, fs' !! x = cleared fs T x) -> disk_wf fs'.
Proof.
  intros Hwf HT HpT Hlook. apply (disk_wf_pointwise fs' (cleared fs T) Hlook).
  intros x n Hx. unfold cleared in Hx.
  destruct (decide (x `prefix_of` T /\ x <> [])) as [[H1 H2]|Hna].
  - split; [exact H2|]. split; [now apply (plain_prefix T)|].
    destruct (parent_above T x H1) as [E|[E1 E2]]; [now left | right].
    now apply cleared_above.
  - destruct (decide (T `prefix_of` x)) as [Hb|Hnb]; [discriminate|].
    destruct (disk_wf_lookup fs x n Hwf Hx) as (H1 & H2 & H3).
    split; [exact H1|]. split; [exact H2|].
    destruct (removelast x) eqn:E; [now left | right]. rewrite <- E in *.
    rewrite lookup_node_nonempty in H3 by (rewrite E; discriminate).
    destruct (decide (removelast x `prefix_of` T)) as [Ha|Ha].
    + apply cleared_above; [exact Ha | rewrite E; discriminate].
    + rewrite cleared_beside; [exact H3 | now apply parent_not_below | exact Ha].
Qed.

Lemma grafted_wf fs fs' F T :
  disk_wf fs -> T <> [] -> Forall (fun c => plain c = true) T ->
  (forall x, fs' !! x = grafted fs F T x) -> disk_wf fs'.
Proof.
  intros Hwf HT HpT Hlook. apply (disk_wf_pointwise fs' (grafted fs F T) Hlook).
  intros x n Hx.
  destruct (decide (T `prefix_of` x)) as [[rel ->]|Hnb].
  - destruct rel as [|c rel _] using rev_ind.
    + rewrite app_nil_r in *. split; [exact HT|]. split; [exact HpT|].
      destruct (parent_above T T) as [E|[E1 E2]]; [reflexivity | now left | right].
      now apply grafted_above.
    + rewrite grafted_below in Hx by apply snoc_nonempty.
      destruct (disk_wf_lookup fs _ n Hwf Hx) as (H1 & H2 & H3).
      split; [apply app_nonempty, snoc_nonempty|].
      apply Forall_app in H2 as [_ H2].
      split; [apply Forall_app; now split|]. right.
      rewrite app_assoc, removelast_snoc in H3. rewrite app_assoc, removelast_snoc.
      destruct rel as [|c' rel].
      * rewrite app_nil_r. apply grafted_at.
      * rewrite grafted_below by discriminate.
        now rewrite lookup_node_app in H3 by discriminate.
  - destruct (decide (x `prefix_of` T /\ x <> [])) as [[H1 H2]|Hna].
    + split; [exact H2|]. split; [now apply (plain_prefix T)|].
      destruct (parent_above T x H1) as [E|[E1 E2]]; [now left | right].
      now apply grafted_above.
    + unfold grafted in Hx. rewrite decide_False in Hx by assumption.
      rewrite decide_False in Hx by assumption.
      destruct (disk_wf_lookup fs x n Hwf Hx) as (H1 & H2 & H3).
      split; [exact H1|]. split; [exact H2|].
      destruct (removelast x) eqn:E; [now left | right]. rewrite <- E in *.
      rewrite lookup_node_nonempty in H3 by (rewrite E; discriminate).
      destruct (decide (removelast x `prefix_of` T)) as [Ha|Ha].
      * apply grafted_above; [exact Ha | rewrite E; discriminate].
      * rewrite grafted_beside; [exact H3 | now apply parent_not_below | exact Ha].
Qed.

(** [remove_all] when the target exists, then [create_directories]. *)
Lemma fresh_directory fs to :
  normalize to <> [] -> disk_wf fs ->
  (forall k c, k `prefix_of` normalize to -> k <> normalize to -> fs !! k <> Some (File c)) ->
  exists fs',
    create_directories (if fs_exists fs to then remove_all fs to else fs) to = (fs', true)
    /\ forall x, fs' !! x = cleared fs (normalize to) x.
Proof.
  intros HT Hwf Hfree.
  set (fs1 := if fs_exists fs to then remove_all fs to else fs).
  assert (H1 : forall x, fs1 !! x = if decide (normalize to `prefix_of` x) then None else fs !! x).
  { intros x. subst fs1. destruct (fs_exists fs to) eqn:E; [apply remove_all_lookup|].
    destruct (decide _) as [Hb|]; [|reflexivity].
    rewrite (fs_exists_at fs to (normalize to) eq_refl HT) in E.
    apply (disk_wf_below_missing fs (normalize to)); try assumption.
    now destruct (fs !! normalize to). }
  destruct (create_directories_spec fs1 to) as (fs' & Hrun & Hlook).
  { intros x c Hx Hne. rewrite H1. destruct (decide _) as [Hb|Hb]; [discriminate|].
    apply Hfree; [exact Hx|]. intros ->. now apply Hb. }
  exists fs'. split; [exact Hrun|]. intros x. rewrite Hlook, H1. reflexivity.
Qed.

End WellFormed.

(** ** The loop of copyDirectory *)

Section CopyDirectory.

Context (fs : gmap (list string) node) (F T : list string).
Hypothesis wf : disk_wf fs.
Hypothesis F_not_above : ~ F `prefix_of` T.
Hypothesis T_not_above : ~ T `prefix_of` F.
Hypothesis T_plain : Forall (fun c => plain c = true) T.

Lemma T_nonempty : T <> [].
Proof. intros ->. apply T_not_above, prefix_nil. Qed.

Lemma F_nonempty : F <> [].
Proof. intros ->. apply F_not_above, prefix_nil. Qed.

Lemma below_source_beside (rel : list string) :
  ~ T `prefix_of` F ++ rel /\ ~ F ++ rel `prefix_of` T.
Proof.
  split; intros H.
  - destruct (prefix_weak_total T F (F ++ rel)) as [H1|H1];
      [exact H | now apply prefix_app_r | contradiction..].
  - apply F_not_above. etransitivity; [|exact H]. now apply prefix_app_r.
Qed.

Lemma ancestors_dir (rel r : list string) (n : node) :
  fs !! (F ++ rel) = Some n -> r `prefix_of` rel -> r <> [] -> r <> rel ->
  fs !! (F ++ r) = Some Dir.
Proof.
  intros Hk [s ->] Hr Hne.
  apply (disk_wf_ancestor fs s (F ++ r) n wf).
  - now rewrite <- app_assoc.
  - now apply app_nonempty.
  - intros ->. now rewrite app_nil_r in Hne.
Qed.

Lemma graft_dirs (m : gmap (list string) node) (r : list string) :
  copying fs F T m -> Forall (fun c => plain c = true) r ->
  (forall r', r' `prefix_of` r -> r' <> [] -> fs !! (F ++ r') = Some Dir) ->
  exists m1, create_directories m (T ++ r) = (m1, true)
    /\ copying fs F T m1 /\ m1 !! (T ++ r) = Some Dir /\ grows m m1.
Proof.
  intros [Hsub Hout] Hr Hdirs.
  assert (Hn : normalize (T ++ r) = T ++ r)
    by (apply normalize_resolved, Forall_app; now split).
  assert (Hfinal : forall x, x `prefix_of` T ++ r -> x <> [] -> grafted fs F T x = Some Dir).
  { intros x Hx Hne.
    destruct (prefix_weak_total x T (T ++ r) Hx) as [H|[r' ->]]; [now apply prefix_app_r | |].
    - now apply grafted_above.
    - apply prefix_app_inv in Hx. destruct r' as [|c r'].
      + rewrite app_nil_r. apply grafted_at.
      + rewrite grafted_below by discriminate. now apply Hdirs. }
  destruct (create_directories_spec m (T ++ r)) as (m1 & Hrun & Hlook).
  { rewrite Hn. intros x c Hx Hne. destruct (Hsub x) as [E|E]; rewrite E; [discriminate|].
    now rewrite Hfinal. }
  rewrite Hn in Hlook. exists m1. split; [exact Hrun|].
  split; [split|split].
  - intros x. rewrite Hlook. destruct (decide _) as [[H1 H2]|_]; [right | apply Hsub].
    now rewrite Hfinal.
  - intros x Hx. rewrite Hlook. destruct (decide _) as [[H1 H2]|_]; [| now apply Hout].
    now rewrite Hfinal.
  - rewrite Hlook. rewrite decide_True; [reflexivity|].
    split; [reflexivity | apply not_eq_sym, app_cons_not_nil || idtac].
    intros E. apply app_eq_nil in E as [E _]. now apply T_nonempty.
  - intros x Hx. rewrite Hlook. destruct (decide _); [now eexists | exact Hx].
Qed.

Lemma copy_file_at (m : gmap (list string) node) (from to q : list string) (c : string) :
  node_at m from = Some (File c) -> normalize to = q -> q <> [] ->
  lookup_node m (removelast q) = Some Dir -> m !! q <> Some Dir -> normalize from <> q ->
  copy_file m from to true = (<[q := File c]> m, true).
Proof.
  intros Hsrc Hto Hq Hparent Hnd Hne. unfold copy_file. rewrite Hsrc, Hto.
  destruct q as [|a q]; [congruence|]. rewrite Hparent.
  destruct (m !! (a :: q)) as [[c'|]|]; [| congruence | reflexivity].
  rewrite bool_decide_eq_false_2 by assumption. reflexivity.
Qed.

Lemma copy_entry_step (m : gmap (list string) node) (k : list string) (n : node) :
  copying fs F T m -> fs !! k = Some n -> F `prefix_of` k -> k <> F ->
  exists m', copy_entry F T m (k, n) = (m', true)
    /\ copying fs F T m' /\ is_Some (m' !! (T ++ drop (length F) k)) /\ grows m m'.
Proof.
  intros Hinv Hk [rel ->] Hne.
  assert (Hrel : rel <> []) by (intros ->; now rewrite app_nil_r in Hne).
  destruct (disk_wf_lookup fs _ n wf Hk) as (_ & [_ Hplain]%Forall_app & _).
  rewrite drop_app_length. unfold copy_entry. cbn [fst snd].
  rewrite drop_app_length.
  destruct n as [c|].
  - rewrite removelast_app by assumption.
    destruct (graft_dirs m (removelast rel) Hinv) as (m1 & Hrun & [Hsub Hout] & Hdir & Hgrow).
    { now apply plain_removelast. }
    { intros r' Hr' Hne'. apply (ancestors_dir rel r' (File c) Hk).
      - etransitivity; [exact Hr' | apply removelast_prefix].
      - exact Hne'.
      - intros ->. apply prefix_length in Hr'.
        pose proof (removelast_shorter rel Hrel). lia. }
    rewrite Hrun. unfold and_then. cbn [fst snd].
    destruct (below_source_beside rel) as [Hb1 Hb2].
    assert (Hsrc : m1 !! (F ++ rel) = Some (File c)).
    { rewrite Hout by tauto. now rewrite grafted_beside. }
    assert (HnT : normalize (T ++ rel) = T ++ rel)
      by (apply normalize_resolved, Forall_app; now split).
    rewrite (copy_file_at m1 (F ++ rel) (T ++ rel) (T ++ rel) c).
    + eexists. split; [reflexivity|]. split; [split|split].
      * intros x. destruct (decide (x = T ++ rel)) as [->|Hx].
        -- right. rewrite lookup_insert_eq, grafted_below by assumption. now symmetry.
        -- rewrite lookup_insert_ne by (intros EE; symmetry in EE; contradiction). apply Hsub.
      * intros x Hx. rewrite lookup_insert_ne; [now apply Hout|].
        intros <-. apply Hx. split; [now apply prefix_app_r|].
        intros E. apply Hrel, (app_inv_head T). now rewrite app_nil_r.
      * rewrite lookup_insert_eq. now eexists.
      * intros x Hx. destruct (decide (x = T ++ rel)) as [->|Hx'].
        -- rewrite lookup_insert_eq. now eexists.
        -- rewrite lookup_insert_ne by (intros EE; symmetry in EE; contradiction).
           now apply Hgrow.
    + unfold node_at. rewrite normalize_resolved.
      * rewrite lookup_node_nonempty; [exact Hsrc | now apply app_nonempty].
      * apply Forall_app. split; [|exact Hplain].
        destruct (disk_wf_lookup fs _ _ wf Hk) as (_ & [HF _]%Forall_app & _). exact HF.
    + exact HnT.
    + now apply app_nonempty.
    + rewrite removelast_app by assumption.
      rewrite lookup_node_nonempty; [exact Hdir|].
      intros E. apply app_eq_nil in E as [E _]. now apply T_nonempty.
    + destruct (Hsub (T ++ rel)) as [E|E]; rewrite E; [discriminate|].
      rewrite grafted_below by assumption. rewrite Hk. discriminate.
    + rewrite normalize_resolved.
      * intros E. apply Hb1. rewrite E. now apply prefix_app_r.
      * apply Forall_app. split; [|exact Hplain].
        destruct (disk_wf_lookup fs _ _ wf Hk) as (_ & [HF _]%Forall_app & _). exact HF.
  - destruct (graft_dirs m rel Hinv Hplain) as (m1 & Hrun & Hinv1 & Hdir & Hgrow).
    { intros r' Hr' Hne'. destruct (decide (r' = rel)) as [->|Hd]; [exact Hk|].
      now apply (ancestors_dir rel r' Dir Hk). }
    exists m1. split; [exact Hrun|]. split; [exact Hinv1|]. split; [|exact Hgrow].
    rewrite Hdir. now eexists.
Qed.

Lemma copy_entries (l : list (list string * node)) : forall m,
  copying fs F T m ->
  (forall k n, (k, n) ∈ l -> fs !! k = Some n /\ F `prefix_of` k /\ k <> F) ->
  exists m',
    fold_left (fun acc entry => and_then acc (fun fs3 => copy_entry F T fs3 entry)) l (m, true)
    = (m', true)
    /\ copying fs F T m' /\ grows m m'
    /\ forall k n, (k, n) ∈ l -> is_Some (m' !! (T ++ drop (length F) k)).
Proof.
  induction l as [|[k n] l IH]; intros m Hinv Hl.
  - exists m. split; [reflexivity|]. split; [exact Hinv|]. split; [now intros x|].
    intros k n H. now apply elem_of_nil in H.
  - destruct (Hl k n) as (Hk & Hpre & Hne); [left|].
    destruct (copy_entry_step m k n Hinv Hk Hpre Hne) as (m1 & Hrun & Hinv1 & Hsome & Hgrow1).
    destruct (IH m1 Hinv1) as (m' & Hfold & Hinv' & Hgrow' & Hall).
    { intros k' n' H. apply Hl. now right. }
    exists m'. cbn [fold_left]. unfold and_then at 2. cbn [fst snd]. rewrite Hrun.
    split; [exact Hfold|]. split; [exact Hinv'|].
    split; [intros x Hx; now apply Hgrow', Hgrow1|].
    intros k' n' [[= -> ->]|H]%elem_of_cons; [now apply Hgrow' | now apply (Hall k' n')].
Qed.

End CopyDirectory.

(** ** copyDirectory *)

Section PushPull.

Implicit Types (fs m : gmap (list string) node) (p q k x F T P : list string).

Lemma copyDirectory_spec fs (from to : list string) :
  disk_wf fs -> fs !! normalize from = Some Dir ->
  ~ normalize from `prefix_of` normalize to -> ~ normalize to `prefix_of` normalize from ->
  (forall k c, k `prefix_of` normalize to -> k <> normalize to -> fs !! k <> Some (File c)) ->
  exists fs', copyDirectory fs from to = (fs', true)
    /\ (forall x, fs' !! x = grafted fs (normalize from) (normalize to) x)
    /\ disk_wf fs'.
Proof.
  set (F := normalize from). set (T := normalize to).
  intros Hwf HF HFT HTF Hfree.
  assert (HFne : F <> []) by (intros E; apply HFT; rewrite E; apply prefix_nil).
  assert (HTne : T <> []) by (intros E; apply HTF; rewrite E; apply prefix_nil).
  assert (HTp : Forall (fun c => plain c = true) T) by apply normalize_plain.
  unfold copyDirectory.
  rewrite (fs_exists_at fs from F eq_refl HFne), HF. cbn [negb].
  destruct (fresh_directory fs to HTne Hwf Hfree) as (fs2 & Hrun & Hcl).
  fold T in Hcl. rewrite Hrun. unfold and_then at 1. cbn [fst snd].
  assert (Hsame : forall rel, fs2 !! (F ++ rel) = fs !! (F ++ rel)).
  { intros rel. rewrite Hcl.
    destruct (below_source_beside F T HFT HTF rel) as [H1 H2]. now apply cleared_beside. }
  rewrite (is_directory_at fs2 from F eq_refl HFne).
  pose proof (Hsame []) as HF2. rewrite app_nil_r in HF2. rewrite HF2, HF. cbn [negb].
  assert (Hstart : copying fs F T fs2).
  { split.
    - intros x. rewrite Hcl. unfold cleared.
      destruct (decide (x `prefix_of` T /\ x <> [])) as [[H1 H2]|Ha].
      + right. now rewrite grafted_above.
      + destruct (decide (T `prefix_of` x)) as [Hb|Hb]; [now left | right].
        now rewrite grafted_off.
    - intros x Hx. rewrite Hcl. unfold cleared.
      destruct (decide (x `prefix_of` T /\ x <> [])) as [[H1 H2]|Ha].
      + now rewrite grafted_above.
      + destruct (decide (T `prefix_of` x)) as [Hb|Hb].
        * destruct (decide (x = T)) as [->|Hd]; [|tauto].
          exfalso. apply Ha. split; [reflexivity | exact HTne].
        * now rewrite grafted_off. }
  destruct (copy_entries fs F T Hwf HFT HTF HTp (descendants fs2 F) fs2 Hstart)
    as (fs' & Hfold & [Hsub Hout] & _ & Hall).
  { intros k n (Hk & [rel ->] & Hne)%elem_of_descendants.
    rewrite Hsame in Hk. split; [exact Hk|]. split; [now apply prefix_app_r | exact Hne]. }
  exists fs'. split; [exact Hfold|].
  assert (Hlook : forall x, fs' !! x = grafted fs F T x).
  { intros x. destruct (decide (T `prefix_of` x /\ x <> T)) as [[[rel ->] Hne]|Hn];
      [| now apply Hout].
    assert (Hrel : rel <> []) by (intros ->; now rewrite app_nil_r in Hne).
    destruct (Hsub (T ++ rel)) as [E|E]; [|exact E].
    rewrite E, grafted_below by assumption.
    destruct (fs !! (F ++ rel)) as [n|] eqn:Hk; [|reflexivity].
    destruct (Hall (F ++ rel) n) as [n' Hn'].
    - apply elem_of_descendants. rewrite Hsame. split; [exact Hk|].
      split; [now apply prefix_app_r|].
      intros E'. apply Hrel, (app_inv_head F). now rewrite app_nil_r.
    - rewrite drop_app_length in Hn'. congruence. }
  split; [exact Hlook|]. now apply (grafted_wf fs fs' F T).
Qed.

(** The tree below the source is found below the target. *)
Lemma grafted_tree fs m F T (rel : list string) :
  (forall x, m !! x = grafted fs F T x) -> fs !! F = Some Dir ->
  m !! (T ++ rel) = fs !! (F ++ rel).
Proof.
  intros Hm HF. rewrite Hm. destruct rel as [|c rel].
  - rewrite !app_nil_r, HF. apply grafted_at.
  - now apply grafted_below.
Qed.

Lemma grafted_keeps fs m F T x :
  (forall x, m !! x = grafted fs F T x) ->
  ~ T `prefix_of` x -> ~ x `prefix_of` T -> m !! x = fs !! x.
Proof. intros Hm H1 H2. rewrite Hm. now apply grafted_beside. Qed.

Lemma cleared_keeps_free fs m T P :
  (forall x, m !! x = cleared fs T x) ->
  (forall k c, k `prefix_of` P -> fs !! k <> Some (File c)) ->
  forall k c, k `prefix_of` P -> m !! k <> Some (File c).
Proof.
  intros Hm Hfree k c Hk. rewrite Hm. unfold cleared.
  destruct (decide _); [discriminate|]. destruct (decide _); [discriminate|].
  now apply Hfree.
Qed.

Lemma grafted_keeps_free fs m F T P :
  (forall x, m !! x = grafted fs F T x) -> ~ T `prefix_of` P ->
  (forall k c, k `prefix_of` P -> fs !! k <> Some (File c)) ->
  forall k c, k `prefix_of` P -> m !! k <> Some (File c).
Proof.
  intros Hm HT Hfree k c Hk. rewrite Hm. unfold grafted.
  rewrite decide_False by (intros H; apply HT; etransitivity; [exact H | exact Hk]).
  destruct (decide _); [discriminate|]. now apply Hfree.
Qed.

Lemma prefix_snoc_inv (k P : list string) (c : string) :
  k `prefix_of` P ++ [c] -> k <> P ++ [c] -> k `prefix_of` P.
Proof.
  intros [s E] Hne. destruct s as [|d s _] using rev_ind.
  - rewrite app_nil_r in E. congruence.
  - rewrite app_assoc in E. apply app_inj_tail in E as [-> _]. now apply prefix_app_r.
Qed.

Lemma snoc_not_prefix (P : list string) (c : string) : ~ P ++ [c] `prefix_of` P.
Proof. intros H%prefix_length. rewrite length_app in H. cbn in H. lia. Qed.

Lemma free_above_child fs P (c : string) :
  (forall k f, k `prefix_of` P -> fs !! k <> Some (File f)) ->
  forall k f, k `prefix_of` P ++ [c] -> k <> P ++ [c] -> fs !! k <> Some (File f).
Proof. intros Hfree k f Hk Hne. apply Hfree. now apply (prefix_snoc_inv k P c). Qed.

Lemma child_not_below (P Q : list string) (c : string) :
  ~ P `prefix_of` Q -> ~ P ++ [c] `prefix_of` Q.
Proof. intros H H'. apply H. etransitivity; [|exact H']. now apply prefix_app_r. Qed.

End PushPull.

(** ** Push and pull *)

Section RoundTrip.

Implicit Types (fs m : gmap (list string) node) (a b k x A B P : list string).

Lemma snoc_app (P rel : list string) (c : string) : (P ++ [c]) ++ rel = P ++ c :: rel.
Proof. now rewrite <- app_assoc. Qed.

(** [copyDirectory] on .glite and then on workspace, from the repository at
    [a] to a repository at [b]. *)
Lemma copy_repository m a b :
  disk_wf m ->
  m !! (normalize a ++ [".glite"]) = Some Dir ->
  m !! (normalize a ++ ["workspace"]) = Some Dir ->
  ~ normalize a `prefix_of` normalize b -> ~ normalize b `prefix_of` normalize a ->
  (forall k c, k `prefix_of` normalize b -> m !! k <> Some (File c)) ->
  exists m2,
    and_then (copyDirectory m (a ++ [".glite"]) (b ++ [".glite"]))
             (fun m1 => copyDirectory m1 (a ++ ["workspace"]) (b ++ ["workspace"]))
    = (m2, true)
    /\ disk_wf m2
    /\ (forall rel, m2 !! (normalize b ++ ".glite" :: rel)
                    = m !! (normalize a ++ ".glite" :: rel))
    /\ (forall rel, m2 !! (normalize b ++ "workspace" :: rel)
                    = m !! (normalize a ++ "workspace" :: rel))
    /\ (forall P, ~ normalize b `prefix_of` P ->
          (forall k c, k `prefix_of` P -> m !! k <> Some (File c)) ->
          forall k c, k `prefix_of` P -> m2 !! k <> Some (File c)).
Proof.
  set (A := normalize a). set (B := normalize b).
  intros Hwf Hg Hw HAB HBA Hfree.
  assert (Ng : forall p, normalize (p ++ [".glite"]) = normalize p ++ [".glite"])
    by (intros p; apply normalize_app_plain; repeat constructor).
  assert (Nw : forall p, normalize (p ++ ["workspace"]) = normalize p ++ ["workspace"])
    by (intros p; apply normalize_app_plain; repeat constructor).
  destruct (copyDirectory_spec m (a ++ [".glite"]) (b ++ [".glite"]))
    as (m1 & Hrun1 & Hm1 & Hwf1); rewrite ?Ng; fold A B.
  { exact Hwf. } { exact Hg. } { now apply apart_app. } { now apply apart_app. }
  { now apply free_above_child. }
  rewrite !Ng in Hm1. fold A B in Hm1.
  assert (Hw1 : m1 !! (A ++ ["workspace"]) = Some Dir).
  { rewrite (grafted_keeps m m1 _ _ _ Hm1); [exact Hw | now apply apart_app..]. }
  assert (Hfree1 : forall P, ~ B `prefix_of` P ->
            (forall k c, k `prefix_of` P -> m !! k <> Some (File c)) ->
            forall k c, k `prefix_of` P -> m1 !! k <> Some (File c)).
  { intros P HP HfP. apply (grafted_keeps_free m m1 _ _ P Hm1); [|exact HfP].
    now apply child_not_below. }
  destruct (copyDirectory_spec m1 (a ++ ["workspace"]) (b ++ ["workspace"]))
    as (m2 & Hrun2 & Hm2 & Hwf2); rewrite ?Nw; fold A B.
  { exact Hwf1. } { exact Hw1. } { now apply apart_app. } { now apply apart_app. }
  { apply free_above_child. apply (grafted_keeps_free m m1 _ _ B Hm1); [|exact Hfree].
    apply snoc_not_prefix. }
  rewrite !Nw in Hm2. fold A B in Hm2.
  exists m2. unfold and_then. rewrite Hrun1. cbn [fst snd].
  split; [exact Hrun2|]. split; [exact Hwf2|]. split; [|split].
  - intros rel. rewrite (grafted_keeps m1 m2 _ _ _ Hm2).
    + rewrite <- (snoc_app B rel), <- (snoc_app A rel). now apply (grafted_tree m m1).
    + change (B ++ ["workspace"]) with (B ++ "workspace" :: []).
      now apply sibling_not_prefix.
    + change (B ++ ["workspace"]) with (B ++ "workspace" :: []).
      now apply sibling_not_prefix.
  - intros rel. rewrite <- (snoc_app B rel), <- (snoc_app A rel).
    rewrite (grafted_tree m1 m2 _ _ rel Hm2 Hw1).
    apply (grafted_keeps m m1 _ _ _ Hm1).
    + rewrite <- app_assoc. now apply apart_app.
    + rewrite <- app_assoc. now apply apart_app.
  - intros P HP HfP. apply (grafted_keeps_free m1 m2 _ _ P Hm2).
    + now apply child_not_below.
    + now apply Hfree1.
Qed.

Lemma push_run fs (repoRoot remoteRoot : list string) :
  disk_wf fs ->
  is_directory fs (glite_dir repoRoot) = true ->
  is_directory fs (workspace_dir repoRoot) = true ->
  apart repoRoot remoteRoot -> creatable fs remoteRoot ->
  exists fs',
    push fs repoRoot remoteRoot = (Done tt, fs')
    /\ disk_wf fs'
    /\ (forall rel, fs' !! (normalize remoteRoot ++ ".glite" :: rel)
                    = fs !! (normalize repoRoot ++ ".glite" :: rel))
    /\ (forall rel, fs' !! (normalize remoteRoot ++ "workspace" :: rel)
                    = fs !! (normalize repoRoot ++ "workspace" :: rel))
    /\ (forall P, ~ normalize remoteRoot `prefix_of` P ->
          (forall k c, k `prefix_of` P -> fs !! k <> Some (File c)) ->
          forall k c, k `prefix_of` P -> fs' !! k <> Some (File c)).
Proof.
  intros Hwf Hg Hw [HLR HRL] Hfree.
  assert (HR : normalize remoteRoot <> []) by (intros E; apply HRL; rewrite E; apply prefix_nil).
  assert (HL : normalize repoRoot <> []) by (intros E; apply HLR; rewrite E; apply prefix_nil).
  apply (is_directory_true fs _ _ (norm_glite repoRoot)) in Hg; [|now apply app_nonempty].
  apply (is_directory_true fs _ (normalize repoRoot ++ ["workspace"])) in Hw;
    [| apply normalize_app_plain; repeat constructor | now apply app_nonempty].
  destruct (fresh_directory fs remoteRoot HR Hwf) as (fsA & HrunA & HA).
  { intros k c Hk _. now apply Hfree. }
  assert (HwfA : disk_wf fsA)
    by (apply (cleared_wf fs fsA (normalize remoteRoot)); auto using normalize_plain).
  assert (Hbeside : forall rel, fsA !! (normalize repoRoot ++ rel) = fs !! (normalize repoRoot ++ rel)).
  { intros rel. rewrite HA. apply cleared_beside.
    - rewrite <- (app_nil_r (normalize remoteRoot)). now apply apart_app.
    - rewrite <- (app_nil_r (normalize remoteRoot)). now apply apart_app. }
  destruct (copy_repository fsA repoRoot remoteRoot) as (fs' & Hrun & Hwf' & Hgl & Hws & Hfr).
  { exact HwfA. } { now rewrite Hbeside. } { now rewrite Hbeside. }
  { exact HLR. } { exact HRL. }
  { now apply (cleared_keeps_free fs fsA (normalize remoteRoot)). }
  exists fs'. unfold push. rewrite HrunA. unfold and_then at 1. cbn [fst snd].
  rewrite Hrun. split; [reflexivity|]. split; [exact Hwf'|].
  split; [intros rel; now rewrite Hgl, Hbeside|].
  split; [intros rel; now rewrite Hws, Hbeside|].
  intros P HP HfP. apply Hfr; [exact HP|].
  now apply (cleared_keeps_free fs fsA (normalize remoteRoot)).
Qed.

Lemma pull_run fs (repoRoot remoteRoot : list string) :
  disk_wf fs ->
  fs !! (normalize remoteRoot ++ [".glite"]) = Some Dir ->
  fs !! (normalize remoteRoot ++ ["workspace"]) = Some Dir ->
  apart remoteRoot repoRoot ->
  (forall k c, k `prefix_of` normalize repoRoot -> fs !! k <> Some (File c)) ->
  exists fs',
    pull fs repoRoot remoteRoot = (Done tt, fs')
    /\ (forall rel, fs' !! (normalize repoRoot ++ ".glite" :: rel)
                    = fs !! (normalize remoteRoot ++ ".glite" :: rel))
    /\ (forall rel, fs' !! (normalize repoRoot ++ "workspace" :: rel)
                    = fs !! (normalize remoteRoot ++ "workspace" :: rel)).
Proof.
  intros Hwf Hg Hw [HRL HLR] Hfree.
  assert (HR : normalize remoteRoot <> []) by (intros E; apply HRL; rewrite E; apply prefix_nil).
  destruct (copy_repository fs remoteRoot repoRoot Hwf Hg Hw HRL HLR Hfree)
    as (fs' & Hrun & _ & Hgl & Hws & _).
  exists fs'. unfold pull.
  rewrite (fs_exists_at fs remoteRoot (normalize remoteRoot) eq_refl HR).
  rewrite (disk_wf_ancestor fs [".glite"] (normalize remoteRoot) Dir Hwf Hg HR) by discriminate.
  cbn [negb]. rewrite Hrun. split; [reflexivity|]. now split.
Qed.

(** C8.  [pull] fails when the remote directory does not exist.  On a
    well-formed disk, for a repository [L] whose .glite and workspace
    directories exist, a remote [R] and a target [L'] that lie apart from
    [R], with no regular file on the way to [R] or to [L']: [push L R] and
    then [pull L' R] succeed, and the trees below .glite (objects, branch
    and tag refs) and below workspace of [L'] are, entry by entry, the
    trees [L] had. *)
Theorem push_pull_round_trip fs (L R L' : list string) :
  (fs_exists fs R = false -> pull fs L' R = (Failed (Message "Remote not found."), fs))
  /\ (disk_wf fs ->
      is_directory fs (glite_dir L) = true ->
      is_directory fs (workspace_dir L) = true ->
      apart L R -> apart R L' -> creatable fs R -> creatable fs L' ->
      let pushed := push fs L R in
      let pulled := pull pushed.2 L' R in
      pushed.1 = Done tt /\ pulled.1 = Done tt
      /\ (forall rel, pulled.2 !! (normalize L' ++ ".glite" :: rel)
                      = fs !! (normalize L ++ ".glite" :: rel))
      /\ (forall rel, pulled.2 !! (normalize L' ++ "workspace" :: rel)
                      = fs !! (normalize L ++ "workspace" :: rel))
      /\ (forall id, is_name id = true ->
            ifstream pulled.2 (object_file L' id) = ifstream fs (object_file L id))
      /\ (forall branch, is_name branch = true ->
            ifstream pulled.2 (ref_file L' branch) = ifstream fs (ref_file L branch))
      /\ (forall tag, is_name tag = true ->
            ifstream pulled.2 (tag_file L' tag) = ifstream fs (tag_file L tag))
      /\ (forall rel, Forall (fun c => plain c = true) rel ->
            ifstream pulled.2 (workspace_dir L' ++ rel) = ifstream fs (workspace_dir L ++ rel))).
Proof.
  split.
  - intros H. unfold pull. now rewrite H.
  - intros Hwf Hg Hw HLR HRL' HfR HfL'.
    destruct (push_run fs L R Hwf Hg Hw HLR HfR) as (fs1 & Hpush & Hwf1 & Hg1 & Hw1 & Hfree1).
    apply (is_directory_true fs _ _ (norm_glite L)) in Hg;
      [| apply app_nonempty; discriminate].
    apply (is_directory_true fs _ (normalize L ++ ["workspace"])) in Hw;
      [| apply normalize_app_plain; repeat constructor | apply app_nonempty; discriminate].
    destruct (pull_run fs1 L' R Hwf1) as (fs2 & Hpull & Hg2 & Hw2).
    { now rewrite Hg1. } { now rewrite Hw1. } { exact HRL'. }
    { apply Hfree1; [apply HRL' | exact HfL']. }
    cbv zeta. rewrite Hpush. cbn [fst snd]. rewrite Hpull. cbn [fst snd].
    assert (Hgl : forall rel, fs2 !! (normalize L' ++ ".glite" :: rel)
                              = fs !! (normalize L ++ ".glite" :: rel))
      by (intros rel; now rewrite Hg2, Hg1).
    assert (Hws : forall rel, fs2 !! (normalize L' ++ "workspace" :: rel)
                              = fs !! (normalize L ++ "workspace" :: rel))
      by (intros rel; now rewrite Hw2, Hw1).
    split; [reflexivity|]. split; [reflexivity|]. split; [exact Hgl|]. split; [exact Hws|].
    split; [|split; [|split]].
    + intros id Hid.
      rewrite (ifstream_at fs2 _ _ (norm_object L' id Hid)) by (apply app_nonempty; discriminate).
      rewrite (ifstream_at fs _ _ (norm_object L id Hid)) by (apply app_nonempty; discriminate).
      now rewrite (Hgl ["objects"; id]).
    + intros branch Hb.
      rewrite (ifstream_at fs2 _ _ (norm_ref L' branch Hb)) by (apply app_nonempty; discriminate).
      rewrite (ifstream_at fs _ _ (norm_ref L branch Hb)) by (apply app_nonempty; discriminate).
      now rewrite (Hgl ["refs"; "heads"; branch]).
    + intros tag Ht.
      rewrite (ifstream_at fs2 _ _ (norm_tag L' tag Ht)) by (apply app_nonempty; discriminate).
      rewrite (ifstream_at fs _ _ (norm_tag L tag Ht)) by (apply app_nonempty; discriminate).
      now rewrite (Hgl ["refs"; "tags"; tag]).
    + intros rel Hrel. unfold workspace_dir.
      assert (N : forall p, normalize ((p ++ ["workspace"]) ++ rel)
                            = normalize p ++ "workspace" :: rel).
      { intros p. rewrite <- app_assoc. apply normalize_app_plain. now constructor. }
      rewrite (ifstream_at fs2 _ _ (N L')) by (apply app_nonempty; discriminate).
      rewrite (ifstream_at fs _ _ (N L)) by (apply app_nonempty; discriminate).
      now rewrite Hws.
Qed.

Lemma prefix_of_three (k : list string) (a b c : string) :
  k `prefix_of` [a; b; c] -> k = [] \/ k = [a] \/ k = [a; b] \/ k = [a; b; c].
Proof.
  intros [s E]. destruct k as [|x1 [|x2 [|x3 [|x4 k]]]]; cbn in E; simplify_eq; auto.
Qed.

Lemma prefix_of_four (k : list string) (a b c d : string) :
  k `prefix_of` [a; b; c; d] ->
  k = [] \/ k = [a] \/ k = [a; b] \/ k = [a; b; c] \/ k = [a; b; c; d].
Proof.
  intros [s E]. destruct k as [|x1 [|x2 [|x3 [|x4 [|x5 k]]]]]; cbn in E; simplify_eq; auto 6.
Qed.

Lemma push_pull_round_trip_witness :
  fs_exists demo_committed demo_remote = false
  /\ pull demo_committed demo_clone demo_remote
     = (Failed (Message "Remote not found."), demo_committed)
  /\ disk_wf demo_committed
  /\ apart demo_repo demo_remote /\ apart demo_remote demo_clone
  /\ creatable demo_committed demo_remote /\ creatable demo_committed demo_clone
  /\ demo_pushed.1 = Done tt /\ demo_pulled.1 = Done tt
  /\ ifstream demo_pulled.2 (ref_file demo_clone "main")
     = ifstream demo_committed (ref_file demo_repo "main")
  /\ ifstream demo_pulled.2 (workspace_dir demo_clone ++ ["a.txt"])
     = ifstream demo_committed (workspace_dir demo_repo ++ ["a.txt"]).
Proof.
  assert (E : fs_exists demo_committed demo_remote = false) by (vm_compute; reflexivity).
  assert (W : disk_wf demo_committed).
  { assert (M : bool_decide (disk_wf demo_committed) = true) by (vm_compute; reflexivity).
    exact (bool_decide_eq_true_1 _ M). }
  assert (A1 : apart demo_repo demo_remote).
  { assert (M : bool_decide (apart demo_repo demo_remote) = true) by (vm_compute; reflexivity).
    exact (bool_decide_eq_true_1 _ M). }
  assert (A2 : apart demo_remote demo_clone).
  { assert (M : bool_decide (apart demo_remote demo_clone) = true) by (vm_compute; reflexivity).
    exact (bool_decide_eq_true_1 _ M). }
  assert (C1 : creatable demo_committed demo_remote).
  { intros k c Hk.
    change (normalize demo_remote) with ["storage"; "_remotes"; "alice"; "proj"] in Hk.
    apply prefix_of_four in Hk as [->|[->|[->|[->| ->]]]]; vm_compute; discriminate. }
  assert (C2 : creatable demo_committed demo_clone).
  { intros k c Hk. change (normalize demo_clone) with ["storage"; "bob"; "clone"] in Hk.
    apply prefix_of_three in Hk as [->|[->|[->| ->]]]; vm_compute; discriminate. }
  destruct (push_pull_round_trip demo_committed demo_repo demo_remote demo_clone)
    as [Hfail Hround].
  assert (G : is_directory demo_committed (glite_dir demo_repo) = true)
    by (vm_compute; reflexivity).
  assert (S : is_directory demo_committed (workspace_dir demo_repo) = true)
    by (vm_compute; reflexivity).
  destruct (Hround W G S A1 A2 C1 C2) as (Hpush & Hpull & _ & _ & _ & Href & _ & Hfiles).
  split; [exact E|]. split; [exact (Hfail E)|]. split; [exact W|].
  split; [exact A1|]. split; [exact A2|]. split; [exact C1|]. split; [exact C2|].
  split; [exact Hpush|]. split; [exact Hpull|].
  split; [apply Href; reflexivity|].
  apply Hfiles. repeat constructor.
Defined.

End RoundTrip.

(* ===================================================================== *)
(** * Further properties of the engine                                    *)
(* ===================================================================== *)

(** ** Text helpers: lines, trim, identifiers, digests *)

Section TextProperties.

Lemma getlines_written (lines : list string) :
  Forall (fun line => find NL line = None) lines ->
  getlines (lines_text lines) = lines.
Proof.
  induction 1 as [|line lines Hline _ IH]; [reflexivity|].
  unfold lines_text, getlines in *. cbn [map concat_strings].
  unfold nl at 1. rewrite append_assoc. cbn [String.append].
  rewrite split_app_delim by assumption. now rewrite IH.
Qed.

Lemma getlines_unfinished (lines : list string) (rest : string) :
  Forall (fun line => find NL line = None) lines ->
  getlines (lines_text lines +:+ rest) = lines ++ getlines rest.
Proof.
  induction 1 as [|line lines Hline _ IH]; [reflexivity|].
  unfold lines_text, getlines in *. cbn [map concat_strings].
  unfold nl at 1. rewrite !append_assoc. cbn [String.append].
  rewrite split_app_delim by assumption. cbn [app]. now rewrite IH.
Qed.

(** X1.  A file written line by line is read back line by line: when no
    line holds a line end, [getlines] of the lines, each followed by "\n",
    is the list of the lines (empty lines are kept), and a text without
    line end after them is read as one more line. *)
Theorem getlines_lines_text (lines : list string) (last : string) :
  Forall (fun line => find NL line = None) lines ->
  getlines (lines_text lines) = lines
  /\ (find NL last = None -> last <> "" ->
      getlines (lines_text lines +:+ last) = lines ++ [last]).
Proof.
  intros H. split; [now apply getlines_written|].
  intros Hl Hne. rewrite getlines_unfinished by assumption.
  unfold getlines. now rewrite split_no_delim.
Qed.

Lemma getlines_lines_text_witness :
  Forall (fun line => find NL line = None) ["a"; ""; "b c"]
  /\ getlines (lines_text ["a"; ""; "b c"]) = ["a"; ""; "b c"]
  /\ getlines (lines_text ["a"; ""; "b c"] +:+ "d") = ["a"; ""; "b c"; "d"].
Proof.
  assert (H : Forall (fun line => find NL line = None) ["a"; ""; "b c"])
    by (repeat constructor).
  destruct (getlines_lines_text _ "d" H) as [H1 H2].
  split; [exact H|]. split; [exact H1|]. apply H2; [reflexivity | discriminate].
Defined.

Lemma ltrim_split (s : string) :
  exists a, s = a +:+ ltrim s /\ string_forallb is_ws a = true.
Proof.
  induction s as [|c s (a & E & Ha)].
  - now exists "".
  - cbn [ltrim]. destruct (is_ws c) eqn:Hc.
    + exists (String c a). cbn. rewrite Hc. split; [now rewrite <- E | exact Ha].
    + now exists "".
Qed.

Lemma rtrim_split (s : string) :
  exists b, s = rtrim s +:+ b /\ string_forallb is_ws b = true.
Proof.
  induction s as [|c s (b & E & Hb)].
  - now exists "".
  - cbn [rtrim]. destruct (rtrim s) as [|c' r] eqn:Hr.
    + destruct (is_ws c) eqn:Hc.
      * exists (String c b). cbn in E. subst s. cbn. now rewrite Hc.
      * exists b. cbn in *. now subst s.
    + exists b. cbn in *. now rewrite <- E.
Qed.

Lemma rtrim_first (s : string) (c : ascii) :
  first_char s = Some c -> is_ws c = false -> first_char (rtrim s) = Some c.
Proof.
  destruct s as [|x s]; [discriminate|]. intros [= ->] Hc. cbn [rtrim].
  destruct (rtrim s); [now rewrite Hc | reflexivity].
Qed.

Lemma ltrim_first (s : string) (c : ascii) :
  first_char (ltrim s) = Some c -> is_ws c = false.
Proof.
  induction s as [|x s IH]; [discriminate|]. cbn [ltrim].
  destruct (is_ws x) eqn:Hx; [exact IH|]. now intros [= <-].
Qed.

Lemma rtrim_last (s : string) (c : ascii) :
  last_char (rtrim s) = Some c -> is_ws c = false.
Proof.
  induction s as [|x s IH]; [discriminate|]. cbn [rtrim].
  destruct (rtrim s) as [|y r] eqn:Hr.
  - destruct (is_ws x) eqn:Hx; [discriminate|]. now intros [= <-].
  - exact IH.
Qed.

Lemma rtrim_fixed (s : string) :
  (forall c, last_char s = Some c -> is_ws c = false) -> rtrim s = s.
Proof.
  induction s as [|x s IH]; [reflexivity|]. intros H. cbn [rtrim].
  destruct s as [|y s].
  - cbn. now rewrite (H x eq_refl).
  - rewrite IH by exact H. reflexivity.
Qed.

Lemma ltrim_fixed (s : string) :
  (forall c, first_char s = Some c -> is_ws c = false) -> ltrim s = s.
Proof. destruct s as [|x s]; [reflexivity|]. intros H. cbn. now rewrite (H x eq_refl). Qed.

(** X2.  [trim] removes blanks (space, tab, carriage return, line feed) at
    both ends and nothing else: the text is blanks, then [trim] of it, then
    blanks; the result neither begins nor ends with a blank; and trimming
    twice is trimming once. *)
Theorem trim_spec (s : string) :
  (exists a b, s = a +:+ trim s +:+ b
               /\ string_forallb is_ws a = true /\ string_forallb is_ws b = true)
  /\ (forall c, first_char (trim s) = Some c -> is_ws c = false)
  /\ (forall c, last_char (trim s) = Some c -> is_ws c = false)
  /\ trim (trim s) = trim s.
Proof.
  assert (Hfirst : forall c, first_char (trim s) = Some c -> is_ws c = false).
  { intros c H. unfold trim in H.
    destruct (first_char (ltrim s)) as [x|] eqn:E.
    - pose proof (ltrim_first s x E) as Hx.
      rewrite (rtrim_first _ x E Hx) in H. now injection H as <-.
    - destruct (ltrim s); [discriminate H | discriminate E]. }
  assert (Hlast : forall c, last_char (trim s) = Some c -> is_ws c = false)
    by (intros c; apply rtrim_last).
  split; [|split; [exact Hfirst | split; [exact Hlast|]]].
  - destruct (ltrim_split s) as (a & Ea & Ha).
    destruct (rtrim_split (ltrim s)) as (b & Eb & Hb).
    exists a, b. split; [|now split]. unfold trim. now rewrite <- Eb.
  - unfold trim at 1. rewrite (ltrim_fixed (trim s) Hfirst). now apply rtrim_fixed.
Qed.

(** X3.  A text accepted by [isValidIdentifier] is one path component: it is
    not empty and holds no separator and no blank, so apart from "." and
    ".." it names one directory entry and [trim] leaves it as it is. *)
Theorem isValidIdentifier_name (value : string) :
  isValidIdentifier value = true ->
  value <> "" /\ find "/" value = None /\ trim value = value
  /\ (value <> "." -> value <> ".." -> is_name value = true).
Proof.
  intros H. unfold isValidIdentifier in H.
  assert (Hne : value <> "") by (destruct value; [discriminate | discriminate]).
  assert (Hall : string_forallb (fun ch => is_alnum ch || Ascii.eqb ch "-" || Ascii.eqb ch "_"
                                            || Ascii.eqb ch ".") value = true)
    by (destruct value; [discriminate | exact H]).
  assert (Hslash : find "/" value = None)
    by (eapply string_forallb_find; [|exact Hall]; reflexivity).
  split; [exact Hne|]. split; [exact Hslash|]. split.
  - eapply trim_id; [|exact Hall]. intros c Hc. cbv beta in Hc.
    destruct (is_ws c) eqn:E; [|reflexivity]. unfold is_ws in E.
    destruct (Ascii.eqb_spec c SP) as [->|]; [discriminate Hc|].
    destruct (Ascii.eqb_spec c TAB) as [->|]; [discriminate Hc|].
    destruct (Ascii.eqb_spec c CR) as [->|]; [discriminate Hc|].
    destruct (Ascii.eqb_spec c NL) as [->|]; [discriminate Hc | discriminate E].
  - intros Hdot Hdots. unfold is_name, plain.
    destruct (String.eqb_spec value "") as [E|_]; [contradiction|].
    destruct (String.eqb_spec value ".") as [E|_]; [contradiction|].
    destruct (String.eqb_spec value "..") as [E|_]; [contradiction|].
    rewrite (bool_decide_eq_true_2 _ Hslash). cbn [negb andb].
    destruct value as [|c v]; [contradiction|].
    apply find_cons_None in Hslash as [Hc _]. cbn [starts_with].
    destruct (Ascii.eqb_spec "/" c) as [E|_]; [now destruct Hc | reflexivity].
Qed.

Lemma isValidIdentifier_name_witness :
  isValidIdentifier "my-repo_1.0" = true
  /\ find "/" "my-repo_1.0" = None
  /\ is_name "my-repo_1.0" = true
  /\ isValidIdentifier ".." = true /\ is_name ".." = false.
Proof.
  assert (H : isValidIdentifier "my-repo_1.0" = true) by reflexivity.
  destruct (isValidIdentifier_name "my-repo_1.0" H) as (_ & Hs & _ & Hn).
  split; [exact H|]. split; [exact Hs|].
  split; [apply Hn; discriminate|]. split; reflexivity.
Defined.

(** X4.  [sha256String] returns, for every text, 64 lowercase hexadecimal
    digits: the id of a blob or of a commit is one path component that
    [trim] leaves as it is. *)
Theorem sha256String_digits (text : string) :
  String.length (sha256String text) = 64
  /\ string_forallb is_hex (sha256String text) = true
  /\ is_name (sha256String text) = true
  /\ trim (sha256String text) = sha256String text.
Proof.
  split; [apply sha256String_length|]. split; [apply sha256String_is_hex|].
  split; [apply sha256String_is_name | apply sha256String_trim].
Qed.

End TextProperties.

(** ** The index update of addFile; repository identifiers *)

Section Staging.

Lemma upsert_paths (entries : list (string * string)) (p b : string) :
  map fst (upsert entries p b)
  = map fst entries ++ (if existsb (fun e => String.eqb e.1 p) entries then [] else [p]).
Proof.
  unfold upsert.
  assert (H : map fst (map (fun e : string * string =>
                              if String.eqb e.1 p then (e.1, b) else e) entries)
              = map fst entries).
  { rewrite map_map. apply map_ext. intros e. now destruct (String.eqb e.1 p). }
  destruct (existsb _ entries).
  - now rewrite app_nil_r.
  - now rewrite map_app, H.
Qed.

Lemma existsb_path (entries : list (string * string)) (p : string) :
  existsb (fun e => String.eqb e.1 p) entries = true <-> In p (map fst entries).
Proof.
  rewrite existsb_exists, in_map_iff. split.
  - intros (e & He & Heq). exists e. split; [|exact He]. now apply String.eqb_eq.
  - intros (e & Heq & He). exists e. split; [exact He|]. now apply String.eqb_eq.
Qed.

Lemma in_updated (entries : list (string * string)) (p b q b' : string) :
  In (q, b') (map (fun e : string * string =>
                     if String.eqb e.1 p then (e.1, b) else e) entries)
  <-> (q = p /\ b' = b /\ In p (map fst entries)) \/ (q <> p /\ In (q, b') entries).
Proof.
  rewrite in_map_iff. split.
  - intros ([x y] & E & Hin). cbn [fst] in E.
    destruct (String.eqb_spec x p) as [->|Hx].
    + injection E as <- <-. left. split; [reflexivity|]. split; [reflexivity|].
      apply in_map_iff. now exists (p, y).
    + injection E as <- <-. right. now split.
  - intros [(-> & -> & Hin) | (Hq & Hin)].
    + apply in_map_iff in Hin as ([x y] & E & Hin). cbn [fst] in E. subst x.
      exists (p, y). cbn [fst]. rewrite String.eqb_refl. now split.
    + exists (q, b'). cbn [fst]. destruct (String.eqb_spec q p); [contradiction | now split].
Qed.

Lemma in_upsert (entries : list (string * string)) (p b q b' : string) :
  In (q, b') (upsert entries p b) <-> (q = p /\ b' = b) \/ (q <> p /\ In (q, b') entries).
Proof.
  unfold upsert. destruct (existsb _ entries) eqn:E.
  - apply existsb_path in E. rewrite in_updated. tauto.
  - assert (Hn : ~ In p (map fst entries))
      by (intros H%existsb_path; congruence).
    rewrite in_app_iff, in_updated. cbn [In]. split.
    + intros [[(_ & _ & H)|H]|[[= <- <-]|[]]]; [contradiction | now right | now left].
    + intros [[-> ->]|H]; [right; now left | left; now right].
Qed.

(** X5.  The update of the index in [addFile]: afterwards the path is
    staged with the new blob and with no other, the entries of the other
    paths are as before, a list without repeated paths stays so, and
    staging the same blob again changes nothing. *)
Theorem upsert_spec (entries : list (string * string)) (relativePath blobId : string) :
  In (relativePath, blobId) (upsert entries relativePath blobId)
  /\ (forall b, In (relativePath, b) (upsert entries relativePath blobId) -> b = blobId)
  /\ (forall q b, q <> relativePath ->
        (In (q, b) (upsert entries relativePath blobId) <-> In (q, b) entries))
  /\ (List.NoDup (map fst entries) ->
      List.NoDup (map fst (upsert entries relativePath blobId)))
  /\ upsert (upsert entries relativePath blobId) relativePath blobId
     = upsert entries relativePath blobId.
Proof.
  split; [apply in_upsert; now left|].
  split; [intros b [[_ ->]|[H _]]%in_upsert; [reflexivity | contradiction]|].
  split; [intros q b Hq; rewrite in_upsert; tauto|].
  split.
  - intros Hnd. rewrite upsert_paths.
    destruct (existsb _ entries) eqn:E; [now rewrite app_nil_r|].
    apply List.NoDup_app; [exact Hnd | repeat constructor; intros [] |].
    intros a Ha [<-|[]]. apply existsb_path in Ha. congruence.
  - assert (Hin : existsb (fun e : string * string => String.eqb e.1 relativePath)
                    (upsert entries relativePath blobId) = true).
    { apply existsb_path. rewrite upsert_paths. apply in_app_iff.
      destruct (existsb _ entries) eqn:E; [left; now apply existsb_path | right; now left]. }
    unfold upsert at 1. rewrite Hin.
    rewrite <- (map_id (upsert entries relativePath blobId)) at 2.
    apply map_ext_in. intros [q b] Hqb. cbn [fst].
    destruct (String.eqb_spec q relativePath) as [->|_]; [|reflexivity].
    apply in_upsert in Hqb as [[_ ->]|[H _]]; [reflexivity | contradiction].
Qed.

End Staging.

Section Identifiers.

Lemma find_before (c : ascii) (s : string) (pos : nat) :
  find c s = Some pos -> find c (substr0 pos s) = None.
Proof.
  revert pos. induction s as [|x s IH]; intros pos H; [discriminate|].
  cbn [find] in H. destruct (Ascii.eqb x c) eqn:E.
  - now injection H as <-.
  - destruct (find c s) as [n|] eqn:Hf; [|discriminate]. injection H as <-.
    cbn [substr0 find]. rewrite E. now rewrite (IH n eq_refl).
Qed.

(** X6.  [parseRepoIdentifier] on the trimmed text: a text without "/"
    names a repository of the default owner; otherwise the owner is the
    part before the first "/" and the repository the whole rest (further
    separators included), and both are non-empty.  The repository part of a
    result is never empty. *)
Theorem parseRepoIdentifier_spec (raw owner : string) :
  (forall o r, parseRepoIdentifier raw owner = Some (o, r) ->
     r <> ""
     /\ ((find "/" (trim raw) = None /\ o = owner /\ r = trim raw)
         \/ (trim raw = o +:+ "/" +:+ r /\ o <> "" /\ find "/" o = None)))
  /\ (parseRepoIdentifier raw owner = None <->
      trim raw = ""
      \/ exists pos, find "/" (trim raw) = Some pos
           /\ (substr0 pos (trim raw) = "" \/ substr (S pos) (trim raw) = "")).
Proof.
  unfold parseRepoIdentifier. set (value := trim raw).
  destruct (empty value) eqn:Hv.
  { apply empty_true in Hv. split; [discriminate | split; [now left | reflexivity]]. }
  apply empty_false in Hv.
  destruct (find "/" value) as [pos|] eqn:Hf.
  - destruct (empty (substr0 pos value)) eqn:Hl; cbn [orb].
    + apply empty_true in Hl. split; [discriminate|].
      split; [intros _; right; exists pos; split; [reflexivity | now left] | reflexivity].
    + apply empty_false in Hl. destruct (empty (substr (S pos) value)) eqn:Hr.
      * apply empty_true in Hr. split; [discriminate|].
        split; [intros _; right; exists pos; split; [reflexivity | now right] | reflexivity].
      * apply empty_false in Hr. split.
        -- intros o r [= <- <-]. split; [exact Hr|]. right.
           split; [now apply find_split|]. split; [exact Hl | now apply find_before].
        -- split; [discriminate|].
           intros [E|(pos' & [= <-] & [E|E])]; contradiction.
  - split.
    + intros o r [= <- <-]. split; [exact Hv|]. left. now split.
    + split; [discriminate|]. intros [E|(pos' & [=] & _)]. contradiction.
Qed.

End Identifiers.

(** ** Files read back as written: the index and the user registry *)

Section Formats.

Implicit Types (fs : gmap (list string) node) (p q : list string).

(** A stream opened for writing on [p] whose parent is a directory. *)
Lemma write_file_resolved fs p q (content : string) :
  normalize p = q -> q <> [] ->
  lookup_node fs (removelast q) = Some Dir -> fs !! q <> Some Dir ->
  write_file fs p content = (<[q := File content]> fs, true).
Proof.
  intros Hp Hq Hparent Hnd. unfold write_file, ofstream_target. rewrite Hp, Hparent.
  destruct q as [|a q]; [congruence|].
  destruct (fs !! (a :: q)) as [[c|]|]; [reflexivity | congruence | reflexivity].
Qed.

Lemma write_then_read fs (dir : list string) (name content : string) :
  plain name = true ->
  is_directory fs dir = true -> is_directory fs (dir ++ [name]) = false ->
  write_file fs (dir ++ [name]) content
  = (<[normalize dir ++ [name] := File content]> fs, true)
  /\ ifstream (write_file fs (dir ++ [name]) content).1 (dir ++ [name]) = Some content.
Proof.
  intros Hname Hdir Hfile.
  assert (Hn : normalize (dir ++ [name]) = normalize dir ++ [name])
    by (apply normalize_app_plain; now repeat constructor).
  assert (Hne : normalize dir ++ [name] <> []) by (apply app_nonempty; discriminate).
  assert (Hw : write_file fs (dir ++ [name]) content
               = (<[normalize dir ++ [name] := File content]> fs, true)).
  { apply write_file_resolved; [exact Hn | exact Hne | |].
    - rewrite removelast_snoc. unfold is_directory, node_at in Hdir.
      destruct (lookup_node fs (normalize dir)) as [[|]|]; congruence.
    - now apply (is_directory_false fs (dir ++ [name])). }
  split; [exact Hw|]. rewrite Hw. cbn [fst].
  rewrite (ifstream_at _ _ _ Hn Hne). now rewrite lookup_insert_eq.
Qed.

Lemma line_app_tab (a b : string) :
  find NL a = None -> find NL b = None -> find NL (a +:+ String TAB b) = None.
Proof.
  intros Ha Hb. apply find_app_None. split; [exact Ha|].
  apply find_cons_None. split; [discriminate | exact Hb].
Qed.

Lemma index_entry_written (entry : string * string) :
  index_entry_ok entry -> index_entry (entry.1 +:+ String TAB entry.2) = Some entry.
Proof.
  destruct entry as [a b]. intros ([Ha _] & [Hb _] & Hne). cbn [fst snd] in *.
  unfold index_entry.
  assert (E : empty (a +:+ String TAB b) = false) by (destruct a; reflexivity).
  rewrite E, split_app_delim by assumption. now rewrite split_no_delim.
Qed.

Lemma entry_lines_text (entries : list (string * string)) :
  entry_lines entries = lines_text (map (fun e => e.1 +:+ String TAB e.2) entries).
Proof.
  unfold entry_lines, lines_text. rewrite map_map. f_equal. apply map_ext.
  intros [a b]. unfold entry_line, tab. cbn [fst snd String.append].
  now rewrite append_assoc.
Qed.

Lemma omap_written {A : Type} (parse : string -> option A) (show : A -> string) (l : list A) :
  Forall (fun x => parse (show x) = Some x) l -> omap parse (map show l) = l.
Proof.
  induction 1 as [|x l Hx _ IH]; [reflexivity|].
  cbn [map]. change (omap parse (show x :: map show l))
    with (match parse (show x) with Some y => y :: omap parse (map show l)
          | None => omap parse (map show l) end).
  now rewrite Hx, IH.
Qed.

Lemma readIndex_of_text fs repoRoot (entries : list (string * string)) :
  Forall index_entry_ok entries ->
  ifstream fs (index_file repoRoot) = Some (entry_lines entries) ->
  readIndex fs repoRoot = entries.
Proof.
  intros Hok Hread. unfold readIndex. rewrite Hread, entry_lines_text.
  rewrite getlines_written.
  - apply omap_written. eapply Forall_impl; [exact Hok|]. apply index_entry_written.
  - apply Forall_map. eapply Forall_impl; [exact Hok|].
    intros [a b] ([_ Ha] & [_ Hb] & _). now apply line_app_tab.
Qed.

(** X7.  The index is read back as it was written: in a repository whose
    .glite directory exists, [readIndex] after [writeIndex] returns the
    entries in their order, provided no field holds a tab or a line end and
    no blob id is empty (a line that ends with the tab has one field and is
    skipped). *)
Theorem writeIndex_readIndex fs repoRoot (entries : list (string * string)) :
  is_directory fs (glite_dir repoRoot) = true ->
  is_directory fs (index_file repoRoot) = false ->
  Forall index_entry_ok entries ->
  readIndex (writeIndex fs repoRoot entries) repoRoot = entries.
Proof.
  intros Hg Hi Hok. apply readIndex_of_text; [exact Hok|].
  unfold writeIndex.
  change (index_file repoRoot) with (repoRoot ++ [".glite"; "index"]) in *.
  replace (repoRoot ++ [".glite"; "index"]) with (glite_dir repoRoot ++ ["index"]) in *
    by (unfold glite_dir; now rewrite <- app_assoc).
  now apply write_then_read.
Qed.

Lemma writeIndex_readIndex_witness :
  readIndex (writeIndex demo_created demo_repo [("a.txt", "0f"); ("b c", "1e")]) demo_repo
  = [("a.txt", "0f"); ("b c", "1e")]
  /\ readIndex (writeIndex demo_created demo_repo [("a.txt", "")]) demo_repo = [].
Proof.
  split; [|vm_compute; reflexivity].
  apply writeIndex_readIndex;
    [vm_compute; reflexivity | vm_compute; reflexivity | repeat constructor; discriminate].
Defined.

Lemma user_line_text (users : list User) :
  concat_strings (map user_line users)
  = lines_text (map (fun u => username u +:+ String TAB
                                (passwordHash u +:+ String TAB (role u))) users).
Proof.
  unfold lines_text. rewrite map_map. f_equal. apply map_ext.
  intros u. unfold user_line, tab, nl. cbn [String.append].
  rewrite append_assoc. cbn [String.append]. rewrite append_assoc. reflexivity.
Qed.

Lemma user_of_line_written (u : User) :
  user_ok u ->
  user_of_line (username u +:+ String TAB (passwordHash u +:+ String TAB (role u))) = Some u.
Proof.
  destruct u as [n h r]. intros ([Hn _] & [Hh _] & [Hr _] & Hne). cbn [username passwordHash role] in *.
  unfold user_of_line.
  assert (E : empty (n +:+ String TAB (h +:+ String TAB r)) = false) by (destruct n; reflexivity).
  rewrite E, split_app_delim by assumption.
  rewrite split_app_delim by assumption. now rewrite split_no_delim.
Qed.

(** X8.  The user registry is read back as it was written: [loadUsers]
    after [saveUsers] returns the users in their order, provided the storage
    directory exists, no field holds a tab or a line end, and no role is
    empty (a user whose role is empty is written as a line of two fields,
    which [loadUsers] skips). *)
Theorem saveUsers_loadUsers fs (storageRoot : list string) (users : list User) :
  is_directory fs storageRoot = true ->
  is_directory fs (users_file storageRoot) = false ->
  Forall user_ok users ->
  loadUsers (saveUsers fs storageRoot users) storageRoot = users.
Proof.
  intros Hd Hf Hok. unfold loadUsers, saveUsers, users_file in *.
  destruct (write_then_read fs storageRoot "users.tsv" (concat_strings (map user_line users))
              eq_refl Hd Hf) as [_ ->].
  rewrite user_line_text, getlines_written.
  - apply omap_written. eapply Forall_impl; [exact Hok|]. apply user_of_line_written.
  - apply Forall_map. eapply Forall_impl; [exact Hok|].
    intros [n h r] (Hn & Hh & Hr & _). cbn [username passwordHash role] in *.
    apply line_app_tab; [apply Hn|]. apply line_app_tab; [apply Hh | apply Hr].
Qed.

Lemma saveUsers_loadUsers_witness :
  loadUsers (saveUsers demo_disk demo_storage [demo_bob; demo_alice]) demo_storage
  = [demo_bob; demo_alice]
  /\ loadUsers (saveUsers demo_disk demo_storage [mkUser "dave" "hash-d" ""]) demo_storage = [].
Proof.
  split; [|vm_compute; reflexivity].
  apply saveUsers_loadUsers;
    [vm_compute; reflexivity | vm_compute; reflexivity | repeat constructor; discriminate].
Defined.

End Formats.

(** ** Files read back as written: the permission map *)

Section Permissions.

Implicit Types (fs : gmap (list string) node) (perms : gmap string (gset string)).

Lemma elem_of_insert_sorted (x y : string) (l : list string) :
  y ∈ insert_sorted x l <-> y = x \/ y ∈ l.
Proof.
  induction l as [|z l IH]; cbn [insert_sorted].
  - rewrite list_elem_of_singleton, elem_of_nil. tauto.
  - destruct (String.leb x z).
    + now rewrite elem_of_cons.
    + rewrite !elem_of_cons, IH. tauto.
Qed.

Lemma elem_of_sorted_elements (names : gset string) (y : string) :
  y ∈ sorted_elements names <-> y ∈ names.
Proof.
  unfold sorted_elements. rewrite <- (elem_of_elements names).
  induction (elements names) as [|x l IH]; cbn [fold_right]; [reflexivity|].
  rewrite elem_of_insert_sorted, elem_of_cons, IH. tauto.
Qed.

Lemma join_commas_cons (x y : string) (l : list string) :
  join_commas (x :: y :: l) = x +:+ String "," (join_commas (y :: l)).
Proof. reflexivity. Qed.

Lemma join_commas_free (d : ascii) (l : list string) :
  d <> ","%char -> Forall (fun n => find d n = None) l -> find d (join_commas l) = None.
Proof.
  intros Hd. induction 1 as [|x l Hx Hl IH]; [reflexivity|].
  destruct l as [|y l]; [exact Hx|]. rewrite join_commas_cons.
  apply find_app_None. split; [exact Hx|].
  apply find_cons_None. split; [congruence | exact IH].
Qed.

Lemma join_commas_empty (l : list string) :
  Forall (fun n => n <> "") l -> join_commas l = "" -> l = [].
Proof.
  intros H E. destruct H as [|x l Hx Hl]; [reflexivity|]. exfalso.
  destruct l as [|y l]; [contradiction|]. rewrite join_commas_cons in E.
  destruct x; [contradiction | discriminate].
Qed.

Lemma split_join_commas (l : list string) :
  Forall (fun n => n <> "" /\ find "," n = None) l -> split "," (join_commas l) = l.
Proof.
  induction 1 as [|x l [Hne Hx] Hl IH]; [reflexivity|].
  destruct l as [|y l]; [now apply split_no_delim|].
  rewrite join_commas_cons, split_app_delim by assumption. now rewrite IH.
Qed.

Lemma collaborators_of_names (l : list string) :
  Forall (fun n => n <> "") l -> collaborators_of l = list_to_set l.
Proof.
  intros H. unfold collaborators_of. apply set_eq. intros y.
  rewrite !elem_of_list_to_set, list_elem_of_filter. split; [tauto|].
  intros Hy. split; [|exact Hy]. rewrite Forall_forall in H. now apply H.
Qed.

Lemma permissions_line_written perms (m : gmap string (gset string)) (key : string)
    (names : gset string) :
  field key -> set_Forall name_ok names ->
  permissions_line m (key +:+ String TAB (join_commas (sorted_elements names)))
  = <[key := names]> m.
Proof.
  intros [Hk _] Hnames.
  assert (Hall : Forall name_ok (sorted_elements names)).
  { apply Forall_forall. intros y Hy%elem_of_sorted_elements. now apply Hnames. }
  assert (Hset : list_to_set (sorted_elements names) = names).
  { apply set_eq. intros y. now rewrite elem_of_list_to_set, elem_of_sorted_elements. }
  unfold permissions_line.
  assert (E : empty (key +:+ String TAB (join_commas (sorted_elements names))) = false)
    by (destruct key; reflexivity).
  rewrite E, split_app_delim by assumption.
  destruct (join_commas (sorted_elements names)) as [|c J] eqn:HJ.
  - cbn [split]. apply join_commas_empty in HJ.
    + rewrite HJ in Hset. cbn in Hset. now rewrite <- Hset.
    + eapply Forall_impl; [exact Hall|]. now intros n [H _].
  - rewrite split_no_delim; [| | discriminate].
    + rewrite <- HJ, split_join_commas.
      * rewrite collaborators_of_names; [now rewrite Hset|].
        eapply Forall_impl; [exact Hall|]. now intros n [H _].
      * eapply Forall_impl; [exact Hall|]. now intros n (H1 & H2 & _).
    + rewrite <- HJ. apply join_commas_free; [discriminate|].
      eapply Forall_impl; [exact Hall|]. now intros n (_ & _ & [H _]).
Qed.

Lemma permission_lines_free (l : list (string * gset string)) :
  Forall (fun e => field e.1 /\ set_Forall name_ok e.2) l ->
  Forall (fun line => find NL line = None)
         (map (fun e : string * gset string =>
                 e.1 +:+ String TAB (join_commas (sorted_elements e.2))) l).
Proof.
  intros H. apply Forall_map. eapply Forall_impl; [exact H|].
  intros [key names] [[_ Hk] Hn]. cbn [fst snd] in *.
  apply find_app_None. split; [exact Hk|].
  apply find_cons_None. split; [discriminate|].
  apply join_commas_free; [discriminate|].
  apply Forall_forall. intros y Hy%elem_of_sorted_elements.
  destruct (Hn y Hy) as (_ & _ & [_ H']). exact H'.
Qed.

Lemma fold_permission_lines (l : list (string * gset string)) :
  forall m : gmap string (gset string),
  Forall (fun e => field e.1 /\ set_Forall name_ok e.2) l ->
  fold_left permissions_line
    (map (fun e : string * gset string =>
            e.1 +:+ String TAB (join_commas (sorted_elements e.2))) l) m
  = fold_left (fun acc e => <[e.1 := e.2]> acc) l m.
Proof.
  induction l as [|[key names] l IH]; intros m H; [reflexivity|].
  inversion H as [|? ? [Hk Hn] Hl]; subst. cbn [map fold_left fst snd] in *.
  rewrite (permissions_line_written m m key names Hk Hn). now apply IH.
Qed.

Lemma fold_inserts (l : list (string * gset string)) :
  forall m : gmap string (gset string),
  NoDup l.*1 ->
  fold_left (fun acc e => <[e.1 := e.2]> acc) l m = list_to_map l ∪ m.
Proof.
  induction l as [|[key names] l IH]; intros m Hnd.
  - cbn. now rewrite (left_id_L ∅ (∪)).
  - rewrite fmap_cons in Hnd. apply NoDup_cons in Hnd as [Hkey Hnd].
    cbn [fold_left fst snd]. rewrite IH by assumption. rewrite list_to_map_cons.
    rewrite <- insert_union_r by now apply not_elem_of_list_to_map_1.
    now rewrite insert_union_l.
Qed.

Lemma permissions_text (l : list (string * gset string)) :
  concat_strings (map (fun entry : string * gset string =>
                         entry.1 +:+ tab +:+ join_commas (sorted_elements entry.2) +:+ nl) l)
  = lines_text (map (fun e : string * gset string =>
                       e.1 +:+ String TAB (join_commas (sorted_elements e.2))) l).
Proof.
  unfold lines_text. rewrite map_map. f_equal. apply map_ext.
  intros e. unfold tab, nl. cbn [String.append].
  rewrite append_assoc. reflexivity.
Qed.

Lemma loadPermissions_of_text fs (storageRoot : list string) perms :
  perms_ok perms ->
  ifstream fs (permissions_file storageRoot)
  = Some (concat_strings (map (fun entry : string * gset string =>
            entry.1 +:+ tab +:+ join_commas (sorted_elements entry.2) +:+ nl)
            (map_to_list perms))) ->
  loadPermissions fs storageRoot = perms.
Proof.
  intros Hok Hread. unfold loadPermissions. rewrite Hread, permissions_text.
  assert (Hall : Forall (fun e : string * gset string => field e.1 /\ set_Forall name_ok e.2)
                        (map_to_list perms)).
  { apply Forall_forall. intros [key names] Hin%elem_of_map_to_list. exact (Hok key names Hin). }
  rewrite getlines_written by now apply permission_lines_free.
  rewrite fold_permission_lines by assumption.
  rewrite fold_inserts by apply NoDup_fst_map_to_list.
  rewrite list_to_map_to_list. now rewrite (right_id_L ∅ (∪)).
Qed.

Lemma loadPermissions_line_ok (m : gmap string (gset string)) (line : string) :
  find NL line = None -> perms_ok m -> perms_ok (permissions_line m line).
Proof.
  intros Hline Hm. unfold permissions_line.
  destruct (empty line); [exact Hm|].
  destruct (split TAB line) as [|key [|names rest]] eqn:E; [exact Hm | |].
  - apply map_Forall_insert_2; [|exact Hm]. split; [|intros y Hy; set_solver].
    split; [apply (split_tokens_free TAB line) | apply (split_tokens_free_other TAB NL line)];
      try assumption; rewrite E; now left.
  - apply map_Forall_insert_2; [|exact Hm].
    assert (Hk : In key (split TAB line)) by (rewrite E; now left).
    assert (Hn : In names (split TAB line)) by (rewrite E; right; now left).
    split.
    + split; [now apply (split_tokens_free TAB line) |
              now apply (split_tokens_free_other TAB NL line)].
    + intros y Hy. unfold collaborators_of in Hy.
      apply elem_of_list_to_set, list_elem_of_filter in Hy as [Hne Hy].
      apply list_elem_of_In in Hy.
      split; [exact Hne|]. split; [now apply (split_tokens_free "," names)|].
      split.
      * apply (split_tokens_free_other "," TAB names); [|exact Hy].
        now apply (split_tokens_free TAB line).
      * apply (split_tokens_free_other "," NL names); [|exact Hy].
        now apply (split_tokens_free_other TAB NL line).
Qed.

Lemma getlines_free (s : string) : Forall (fun line => find NL line = None) (getlines s).
Proof.
  apply List.Forall_forall. intros line Hin. now apply (split_tokens_free NL s).
Qed.

Lemma loadPermissions_ok fs (storageRoot : list string) :
  perms_ok (loadPermissions fs storageRoot).
Proof.
  unfold loadPermissions. destruct (ifstream fs (permissions_file storageRoot)) as [content|].
  - assert (H : forall (lines : list string) m,
               Forall (fun line => find NL line = None) lines -> perms_ok m ->
               perms_ok (fold_left permissions_line lines m)).
    { induction lines as [|line lines IH]; intros m Hl Hm; [exact Hm|].
      inversion Hl; subst. cbn [fold_left]. apply IH; [assumption|].
      now apply loadPermissions_line_ok. }
    apply H; [apply getlines_free | apply map_Forall_empty].
  - apply map_Forall_empty.
Qed.

(** X9.  The permission map is read back as it was written: when the
    storage directory exists, [loadPermissions] after [savePermissions]
    returns the map, provided no key and no name holds a tab or a line end
    and every name is non-empty and holds no comma.  Every map that
    [loadPermissions] returns is such a map, so writing back what was
    loaded and loading again gives the same map. *)
Theorem savePermissions_loadPermissions fs (storageRoot : list string) perms :
  is_directory fs storageRoot = true ->
  is_directory fs (permissions_file storageRoot) = false ->
  (perms_ok perms ->
   loadPermissions (savePermissions fs storageRoot perms) storageRoot = perms)
  /\ perms_ok (loadPermissions fs storageRoot)
  /\ loadPermissions (savePermissions fs storageRoot (loadPermissions fs storageRoot))
                     storageRoot
     = loadPermissions fs storageRoot.
Proof.
  intros Hd Hf.
  assert (H : forall perms, perms_ok perms ->
                loadPermissions (savePermissions fs storageRoot perms) storageRoot = perms).
  { intros m Hm. apply loadPermissions_of_text; [exact Hm|].
    unfold savePermissions, permissions_file in *.
    now apply write_then_read. }
  split; [apply H|]. split; [apply loadPermissions_ok|]. apply H, loadPermissions_ok.
Qed.

Lemma savePermissions_loadPermissions_witness :
  loadPermissions demo_disk demo_storage = {[ "alice/proj" := {[ "bob" ]} ]}
  /\ loadPermissions
       (savePermissions demo_disk demo_storage
          (<[ "bob/lib" := {[ "carol"; "alice" ]} ]> (loadPermissions demo_disk demo_storage)))
       demo_storage
     = <[ "bob/lib" := {[ "carol"; "alice" ]} ]> (loadPermissions demo_disk demo_storage).
Proof.
  assert (D : is_directory demo_disk demo_storage = true) by (vm_compute; reflexivity).
  assert (F : is_directory demo_disk (permissions_file demo_storage) = false)
    by (vm_compute; reflexivity).
  destruct (savePermissions_loadPermissions demo_disk demo_storage
              (<[ "bob/lib" := {[ "carol"; "alice" ]} ]> (loadPermissions demo_disk demo_storage))
              D F) as (Hround & Hok & _).
  split; [vm_compute; reflexivity|].
  apply Hround. apply map_Forall_insert_2; [|exact Hok].
  split; [split; reflexivity|].
  intros y [->%elem_of_singleton | ->%elem_of_singleton]%elem_of_union;
    (split; [discriminate|]; split; [reflexivity | split; reflexivity]).
Defined.

End Permissions.

(** ** Branches: create, rebase, delete *)

Section BranchOps.

Implicit Types (fs : gmap (list string) node) (repoRoot : list string).

Lemma trim_fixed (s : string) : trim (trim s) = trim s.
Proof.
  assert (Hfirst : forall c, first_char (trim s) = Some c -> is_ws c = false).
  { intros c H. unfold trim in H.
    destruct (first_char (ltrim s)) as [x|] eqn:E.
    - pose proof (ltrim_first s x E) as Hx.
      rewrite (rtrim_first _ x E Hx) in H. now injection H as <-.
    - destruct (ltrim s); [discriminate H | discriminate E]. }
  unfold trim at 1. rewrite (ltrim_fixed (trim s) Hfirst).
  apply rtrim_fixed. intros c. apply rtrim_last.
Qed.

Lemma branchHead_trimmed fs repoRoot (branch : string) :
  trim (branchHead fs repoRoot branch) = branchHead fs repoRoot branch.
Proof.
  unfold branchHead. destruct (ifstream fs (ref_file repoRoot branch)); [|reflexivity].
  destruct (first_line s); [apply trim_fixed | reflexivity].
Qed.

(** The head read from a ref file that holds [head] and a line end. *)
Lemma branchHead_written fs repoRoot (branch head : string) :
  ifstream fs (ref_file repoRoot branch) = Some (head +:+ nl) ->
  find NL head = None -> branchHead fs repoRoot branch = trim head.
Proof.
  intros H Hh. unfold branchHead. rewrite H. unfold nl. now rewrite first_line_app.
Qed.

(** Reading HEAD and the refs on a disk where one ref file was written. *)
Lemma currentBranch_ref_written fs repoRoot (branch : string) (n : node) :
  is_name branch = true ->
  currentBranch (<[normalize repoRoot ++ [".glite"; "refs"; "heads"; branch] := n]> fs) repoRoot
  = currentBranch fs repoRoot.
Proof.
  intros Hb. unfold currentBranch.
  rewrite !(ifstream_at _ _ _ (norm_head repoRoot)) by (apply app_nonempty; discriminate).
  now rewrite lookup_insert_ne by path_ne.
Qed.

Lemma ifstream_ref_written fs repoRoot (branch other : string) (n : node) :
  is_name branch = true -> is_name other = true -> other <> branch ->
  ifstream (<[normalize repoRoot ++ [".glite"; "refs"; "heads"; branch] := n]> fs)
           (ref_file repoRoot other)
  = ifstream fs (ref_file repoRoot other).
Proof.
  intros Hb Ho Hne.
  rewrite !(ifstream_at _ _ _ (norm_ref repoRoot other Ho)) by (apply app_nonempty; discriminate).
  now rewrite lookup_insert_ne by path_ne.
Qed.

Lemma branchHead_ref_written fs repoRoot (branch other : string) (n : node) :
  is_name branch = true -> is_name other = true -> other <> branch ->
  branchHead (<[normalize repoRoot ++ [".glite"; "refs"; "heads"; branch] := n]> fs)
             repoRoot other
  = branchHead fs repoRoot other.
Proof. intros Hb Ho Hne. unfold branchHead. now rewrite ifstream_ref_written. Qed.

Lemma ref_written fs repoRoot (branch content : string) :
  repo_layout fs repoRoot -> is_name branch = true ->
  write_file fs (ref_file repoRoot branch) content
  = (<[normalize repoRoot ++ [".glite"; "refs"; "heads"; branch] := File content]> fs, true).
Proof.
  intros L Hb. destruct (layout_facts fs repoRoot L) as (_ & _ & Hh & _ & _ & _ & Hhf).
  apply (write_file_at fs (ref_file repoRoot branch) (normalize repoRoot)
           [".glite"; "refs"; "heads"] branch);
    [now apply norm_ref | rewrite lookup_node_app by discriminate; exact Hh | apply Hhf].
Qed.

Lemma ifstream_ref_own fs repoRoot (branch content : string) :
  is_name branch = true ->
  ifstream (<[normalize repoRoot ++ [".glite"; "refs"; "heads"; branch] := File content]> fs)
           (ref_file repoRoot branch)
  = Some content.
Proof.
  intros Hb.
  rewrite (ifstream_at _ _ _ (norm_ref repoRoot branch Hb)) by (apply app_nonempty; discriminate).
  now rewrite lookup_insert_eq.
Qed.

(** X10.  [createBranch] in a repository whose skeleton is in place, for a
    name that is one path component: when the ref file exists the call
    fails and the disk is unchanged; otherwise it succeeds, the new branch
    has the head of the current branch, HEAD still names the same branch,
    and the heads of the other branches are unchanged. *)
Theorem createBranch_spec fs repoRoot (branchName : string) :
  repo_layout fs repoRoot ->
  is_name branchName = true ->
  let result := createBranch fs repoRoot branchName in
  (fs_exists fs (ref_file repoRoot branchName) = true ->
     result = (Failed (Message "Branch already exists."), fs))
  /\ (fs_exists fs (ref_file repoRoot branchName) = false ->
        result.1 = Done tt
        /\ fs_exists result.2 (ref_file repoRoot branchName) = true
        /\ branchHead result.2 repoRoot branchName
           = branchHead fs repoRoot (currentBranch fs repoRoot)
        /\ currentBranch result.2 repoRoot = currentBranch fs repoRoot
        /\ forall other, is_name other = true -> other <> branchName ->
             branchHead result.2 repoRoot other = branchHead fs repoRoot other).
Proof.
  intros L Hb. cbv zeta. unfold createBranch. split; intros E; rewrite E; [reflexivity|].
  rewrite (ref_written fs repoRoot branchName _ L Hb). cbn [fst snd].
  split; [reflexivity|]. split; [|split; [|split]].
  - rewrite (fs_exists_at _ _ _ (norm_ref repoRoot branchName Hb))
      by (apply app_nonempty; discriminate).
    now rewrite lookup_insert_eq.
  - rewrite (branchHead_written _ repoRoot branchName
               (branchHead fs repoRoot (currentBranch fs repoRoot))).
    + apply branchHead_trimmed.
    + now apply ifstream_ref_own.
    + apply branchHead_free.
  - now apply currentBranch_ref_written.
  - intros other Ho Hne. now apply branchHead_ref_written.
Qed.

Lemma createBranch_spec_witness :
  repo_layout demo_committed demo_repo
  /\ createBranch demo_branched demo_repo "feature"
     = (Failed (Message "Branch already exists."), demo_branched)
  /\ branchHead demo_branched demo_repo "feature" = branchHead demo_committed demo_repo "main"
  /\ currentBranch demo_branched demo_repo = currentBranch demo_committed demo_repo.
Proof.
  assert (L : repo_layout demo_committed demo_repo)
    by (apply demo_layout; vm_compute; reflexivity).
  assert (L' : repo_layout demo_branched demo_repo)
    by (apply demo_layout; vm_compute; reflexivity).
  destruct (createBranch_spec demo_committed demo_repo "feature" L eq_refl) as [_ Hnew].
  destruct (createBranch_spec demo_branched demo_repo "feature" L' eq_refl) as [Hold _].
  destruct Hnew as (_ & _ & Hhead & Hcur & _); [vm_compute; reflexivity|].
  split; [exact L|]. split; [apply Hold; vm_compute; reflexivity|].
  split; [exact Hhead | exact Hcur].
Defined.

(** X11.  [rebaseBranch] in a repository whose skeleton is in place and
    whose HEAD names a branch by one path component, onto a branch named by
    one path component: it fails, leaving the disk unchanged, exactly when
    the other branch is the current one or has no head; otherwise the head
    of the current branch becomes the head of the other branch, and HEAD
    and the heads of the other branches of one path component are
    unchanged. *)
Theorem rebaseBranch_spec fs repoRoot (other : string) :
  repo_layout fs repoRoot ->
  is_name (currentBranch fs repoRoot) = true ->
  is_name other = true ->
  let current := currentBranch fs repoRoot in
  let result := rebaseBranch fs repoRoot other in
  (succeeded result.1 = false <-> other = current \/ branchHead fs repoRoot other = "")
  /\ (succeeded result.1 = false -> result.2 = fs)
  /\ (succeeded result.1 = true ->
        branchHead result.2 repoRoot current = branchHead fs repoRoot other
        /\ currentBranch result.2 repoRoot = current
        /\ forall branch, is_name branch = true -> branch <> current ->
             branchHead result.2 repoRoot branch = branchHead fs repoRoot branch).
Proof.
  intros L Hb _. cbv zeta. unfold rebaseBranch.
  destruct (String.eqb_spec (currentBranch fs repoRoot) other) as [Heq|Hne].
  { cbn. split; [split; [left; congruence | reflexivity] |].
    split; [reflexivity | discriminate]. }
  destruct (empty (branchHead fs repoRoot other)) eqn:Hhead.
  { cbn. apply empty_true in Hhead.
    split; [split; [right; assumption | reflexivity] |].
    split; [reflexivity | discriminate]. }
  apply empty_false in Hhead. unfold updateBranchHead.
  rewrite (ref_written fs repoRoot _ _ L Hb). cbn [fst snd succeeded].
  split; [split; [discriminate | intros [?|?]; congruence] |].
  split; [discriminate|]. intros _. split; [|split].
  - rewrite (branchHead_written _ repoRoot _ (branchHead fs repoRoot other)).
    + apply branchHead_trimmed.
    + now apply ifstream_ref_own.
    + apply branchHead_free.
  - now apply currentBranch_ref_written.
  - intros branch Hbr Hd. now apply branchHead_ref_written.
Qed.

Lemma rebaseBranch_spec_witness :
  repo_layout demo_merge.2 demo_repo
  /\ is_name (currentBranch demo_merge.2 demo_repo) = true
  /\ succeeded (rebaseBranch demo_merge.2 demo_repo "main").1 = false
  /\ succeeded (rebaseBranch demo_merge.2 demo_repo "feature").1 = true
  /\ branchHead (rebaseBranch demo_merge.2 demo_repo "feature").2 demo_repo
       (currentBranch demo_merge.2 demo_repo)
     = branchHead demo_merge.2 demo_repo "feature".
Proof.
  assert (L : repo_layout demo_merge.2 demo_repo)
    by (apply demo_layout; vm_compute; reflexivity).
  assert (N : is_name (currentBranch demo_merge.2 demo_repo) = true)
    by (vm_compute; reflexivity).
  destruct (rebaseBranch_spec demo_merge.2 demo_repo "main" L N eq_refl) as (Hfail & _ & _).
  destruct (rebaseBranch_spec demo_merge.2 demo_repo "feature" L N eq_refl) as (_ & _ & Hok).
  assert (S : succeeded (rebaseBranch demo_merge.2 demo_repo "feature").1 = true)
    by (vm_compute; reflexivity).
  split; [exact L|]. split; [exact N|].
  split; [apply Hfail; left; vm_compute; reflexivity|].
  split; [exact S | exact (proj1 (Hok S))].
Defined.

(** X12.  [deleteBranch] in a repository whose skeleton is in place, for a
    name that is one path component, when HEAD names a branch likewise: a
    branch without ref file and the current branch are refused and the disk
    is unchanged; otherwise the ref file is removed, HEAD and the head
    files of the other branches of one path component are unchanged.
    Under these conditions a HEAD that named a branch with a ref file
    still does. *)
Theorem deleteBranch_spec fs repoRoot (branchName : string) :
  repo_layout fs repoRoot ->
  is_name branchName = true ->
  is_name (currentBranch fs repoRoot) = true ->
  let result := deleteBranch fs repoRoot branchName in
  (fs_exists fs (ref_file repoRoot branchName) = false ->
     result = (Failed (Message ("Branch '" +:+ branchName +:+ "' not found.")), fs))
  /\ (fs_exists fs (ref_file repoRoot branchName) = true ->
      currentBranch fs repoRoot = branchName ->
      result = (Failed (Message "Cannot delete current branch."), fs))
  /\ (fs_exists fs (ref_file repoRoot branchName) = true ->
      currentBranch fs repoRoot <> branchName ->
      result.1 = Done tt
      /\ fs_exists result.2 (ref_file repoRoot branchName) = false
      /\ currentBranch result.2 repoRoot = currentBranch fs repoRoot
      /\ forall other, is_name other = true -> other <> branchName ->
           ifstream result.2 (ref_file repoRoot other) = ifstream fs (ref_file repoRoot other))
  /\ (head_valid fs repoRoot = true -> head_valid result.2 repoRoot = true).
Proof.
  intros L Hb Hc. cbv zeta.
  destruct (layout_facts fs repoRoot L) as (_ & _ & _ & _ & _ & _ & Hhf).
  set (q := normalize repoRoot ++ [".glite"; "refs"; "heads"; branchName]).
  assert (Hrun : fs_exists fs (ref_file repoRoot branchName) = true ->
                 currentBranch fs repoRoot <> branchName ->
                 deleteBranch fs repoRoot branchName = (Done tt, delete q fs)).
  { intros E Hne. unfold deleteBranch. rewrite E. cbn [negb].
    destruct (String.eqb_spec (currentBranch fs repoRoot) branchName); [contradiction|].
    unfold remove. rewrite (norm_ref repoRoot branchName Hb). fold q.
    pose proof (Hhf branchName) as Hnd. fold q in Hnd.
    destruct (fs !! q) as [[c|]|]; [reflexivity | contradiction | reflexivity]. }
  assert (Hcur : currentBranch (delete q fs) repoRoot = currentBranch fs repoRoot).
  { unfold currentBranch.
    rewrite !(ifstream_at _ _ _ (norm_head repoRoot)) by (apply app_nonempty; discriminate).
    unfold q. now rewrite lookup_delete_ne by path_ne. }
  assert (Hother : forall other, is_name other = true -> other <> branchName ->
            ifstream (delete q fs) (ref_file repoRoot other)
            = ifstream fs (ref_file repoRoot other)).
  { intros other Ho Hne.
    rewrite !(ifstream_at _ _ _ (norm_ref repoRoot other Ho))
      by (apply app_nonempty; discriminate).
    unfold q. now rewrite lookup_delete_ne by path_ne. }
  split; [intros E; unfold deleteBranch; now rewrite E|].
  split; [intros E Heq; unfold deleteBranch; rewrite E; cbn [negb];
          apply String.eqb_eq in Heq; now rewrite Heq|].
  split.
  - intros E Hne. rewrite (Hrun E Hne). cbn [fst snd].
    split; [reflexivity|]. split; [|split; [exact Hcur | exact Hother]].
    rewrite (fs_exists_at _ _ _ (norm_ref repoRoot branchName Hb))
      by (apply app_nonempty; discriminate).
    fold q. now rewrite lookup_delete_eq.
  - intros Hv. destruct (fs_exists fs (ref_file repoRoot branchName)) eqn:E.
    + destruct (String.eqb_spec (currentBranch fs repoRoot) branchName) as [Heq|Hne].
      * unfold deleteBranch. rewrite E. cbn [negb].
        apply String.eqb_eq in Heq. now rewrite Heq.
      * rewrite (Hrun eq_refl Hne). cbn [snd]. unfold head_valid in *.
        rewrite Hcur, Hother; [exact Hv | exact Hc | exact Hne].
    + unfold deleteBranch. now rewrite E.
Qed.

Lemma deleteBranch_spec_witness :
  repo_layout demo_branched demo_repo
  /\ (deleteBranch demo_branched demo_repo "feature").1 = Done tt
  /\ fs_exists (deleteBranch demo_branched demo_repo "feature").2
               (ref_file demo_repo "feature") = false
  /\ deleteBranch demo_branched demo_repo "main"
     = (Failed (Message "Cannot delete current branch."), demo_branched)
  /\ head_valid (deleteBranch demo_branched demo_repo "feature").2 demo_repo = true.
Proof.
  assert (L : repo_layout demo_branched demo_repo)
    by (apply demo_layout; vm_compute; reflexivity).
  assert (N : is_name (currentBranch demo_branched demo_repo) = true)
    by (vm_compute; reflexivity).
  destruct (deleteBranch_spec demo_branched demo_repo "feature" L eq_refl N)
    as (_ & _ & Hdel & Hvalid).
  destruct (deleteBranch_spec demo_branched demo_repo "main" L eq_refl N)
    as (_ & Hcur & _ & _).
  destruct Hdel as (H1 & H2 & _); [vm_compute; reflexivity | vm_compute; discriminate |].
  split; [exact L|]. split; [exact H1|]. split; [exact H2|].
  split; [apply Hcur; vm_compute; reflexivity|].
  apply Hvalid. vm_compute. reflexivity.
Defined.

End BranchOps.

(** ** History and revert *)

Section History.

Implicit Types (fs : gmap (list string) node) (repoRoot : list string).

Lemma history_loop_length fs repoRoot (fuel : nat) : forall current : string,
  length (history_loop fs repoRoot fuel current) <= fuel.
Proof.
  induction fuel as [|fuel IH]; intros current; [reflexivity|]. cbn [history_loop].
  destruct (empty current); [cbn; lia|].
  destruct (negb (commitExists fs repoRoot current)); [cbn; lia|].
  destruct (empty (c_id (readCommit fs repoRoot current))); [cbn; lia|].
  cbn [length]. specialize (IH (c_parent (readCommit fs repoRoot current))). lia.
Qed.

Lemma history_loop_ids fs repoRoot (fuel : nat) : forall current : string,
  Forall (fun record => c_id record <> "") (history_loop fs repoRoot fuel current).
Proof.
  induction fuel as [|fuel IH]; intros current; [constructor|]. cbn [history_loop].
  destruct (empty current); [constructor|].
  destruct (negb (commitExists fs repoRoot current)); [constructor|].
  destruct (empty (c_id (readCommit fs repoRoot current))) eqn:E; [constructor|].
  constructor; [now apply empty_false | apply IH].
Qed.

Lemma history_loop_prefix fs repoRoot (fuel : nat) : forall current : string,
  history_loop fs repoRoot fuel current `prefix_of` history_loop fs repoRoot (S fuel) current.
Proof.
  induction fuel as [|fuel IH]; intros current; [apply prefix_nil|].
  change (history_loop fs repoRoot (S (S fuel)) current)
    with (if empty current then []
          else if negb (commitExists fs repoRoot current) then []
          else let record := readCommit fs repoRoot current in
               if empty (c_id record) then []
               else record :: history_loop fs repoRoot (S fuel) (c_parent record)).
  cbn [history_loop]. destruct (empty current); [reflexivity|].
  destruct (negb (commitExists fs repoRoot current)); [reflexivity|]. cbv zeta.
  destruct (empty (c_id (readCommit fs repoRoot current))); [reflexivity|].
  apply prefix_cons, IH.
Qed.

Lemma history_loop_chain fs repoRoot (fuel : nat) : forall (current : string) i record next,
  history_loop fs repoRoot fuel current !! i = Some record ->
  history_loop fs repoRoot fuel current !! S i = Some next ->
  next = readCommit fs repoRoot (c_parent record).
Proof.
  induction fuel as [|fuel IH]; intros current i record next; [discriminate|].
  cbn [history_loop]. destruct (empty current); [discriminate|].
  destruct (negb (commitExists fs repoRoot current)); [discriminate|].
  destruct (empty (c_id (readCommit fs repoRoot current))); [discriminate|].
  destruct i as [|i].
  - intros [= <-] Hn. cbn in Hn. destruct fuel as [|fuel]; [discriminate|].
    cbn [history_loop] in Hn.
    destruct (empty (c_parent (readCommit fs repoRoot current))); [discriminate|].
    destruct (negb (commitExists fs repoRoot _)); [discriminate|].
    destruct (empty (c_id (readCommit fs repoRoot _))); [discriminate|].
    now injection Hn as <-.
  - intros Hr Hn. exact (IH _ i record next Hr Hn).
Qed.

(** X13.  [history] returns at most [limit] records, none with an empty
    id; each record after the first is the commit read from the parent id
    of the record before it; a larger limit only adds records at the end;
    and a branch without head has no history. *)
Theorem history_bounded fs repoRoot (branch : string) (limit : nat) :
  length (history fs repoRoot branch limit) <= limit
  /\ Forall (fun record => c_id record <> "") (history fs repoRoot branch limit)
  /\ (forall i record next,
        history fs repoRoot branch limit !! i = Some record ->
        history fs repoRoot branch limit !! S i = Some next ->
        next = readCommit fs repoRoot (c_parent record))
  /\ history fs repoRoot branch limit `prefix_of` history fs repoRoot branch (S limit)
  /\ (branchHead fs repoRoot branch = "" -> history fs repoRoot branch limit = []).
Proof.
  unfold history. split; [apply history_loop_length|]. split; [apply history_loop_ids|].
  split; [apply history_loop_chain|]. split; [apply history_loop_prefix|].
  intros ->. apply history_loop_blank.
Qed.

End History.

(** ** A commit read back *)

Section CommitReadBack.

Implicit Types (fs : gmap (list string) node) (repoRoot : list string).

Lemma index_entry_fields (line : string) (entry : string * string) :
  find NL line = None -> index_entry line = Some entry -> field entry.1 /\ field entry.2.
Proof.
  intros Hline. unfold index_entry. destruct (empty line); [discriminate|].
  destruct (split TAB line) as [|a [|b [|c l]]] eqn:E; try discriminate.
  intros [= <-]. cbn [fst snd].
  assert (Ha : In a (split TAB line)) by (rewrite E; now left).
  assert (Hb : In b (split TAB line)) by (rewrite E; right; now left).
  split; (split; [now apply (split_tokens_free TAB line)
                 | now apply (split_tokens_free_other TAB NL line)]).
Qed.

Lemma readIndex_fields fs repoRoot :
  Forall (fun entry : string * string => field entry.1 /\ field entry.2)
         (readIndex fs repoRoot).
Proof.
  unfold readIndex. destruct (ifstream fs (index_file repoRoot)) as [content|]; [|constructor].
  pose proof (getlines_free content) as Hl.
  induction Hl as [|line lines Hline _ IH]; [constructor|].
  change (omap index_entry (line :: lines))
    with (match index_entry line with
          | Some y => y :: omap index_entry lines
          | None => omap index_entry lines
          end).
  destruct (index_entry line) as [entry|] eqn:E; [|exact IH].
  constructor; [now apply (index_entry_fields line) | exact IH].
Qed.

Lemma file_line_read (r : CommitRecord) (a b : string) :
  field a -> field b -> b <> "" -> starts_with "id=" a = false ->
  readCommit_line (r, true) (a +:+ String TAB b) = (push_file r (a, b), true).
Proof.
  intros [Ha _] [Hb _] Hne Hid. unfold readCommit_line.
  destruct (starts_with "id=" (a +:+ String TAB b)) eqn:E.
  { apply starts_with_before_tab in E; [congruence | reflexivity]. }
  destruct (String.eqb_spec (a +:+ String TAB b) "files:") as [E'|_].
  { exfalso. apply (find_tab_line a b). now rewrite E'. }
  cbn [negb]. rewrite split_app_delim by assumption. now rewrite split_no_delim.
Qed.

Lemma file_lines_read (entries : list (string * string)) : forall r : CommitRecord,
  Forall (fun e : string * string =>
            field e.1 /\ field e.2 /\ e.2 <> "" /\ starts_with "id=" e.1 = false) entries ->
  fold_left readCommit_line (map (fun e => e.1 +:+ String TAB e.2) entries) (r, true)
  = (mkCommit (c_id r) (c_parent r) (c_author r) (c_timestamp r) (c_message r) (c_branch r)
              (c_files r ++ entries), true).
Proof.
  induction entries as [|[a b] entries IH]; intros r H.
  - cbn. rewrite app_nil_r. now destruct r.
  - inversion H as [|? ? (Ha & Hb & Hne & Hid) Hrest]; subst. cbn [fst snd] in *.
    cbn [map fold_left fst snd]. rewrite file_line_read by assumption.
    rewrite IH by assumption. unfold push_file.
    cbn [c_id c_parent c_author c_timestamp c_message c_branch c_files].
    now rewrite <- app_assoc.
Qed.

Lemma parent_read (parent : string) :
  parent <> "null" ->
  (if String.eqb (if empty parent then "null" else parent) "null" then "" else
     (if empty parent then "null" else parent)) = parent.
Proof.
  intros H. destruct parent as [|c p]; [reflexivity|]. cbn [empty].
  destruct (String.eqb_spec (String c p) "null"); [contradiction | reflexivity].
Qed.

Lemma id_line_read (r : CommitRecord) (filesSection : bool) (value : string) :
  readCommit_line (r, filesSection) ("id=" +:+ value) = (set_id r value, filesSection).
Proof. reflexivity. Qed.

Lemma header_line_read (r : CommitRecord) (key value : string) :
  In key header_keys ->
  readCommit_line (r, false) (key +:+ "=" +:+ value) = (header_field r key value, false).
Proof.
  intros [<-|[<-|[<-|[<-|[<-|[]]]]]]; reflexivity.
Qed.

Lemma files_line_read (r : CommitRecord) : readCommit_line (r, false) "files:" = (r, true).
Proof. reflexivity. Qed.

(** The text of a commit object is read back as the record of the commit. *)
Lemma commit_text_read (cid parent author ts message branch : string)
    (entries : list (string * string)) (start : string) :
  find NL cid = None -> find NL parent = None -> find NL author = None ->
  find NL ts = None -> find NL message = None -> find NL branch = None ->
  parent <> "null" ->
  Forall (fun e : string * string =>
            field e.1 /\ field e.2 /\ e.2 <> "" /\ starts_with "id=" e.1 = false) entries ->
  (fold_left readCommit_line
     (getlines ("id=" +:+ cid +:+ nl +:+ commit_body author ts branch parent message entries))
     (set_id empty_record start, false)).1
  = mkCommit cid parent author ts message branch entries.
Proof.
  intros Hc Hp Ha Ht Hm Hb Hnull Hentries. unfold commit_body.
  rewrite 5 getlines_cons; try reflexivity; try assumption;
    [| destruct (empty parent); [reflexivity | exact Hp]].
  change ("message=" +:+ message +:+ nl +:+ "files:" +:+ nl +:+ entry_lines entries)
    with ("message=" +:+ message +:+ nl +:+ ("files:" +:+ "" +:+ nl +:+ entry_lines entries)).
  rewrite 2 getlines_cons; try reflexivity; try assumption.
  rewrite getlines_entry_lines
    by (eapply Forall_impl; [exact Hentries|]; now intros e ([_ H1] & [_ H2] & _)).
  cbn [fold_left app].
  rewrite (id_line_read _ false cid).
  rewrite (header_line_read _ "author" author) by (cbn; tauto).
  rewrite (header_line_read _ "timestamp" ts) by (cbn; tauto).
  rewrite (header_line_read _ "branch" branch) by (cbn; tauto).
  rewrite (header_line_read _ "parent" (if empty parent then "null" else parent))
    by (cbn; tauto).
  rewrite (header_line_read _ "message" message) by (cbn; tauto).
  change ("files:" +:+ "") with "files:". rewrite files_line_read.
  rewrite file_lines_read by assumption.
  cbn [fst header_field String.eqb Ascii.eqb Bool.eqb set_id set_author set_timestamp
       set_branch set_parent set_message empty_record c_id c_parent c_author c_timestamp
       c_message c_branch c_files app].
  now rewrite parent_read.
Qed.

(** X15.  A commit is read back as it was made: in a repository whose
    skeleton is in place and whose HEAD names a branch by one path
    component, when author, message and timestamp hold no line end, the
    head of the branch is not the text "null", no staged blob id is empty
    and no staged path begins with "id=", [getCommit] on the id of the
    record that [commit] returns gives that record, and [history] on the
    branch begins with it and goes on from its parent. *)
Theorem commit_read_back fs repoRoot (author message ts : string) :
  repo_layout fs repoRoot ->
  is_name (currentBranch fs repoRoot) = true ->
  find NL author = None -> find NL message = None -> find NL ts = None ->
  branchHead fs repoRoot (currentBranch fs repoRoot) <> "null" ->
  Forall (fun e : string * string => e.2 <> "" /\ starts_with "id=" e.1 = false)
         (readIndex fs repoRoot) ->
  forall record fs',
    commit fs repoRoot author message ts = (Done record, fs') ->
    getCommit fs' repoRoot (c_id record) = record
    /\ forall n, history fs' repoRoot (c_branch record) (S n)
                 = record :: history_loop fs' repoRoot n (c_parent record).
Proof.
  intros L Hb Ha Hm Ht Hnull Hidx record fs' Hrun.
  assert (Hne : readIndex fs repoRoot <> []).
  { intros E. unfold commit in Hrun. rewrite E in Hrun. discriminate. }
  rewrite (commit_run fs repoRoot author message ts L Hb Hne) in Hrun.
  injection Hrun as <- <-.
  set (R := normalize repoRoot).
  set (branch := currentBranch fs repoRoot) in *.
  set (parent := branchHead fs repoRoot branch) in *.
  set (entries := readIndex fs repoRoot) in *.
  set (body := commit_body author ts branch parent message entries).
  set (cid := sha256String body).
  cbn [c_id c_branch c_parent].
  match goal with |- getCommit ?d _ _ = _ /\ _ => set (disk := d) end.
  assert (Hobj : ifstream disk (object_file repoRoot cid)
                 = Some ("id=" +:+ cid +:+ nl +:+ body)).
  { rewrite (ifstream_at _ _ (R ++ [".glite"; "objects"; cid]));
      [| apply norm_object, sha256String_is_name | now apply app_nonempty].
    unfold disk. rewrite !lookup_insert_ne by path_ne. now rewrite lookup_insert_eq. }
  assert (Hex : commitExists disk repoRoot cid = true).
  { unfold commitExists.
    rewrite (fs_exists_at _ _ (R ++ [".glite"; "objects"; cid]));
      [| apply norm_object, sha256String_is_name | now apply app_nonempty].
    unfold disk. rewrite !lookup_insert_ne by path_ne. now rewrite lookup_insert_eq. }
  assert (Hread : readCommit disk repoRoot cid
                  = mkCommit cid parent author ts message branch entries).
  { unfold readCommit. rewrite Hobj. apply commit_text_read; try assumption.
    - apply sha256String_free. reflexivity.
    - apply branchHead_free.
    - apply currentBranch_free.
    - pose proof (readIndex_fields fs repoRoot) as Hf. fold entries in Hf.
      rewrite Forall_forall in Hf, Hidx |- *. intros e He.
      destruct (Hf e He) as [H1 H2]. destruct (Hidx e He) as [H3 H4]. tauto. }
  assert (Hget : getCommit disk repoRoot cid
                 = mkCommit cid parent author ts message branch entries)
    by (unfold getCommit; now rewrite Hex).
  split; [exact Hget|]. intros n. unfold history.
  assert (Hhead : branchHead disk repoRoot branch = cid).
  { apply branchHead_digest.
    rewrite (ifstream_at _ _ (R ++ [".glite"; "refs"; "heads"; branch]));
      [| apply norm_ref; exact Hb | now apply app_nonempty].
    unfold disk. rewrite !lookup_insert_ne by path_ne. now rewrite lookup_insert_eq. }
  rewrite Hhead. cbn [history_loop].
  assert (Hcid : empty cid = false) by (apply empty_false, sha256String_nonempty).
  rewrite Hcid, Hex, Hread. cbn [negb c_id c_parent]. now rewrite Hcid.
Qed.

Lemma commit_read_back_witness :
  repo_layout demo_staged demo_repo
  /\ is_name (currentBranch demo_staged demo_repo) = true
  /\ succeeded (commit demo_staged demo_repo "alice" "c1" "2024-01-01T00:00:01").1 = true
  /\ getCommit demo_committed demo_repo
       (c_id (record_of (commit demo_staged demo_repo "alice" "c1" "2024-01-01T00:00:01").1))
     = record_of (commit demo_staged demo_repo "alice" "c1" "2024-01-01T00:00:01").1.
Proof.
  assert (L : repo_layout demo_staged demo_repo)
    by (apply demo_layout; vm_compute; reflexivity).
  assert (N : is_name (currentBranch demo_staged demo_repo) = true)
    by (vm_compute; reflexivity).
  assert (S : succeeded (commit demo_staged demo_repo "alice" "c1" "2024-01-01T00:00:01").1
              = true) by (vm_compute; reflexivity).
  assert (P : branchHead demo_staged demo_repo (currentBranch demo_staged demo_repo) <> "null")
    by (vm_compute; discriminate).
  assert (I : Forall (fun e : string * string => e.2 <> "" /\ starts_with "id=" e.1 = false)
                     (readIndex demo_staged demo_repo)).
  { assert (M : forallb (fun e : string * string =>
                           negb (String.eqb e.2 "") && negb (starts_with "id=" e.1))
                        (readIndex demo_staged demo_repo) = true) by (vm_compute; reflexivity).
    apply Forall_forall. intros e He%list_elem_of_In.
    rewrite forallb_forall in M. specialize (M e He).
    apply andb_prop in M as [M1 M2]. apply negb_true_iff in M1, M2.
    split; [now apply String.eqb_neq | exact M2]. }
  destruct (commit_read_back demo_staged demo_repo "alice" "c1" "2024-01-01T00:00:01"
              L N eq_refl eq_refl eq_refl P I _ _
              (done_eta (commit demo_staged demo_repo "alice" "c1" "2024-01-01T00:00:01") S))
    as [Hget _].
  split; [exact L|]. split; [exact N|]. split; [exact S | exact Hget].
Defined.

End CommitReadBack.

(** ** Revert *)

Section Revert.

Implicit Types (fs : gmap (list string) node) (repoRoot : list string).

Lemma readCommit_commit_text fs repoRoot (commitId : string) (r : CommitRecord) :
  ifstream fs (object_file repoRoot commitId) = Some (commit_text r) ->
  commit_readable r ->
  readCommit fs repoRoot commitId = r.
Proof.
  intros Hobj ((Hi & Hp & Ha & Ht & Hm & Hb & Hf) & Hnull & Hentries).
  unfold readCommit. rewrite Hobj. unfold commit_text.
  rewrite commit_text_read; try assumption; [now destruct r|].
  rewrite Forall_forall in Hf, Hentries |- *. intros e He.
  destruct (Hf e He) as [H1 H2]. destruct (Hentries e He) as (H3 & H4 & H5 & H6).
  unfold field. tauto.
Qed.

(** X14.  [revertCommit] in a repository whose skeleton is in place and
    whose HEAD names a branch by one path component, for a commit id of
    one path component.  Without an object of that id it fails with
    "Commit not found." and the disk is unchanged.  With one it succeeds:
    the id of the record is the SHA-256 of the given id, the head of the
    current branch and the timestamp put together; its parent is that
    head, its author, timestamp and branch are the given ones and the
    current branch.  When the reverted object holds the text [commit]
    writes for a readable record, the message is "Revert: " followed by
    the message of that record, and the files are none when that record
    has no parent, those of the parent when the parent, a name of one path
    component, was written by [commit] likewise, and none when the parent
    object holds the text that [mergeBranch] and [revertCommit] write, for
    a record whose fields hold no line end and whose paths begin with none
    of "author=", "timestamp=", "branch=", "parent=" and "message=".  When
    the reverted object itself holds such a text the message is "Revert: "
    alone and the files are none.  The record is
    stored under its id and becomes the head of the current branch; HEAD,
    the heads of the other branches of one path component and the index
    are unchanged. *)
Theorem revertCommit_spec fs repoRoot (commitId author ts_id ts : string) :
  repo_layout fs repoRoot ->
  is_name (currentBranch fs repoRoot) = true ->
  is_name commitId = true ->
  let current := currentBranch fs repoRoot in
  let result := revertCommit fs repoRoot commitId author ts_id ts in
  let record := record_of result.1 in
  (commitExists fs repoRoot commitId = false ->
     result = (Failed (Message "Commit not found."), fs))
  /\ (commitExists fs repoRoot commitId = true ->
      succeeded result.1 = true
      /\ c_id record = sha256String (commitId +:+ branchHead fs repoRoot current +:+ ts_id)
      /\ c_parent record = branchHead fs repoRoot current
      /\ c_author record = author
      /\ c_timestamp record = ts
      /\ c_branch record = current
      /\ (forall original,
            ifstream fs (object_file repoRoot commitId) = Some (commit_text original) ->
            commit_readable original ->
            c_message record = "Revert: " +:+ c_message original
            /\ (c_parent original = "" -> c_files record = [])
            /\ (forall parent,
                  is_name (c_parent original) = true ->
                  ifstream fs (object_file repoRoot (c_parent original))
                  = Some (commit_text parent) ->
                  commit_readable parent ->
                  c_files record = c_files parent)
            /\ (forall parent,
                  is_name (c_parent original) = true ->
                  ifstream fs (object_file repoRoot (c_parent original))
                  = Some (record_text parent) ->
                  single_lines parent ->
                  forallb (fun e : string * string => negb (shadows_header e.1))
                          (c_files parent) = true ->
                  c_files record = []))
      /\ (forall original,
            ifstream fs (object_file repoRoot commitId) = Some (record_text original) ->
            single_lines original ->
            forallb (fun e : string * string => negb (shadows_header e.1))
                    (c_files original) = true ->
            c_message record = "Revert: " /\ c_files record = [])
      /\ ifstream result.2 (object_file repoRoot (c_id record)) = Some (record_text record)
      /\ branchHead result.2 repoRoot current = c_id record
      /\ currentBranch result.2 repoRoot = current
      /\ (forall branch, is_name branch = true -> branch <> current ->
            branchHead result.2 repoRoot branch = branchHead fs repoRoot branch)
      /\ readIndex result.2 repoRoot = readIndex fs repoRoot).
Proof.
  intros L Hb Hc. cbv zeta. rewrite revertCommit_unfold.
  split; [intros E; rewrite E; reflexivity|].
  intros E. rewrite E. cbn [negb fst snd succeeded record_of].
  split; [reflexivity|]. split; [reflexivity|]. split; [reflexivity|].
  split; [reflexivity|]. split; [reflexivity|]. split; [reflexivity|].
  split.
  { intros original Hobj Hr.
    pose proof (readCommit_commit_text fs repoRoot commitId original Hobj Hr) as Hread.
    unfold revert_record. cbn [c_message c_files]. rewrite Hread.
    split; [reflexivity|]. split; [intros ->; reflexivity|]. split.
    - intros parent Hn Hpo Hpr.
      pose proof (is_name_nonempty _ Hn) as Hne. apply empty_false in Hne. rewrite Hne.
      now rewrite (readCommit_commit_text fs repoRoot _ parent Hpo Hpr).
    - intros parent Hn Hpo Hs Hf.
      pose proof (is_name_nonempty _ Hn) as Hne.
      destruct (readCommit_record_text fs repoRoot _ parent Hpo Hne Hs Hf)
        as (_ & _ & _ & _ & _ & _ & Hfiles).
      apply empty_false in Hne. rewrite Hne. exact Hfiles. }
  split.
  { intros original Hobj Hs Hf.
    destruct (readCommit_record_text fs repoRoot commitId original Hobj
                (is_name_nonempty _ Hc) Hs Hf) as (_ & Hp & _ & _ & Hm & _ & _).
    unfold revert_record. cbn [c_message c_files]. rewrite Hm, Hp.
    split; reflexivity. }
  set (rec := revert_record fs repoRoot commitId author ts_id ts).
  assert (Hid : c_id rec = sha256String (commitId
                  +:+ branchHead fs repoRoot (currentBranch fs repoRoot) +:+ ts_id))
    by reflexivity.
  assert (Hbr : c_branch rec = currentBranch fs repoRoot) by reflexivity.
  assert (Hname : is_name (c_id rec) = true) by (rewrite Hid; apply sha256String_is_name).
  rewrite (store_record_run fs repoRoot rec L);
    [| rewrite Hbr; exact Hb | exact Hname ].
  rewrite Hbr. set (R := normalize repoRoot).
  split.
  { rewrite (ifstream_at _ _ (R ++ [".glite"; "objects"; c_id rec]));
      [| now apply norm_object | now apply app_nonempty].
    rewrite !lookup_insert_ne by path_ne. rewrite lookup_insert_eq. reflexivity. }
  split.
  { rewrite Hid. apply branchHead_digest. rewrite <- Hid.
    rewrite (ifstream_at _ _ (R ++ [".glite"; "refs"; "heads"; currentBranch fs repoRoot]));
      [| apply norm_ref; exact Hb | now apply app_nonempty].
    rewrite lookup_insert_ne by path_ne. rewrite lookup_insert_eq. reflexivity. }
  split.
  { unfold currentBranch at 1 3.
    rewrite !(ifstream_at _ _ _ (norm_head repoRoot)) by (apply app_nonempty; discriminate).
    fold R. now rewrite !lookup_insert_ne by path_ne. }
  split.
  { intros branch Hn Hne. unfold branchHead.
    rewrite !(ifstream_at _ _ _ (norm_ref repoRoot branch Hn))
      by (apply app_nonempty; discriminate).
    fold R. now rewrite !lookup_insert_ne by path_ne. }
  unfold readIndex.
  rewrite !(ifstream_at _ _ _ (norm_index repoRoot)) by (apply app_nonempty; discriminate).
  fold R. now rewrite !lookup_insert_ne by path_ne.
Qed.

Lemma revertCommit_spec_witness :
  repo_layout demo_branched demo_repo
  /\ is_name (currentBranch demo_branched demo_repo) = true
  /\ is_name (branchHead demo_branched demo_repo "main") = true
  /\ succeeded demo_revert.1 = true
  /\ c_author (record_of demo_revert.1) = "alice"
  /\ c_message (record_of demo_revert.1) = "Revert: c1"
  /\ c_files (record_of demo_revert.1) = []
  /\ branchHead demo_revert.2 demo_repo (currentBranch demo_branched demo_repo)
     = c_id (record_of demo_revert.1)
  /\ revertCommit demo_branched demo_repo "none" "alice" "t" "t"
     = (Failed (Message "Commit not found."), demo_branched).
Proof.
  assert (L : repo_layout demo_branched demo_repo)
    by (apply demo_layout; vm_compute; reflexivity).
  assert (N : is_name (currentBranch demo_branched demo_repo) = true)
    by (vm_compute; reflexivity).
  assert (C : is_name (branchHead demo_branched demo_repo "main") = true)
    by (vm_compute; reflexivity).
  assert (E : commitExists demo_branched demo_repo (branchHead demo_branched demo_repo "main")
              = true) by (vm_compute; reflexivity).
  set (original := record_of (commit demo_staged demo_repo "alice" "c1"
                                     "2024-01-01T00:00:01").1).
  assert (O : ifstream demo_branched
                (object_file demo_repo (branchHead demo_branched demo_repo "main"))
              = Some (commit_text original)) by (vm_compute; reflexivity).
  assert (Q : commit_readable original).
  { split; [vm_compute; repeat split; try reflexivity; repeat constructor|].
    split; [vm_compute; discriminate|].
    vm_compute. repeat constructor. discriminate. }
  assert (P : c_parent original = "") by (vm_compute; reflexivity).
  assert (M : c_message original = "c1") by (vm_compute; reflexivity).
  destruct (revertCommit_spec demo_branched demo_repo
              (branchHead demo_branched demo_repo "main") "alice"
              "2024-01-01T00:00:03" "2024-01-01T00:00:03" L N C) as [_ Hdone].
  destruct (Hdone E) as (S & _ & _ & Ha & _ & _ & Hcommit & _ & _ & Hhead & _).
  destruct (Hcommit original O Q) as (Hm & Hf & _).
  destruct (revertCommit_spec demo_branched demo_repo "none" "alice" "t" "t" L N eq_refl)
    as [Hfail _].
  split; [exact L|]. split; [exact N|]. split; [exact C|]. split; [exact S|].
  split; [exact Ha|]. split; [rewrite <- M; exact Hm|]. split; [exact (Hf P)|].
  split; [exact Hhead|]. apply Hfail. vm_compute. reflexivity.
Defined.

End Revert.


(** ** The skeleton createRepo leaves *)

Section CreateRepo.

Implicit Types (fs m : gmap (list string) node) (R x : list string).







End CreateRepo.

(** ** Tags *)

Section Tags.

Implicit Types (fs : gmap (list string) node) (repoRoot : list string).

(** [create_directories] adds directories and changes no regular file. *)
Lemma create_directories_files fs p :
  creatable fs p ->
  exists fs', create_directories fs p = (fs', true)
    /\ is_directory fs' p = true
    /\ (forall q, ifstream fs' q = ifstream fs q)
    /\ (forall x, ~ x `prefix_of` normalize p -> fs' !! x = fs !! x).
Proof.
  intros Hc. destruct (create_directories_spec fs p) as (fs' & Hrun & Hlook).
  { intros x c Hx _. now apply Hc. }
  exists fs'. split; [exact Hrun|]. split; [|split].
  - unfold is_directory, node_at, lookup_node.
    destruct (normalize p) as [|a l] eqn:E; [reflexivity|].
    rewrite Hlook. rewrite decide_True; [reflexivity|]. split; [reflexivity | discriminate].
  - intros q. unfold ifstream, node_at, lookup_node.
    destruct (normalize q) as [|a l] eqn:E; [reflexivity|]. rewrite Hlook.
    destruct (decide _) as [[H1 H2]|_]; [|reflexivity].
    destruct (fs !! (a :: l)) as [[c|]|] eqn:E'; try reflexivity.
    now destruct (Hc _ c H1).
  - intros x Hx. rewrite Hlook. rewrite decide_False; [reflexivity|]. now intros [H _].
Qed.

(** [creatable] is checked on the prefixes of the resolved path. *)
Lemma creatable_check fs p :
  forallb (fun n => match fs !! take n (normalize p) with Some (File _) => false | _ => true end)
          (seq 0 (S (length (normalize p)))) = true ->
  creatable fs p.
Proof.
  intros H k c Hk Hf. rewrite forallb_forall in H.
  specialize (H (length k)). destruct Hk as [s Hs]. rewrite Hs in H.
  rewrite take_app_length, Hf in H. discriminate H.
  - apply in_seq. rewrite length_app. lia.
Qed.

(** X17.  [createTag] for a tag name that is one path component, when no
    regular file stands where the directory of the tags has to be: the
    directory of the tags exists afterwards, also when the call fails; an
    existing tag is refused; a current branch without head is refused;
    otherwise the tag file holds the head of the current branch.  Every
    other file reads as before, and so does the tag file when the call
    fails. *)
Theorem createTag_spec fs repoRoot (tagName : string) :
  is_name tagName = true ->
  creatable fs (tags_dir repoRoot) ->
  let head := branchHead fs repoRoot (currentBranch fs repoRoot) in
  let result := createTag fs repoRoot tagName in
  is_directory result.2 (tags_dir repoRoot) = true
  /\ (fs_exists fs (tag_file repoRoot tagName) = true ->
        result.1 = Failed (Message ("Tag '" +:+ tagName +:+ "' already exists.")))
  /\ (fs_exists fs (tag_file repoRoot tagName) = false -> head = "" ->
        result.1 = Failed (Message "No commits to tag."))
  /\ (fs_exists fs (tag_file repoRoot tagName) = false -> head <> "" ->
        result.1 = Done tt
        /\ ifstream result.2 (tag_file repoRoot tagName) = Some (head +:+ nl))
  /\ (forall p, normalize p <> normalize (tag_file repoRoot tagName) ->
        ifstream result.2 p = ifstream fs p)
  /\ (succeeded result.1 = false ->
        ifstream result.2 (tag_file repoRoot tagName)
        = ifstream fs (tag_file repoRoot tagName)).
Proof.
  intros Ht Hc head result.
  destruct (create_directories_files fs (tags_dir repoRoot) Hc)
    as (fs1 & Hrun & Hdir & Hfiles & Hoff).
  set (q := normalize repoRoot ++ [".glite"; "refs"; "tags"; tagName]).
  assert (Hq : normalize (tag_file repoRoot tagName) = q) by now apply norm_tag.
  assert (Hqne : q <> []) by (apply app_nonempty; discriminate).
  assert (Hex : fs_exists fs1 (tag_file repoRoot tagName)
                = fs_exists fs (tag_file repoRoot tagName)).
  { rewrite !(fs_exists_at _ _ q Hq Hqne). rewrite Hoff; [reflexivity|].
    rewrite norm_tags. unfold q. intros H%prefix_app_inv.
    apply prefix_length in H. cbn in H. lia. }
  assert (Hhead : branchHead fs1 repoRoot (currentBranch fs1 repoRoot) = head).
  { unfold head, branchHead, currentBranch. now rewrite !Hfiles. }
  assert (Hdir1 : fs1 !! (normalize repoRoot ++ [".glite"; "refs"; "tags"]) = Some Dir).
  { eapply is_directory_true; [apply norm_tags | apply app_nonempty; discriminate | exact Hdir]. }
  assert (Hres : (fs_exists fs (tag_file repoRoot tagName) = true ->
                  result = (Failed (Message ("Tag '" +:+ tagName +:+ "' already exists.")), fs1))
                 /\ (fs_exists fs (tag_file repoRoot tagName) = false -> head = "" ->
                     result = (Failed (Message "No commits to tag."), fs1))
                 /\ (fs_exists fs (tag_file repoRoot tagName) = false -> head <> "" ->
                     result = (Done tt, <[q := File (head +:+ nl)]> fs1))).
  { subst result. unfold createTag. rewrite Hrun. cbn [negb]. rewrite Hex, Hhead.
    split; [intros E; now rewrite E|].
    split; intros E Hh; rewrite E.
    - now rewrite Hh.
    - destruct (empty head) eqn:Eh; [now apply empty_true in Eh|].
      rewrite (write_file_at fs1 (tag_file repoRoot tagName) (normalize repoRoot)
                 [".glite"; "refs"; "tags"] tagName); [reflexivity | exact Hq | |].
      + rewrite lookup_node_app by discriminate. exact Hdir1.
      + change (fs1 !! q <> Some Dir). rewrite <- Hex in E. rewrite (fs_exists_at _ _ q Hq Hqne) in E.
        destruct (fs1 !! q); [discriminate E | discriminate]. }
  destruct Hres as (Hold & Hnone & Hnew).
  assert (Hcases : result.2 = fs1 \/ result.2 = <[q := File (head +:+ nl)]> fs1).
  { destruct (fs_exists fs (tag_file repoRoot tagName)) eqn:E.
    - left. now rewrite Hold.
    - destruct (string_dec head "") as [Hh|Hh].
      + left. now rewrite Hnone.
      + right. now rewrite Hnew. }
  split; [|split; [|split; [|split; [|split]]]].
  - destruct Hcases as [-> | ->]; [exact Hdir|].
    rewrite (is_directory_at _ _ _ (norm_tags repoRoot)) by (apply app_nonempty; discriminate).
    rewrite lookup_insert_ne by (unfold q; path_ne). now rewrite Hdir1.
  - intros E. now rewrite Hold.
  - intros E Hh. now rewrite Hnone.
  - intros E Hh. rewrite Hnew by assumption. cbn [fst snd]. split; [reflexivity|].
    rewrite (ifstream_at _ _ q Hq Hqne). now rewrite lookup_insert_eq.
  - intros p Hp. rewrite Hq in Hp.
    destruct Hcases as [-> | ->]; [apply Hfiles|].
    rewrite ifstream_beside by exact Hp. apply Hfiles.
  - intros Hfail. destruct (fs_exists fs (tag_file repoRoot tagName)) eqn:E.
    + rewrite Hold by reflexivity. apply Hfiles.
    + destruct (string_dec head "") as [Hh|Hh].
      * rewrite (Hnone eq_refl Hh). apply Hfiles.
      * rewrite (Hnew eq_refl Hh) in Hfail. discriminate Hfail.
Qed.

Lemma createTag_spec_witness :
  is_name "v1" = true
  /\ creatable demo_committed (tags_dir demo_repo)
  /\ (createTag demo_committed demo_repo "v1").1 = Done tt
  /\ ifstream (createTag demo_committed demo_repo "v1").2 (tag_file demo_repo "v1")
     = Some (branchHead demo_committed demo_repo (currentBranch demo_committed demo_repo) +:+ nl)
  /\ is_directory (createTag demo_created demo_repo "v1").2 (tags_dir demo_repo) = true
  /\ (createTag demo_created demo_repo "v1").1 = Failed (Message "No commits to tag.").
Proof.
  assert (C : creatable demo_committed (tags_dir demo_repo))
    by (apply creatable_check; vm_compute; reflexivity).
  assert (C' : creatable demo_created (tags_dir demo_repo))
    by (apply creatable_check; vm_compute; reflexivity).
  destruct (createTag_spec demo_committed demo_repo "v1" eq_refl C) as (_ & _ & _ & Hnew & _).
  destruct (createTag_spec demo_created demo_repo "v1" eq_refl C') as (Hd & _ & Hnone & _).
  destruct Hnew as [H1 H2]; [vm_compute; reflexivity | vm_compute; discriminate |].
  split; [reflexivity|]. split; [exact C|]. split; [exact H1|]. split; [exact H2|].
  split; [exact Hd|]. apply Hnone; vm_compute; reflexivity.
Defined.

End Tags.

(** ** Renaming a branch *)

Section RenameBranch.

Implicit Types (fs : gmap (list string) node) (repoRoot : list string).

Lemma identifier_facts (value : string) :
  isValidIdentifier value = true ->
  value <> "" /\ find NL value = None /\ trim value = value
  /\ (value <> "." -> value <> ".." -> is_name value = true).
Proof.
  intros H. unfold isValidIdentifier in H.
  assert (Hne : value <> "") by (destruct value; [discriminate | discriminate]).
  assert (Hall : string_forallb (fun ch => is_alnum ch || Ascii.eqb ch "-" || Ascii.eqb ch "_"
                                            || Ascii.eqb ch ".") value = true)
    by (destruct value; [discriminate | exact H]).
  assert (Hslash : find "/" value = None)
    by (eapply string_forallb_find; [|exact Hall]; reflexivity).
  split; [exact Hne|].
  split; [eapply string_forallb_find; [|exact Hall]; reflexivity|]. split.
  - eapply trim_id; [|exact Hall]. intros c Hc. cbv beta in Hc.
    destruct (is_ws c) eqn:E; [|reflexivity]. unfold is_ws in E.
    destruct (Ascii.eqb_spec c SP) as [->|]; [discriminate Hc|].
    destruct (Ascii.eqb_spec c TAB) as [->|]; [discriminate Hc|].
    destruct (Ascii.eqb_spec c CR) as [->|]; [discriminate Hc|].
    destruct (Ascii.eqb_spec c NL) as [->|]; [discriminate Hc | discriminate E].
  - intros Hdot Hdots. unfold is_name, plain.
    destruct (String.eqb_spec value "") as [E|_]; [contradiction|].
    destruct (String.eqb_spec value ".") as [E|_]; [contradiction|].
    destruct (String.eqb_spec value "..") as [E|_]; [contradiction|].
    rewrite (bool_decide_eq_true_2 _ Hslash). cbn [negb andb].
    destruct value as [|c v]; [contradiction|].
    apply find_cons_None in Hslash as [Hc _]. cbn [starts_with].
    destruct (Ascii.eqb_spec "/" c) as [E|_]; [now destruct Hc | reflexivity].
Qed.

Lemma last_char_app (a b : string) : b <> "" -> last_char (a +:+ b) = last_char b.
Proof.
  intros Hb. induction a as [|c a IH]; [reflexivity|]. cbn [String.append].
  destruct (a +:+ b) as [|x r] eqn:E.
  - destruct a; cbn in E; [contradiction | discriminate].
  - exact IH.
Qed.

(** The branch read from a HEAD that names it. *)
Lemma currentBranch_named fs repoRoot (branch : string) :
  ifstream fs (head_file repoRoot) = Some ("ref: " +:+ branch +:+ nl) ->
  branch <> "" -> find NL branch = None -> trim branch = branch ->
  currentBranch fs repoRoot = branch.
Proof.
  intros H Hne Hnl Ht. unfold currentBranch. rewrite H.
  change ("ref: " +:+ branch +:+ nl) with (("ref: " +:+ branch) +:+ String NL "").
  rewrite first_line_app by (apply find_app_None; split; [reflexivity | exact Hnl]).
  assert (Hlast : forall c, last_char branch = Some c -> is_ws c = false).
  { intros c Hc. rewrite <- Ht in Hc. unfold trim in Hc. now apply rtrim_last in Hc. }
  assert (Hline : trim ("ref: " +:+ branch) = "ref: " +:+ branch).
  { unfold trim. rewrite ltrim_fixed by (intros c [= <-]; reflexivity).
    apply rtrim_fixed. intros c. rewrite last_char_app by exact Hne. apply Hlast. }
  cbv zeta. rewrite Hline.
  change (starts_with "ref:" ("ref: " +:+ branch)) with true.
  change (substr 4 ("ref: " +:+ branch)) with (String SP branch).
  unfold trim. change (ltrim (String SP branch)) with (ltrim branch). exact Ht.
Qed.

(** [rename] of a regular file to a free place in a directory. *)
Lemma rename_file fs (old new o n : list string) (c : string) :
  disk_wf fs -> normalize old = o -> normalize new = n ->
  fs !! o = Some (File c) -> n <> [] -> fs !! n = None ->
  lookup_node fs (removelast n) = Some Dir ->
  rename fs old new = (<[n := File c]> (delete o fs), true).
Proof.
  intros Hwf Ho Hn Hfile Hne Hfree Hparent.
  destruct (disk_wf_lookup fs o _ Hwf Hfile) as (Hone & _ & _).
  assert (Hbelow : forall k, o `prefix_of` k -> k <> o -> fs !! k = None).
  { intros k [s ->] Hk. destruct (fs !! (o ++ s)) as [x|] eqn:E; [|reflexivity].
    assert (Hs : s <> []) by (intros ->; now rewrite app_nil_r in Hk).
    rewrite (disk_wf_ancestor fs s o x Hwf E Hone Hs) in Hfile. discriminate Hfile. }
  assert (Hnot : ~ o `prefix_of` n).
  { intros Hp. destruct (decide (n = o)) as [->|Hd]; [congruence|].
    destruct Hp as [s Hs]. destruct s as [|x s _] using rev_ind.
    - rewrite app_nil_r in Hs. contradiction.
    - rewrite Hs, app_assoc, removelast_snoc in Hparent.
      destruct s as [|y s].
      + rewrite app_nil_r, lookup_node_nonempty in Hparent by exact Hone. congruence.
      + rewrite lookup_node_app in Hparent by discriminate.
        rewrite (Hbelow (o ++ y :: s)) in Hparent; [discriminate Hparent | now apply prefix_app_r |].
        intros E. apply (f_equal length) in E. rewrite length_app in E. cbn in E. lia. }
  assert (Hsub : subtree fs o = {[o := File c]}).
  { apply map_eq. intros k. unfold subtree. apply option_eq. intros x.
    rewrite map_lookup_filter_Some, lookup_singleton_Some. cbn [fst]. split.
    - intros [Hk Hp]. destruct (decide (k = o)) as [->|Hd]; [split; congruence|].
      rewrite (Hbelow k Hp Hd) in Hk. discriminate Hk.
    - intros [<- <-]. now split. }
  assert (Hrem : remove_all fs o = delete o fs).
  { assert (Hoo : normalize o = o)
      by (rewrite <- Ho; apply normalize_resolved, normalize_plain).
    apply map_eq. intros k. rewrite remove_all_lookup, Hoo.
    destruct (decide (o `prefix_of` k)) as [Hp|Hp].
    - destruct (decide (k = o)) as [->|Hd]; [now rewrite lookup_delete_eq|].
      rewrite lookup_delete_ne by congruence. now rewrite (Hbelow k Hp Hd).
    - rewrite lookup_delete_ne; [reflexivity|]. intros <-. now apply Hp. }
  unfold rename. cbv zeta. rewrite Ho, Hn.
  rewrite Hsub, Hrem, map_fold_singleton, drop_all, app_nil_r.
  rewrite decide_False by exact Hnot.
  destruct o as [|o1 o']; [contradiction|]. destruct n as [|n1 n']; [contradiction|].
  now rewrite Hfile, Hfree, Hparent.
Qed.

(** X18.  [renameBranch] on a well-formed disk, in a repository whose
    skeleton is in place and whose HEAD is no directory and names a branch
    by one path component, for an old name of one component and a new name
    that passes [isValidIdentifier] and is not "." or "..": a missing old
    branch and an existing new one are refused and the disk is unchanged;
    otherwise the ref file moves to the new name with its head, HEAD
    follows when it named the old branch, and the other ref files are
    unchanged.  In every case a HEAD that named a branch with a ref file
    still does. *)
Theorem renameBranch_spec fs repoRoot (oldName newName : string) :
  disk_wf fs ->
  repo_layout fs repoRoot ->
  is_directory fs (head_file repoRoot) = false ->
  is_name oldName = true ->
  is_name (currentBranch fs repoRoot) = true ->
  isValidIdentifier newName = true -> newName <> "." -> newName <> ".." ->
  let result := renameBranch fs repoRoot oldName newName in
  (fs_exists fs (ref_file repoRoot oldName) = false ->
     result = (Failed (Message ("Branch '" +:+ oldName +:+ "' not found.")), fs))
  /\ (fs_exists fs (ref_file repoRoot oldName) = true ->
      fs_exists fs (ref_file repoRoot newName) = true ->
      result = (Failed (Message ("Branch '" +:+ newName +:+ "' already exists.")), fs))
  /\ (fs_exists fs (ref_file repoRoot oldName) = true ->
      fs_exists fs (ref_file repoRoot newName) = false ->
      result.1 = Done tt
      /\ fs_exists result.2 (ref_file repoRoot oldName) = false
      /\ ifstream result.2 (ref_file repoRoot newName)
         = ifstream fs (ref_file repoRoot oldName)
      /\ currentBranch result.2 repoRoot
         = (if String.eqb (currentBranch fs repoRoot) oldName then newName
            else currentBranch fs repoRoot)
      /\ forall other, is_name other = true -> other <> oldName -> other <> newName ->
           ifstream result.2 (ref_file repoRoot other) = ifstream fs (ref_file repoRoot other))
  /\ (head_valid fs repoRoot = true -> head_valid result.2 repoRoot = true).
Proof.
  intros Hwf L Hhd Ho Hc Hid Hdot Hdots result.
  destruct (identifier_facts newName Hid) as (Hne & Hnl & Htrim & Hn).
  specialize (Hn Hdot Hdots).
  destruct (layout_facts fs repoRoot L) as (Hg & _ & Hh & _ & _ & _ & Hhf).
  set (R := normalize repoRoot) in *.
  set (o := R ++ [".glite"; "refs"; "heads"; oldName]).
  set (n := R ++ [".glite"; "refs"; "heads"; newName]).
  set (h := R ++ [".glite"; "HEAD"]).
  assert (Eo : normalize (ref_file repoRoot oldName) = o) by now apply norm_ref.
  assert (En : normalize (ref_file repoRoot newName) = n) by now apply norm_ref.
  assert (Eh : normalize (head_file repoRoot) = h) by apply norm_head.
  assert (Hone : o <> []) by (apply app_nonempty; discriminate).
  assert (Hnne : n <> []) by (apply app_nonempty; discriminate).
  assert (Hhne : h <> []) by (apply app_nonempty; discriminate).
  assert (Hat : forall m (b : string), is_name b = true ->
            ifstream m (ref_file repoRoot b)
            = match m !! (R ++ [".glite"; "refs"; "heads"; b]) with
              | Some (File x) => Some x | _ => None end).
  { intros m b Hb. apply ifstream_at; [now apply norm_ref | apply app_nonempty; discriminate]. }
  assert (Hrun : fs_exists fs (ref_file repoRoot oldName) = true ->
                 fs_exists fs (ref_file repoRoot newName) = false ->
                 exists c, fs !! o = Some (File c) /\ fs !! n = None
                   /\ result
                      = (Done tt,
                         if String.eqb (currentBranch fs repoRoot) oldName
                         then <[h := File ("ref: " +:+ newName +:+ nl)]>
                                (<[n := File c]> (delete o fs))
                         else <[n := File c]> (delete o fs))
                   /\ currentBranch (<[n := File c]> (delete o fs)) repoRoot
                      = currentBranch fs repoRoot).
  { intros E1 E2. rewrite (fs_exists_at _ _ o Eo Hone) in E1.
    rewrite (fs_exists_at _ _ n En Hnne) in E2.
    pose proof (Hhf oldName) as Hnd. fold R in Hnd. fold o in Hnd.
    destruct (fs !! o) as [[c|]|] eqn:Efo; [|contradiction | discriminate E1].
    destruct (fs !! n) as [x|] eqn:Efn; [discriminate E2|].
    exists c. split; [reflexivity|]. split; [reflexivity|].
    assert (Hcur : currentBranch (<[n := File c]> (delete o fs)) repoRoot
                   = currentBranch fs repoRoot).
    { unfold currentBranch. rewrite !(ifstream_at _ _ h Eh Hhne).
      rewrite lookup_insert_ne by (unfold n, h; path_ne).
      now rewrite lookup_delete_ne by (unfold o, h; path_ne). }
    split; [|exact Hcur].
    subst result. unfold renameBranch.
    rewrite (fs_exists_at _ _ o Eo Hone), (fs_exists_at _ _ n En Hnne), Efo, Efn.
    cbn [negb].
    rewrite (rename_file fs _ _ o n c Hwf Eo En Efo Hnne Efn).
    2:{ unfold n. change (R ++ [".glite"; "refs"; "heads"; newName])
          with (R ++ [".glite"; "refs"; "heads"] ++ [newName]).
        rewrite app_assoc, removelast_snoc, lookup_node_app by discriminate. exact Hh. }
    rewrite Hcur. destruct (String.eqb (currentBranch fs repoRoot) oldName); [|reflexivity].
    unfold setCurrentBranch.
    rewrite (write_file_at _ (head_file repoRoot) R [".glite"] "HEAD");
      [reflexivity | exact Eh | |].
    - rewrite lookup_node_app by discriminate.
      rewrite lookup_insert_ne by (unfold n; path_ne).
      rewrite lookup_delete_ne by (unfold o; path_ne). exact Hg.
    - change (R ++ [".glite"] ++ ["HEAD"]) with h.
      rewrite lookup_insert_ne by (unfold n, h; path_ne).
      rewrite lookup_delete_ne by (unfold o, h; path_ne).
      eapply is_directory_false; [exact Eh | exact Hhne | exact Hhd]. }
  split; [intros E; subst result; unfold renameBranch; now rewrite E|].
  split; [intros E1 E2; subst result; unfold renameBranch; now rewrite E1, E2|].
  assert (Hnew : forall c m, ifstream (<[n := File c]> m) (ref_file repoRoot newName) = Some c).
  { intros c m. rewrite (ifstream_at _ _ n En Hnne). now rewrite lookup_insert_eq. }
  split.
  - intros E1 E2. destruct (Hrun E1 E2) as (c & Efo & Efn & Hres & Hcur).
    rewrite Hres. cbn [fst snd]. split; [reflexivity|].
    assert (Hold : ifstream fs (ref_file repoRoot oldName) = Some c)
      by (rewrite (ifstream_at _ _ o Eo Hone); now rewrite Efo).
    assert (Hon : o <> n) by (intros E; rewrite E in Efo; congruence).
    destruct (String.eqb_spec (currentBranch fs repoRoot) oldName) as [Heq|Hneq].
    + split; [|split; [|split]].
      * rewrite (fs_exists_at _ _ o Eo Hone).
        rewrite lookup_insert_ne by (unfold o, h; path_ne).
        rewrite lookup_insert_ne by congruence. now rewrite lookup_delete_eq.
      * rewrite ifstream_beside by (rewrite En; unfold n, h; path_ne).
        now rewrite Hnew.
      * apply currentBranch_named; try assumption.
        rewrite (ifstream_at _ _ h Eh Hhne). now rewrite lookup_insert_eq.
      * intros other Hb Hd1 Hd2. rewrite !Hat by exact Hb.
        rewrite lookup_insert_ne by (unfold h; path_ne).
        rewrite lookup_insert_ne by (unfold n; path_ne).
        now rewrite lookup_delete_ne by (unfold o; path_ne).
    + split; [|split; [|split]].
      * rewrite (fs_exists_at _ _ o Eo Hone).
        rewrite lookup_insert_ne by congruence. now rewrite lookup_delete_eq.
      * now rewrite Hnew.
      * exact Hcur.
      * intros other Hb Hd1 Hd2. rewrite !Hat by exact Hb.
        rewrite lookup_insert_ne by (unfold n; path_ne).
        now rewrite lookup_delete_ne by (unfold o; path_ne).
  - intros Hv. destruct (fs_exists fs (ref_file repoRoot oldName)) eqn:E1.
    2:{ subst result. unfold renameBranch. now rewrite E1. }
    destruct (fs_exists fs (ref_file repoRoot newName)) eqn:E2.
    { subst result. unfold renameBranch. now rewrite E1, E2. }
    destruct (Hrun eq_refl eq_refl) as (c & Efo & Efn & Hres & Hcur).
    rewrite Hres. cbn [snd]. unfold head_valid in *.
    destruct (String.eqb_spec (currentBranch fs repoRoot) oldName) as [Heq|Hneq].
    + rewrite (currentBranch_named _ repoRoot newName); try assumption.
      * rewrite ifstream_beside by (rewrite En; unfold n, h; path_ne).
        now rewrite Hnew.
      * rewrite (ifstream_at _ _ h Eh Hhne). now rewrite lookup_insert_eq.
    + rewrite Hcur. rewrite Hat in * by exact Hc.
      assert (Hcn : currentBranch fs repoRoot <> newName).
      { intros E. rewrite E in Hv. fold n in Hv. rewrite Efn in Hv. discriminate Hv. }
      rewrite lookup_insert_ne by (unfold n; path_ne).
      now rewrite lookup_delete_ne by (unfold o; path_ne).
Qed.

Lemma renameBranch_spec_witness :
  disk_wf demo_branched /\ repo_layout demo_branched demo_repo
  /\ isValidIdentifier "topic" = true
  /\ (renameBranch demo_branched demo_repo "feature" "topic").1 = Done tt
  /\ ifstream (renameBranch demo_branched demo_repo "feature" "topic").2
              (ref_file demo_repo "topic")
     = ifstream demo_branched (ref_file demo_repo "feature")
  /\ currentBranch (renameBranch demo_branched demo_repo "main" "trunk").2 demo_repo = "trunk"
  /\ head_valid (renameBranch demo_branched demo_repo "main" "trunk").2 demo_repo = true
  /\ renameBranch demo_branched demo_repo "feature" "main"
     = (Failed (Message "Branch 'main' already exists."), demo_branched).
Proof.
  assert (W : disk_wf demo_branched).
  { assert (M : bool_decide (disk_wf demo_branched) = true) by (vm_compute; reflexivity).
    exact (bool_decide_eq_true_1 _ M). }
  assert (L : repo_layout demo_branched demo_repo)
    by (apply demo_layout; vm_compute; reflexivity).
  assert (D : is_directory demo_branched (head_file demo_repo) = false)
    by (vm_compute; reflexivity).
  assert (N : is_name (currentBranch demo_branched demo_repo) = true)
    by (vm_compute; reflexivity).
  destruct (renameBranch_spec demo_branched demo_repo "feature" "topic" W L D eq_refl N eq_refl)
    as (_ & _ & H1 & _); [discriminate | discriminate |].
  destruct (renameBranch_spec demo_branched demo_repo "main" "trunk" W L D eq_refl N eq_refl)
    as (_ & _ & H2 & H3); [discriminate | discriminate |].
  destruct (renameBranch_spec demo_branched demo_repo "feature" "main" W L D eq_refl N eq_refl)
    as (_ & H4 & _ & _); [discriminate | discriminate |].
  destruct H1 as (H1a & _ & H1b & _); [vm_compute; reflexivity | vm_compute; reflexivity |].
  destruct H2 as (_ & _ & _ & H2a & _); [vm_compute; reflexivity | vm_compute; reflexivity |].
  split; [exact W|]. split; [exact L|]. split; [reflexivity|]. split; [exact H1a|].
  split; [exact H1b|]. split; [exact H2a|].
  split; [apply H3; vm_compute; reflexivity|].
  apply H4; vm_compute; reflexivity.
Defined.

End RenameBranch.

(** ** Staging a file *)

Section AddFile.

Implicit Types (fs : gmap (list string) node) (repoRoot : list string).

(** Writing the index in a repository whose skeleton is in place. *)
Lemma index_written fs repoRoot (entries : list (string * string)) :
  fs !! (normalize repoRoot ++ [".glite"]) = Some Dir ->
  fs !! (normalize repoRoot ++ [".glite"; "index"]) <> Some Dir ->
  writeIndex fs repoRoot entries
  = <[normalize repoRoot ++ [".glite"; "index"] := File (entry_lines entries)]> fs.
Proof.
  intros Hg Hi. unfold writeIndex.
  rewrite (write_file_at fs (index_file repoRoot) (normalize repoRoot) [".glite"] "index");
    [reflexivity | apply norm_index | | exact Hi].
  rewrite lookup_node_app by discriminate. exact Hg.
Qed.

Lemma readIndex_written fs repoRoot (entries : list (string * string)) :
  Forall index_entry_ok entries ->
  readIndex (<[normalize repoRoot ++ [".glite"; "index"] := File (entry_lines entries)]> fs)
            repoRoot
  = entries.
Proof.
  intros Hok. apply readIndex_of_text; [exact Hok|].
  rewrite (ifstream_at _ _ _ (norm_index repoRoot)) by (apply app_nonempty; discriminate).
  now rewrite lookup_insert_eq.
Qed.

Lemma upsert_ok (entries : list (string * string)) (p b : string) :
  Forall index_entry_ok entries -> field p -> field b -> b <> "" ->
  Forall index_entry_ok (upsert entries p b).
Proof.
  intros Hok Hp Hb Hne. apply List.Forall_forall. intros [q b'] Hin.
  apply in_upsert in Hin as [[-> ->] | [_ Hin]].
  - now split.
  - rewrite List.Forall_forall in Hok. now apply Hok.
Qed.

Lemma readIndex_ok fs repoRoot :
  Forall (fun entry : string * string => entry.2 <> "") (readIndex fs repoRoot) ->
  Forall index_entry_ok (readIndex fs repoRoot).
Proof.
  intros H. pose proof (readIndex_fields fs repoRoot) as Hf.
  rewrite List.Forall_forall in *. intros e He.
  destruct (Hf e He) as [H1 H2]. split; [exact H1|]. split; [exact H2 | now apply H].
Qed.

Lemma sha256String_field (text : string) : field (sha256String text).
Proof. split; now apply sha256String_free. Qed.

(** What [addFile] does for a regular file with bytes [content]. *)
Lemma addFile_run fs repoRoot (relativePath content : string) :
  repo_layout fs repoRoot ->
  ifstream fs (path_append (workspace_dir repoRoot) relativePath) = Some content ->
  let i := normalize repoRoot ++ [".glite"; "index"] in
  let q := normalize repoRoot ++ [".glite"; "objects"; sha256String content] in
  exists fs1,
    addFile fs repoRoot relativePath
    = (Done ("File staged: " +:+ relativePath),
       <[i := File (entry_lines (upsert (readIndex fs repoRoot) relativePath
                                        (sha256String content)))]> fs1)
    /\ (fs_exists fs (object_file repoRoot (sha256String content)) = true -> fs1 = fs)
    /\ (fs_exists fs (object_file repoRoot (sha256String content)) = false ->
        fs1 = <[q := File content]> fs).
Proof.
  intros L Hsrc i q.
  set (source := path_append (workspace_dir repoRoot) relativePath) in *.
  set (blobId := sha256String content) in *.
  destruct (layout_facts fs repoRoot L) as (Hg & Hobj & _ & Hi & _ & Hof & _).
  assert (Ei : normalize (index_file repoRoot) = i) by apply norm_index.
  assert (Eq : normalize (object_file repoRoot blobId) = q)
    by apply norm_object, sha256String_is_name.
  assert (Hine : i <> []) by (apply app_nonempty; discriminate).
  assert (Hqne : q <> []) by (apply app_nonempty; discriminate).
  assert (Hnode : node_at fs source = Some (File content)).
  { unfold ifstream in Hsrc. destruct (node_at fs source) as [[c|]|]; congruence. }
  unfold addFile. fold source.
  unfold fs_exists at 1. rewrite Hnode. cbn [negb].
  unfold sha256File. rewrite Hnode. fold blobId.
  destruct (fs_exists fs (object_file repoRoot blobId)) eqn:E.
  - exists fs. rewrite (index_written fs repoRoot _ Hg Hi).
    split; [reflexivity|]. split; [reflexivity | discriminate].
  - exists (<[q := File content]> fs).
    assert (Hcopy : copy_file fs source (object_file repoRoot blobId) false
                    = (<[q := File content]> fs, true)).
    { unfold copy_file. rewrite Hnode, Eq.
      rewrite (fs_exists_at _ _ q Eq Hqne) in E.
      unfold q at 1 2.
      change (normalize repoRoot ++ [".glite"; "objects"; blobId])
        with (normalize repoRoot ++ [".glite"; "objects"] ++ [blobId]).
      rewrite app_assoc, removelast_snoc, lookup_node_app, Hobj by discriminate.
      rewrite <- app_assoc.
      change (normalize repoRoot ++ [".glite"; "objects"] ++ [blobId]) with q.
      destruct (fs !! q) eqn:Efq; [discriminate E|].
      destruct q; [contradiction | reflexivity]. }
    rewrite Hcopy.
    assert (Hidx : readIndex (<[q := File content]> fs) repoRoot = readIndex fs repoRoot).
    { unfold readIndex. rewrite !(ifstream_at _ _ i Ei Hine).
      now rewrite lookup_insert_ne by (unfold q, i; path_ne). }
    rewrite Hidx.
    rewrite (index_written _ repoRoot).
    + split; [reflexivity|]. split; [discriminate | reflexivity].
    + now rewrite lookup_insert_ne by (unfold q; path_ne).
    + fold i. now rewrite lookup_insert_ne by (unfold q, i; path_ne).
Qed.

(** X19.  [addFile] in a repository whose skeleton is in place, for a path
    of plain components (not empty, without "", "." or ".." among its
    components and without "/" at its end): a path that names nothing
    below the workspace is refused and the disk is unchanged; for a regular file with bytes [content] the call succeeds,
    the index is rewritten as the old entries updated with the path and the
    SHA-256 of the content, a blob that did not exist holds the content, and
    every file other than the index and that new blob reads as before (an
    existing blob is not written again).  When the path is a field and no
    old entry had an empty blob id, the index reads back as the updated
    entries. *)
Theorem addFile_spec fs repoRoot (relativePath content : string) :
  repo_layout fs repoRoot ->
  plain_path relativePath = true ->
  let source := path_append (workspace_dir repoRoot) relativePath in
  let blobId := sha256String content in
  let staged := upsert (readIndex fs repoRoot) relativePath blobId in
  let result := addFile fs repoRoot relativePath in
  (fs_exists fs source = false ->
     result = (Failed (Message "File not found in workspace."), fs))
  /\ (ifstream fs source = Some content ->
      result.1 = Done ("File staged: " +:+ relativePath)
      /\ ifstream result.2 (index_file repoRoot) = Some (entry_lines staged)
      /\ (fs_exists fs (object_file repoRoot blobId) = false ->
            ifstream result.2 (object_file repoRoot blobId) = Some content)
      /\ (forall p, normalize p <> normalize (index_file repoRoot) ->
            normalize p <> normalize (object_file repoRoot blobId)
            \/ fs_exists fs (object_file repoRoot blobId) = true ->
            ifstream result.2 p = ifstream fs p)
      /\ (field relativePath ->
          Forall (fun entry : string * string => entry.2 <> "") (readIndex fs repoRoot) ->
          readIndex result.2 repoRoot = staged)).
Proof.
  intros L _ source blobId staged result.
  destruct (layout_facts fs repoRoot L) as (Hg & Hobj & _ & Hi & _ & Hof & _).
  split; [intros E; subst result; unfold addFile; fold source; now rewrite E|].
  intros Hsrc.
  set (i := normalize repoRoot ++ [".glite"; "index"]).
  set (q := normalize repoRoot ++ [".glite"; "objects"; blobId]).
  assert (Ei : normalize (index_file repoRoot) = i) by apply norm_index.
  assert (Eq : normalize (object_file repoRoot blobId) = q)
    by apply norm_object, sha256String_is_name.
  assert (Hine : i <> []) by (apply app_nonempty; discriminate).
  assert (Hqne : q <> []) by (apply app_nonempty; discriminate).
  destruct (addFile_run fs repoRoot relativePath content L Hsrc) as (fs1 & Hres & Hold & Hnew).
  fold blobId staged i q in Hres, Hold, Hnew. fold result in Hres.
  rewrite Hres. cbn [fst snd].
  split; [reflexivity|]. split; [|split; [|split]].
  - rewrite (ifstream_at _ _ i Ei Hine). now rewrite lookup_insert_eq.
  - intros E. rewrite (Hnew E). rewrite (ifstream_at _ _ q Eq Hqne).
    rewrite lookup_insert_ne by (unfold q, i; path_ne). now rewrite lookup_insert_eq.
  - intros p Hp Hq. rewrite Ei in Hp. rewrite Eq in Hq.
    rewrite ifstream_beside by exact Hp.
    destruct (fs_exists fs (object_file repoRoot blobId)) eqn:E.
    + now rewrite Hold.
    + rewrite Hnew by reflexivity. destruct Hq as [Hq|Hq]; [|discriminate Hq].
      now apply ifstream_beside.
  - intros Hp Hok. apply readIndex_written. apply upsert_ok.
    + now apply readIndex_ok.
    + exact Hp.
    + apply sha256String_field.
    + apply sha256String_nonempty.
Qed.

Lemma addFile_spec_witness :
  repo_layout demo_staged demo_repo
  /\ ifstream demo_staged (path_append (workspace_dir demo_repo) "a.txt") = Some ("hi" +:+ nl)
  /\ (addFile demo_staged demo_repo "a.txt").1 = Done "File staged: a.txt"
  /\ readIndex (addFile demo_staged demo_repo "a.txt").2 demo_repo
     = upsert (readIndex demo_staged demo_repo) "a.txt" (sha256String ("hi" +:+ nl))
  /\ addFile demo_staged demo_repo "b.txt"
     = (Failed (Message "File not found in workspace."), demo_staged).
Proof.
  assert (L : repo_layout demo_staged demo_repo)
    by (apply demo_layout; vm_compute; reflexivity).
  assert (S : ifstream demo_staged (path_append (workspace_dir demo_repo) "a.txt")
              = Some ("hi" +:+ nl)) by (vm_compute; reflexivity).
  destruct (addFile_spec demo_staged demo_repo "a.txt" ("hi" +:+ nl) L eq_refl) as [_ Hok].
  destruct (addFile_spec demo_staged demo_repo "b.txt" "" L eq_refl) as [Hno _].
  destruct (Hok S) as (H1 & _ & _ & _ & H2).
  split; [exact L|]. split; [exact S|]. split; [exact H1|].
  split; [apply H2; [split; reflexivity|]|apply Hno; vm_compute; reflexivity].
  assert (M : forallb (fun entry : string * string => negb (String.eqb entry.2 ""))
                      (readIndex demo_staged demo_repo) = true) by (vm_compute; reflexivity).
  rewrite forallb_forall in M. apply List.Forall_forall. intros e He Hempty.
  specialize (M e He). rewrite Hempty in M. discriminate M.
Defined.

End AddFile.

(** ** Unstaging and removing a file *)

Section Unstage.

Implicit Types (fs : gmap (list string) node) (repoRoot : list string).

Lemma erase_first_None (entries : list (string * string)) (p : string) :
  erase_first entries p = None <-> ~ In p (map fst entries).
Proof.
  induction entries as [|[x y] l IH]; [cbn; tauto|].
  cbn [erase_first map In fst]. destruct (String.eqb_spec x p) as [->|Hx].
  - split; [discriminate | intros H; exfalso; apply H; now left].
  - destruct (erase_first l p) as [r|]; cbn [option_map].
    + split; [discriminate|]. intros H. exfalso.
      assert (Hn : ~ In p (map fst l)) by (intros Hin; apply H; now right).
      apply IH in Hn. discriminate Hn.
    + split; [|reflexivity]. intros _ [E|Hin]; [contradiction|].
      now apply (proj1 IH).
Qed.

Lemma erase_first_Some (entries rest : list (string * string)) (p : string) :
  erase_first entries p = Some rest ->
  exists l1 b l2, entries = l1 ++ (p, b) :: l2 /\ ~ In p (map fst l1) /\ rest = l1 ++ l2.
Proof.
  revert rest. induction entries as [|[x y] l IH]; intros rest; [discriminate|].
  cbn [erase_first fst]. destruct (String.eqb_spec x p) as [->|Hx].
  - intros [= <-]. exists [], y, l. split; [reflexivity|]. split; [intros [] | reflexivity].
  - destruct (erase_first l p) as [r|]; [|discriminate]. cbn [option_map]. intros [= <-].
    destruct (IH r eq_refl) as (l1 & b & l2 & -> & Hn & ->).
    exists ((x, y) :: l1), b, l2. split; [reflexivity|].
    split; [|reflexivity]. intros [E|Hin]; [contradiction | now apply Hn].
Qed.

Lemma erase_first_appended (entries : list (string * string)) (p b : string) :
  ~ In p (map fst entries) -> erase_first (entries ++ [(p, b)]) p = Some entries.
Proof.
  induction entries as [|[x y] l IH]; intros Hn.
  - cbn. now rewrite String.eqb_refl.
  - cbn [app erase_first fst]. destruct (String.eqb_spec x p) as [->|Hx].
    + exfalso. apply Hn. now left.
    + rewrite IH; [reflexivity|]. intros Hin. apply Hn. now right.
Qed.

Lemma upsert_new (entries : list (string * string)) (p b : string) :
  ~ In p (map fst entries) -> upsert entries p b = entries ++ [(p, b)].
Proof.
  intros Hn. unfold upsert.
  assert (E : existsb (fun e : string * string => String.eqb e.1 p) entries = false).
  { destruct (existsb _ entries) eqn:E; [|reflexivity]. apply existsb_path in E. contradiction. }
  rewrite E. f_equal. rewrite <- (map_id entries) at 2. apply map_ext_in.
  intros [x y] Hin. cbn [fst]. destruct (String.eqb_spec x p) as [->|_]; [|reflexivity].
  exfalso. apply Hn. apply in_map_iff. now exists (p, y).
Qed.

Lemma Forall_ok_parts (l1 l2 : list (string * string)) (e : string * string) :
  Forall index_entry_ok (l1 ++ e :: l2) -> Forall index_entry_ok (l1 ++ l2).
Proof.
  intros H. apply Forall_app in H as [H1 H2]. apply Forall_app. split; [exact H1|].
  now inversion H2.
Qed.

(** X20.  [resetFile] in a repository whose skeleton is in place: a path
    that is not staged is refused and the disk is unchanged; otherwise the
    call succeeds and only the index is written, so the file in the
    workspace stays as it is.  When no entry has an empty blob id, the index
    reads back as the old entries without the first entry of the path. *)
Theorem resetFile_spec fs repoRoot (relativePath : string) :
  repo_layout fs repoRoot ->
  let entries := readIndex fs repoRoot in
  let result := resetFile fs repoRoot relativePath in
  (~ In relativePath (map fst entries) ->
     result = (Failed (Message "File not in index."), fs))
  /\ (In relativePath (map fst entries) ->
      result.1 = Done tt
      /\ (forall p, normalize p <> normalize (index_file repoRoot) ->
            ifstream result.2 p = ifstream fs p)
      /\ (Forall (fun entry : string * string => entry.2 <> "") entries ->
          exists l1 b l2,
            entries = l1 ++ (relativePath, b) :: l2
            /\ ~ In relativePath (map fst l1)
            /\ readIndex result.2 repoRoot = l1 ++ l2)).
Proof.
  intros L entries result.
  destruct (layout_facts fs repoRoot L) as (Hg & _ & _ & Hi & _ & _ & _).
  split.
  - intros Hn. apply erase_first_None in Hn. subst result. unfold resetFile.
    fold entries. now rewrite Hn.
  - intros Hin. destruct (erase_first entries relativePath) as [rest|] eqn:E.
    2:{ apply erase_first_None in E. contradiction. }
    assert (Hres : result = (Done tt, <[normalize repoRoot ++ [".glite"; "index"]
                                        := File (entry_lines rest)]> fs)).
    { subst result. unfold resetFile. fold entries. rewrite E.
      now rewrite (index_written fs repoRoot rest Hg Hi). }
    rewrite Hres. cbn [fst snd]. split; [reflexivity|]. split.
    + intros p Hp. rewrite norm_index in Hp. now apply ifstream_beside.
    + intros Hok. apply readIndex_ok in Hok. fold entries in Hok.
      destruct (erase_first_Some entries rest relativePath E) as (l1 & b & l2 & E1 & Hn & ->).
      exists l1, b, l2. split; [exact E1|]. split; [exact Hn|].
      apply readIndex_written. rewrite E1 in Hok. now apply Forall_ok_parts in Hok.
Qed.

Lemma resetFile_spec_witness :
  repo_layout demo_staged demo_repo
  /\ (resetFile demo_staged demo_repo "a.txt").1 = Done tt
  /\ ifstream (resetFile demo_staged demo_repo "a.txt").2 (workspace_dir demo_repo ++ ["a.txt"])
     = ifstream demo_staged (workspace_dir demo_repo ++ ["a.txt"])
  /\ resetFile demo_staged demo_repo "b.txt"
     = (Failed (Message "File not in index."), demo_staged).
Proof.
  assert (L : repo_layout demo_staged demo_repo)
    by (apply demo_layout; vm_compute; reflexivity).
  destruct (resetFile_spec demo_staged demo_repo "a.txt" L) as [_ Hok].
  destruct (resetFile_spec demo_staged demo_repo "b.txt" L) as [Hno _].
  assert (P : In "a.txt" (map fst (readIndex demo_staged demo_repo)))
    by (vm_compute; left; reflexivity).
  destruct (Hok P) as (H1 & H2 & _).
  split; [exact L|]. split; [exact H1|].
  split; [apply H2; vm_compute; discriminate|].
  apply Hno. vm_compute. intros [H|[]]. discriminate H.
Defined.

(** X21.  Staging a new file and unstaging it again: in a repository whose
    skeleton is in place, for a regular file of the workspace whose path
    consists of plain components (not empty, without "", "." or ".." among
    them and without "/" at its end), is a field and is not staged yet, and an index without empty blob ids,
    [resetFile] after [addFile] succeeds and the index reads back as before
    the two calls. *)
Theorem addFile_resetFile fs repoRoot (relativePath content : string) :
  repo_layout fs repoRoot ->
  plain_path relativePath = true ->
  ifstream fs (path_append (workspace_dir repoRoot) relativePath) = Some content ->
  field relativePath ->
  Forall (fun entry : string * string => entry.2 <> "") (readIndex fs repoRoot) ->
  ~ In relativePath (map fst (readIndex fs repoRoot)) ->
  let staged := (addFile fs repoRoot relativePath).2 in
  readIndex staged repoRoot
  = readIndex fs repoRoot ++ [(relativePath, sha256String content)]
  /\ (resetFile staged repoRoot relativePath).1 = Done tt
  /\ readIndex (resetFile staged repoRoot relativePath).2 repoRoot = readIndex fs repoRoot.
Proof.
  intros L _ Hsrc Hp Hok Hn staged.
  destruct (layout_facts fs repoRoot L) as (Hg & _ & _ & Hi & _ & _ & _).
  destruct (addFile_run fs repoRoot relativePath content L Hsrc) as (fs1 & Hrun & Hold & Hnew).
  cbv zeta in Hrun, Hnew.
  rewrite (upsert_new _ _ _ Hn) in Hrun.
  set (i := normalize repoRoot ++ [".glite"; "index"]) in *.
  set (new := readIndex fs repoRoot ++ [(relativePath, sha256String content)]) in *.
  assert (Hstaged : staged = <[i := File (entry_lines new)]> fs1)
    by (subst staged; now rewrite Hrun).
  apply readIndex_ok in Hok.
  assert (Hnewok : Forall index_entry_ok new).
  { apply Forall_app. split; [exact Hok|]. constructor; [|constructor].
    split; [exact Hp|]. split; [apply sha256String_field | apply sha256String_nonempty]. }
  assert (Hread : readIndex staged repoRoot = new)
    by (rewrite Hstaged; now apply readIndex_written).
  assert (Hg1 : fs1 !! (normalize repoRoot ++ [".glite"]) = Some Dir).
  { destruct (fs_exists fs (object_file repoRoot (sha256String content))) eqn:E.
    - now rewrite Hold.
    - rewrite Hnew by reflexivity. now rewrite lookup_insert_ne by path_ne. }
  assert (Hreset : resetFile staged repoRoot relativePath
                   = (Done tt, <[i := File (entry_lines (readIndex fs repoRoot))]> staged)).
  { unfold resetFile. rewrite Hread. unfold new. rewrite (erase_first_appended _ _ _ Hn).
    rewrite (index_written staged repoRoot); [reflexivity | |].
    - rewrite Hstaged. rewrite lookup_insert_ne by (unfold i; path_ne). exact Hg1.
    - fold i. rewrite Hstaged. rewrite lookup_insert_eq. discriminate. }
  split; [exact Hread|]. rewrite Hreset. cbn [fst snd]. split; [reflexivity|].
  now apply readIndex_written.
Qed.

Lemma addFile_resetFile_witness :
  repo_layout demo_committed demo_repo
  /\ readIndex demo_committed demo_repo = []
  /\ readIndex (addFile demo_committed demo_repo "a.txt").2 demo_repo
     = [("a.txt", sha256String ("hi" +:+ nl))]
  /\ readIndex (resetFile (addFile demo_committed demo_repo "a.txt").2 demo_repo "a.txt").2
               demo_repo
     = [].
Proof.
  assert (L : repo_layout demo_committed demo_repo)
    by (apply demo_layout; vm_compute; reflexivity).
  assert (S : ifstream demo_committed (path_append (workspace_dir demo_repo) "a.txt")
              = Some ("hi" +:+ nl)) by (vm_compute; reflexivity).
  assert (E : readIndex demo_committed demo_repo = []) by (vm_compute; reflexivity).
  assert (F : field "a.txt") by (split; reflexivity).
  assert (O : Forall (fun entry : string * string => entry.2 <> "")
                     (readIndex demo_committed demo_repo)) by (rewrite E; constructor).
  assert (N : ~ In "a.txt" (map fst (readIndex demo_committed demo_repo)))
    by (rewrite E; intros []).
  destruct (addFile_resetFile demo_committed demo_repo "a.txt" ("hi" +:+ nl)
              L eq_refl S F O N)
    as (H1 & _ & H2).
  rewrite E in H1, H2.
  split; [exact L|]. split; [exact E|]. split; [exact H1 | exact H2].
Defined.

(** X22.  [removeFile] in a repository whose skeleton is in place, for a
    path of plain components (not empty, without "", "." or ".." among its
    components and without "/" at its end): a path that is not staged is
    refused and the disk is unchanged, although the
    file may stand in the workspace.  For a staged path that names no
    directory and not the index itself, the call succeeds, the path names
    nothing below the workspace afterwards, every file other than the index
    and that one reads as before, and, when no entry has an empty blob id,
    the index reads back as the old entries without the first entry of the
    path. *)
Theorem removeFile_spec fs repoRoot (relativePath : string) :
  repo_layout fs repoRoot ->
  plain_path relativePath = true ->
  let entries := readIndex fs repoRoot in
  let source := path_append (workspace_dir repoRoot) relativePath in
  let result := removeFile fs repoRoot relativePath in
  (~ In relativePath (map fst entries) ->
     result = (Failed (Message "File not in index."), fs))
  /\ (In relativePath (map fst entries) ->
      is_directory fs source = false ->
      normalize source <> normalize (index_file repoRoot) ->
      result.1 = Done tt
      /\ fs_exists result.2 source = false
      /\ (forall p, normalize p <> normalize (index_file repoRoot) ->
            normalize p <> normalize source -> ifstream result.2 p = ifstream fs p)
      /\ (Forall (fun entry : string * string => entry.2 <> "") entries ->
          exists l1 b l2,
            entries = l1 ++ (relativePath, b) :: l2
            /\ ~ In relativePath (map fst l1)
            /\ readIndex result.2 repoRoot = l1 ++ l2)).
Proof.
  intros L _ entries source result.
  destruct (layout_facts fs repoRoot L) as (Hg & _ & _ & Hi & _ & _ & _).
  split.
  - intros Hn. apply erase_first_None in Hn. subst result. unfold removeFile.
    fold entries. now rewrite Hn.
  - intros Hin Hnd Hsi. rewrite norm_index in Hsi.
    set (i := normalize repoRoot ++ [".glite"; "index"]) in *.
    set (s := normalize source) in *.
    destruct (erase_first entries relativePath) as [rest|] eqn:E.
    2:{ apply erase_first_None in E. contradiction. }
    set (fs1 := <[i := File (entry_lines rest)]> fs).
    assert (Hs : s <> []).
    { intros Es. unfold is_directory, node_at in Hnd. fold s in Hnd. rewrite Es in Hnd.
      discriminate Hnd. }
    assert (Hfs : fs !! s <> Some Dir).
    { eapply is_directory_false; [reflexivity | exact Hs | exact Hnd]. }
    assert (Hres : result = (Done tt, delete s fs1)).
    { subst result. unfold removeFile. fold entries. rewrite E. cbv zeta.
      rewrite (index_written fs repoRoot rest Hg Hi). fold i fs1 source.
      assert (Hrm : remove fs1 source = (delete s fs1, true)).
      { unfold remove. fold s. unfold fs1. rewrite lookup_insert_ne by congruence.
        destruct (fs !! s) as [[c|]|]; [reflexivity | contradiction | reflexivity]. }
      rewrite Hrm. destruct (fs_exists fs1 source) eqn:Ex; [reflexivity|].
      f_equal. symmetry. apply delete_id.
      rewrite (fs_exists_at _ _ s eq_refl Hs) in Ex.
      destruct (fs1 !! s); [discriminate Ex | reflexivity]. }
    rewrite Hres. cbn [fst snd]. split; [reflexivity|]. split; [|split].
    + rewrite (fs_exists_at _ _ s eq_refl Hs). now rewrite lookup_delete_eq.
    + intros p Hp Hps. rewrite norm_index in Hp. fold i in Hp. fold s in Hps.
      unfold ifstream, node_at, lookup_node. destruct (normalize p) as [|a l] eqn:Ep;
        [reflexivity|].
      rewrite lookup_delete_ne by congruence. unfold fs1.
      now rewrite lookup_insert_ne by congruence.
    + intros Hok. apply readIndex_ok in Hok. fold entries in Hok.
      destruct (erase_first_Some entries rest relativePath E) as (l1 & b & l2 & E1 & Hn & ->).
      exists l1, b, l2. split; [exact E1|]. split; [exact Hn|].
      apply readIndex_of_text.
      * rewrite E1 in Hok. now apply Forall_ok_parts in Hok.
      * rewrite (ifstream_at _ _ i (norm_index repoRoot)) by (apply app_nonempty; discriminate).
        rewrite lookup_delete_ne by congruence. unfold fs1. now rewrite lookup_insert_eq.
Qed.

Lemma removeFile_spec_witness :
  repo_layout demo_staged demo_repo
  /\ fs_exists demo_staged (path_append (workspace_dir demo_repo) "a.txt") = true
  /\ (removeFile demo_staged demo_repo "a.txt").1 = Done tt
  /\ fs_exists (removeFile demo_staged demo_repo "a.txt").2
               (path_append (workspace_dir demo_repo) "a.txt") = false
  /\ removeFile demo_committed demo_repo "a.txt"
     = (Failed (Message "File not in index."), demo_committed).
Proof.
  assert (L : repo_layout demo_staged demo_repo)
    by (apply demo_layout; vm_compute; reflexivity).
  assert (L' : repo_layout demo_committed demo_repo)
    by (apply demo_layout; vm_compute; reflexivity).
  destruct (removeFile_spec demo_staged demo_repo "a.txt" L eq_refl) as [_ Hok].
  destruct (removeFile_spec demo_committed demo_repo "a.txt" L' eq_refl) as [Hno _].
  assert (P : In "a.txt" (map fst (readIndex demo_staged demo_repo)))
    by (vm_compute; left; reflexivity).
  assert (D : is_directory demo_staged (path_append (workspace_dir demo_repo) "a.txt") = false)
    by (vm_compute; reflexivity).
  assert (N : normalize (path_append (workspace_dir demo_repo) "a.txt")
              <> normalize (index_file demo_repo)) by (vm_compute; discriminate).
  destruct (Hok P D N) as (H1 & H2 & _).
  split; [exact L|]. split; [vm_compute; reflexivity|]. split; [exact H1|].
  split; [exact H2|]. apply Hno. vm_compute. intros [].
Defined.

End Unstage.

(** ** What push and pull replace and what they keep *)

Section Transfer.

Implicit Types (fs m : gmap (list string) node) (a b k x A B P : list string).

(** Outside the two target trees and the directories above them,
    [copyDirectory] on .glite and on workspace changes nothing. *)
Lemma copy_repository_frame m m2 a b :
  disk_wf m ->
  m !! (normalize a ++ [".glite"]) = Some Dir ->
  m !! (normalize a ++ ["workspace"]) = Some Dir ->
  ~ normalize a `prefix_of` normalize b -> ~ normalize b `prefix_of` normalize a ->
  (forall k c, k `prefix_of` normalize b -> m !! k <> Some (File c)) ->
  and_then (copyDirectory m (a ++ [".glite"]) (b ++ [".glite"]))
           (fun m1 => copyDirectory m1 (a ++ ["workspace"]) (b ++ ["workspace"]))
  = (m2, true) ->
  forall x, ~ (normalize b ++ [".glite"]) `prefix_of` x ->
            ~ (normalize b ++ ["workspace"]) `prefix_of` x ->
            ~ (x `prefix_of` normalize b /\ x <> []) ->
            m2 !! x = m !! x.
Proof.
  set (A := normalize a). set (B := normalize b).
  intros Hwf Hg Hw HAB HBA Hfree Hrun x Hxg Hxw Hxb.
  assert (Ng : forall p, normalize (p ++ [".glite"]) = normalize p ++ [".glite"])
    by (intros p; apply normalize_app_plain; repeat constructor).
  assert (Nw : forall p, normalize (p ++ ["workspace"]) = normalize p ++ ["workspace"])
    by (intros p; apply normalize_app_plain; repeat constructor).
  destruct (copyDirectory_spec m (a ++ [".glite"]) (b ++ [".glite"]))
    as (m1 & Hrun1 & Hm1 & Hwf1); rewrite ?Ng; fold A B.
  { exact Hwf. } { exact Hg. } { now apply apart_app. } { now apply apart_app. }
  { now apply free_above_child. }
  rewrite !Ng in Hm1. fold A B in Hm1.
  assert (Hw1 : m1 !! (A ++ ["workspace"]) = Some Dir).
  { rewrite (grafted_keeps m m1 _ _ _ Hm1); [exact Hw | now apply apart_app..]. }
  destruct (copyDirectory_spec m1 (a ++ ["workspace"]) (b ++ ["workspace"]))
    as (m2' & Hrun2 & Hm2 & Hwf2); rewrite ?Nw; fold A B.
  { exact Hwf1. } { exact Hw1. } { now apply apart_app. } { now apply apart_app. }
  { apply free_above_child. apply (grafted_keeps_free m m1 _ _ B Hm1); [|exact Hfree].
    apply snoc_not_prefix. }
  rewrite !Nw in Hm2. fold A B in Hm2.
  unfold and_then in Hrun. rewrite Hrun1 in Hrun. cbn [fst snd] in Hrun.
  rewrite Hrun2 in Hrun. injection Hrun as <-.
  assert (Habove : forall c : string, ~ (x `prefix_of` B ++ [c] /\ x <> []) \/ x = B ++ [c]).
  { intros c. destruct (decide (x = B ++ [c])) as [E|Hne]; [now right | left].
    intros [H1 H2]. apply Hxb. split; [|exact H2]. now apply (prefix_snoc_inv x B c). }
  rewrite Hm2, grafted_off; [rewrite Hm1, grafted_off; [reflexivity | exact Hxg |] | exact Hxw |].
  - destruct (Habove ".glite") as [H|H]; [exact H|]. exfalso. apply Hxg. now rewrite H.
  - destruct (Habove "workspace") as [H|H]; [exact H|]. exfalso. apply Hxw. now rewrite H.
Qed.

(** X23.  [pull] replaces the .glite and workspace trees of the local
    repository by those of the remote, whatever the local repository held:
    on a well-formed disk, for a remote whose .glite and workspace
    directories exist and a local path that lies apart from the remote with
    no regular file on the way to it, the call succeeds, the two local trees
    are entry by entry the remote's (an entry the remote lacks is gone), and
    every other entry of the disk, the remote included, is unchanged. *)
Theorem pull_spec fs (repoRoot remoteRoot : list string) :
  disk_wf fs ->
  is_directory fs (glite_dir remoteRoot) = true ->
  is_directory fs (workspace_dir remoteRoot) = true ->
  apart remoteRoot repoRoot ->
  creatable fs repoRoot ->
  let result := pull fs repoRoot remoteRoot in
  result.1 = Done tt
  /\ (forall rel, result.2 !! (normalize repoRoot ++ ".glite" :: rel)
                  = fs !! (normalize remoteRoot ++ ".glite" :: rel))
  /\ (forall rel, result.2 !! (normalize repoRoot ++ "workspace" :: rel)
                  = fs !! (normalize remoteRoot ++ "workspace" :: rel))
  /\ (forall x, ~ (normalize repoRoot ++ [".glite"]) `prefix_of` x ->
                ~ (normalize repoRoot ++ ["workspace"]) `prefix_of` x ->
                ~ (x `prefix_of` normalize repoRoot /\ x <> []) ->
                result.2 !! x = fs !! x).
Proof.
  intros Hwf Hg Hw Hap Hfree result.
  assert (HR : normalize remoteRoot <> [])
    by (intros E; apply (proj1 Hap); rewrite E; apply prefix_nil).
  apply (is_directory_true fs _ _ (norm_glite remoteRoot)) in Hg; [|now apply app_nonempty].
  apply (is_directory_true fs _ (normalize remoteRoot ++ ["workspace"])) in Hw;
    [| apply normalize_app_plain; repeat constructor | now apply app_nonempty].
  destruct (pull_run fs repoRoot remoteRoot Hwf Hg Hw Hap Hfree) as (fs' & Hrun & Hgl & Hws).
  subst result. rewrite Hrun. cbn [fst snd].
  split; [reflexivity|]. split; [exact Hgl|]. split; [exact Hws|].
  destruct Hap as [HRL HLR].
  apply (copy_repository_frame fs fs' remoteRoot repoRoot Hwf Hg Hw HRL HLR Hfree).
  unfold pull in Hrun.
  rewrite (fs_exists_at fs remoteRoot (normalize remoteRoot) eq_refl HR) in Hrun.
  rewrite (disk_wf_ancestor fs [".glite"] (normalize remoteRoot) Dir Hwf Hg HR) in Hrun
    by discriminate.
  cbn [negb] in Hrun.
  destruct (and_then _ _) as [m ok]. destruct ok; [|discriminate Hrun].
  now injection Hrun as ->.
Qed.

Lemma pull_spec_witness :
  disk_wf demo_pushed.2
  /\ apart demo_remote demo_repo
  /\ (pull demo_pushed.2 demo_repo demo_remote).1 = Done tt
  /\ (pull demo_pushed.2 demo_repo demo_remote).2 !! ["storage"; "users.tsv"]
     = demo_pushed.2 !! ["storage"; "users.tsv"].
Proof.
  assert (W : disk_wf demo_pushed.2).
  { assert (M : bool_decide (disk_wf demo_pushed.2) = true) by (vm_compute; reflexivity).
    exact (bool_decide_eq_true_1 _ M). }
  assert (A : apart demo_remote demo_repo).
  { assert (M : bool_decide (apart demo_remote demo_repo) = true) by (vm_compute; reflexivity).
    exact (bool_decide_eq_true_1 _ M). }
  assert (G : is_directory demo_pushed.2 (glite_dir demo_remote) = true)
    by (vm_compute; reflexivity).
  assert (S : is_directory demo_pushed.2 (workspace_dir demo_remote) = true)
    by (vm_compute; reflexivity).
  assert (C : creatable demo_pushed.2 demo_repo)
    by (apply creatable_check; vm_compute; reflexivity).
  destruct (pull_spec demo_pushed.2 demo_repo demo_remote W G S A C) as (H1 & _ & _ & H2).
  split; [exact W|]. split; [exact A|]. split; [exact H1|].
  apply H2.
  - change (normalize demo_repo) with ["storage"; "alice"; "proj"]. cbn [app].
    intros [s E]. discriminate E.
  - change (normalize demo_repo) with ["storage"; "alice"; "proj"]. cbn [app].
    intros [s E]. discriminate E.
  - change (normalize demo_repo) with ["storage"; "alice"; "proj"].
    intros [[s E] _]. discriminate E.
Defined.

(** X24.  [push] replaces the remote wholesale: on a well-formed disk, for
    a repository whose .glite and workspace directories exist and a remote
    path that lies apart from it with no regular file on the way to it, the
    call succeeds, the remote is a directory whose .glite and workspace
    trees are entry by entry those of the repository, nothing else is left
    below the remote, and every entry that lies neither below nor above the
    remote, the pushing repository included, is unchanged. *)
Theorem push_spec fs (repoRoot remoteRoot : list string) :
  disk_wf fs ->
  is_directory fs (glite_dir repoRoot) = true ->
  is_directory fs (workspace_dir repoRoot) = true ->
  apart repoRoot remoteRoot ->
  creatable fs remoteRoot ->
  let result := push fs repoRoot remoteRoot in
  result.1 = Done tt
  /\ result.2 !! normalize remoteRoot = Some Dir
  /\ (forall rel, result.2 !! (normalize remoteRoot ++ ".glite" :: rel)
                  = fs !! (normalize repoRoot ++ ".glite" :: rel))
  /\ (forall rel, result.2 !! (normalize remoteRoot ++ "workspace" :: rel)
                  = fs !! (normalize repoRoot ++ "workspace" :: rel))
  /\ (forall (c : string) rel, c <> ".glite" -> c <> "workspace" ->
        result.2 !! (normalize remoteRoot ++ c :: rel) = None)
  /\ (forall x, ~ normalize remoteRoot `prefix_of` x -> ~ x `prefix_of` normalize remoteRoot ->
        result.2 !! x = fs !! x).
Proof.
  intros Hwf Hg Hw Hap Hfree result.
  destruct (push_run fs repoRoot remoteRoot Hwf Hg Hw Hap Hfree)
    as (fs' & Hrun & _ & Hgl & Hws & _).
  destruct Hap as [HLR HRL].
  assert (HR : normalize remoteRoot <> []) by (intros E; apply HRL; rewrite E; apply prefix_nil).
  assert (HL : normalize repoRoot <> []) by (intros E; apply HLR; rewrite E; apply prefix_nil).
  apply (is_directory_true fs _ _ (norm_glite repoRoot)) in Hg; [|now apply app_nonempty].
  apply (is_directory_true fs _ (normalize repoRoot ++ ["workspace"])) in Hw;
    [| apply normalize_app_plain; repeat constructor | now apply app_nonempty].
  destruct (fresh_directory fs remoteRoot HR Hwf) as (fsA & HrunA & HA).
  { intros k c Hk _. now apply Hfree. }
  assert (HwfA : disk_wf fsA)
    by (apply (cleared_wf fs fsA (normalize remoteRoot)); auto using normalize_plain).
  assert (Hbeside : forall rel, fsA !! (normalize repoRoot ++ rel)
                                = fs !! (normalize repoRoot ++ rel)).
  { intros rel. rewrite HA. apply cleared_beside.
    - rewrite <- (app_nil_r (normalize remoteRoot)). now apply apart_app.
    - rewrite <- (app_nil_r (normalize remoteRoot)). now apply apart_app. }
  assert (Hframe : forall x, ~ (normalize remoteRoot ++ [".glite"]) `prefix_of` x ->
                             ~ (normalize remoteRoot ++ ["workspace"]) `prefix_of` x ->
                             ~ (x `prefix_of` normalize remoteRoot /\ x <> []) ->
                             fs' !! x = fsA !! x).
  { apply (copy_repository_frame fsA fs' repoRoot remoteRoot HwfA).
    - now rewrite Hbeside.
    - now rewrite Hbeside.
    - exact HLR.
    - exact HRL.
    - now apply (cleared_keeps_free fs fsA (normalize remoteRoot)).
    - unfold push in Hrun. rewrite HrunA in Hrun. unfold and_then at 1 in Hrun.
      cbn [fst snd] in Hrun.
      destruct (and_then _ _) as [m ok]. destruct ok; [|discriminate Hrun].
      now injection Hrun as ->. }
  subst result. rewrite Hrun. cbn [fst snd].
  split; [reflexivity|]. split; [|split; [exact Hgl | split; [exact Hws | split]]].
  - destruct (copy_repository fsA repoRoot remoteRoot) as (m2 & Hrun2 & _ & Hgl2 & _).
    { exact HwfA. } { now rewrite Hbeside. } { now rewrite Hbeside. }
    { exact HLR. } { exact HRL. }
    { now apply (cleared_keeps_free fs fsA (normalize remoteRoot)). }
    assert (Hg' : fs' !! (normalize remoteRoot ++ [".glite"]) = Some Dir)
      by (rewrite (Hgl []); exact Hg).
    unfold push in Hrun. rewrite HrunA in Hrun. unfold and_then at 1 in Hrun.
    cbn [fst snd] in Hrun. rewrite Hrun2 in Hrun. injection Hrun as <-.
    destruct (copy_repository fsA repoRoot remoteRoot) as (m3 & Hrun3 & Hwf3 & _).
    { exact HwfA. } { now rewrite Hbeside. } { now rewrite Hbeside. }
    { exact HLR. } { exact HRL. }
    { now apply (cleared_keeps_free fs fsA (normalize remoteRoot)). }
    rewrite Hrun2 in Hrun3. injection Hrun3 as <-.
    apply (disk_wf_ancestor m2 [".glite"] (normalize remoteRoot) Dir Hwf3 Hg' HR). discriminate.
  - intros c rel Hc1 Hc2. rewrite Hframe.
    + rewrite HA. unfold cleared. rewrite decide_False.
      * rewrite decide_True; [reflexivity | now apply prefix_app_r].
      * intros [H _]. apply prefix_length in H. rewrite length_app in H. cbn in H. lia.
    + change (normalize remoteRoot ++ [".glite"]) with (normalize remoteRoot ++ ".glite" :: []).
      intros H. apply sibling_not_prefix in H; [exact H | congruence].
    + change (normalize remoteRoot ++ ["workspace"])
        with (normalize remoteRoot ++ "workspace" :: []).
      intros H. apply sibling_not_prefix in H; [exact H | congruence].
    + intros [H _]. apply prefix_length in H. rewrite length_app in H. cbn in H. lia.
  - intros x H1 H2. rewrite Hframe.
    + rewrite HA. now apply cleared_beside.
    + intros H. apply H1. etransitivity; [|exact H]. now apply prefix_app_r.
    + intros H. apply H1. etransitivity; [|exact H]. now apply prefix_app_r.
    + now intros [H _].
Qed.

Lemma push_spec_witness :
  disk_wf demo_committed /\ apart demo_repo demo_remote
  /\ demo_pushed.1 = Done tt
  /\ demo_pushed.2 !! normalize demo_remote = Some Dir
  /\ demo_pushed.2 !! ["storage"; "alice"; "proj"; ".glite"; "HEAD"]
     = demo_committed !! ["storage"; "alice"; "proj"; ".glite"; "HEAD"].
Proof.
  assert (W : disk_wf demo_committed).
  { assert (M : bool_decide (disk_wf demo_committed) = true) by (vm_compute; reflexivity).
    exact (bool_decide_eq_true_1 _ M). }
  assert (A : apart demo_repo demo_remote).
  { assert (M : bool_decide (apart demo_repo demo_remote) = true) by (vm_compute; reflexivity).
    exact (bool_decide_eq_true_1 _ M). }
  assert (G : is_directory demo_committed (glite_dir demo_repo) = true)
    by (vm_compute; reflexivity).
  assert (S : is_directory demo_committed (workspace_dir demo_repo) = true)
    by (vm_compute; reflexivity).
  assert (C : creatable demo_committed demo_remote)
    by (apply creatable_check; vm_compute; reflexivity).
  destruct (push_spec demo_committed demo_repo demo_remote W G S A C)
    as (H1 & H2 & _ & _ & _ & H3).
  split; [exact W|]. split; [exact A|]. split; [exact H1|]. split; [exact H2|].
  apply H3.
  - change (normalize demo_remote) with ["storage"; "_remotes"; "alice"; "proj"].
    intros [s E]. discriminate E.
  - change (normalize demo_remote) with ["storage"; "_remotes"; "alice"; "proj"].
    intros [s E]. discriminate E.
Defined.

End Transfer.

(** ** Collaborators: perm add, perm rm *)

Section Collaborators.

Implicit Types (fs : gmap (list string) node) (storageRoot : list string)
  (perms : gmap string (gset string)).

Lemma savePermissions_read fs storageRoot perms :
  is_directory fs storageRoot = true ->
  is_directory fs (permissions_file storageRoot) = false ->
  perms_ok perms ->
  loadPermissions (savePermissions fs storageRoot perms) storageRoot = perms.
Proof.
  intros Hd Hf Hm. apply loadPermissions_of_text; [exact Hm|].
  unfold savePermissions, permissions_file in *.
  now apply write_then_read.
Qed.

(** Saving the permissions changes one file. *)
Lemma savePermissions_beside fs storageRoot perms (p : list string) :
  normalize p <> normalize (permissions_file storageRoot) ->
  node_at (savePermissions fs storageRoot perms) p = node_at fs p.
Proof.
  intros Hp. unfold savePermissions, write_file.
  destruct (ofstream_target fs (permissions_file storageRoot)) as [q|] eqn:E; [|reflexivity].
  cbn [fst]. apply node_at_beside.
  unfold ofstream_target in E. cbv zeta in E.
  destruct (normalize (permissions_file storageRoot)) as [|a l] eqn:En; [discriminate E|].
  destruct (lookup_node fs (removelast (a :: l))) as [[c|]|]; try discriminate E.
  destruct (fs !! (a :: l)) as [[c|]|]; try discriminate E;
    injection E as <-; exact Hp.
Qed.

Lemma field_key (owner repo : string) : field owner -> field repo -> field (owner +:+ "/" +:+ repo).
Proof.
  intros [H1 H2] [H3 H4].
  split; apply find_app_None; (split; [assumption|]);
    apply find_cons_None; (split; [discriminate | assumption]).
Qed.

Lemma hasWriteAccess_perms fs fs' storageRoot (user : User) (owner repo : string) :
  loadPermissions fs' storageRoot !! (owner +:+ "/" +:+ repo)
  = loadPermissions fs storageRoot !! (owner +:+ "/" +:+ repo) ->
  hasWriteAccess fs' storageRoot (Some user) owner repo
  = hasWriteAccess fs storageRoot (Some user) owner repo.
Proof. intros H. unfold hasWriteAccess. now rewrite H. Qed.

(** X25.  [handlePermAddCommand] of a logged-in user, when the storage
    directory exists: the check of write access never refuses, as the
    session user is the owner named in the key, and the repository need not
    exist.  An unknown user and the owner are refused with the disk
    unchanged.  Otherwise, when the names hold no tab, line end or comma,
    the permission map read afterwards is the old one with the user added
    under "owner/repo": the user has write access to that repository, and
    write access of every user to every other repository and the user
    registry are as before. *)
Theorem handlePermAddCommand_spec fs storageRoot (me : User) (repo user : string) :
  is_directory fs storageRoot = true ->
  is_directory fs (permissions_file storageRoot) = false ->
  let key := username me +:+ "/" +:+ repo in
  let old := loadPermissions fs storageRoot in
  let result := handlePermAddCommand fs storageRoot (Some me) repo user in
  (userExists fs storageRoot user = false ->
     result = (Reply ("Error: User '" +:+ user +:+ "' not found."), fs))
  /\ (userExists fs storageRoot user = true -> user = username me ->
      result = (Reply "Error: Owner already has access.", fs))
  /\ (userExists fs storageRoot user = true -> user <> username me ->
      field (username me) -> field repo -> name_ok user ->
      result.1 = Reply ("Added collaborator '" +:+ user +:+ "' to repository '"
                        +:+ repo +:+ "'.")
      /\ loadPermissions result.2 storageRoot
         = <[key := {[user]} ∪ default ∅ (old !! key)]> old
      /\ (forall u, username u = user ->
            hasWriteAccess result.2 storageRoot (Some u) (username me) repo = true)
      /\ (forall u owner' repo', owner' +:+ "/" +:+ repo' <> key ->
            hasWriteAccess result.2 storageRoot (Some u) owner' repo'
            = hasWriteAccess fs storageRoot (Some u) owner' repo')
      /\ loadUsers result.2 storageRoot = loadUsers fs storageRoot).
Proof.
  intros Hd Hf key old result.
  assert (Hgate : hasWriteAccess fs storageRoot (Some me) (username me) repo = true).
  { unfold hasWriteAccess. destruct (String.eqb (role me) "admin"); [reflexivity|].
    now rewrite String.eqb_refl. }
  split; [|split].
  - intros E. subst result. unfold handlePermAddCommand. rewrite Hgate, E. reflexivity.
  - intros E Hu. subst result. unfold handlePermAddCommand. rewrite Hgate, E. cbn [negb].
    apply String.eqb_eq in Hu. now rewrite Hu.
  - intros E Hu Hme Hrepo Huser.
    assert (Hres : result
                   = (Reply ("Added collaborator '" +:+ user +:+ "' to repository '"
                             +:+ repo +:+ "'."),
                      savePermissions fs storageRoot
                        (<[key := {[user]} ∪ default ∅ (old !! key)]> old))).
    { subst result. unfold handlePermAddCommand. rewrite Hgate, E. cbn [negb].
      destruct (String.eqb_spec user (username me)); [contradiction | reflexivity]. }
    assert (Hok : perms_ok (<[key := {[user]} ∪ default ∅ (old !! key)]> old)).
    { apply map_Forall_insert_2; [|apply loadPermissions_ok].
      split; [now apply field_key|].
      intros y [->%elem_of_singleton | Hy]%elem_of_union; [exact Huser|].
      destruct (old !! key) as [names|] eqn:Ek; [|set_solver].
      exact (proj2 (loadPermissions_ok fs storageRoot key names Ek) y Hy). }
    assert (Hload : loadPermissions result.2 storageRoot
                    = <[key := {[user]} ∪ default ∅ (old !! key)]> old).
    { rewrite Hres. cbn [snd]. now apply savePermissions_read. }
    split; [now rewrite Hres|]. split; [exact Hload|]. split; [|split].
    + intros u Hn. unfold hasWriteAccess. rewrite Hload. fold key.
      rewrite lookup_insert_eq.
      destruct (String.eqb (role u) "admin"); [reflexivity|].
      destruct (String.eqb (username u) (username me)); [reflexivity|].
      apply bool_decide_eq_true_2. rewrite Hn. set_solver.
    + intros u owner' repo' Hk. apply hasWriteAccess_perms.
      rewrite Hload. now rewrite lookup_insert_ne by congruence.
    + rewrite Hres. cbn [snd]. unfold loadUsers, ifstream.
      rewrite savePermissions_beside; [reflexivity|].
      unfold users_file, permissions_file.
      rewrite !normalize_app_plain by (repeat constructor). path_ne.
Qed.

Lemma handlePermAddCommand_spec_witness :
  is_directory demo_disk demo_storage = true
  /\ hasWriteAccess demo_disk demo_storage (Some demo_carol) "bob" "lib" = false
  /\ hasWriteAccess (handlePermAddCommand demo_disk demo_storage (Some demo_bob) "lib" "carol").2
       demo_storage (Some demo_carol) "bob" "lib" = true
  /\ repoExists demo_disk demo_storage "bob" "lib" = false
  /\ handlePermAddCommand demo_disk demo_storage (Some demo_bob) "lib" "dave"
     = (Reply "Error: User 'dave' not found.", demo_disk).
Proof.
  assert (D : is_directory demo_disk demo_storage = true) by (vm_compute; reflexivity).
  assert (F : is_directory demo_disk (permissions_file demo_storage) = false)
    by (vm_compute; reflexivity).
  destruct (handlePermAddCommand_spec demo_disk demo_storage demo_bob "lib" "carol" D F)
    as (_ & _ & Hadd).
  destruct (handlePermAddCommand_spec demo_disk demo_storage demo_bob "lib" "dave" D F)
    as (Hno & _ & _).
  assert (E : userExists demo_disk demo_storage "carol" = true) by (vm_compute; reflexivity).
  assert (N : "carol" <> username demo_bob) by discriminate.
  assert (F1 : field (username demo_bob)) by (split; reflexivity).
  assert (F2 : field "lib") by (split; reflexivity).
  assert (F3 : name_ok "carol")
    by (split; [discriminate | split; [reflexivity | split; reflexivity]]).
  destruct (Hadd E N F1 F2 F3) as (_ & _ & Hacc & _).
  split; [exact D|]. split; [vm_compute; reflexivity|].
  split; [apply Hacc; reflexivity|]. split; [vm_compute; reflexivity|].
  apply Hno. vm_compute. reflexivity.
Defined.

(** X26.  [handlePermRmCommand] of a logged-in user, when the storage
    directory exists and the names of the key hold no tab or line end: the
    command always succeeds (also for a user who was no collaborator and for
    a repository that does not exist), the permission map read afterwards
    is the old one with the user removed under "owner/repo", where the key
    now exists; a user of that name who is neither admin nor the owner has
    no write access to the repository; write access of users of other names
    and to other repositories is as before. *)
Theorem handlePermRmCommand_spec fs storageRoot (me : User) (repo user : string) :
  is_directory fs storageRoot = true ->
  is_directory fs (permissions_file storageRoot) = false ->
  field (username me) -> field repo ->
  let key := username me +:+ "/" +:+ repo in
  let old := loadPermissions fs storageRoot in
  let result := handlePermRmCommand fs storageRoot (Some me) repo user in
  result.1 = Reply ("Removed collaborator '" +:+ user +:+ "' from repository '"
                    +:+ repo +:+ "'.")
  /\ loadPermissions result.2 storageRoot = <[key := default ∅ (old !! key) ∖ {[user]}]> old
  /\ (forall u, username u = user -> role u <> "admin" -> user <> username me ->
        hasWriteAccess result.2 storageRoot (Some u) (username me) repo = false)
  /\ (forall u, username u <> user ->
        hasWriteAccess result.2 storageRoot (Some u) (username me) repo
        = hasWriteAccess fs storageRoot (Some u) (username me) repo)
  /\ (forall u owner' repo', owner' +:+ "/" +:+ repo' <> key ->
        hasWriteAccess result.2 storageRoot (Some u) owner' repo'
        = hasWriteAccess fs storageRoot (Some u) owner' repo').
Proof.
  intros Hd Hf Hme Hrepo key old result.
  assert (Hgate : hasWriteAccess fs storageRoot (Some me) (username me) repo = true).
  { unfold hasWriteAccess. destruct (String.eqb (role me) "admin"); [reflexivity|].
    now rewrite String.eqb_refl. }
  assert (Hres : result
                 = (Reply ("Removed collaborator '" +:+ user +:+ "' from repository '"
                           +:+ repo +:+ "'."),
                    savePermissions fs storageRoot
                      (<[key := default ∅ (old !! key) ∖ {[user]}]> old))).
  { subst result. unfold handlePermRmCommand. now rewrite Hgate. }
  assert (Hok : perms_ok (<[key := default ∅ (old !! key) ∖ {[user]}]> old)).
  { apply map_Forall_insert_2; [|apply loadPermissions_ok].
    split; [now apply field_key|].
    intros y [Hy _]%elem_of_difference.
    destruct (old !! key) as [names|] eqn:Ek; [|set_solver].
    exact (proj2 (loadPermissions_ok fs storageRoot key names Ek) y Hy). }
  assert (Hload : loadPermissions result.2 storageRoot
                  = <[key := default ∅ (old !! key) ∖ {[user]}]> old).
  { rewrite Hres. cbn [snd]. now apply savePermissions_read. }
  split; [now rewrite Hres|]. split; [exact Hload|]. split; [|split].
  - intros u Hn Hrole Hu. unfold hasWriteAccess. rewrite Hload. fold key.
    rewrite lookup_insert_eq.
    destruct (String.eqb_spec (role u) "admin"); [contradiction|].
    destruct (String.eqb_spec (username u) (username me)); [congruence|].
    apply bool_decide_eq_false_2. rewrite Hn.
    intros [_ Hx]%elem_of_difference. apply Hx. now apply elem_of_singleton.
  - intros u Hn. unfold hasWriteAccess. rewrite Hload. fold key old.
    rewrite lookup_insert_eq.
    destruct (String.eqb (role u) "admin"); [reflexivity|].
    destruct (String.eqb (username u) (username me)); [reflexivity|].
    destruct (old !! key) as [names|]; cbn [default].
    + apply bool_decide_ext. rewrite elem_of_difference, elem_of_singleton. tauto.
    + apply bool_decide_eq_false_2. intros [Hx _]%elem_of_difference.
      now apply not_elem_of_empty in Hx.
  - intros u owner' repo' Hk. apply hasWriteAccess_perms.
    rewrite Hload. now rewrite lookup_insert_ne by congruence.
Qed.

Lemma handlePermRmCommand_spec_witness :
  is_directory demo_disk demo_storage = true
  /\ hasWriteAccess demo_disk demo_storage (Some demo_bob) "alice" "proj" = true
  /\ hasWriteAccess (handlePermRmCommand demo_disk demo_storage (Some demo_alice) "proj" "bob").2
       demo_storage (Some demo_bob) "alice" "proj" = false.
Proof.
  assert (D : is_directory demo_disk demo_storage = true) by (vm_compute; reflexivity).
  assert (F : is_directory demo_disk (permissions_file demo_storage) = false)
    by (vm_compute; reflexivity).
  assert (F1 : field (username demo_alice)) by (split; reflexivity).
  assert (F2 : field "proj") by (split; reflexivity).
  destruct (handlePermRmCommand_spec demo_disk demo_storage demo_alice "proj" "bob" D F F1 F2)
    as (_ & _ & Hacc & _).
  split; [exact D|]. split; [vm_compute; reflexivity|].
  apply Hacc; [reflexivity | discriminate | discriminate].
Defined.

End Collaborators.

(** ** Commands behind the permission gate *)

Section GatedCommands.

Implicit Types (fs : gmap (list string) node) (storageRoot : list string).

Lemma resolve_denied fs storageRoot (user : User) (currentDir_ : list string) (identifier owner repo : string) :
  parseRepoIdentifier identifier (username user) = Some (owner, repo) ->
  repoExists fs storageRoot owner repo = true ->
  hasWriteAccess fs storageRoot (Some user) owner repo = false ->
  resolveRepoContext fs storageRoot (Some user) currentDir_ (Some identifier) true
  = Failed (Message ("Error: You don't have permission to modify '"
                     +:+ owner +:+ "/" +:+ repo +:+ "'.")).
Proof.
  intros Hid Hex Hacc. unfold resolveRepoContext. rewrite Hid, Hex. cbn [negb].
  unfold access_gate. now rewrite Hacc.
Qed.

Lemma resolve_granted fs storageRoot (user : User) (currentDir_ : list string) (identifier owner repo : string) :
  parseRepoIdentifier identifier (username user) = Some (owner, repo) ->
  repoExists fs storageRoot owner repo = true ->
  hasWriteAccess fs storageRoot (Some user) owner repo = true ->
  resolveRepoContext fs storageRoot (Some user) currentDir_ (Some identifier) true
  = Done (mkContext owner repo (repoPath storageRoot owner repo)).
Proof.
  intros Hid Hex Hacc. unfold resolveRepoContext. rewrite Hid, Hex. cbn [negb].
  unfold access_gate. now rewrite Hacc.
Qed.

(** X27.  The branch and tag commands stand behind the permission gate.
    For a repository of the storage named by an identifier whose owner and
    repository name are each one plain path component: without a
    session, and for a logged-in user without write access, branch create,
    checkout, merge, rebase, branch rename, branch delete and tag return the
    error of the gate and leave the disk unchanged.  With write access, a
    branch name that [isValidIdentifier] rejects is refused by branch create
    and branch rename, and the deletion of the current branch by branch
    delete, before the engine is called; a valid name is handed to
    [createBranch] on the repository of the identifier. *)
Theorem commands_behind_gate fs storageRoot (user : User)
    (currentDir_ : list string) (identifier owner repo a b ts_id ts : string) :
  parseRepoIdentifier identifier (username user) = Some (owner, repo) ->
  is_name owner = true ->
  is_name repo = true ->
  repoExists fs storageRoot owner repo = true ->
  let root := repoPath storageRoot owner repo in
  let commands (session_ : option User) :=
    [ handleBranchCreateCommand fs storageRoot session_ currentDir_ a (Some identifier);
      handleCheckoutCommand fs storageRoot session_ currentDir_ a (Some identifier);
      handleMergeCommand fs storageRoot session_ currentDir_ a (Some identifier) ts_id ts;
      handleRebaseCommand fs storageRoot session_ currentDir_ a (Some identifier);
      handleRenameBranchCommand fs storageRoot session_ currentDir_ a b (Some identifier);
      handleDeleteBranchCommand fs storageRoot session_ currentDir_ a (Some identifier);
      handleTagCommand fs storageRoot session_ currentDir_ a (Some identifier) ] in
  Forall (fun result => result = (Reply "Error: Not logged in.", fs)) (commands None)
  /\ (hasWriteAccess fs storageRoot (Some user) owner repo = false ->
      Forall (fun result =>
                result = (Reply ("Error: You don't have permission to modify '"
                                 +:+ owner +:+ "/" +:+ repo +:+ "'."), fs))
             (commands (Some user)))
  /\ (hasWriteAccess fs storageRoot (Some user) owner repo = true ->
      (isValidIdentifier a = false ->
         handleBranchCreateCommand fs storageRoot (Some user) currentDir_ a (Some identifier)
         = (Reply "Error: Invalid branch name.", fs))
      /\ (isValidIdentifier b = false ->
          handleRenameBranchCommand fs storageRoot (Some user) currentDir_ a b (Some identifier)
          = (Reply "Error: Invalid branch name.", fs))
      /\ (a = currentBranch fs root ->
          handleDeleteBranchCommand fs storageRoot (Some user) currentDir_ a (Some identifier)
          = (Reply "Error: Cannot delete current branch. Switch to another branch first.", fs))
      /\ (isValidIdentifier a = true ->
          (handleBranchCreateCommand fs storageRoot (Some user) currentDir_ a
             (Some identifier)).2
          = (createBranch fs root a).2
          /\ ((createBranch fs root a).1 = Done tt ->
              (handleBranchCreateCommand fs storageRoot (Some user) currentDir_ a
                 (Some identifier)).1
              = Reply ("Branch '" +:+ a +:+ "' created.")))).
Proof.
  intros Hid _ _ Hex root commands. split; [|split].
  - repeat constructor.
  - intros Hacc. subst commands. cbv beta.
    unfold handleBranchCreateCommand, handleCheckoutCommand, handleMergeCommand,
      handleRebaseCommand, handleRenameBranchCommand, handleDeleteBranchCommand,
      handleTagCommand.
    rewrite (resolve_denied fs storageRoot user currentDir_ identifier owner repo Hid Hex Hacc).
    repeat constructor.
  - intros Hacc.
    pose proof (resolve_granted fs storageRoot user currentDir_ identifier owner repo
                  Hid Hex Hacc) as Hres.
    split; [|split; [|split]].
    + intros Ha. unfold handleBranchCreateCommand. rewrite Hres. cbn [with_context].
      now rewrite Ha.
    + intros Hb. unfold handleRenameBranchCommand. rewrite Hres. cbn [with_context].
      now rewrite Hb.
    + intros Ha. unfold handleDeleteBranchCommand. rewrite Hres.
      cbn [with_context ctx_root]. fold root. rewrite Ha. now rewrite String.eqb_refl.
    + intros Ha. unfold handleBranchCreateCommand. rewrite Hres.
      cbn [with_context ctx_root]. fold root. rewrite Ha. cbn [negb].
      destruct (createBranch fs root a) as [[[]|e] fs'].
      * split; [reflexivity | reflexivity].
      * split; [reflexivity | discriminate].
Qed.

Lemma commands_behind_gate_witness :
  parseRepoIdentifier "alice/proj" (username demo_carol) = Some ("alice", "proj")
  /\ repoExists demo_committed demo_storage "alice" "proj" = true
  /\ handleDeleteBranchCommand demo_committed demo_storage (Some demo_carol) demo_storage
       "main" (Some "alice/proj")
     = (Reply "Error: You don't have permission to modify 'alice/proj'.", demo_committed)
  /\ handleTagCommand demo_committed demo_storage None demo_storage "v1" (Some "alice/proj")
     = (Reply "Error: Not logged in.", demo_committed)
  /\ handleBranchCreateCommand demo_committed demo_storage (Some demo_bob) demo_storage
       "a b" (Some "alice/proj")
     = (Reply "Error: Invalid branch name.", demo_committed).
Proof.
  assert (P : parseRepoIdentifier "alice/proj" (username demo_carol) = Some ("alice", "proj"))
    by reflexivity.
  assert (P' : parseRepoIdentifier "alice/proj" (username demo_bob) = Some ("alice", "proj"))
    by reflexivity.
  assert (E : repoExists demo_committed demo_storage "alice" "proj" = true)
    by (vm_compute; reflexivity).
  assert (A : hasWriteAccess demo_committed demo_storage (Some demo_carol) "alice" "proj"
              = false) by (vm_compute; reflexivity).
  assert (A' : hasWriteAccess demo_committed demo_storage (Some demo_bob) "alice" "proj"
               = true) by (vm_compute; reflexivity).
  destruct (commands_behind_gate demo_committed demo_storage demo_carol demo_storage
              "alice/proj" "alice" "proj" "main" "x" "" "" P eq_refl eq_refl E)
    as (_ & Hden & _).
  destruct (commands_behind_gate demo_committed demo_storage demo_carol demo_storage
              "alice/proj" "alice" "proj" "v1" "x" "" "" P eq_refl eq_refl E)
    as (Hnone & _ & _).
  destruct (commands_behind_gate demo_committed demo_storage demo_bob demo_storage
              "alice/proj" "alice" "proj" "a b" "x" "" "" P' eq_refl eq_refl E)
    as (_ & _ & Hok).
  specialize (Hden A). destruct (Hok A') as (Hbad & _).
  split; [exact P|]. split; [exact E|].
  split; [|split; [|apply Hbad; reflexivity]].
  - rewrite List.Forall_forall in Hden. apply Hden. do 5 right. left. reflexivity.
  - rewrite List.Forall_forall in Hnone. apply Hnone. do 6 right. left. reflexivity.
Defined.

End GatedCommands.

(** ** The command line *)

Section CommandLine.

Lemma splitCommand_loop_args (command : string) : forall (inQuotes : bool) (current : string)
    (args : list string),
  splitCommand_loop command inQuotes current args
  = args ++ splitCommand_loop command inQuotes current [].
Proof.
  induction command as [|c rest IH]; intros inQuotes current args; cbn [splitCommand_loop].
  - destruct (empty current); [now rewrite app_nil_r | reflexivity].
  - destruct (Ascii.eqb c QUOTE); [apply IH|].
    destruct (Ascii.eqb c SP && negb inQuotes); [|apply IH].
    destruct (empty current); [apply IH|].
    rewrite (IH inQuotes EmptyString (args ++ [current])).
    rewrite (IH inQuotes EmptyString ([] ++ [current])).
    now rewrite <- app_assoc.
Qed.

Lemma find_snoc_None (d c : ascii) (s : string) :
  find d s = None -> c <> d -> find d (s +:+ String c EmptyString) = None.
Proof.
  intros Hs Hc. apply find_app_None. split; [exact Hs|].
  apply find_cons_None. now split.
Qed.

Lemma splitCommand_loop_tokens (command : string) : forall (inQuotes : bool) (current : string),
  find QUOTE current = None ->
  Forall (fun arg => arg <> "" /\ find QUOTE arg = None)
         (splitCommand_loop command inQuotes current []).
Proof.
  induction command as [|c rest IH]; intros inQuotes current Hcur; cbn [splitCommand_loop].
  - destruct (empty current) eqn:E; [constructor|].
    apply empty_false in E. repeat constructor; assumption.
  - destruct (Ascii.eqb_spec c QUOTE) as [Hq|Hq]; [now apply IH|].
    destruct (Ascii.eqb c SP && negb inQuotes).
    + destruct (empty current) eqn:E; [now apply IH|].
      apply empty_false in E. rewrite splitCommand_loop_args. cbn [app].
      constructor; [now split | now apply IH].
    + apply IH. now apply find_snoc_None.
Qed.

Lemma snoc_append (current rest : string) (c : ascii) :
  (current +:+ String c EmptyString) +:+ rest = current +:+ String c rest.
Proof. now rewrite append_assoc. Qed.

Lemma split_token (current : string) :
  find SP current = None ->
  List.filter (fun t => negb (empty t)) (split SP current)
  = if empty current then [] else [current].
Proof.
  intros H. destruct current as [|c s]; [reflexivity|].
  rewrite split_no_delim by (assumption || discriminate). reflexivity.
Qed.

(** Outside quotes the loop cuts at the spaces. *)
Lemma splitCommand_loop_words (command : string) : forall current : string,
  find QUOTE command = None -> find SP current = None ->
  splitCommand_loop command false current []
  = List.filter (fun t => negb (empty t)) (split SP (current +:+ command)).
Proof.
  induction command as [|c rest IH]; intros current Hq Hcur; cbn [splitCommand_loop].
  - rewrite append_nil_r. now rewrite split_token.
  - apply find_cons_None in Hq as [Hc Hq].
    destruct (Ascii.eqb_spec c QUOTE) as [E|_]; [contradiction|].
    destruct (Ascii.eqb_spec c SP) as [->|Hsp]; cbn [andb negb].
    + rewrite split_app_delim by exact Hcur.
      cbn [List.filter]. destruct current as [|x cur]; cbn [empty negb].
      * now apply (IH EmptyString).
      * rewrite splitCommand_loop_args. cbn [app]. f_equal. now apply (IH EmptyString).
    + rewrite IH; [now rewrite snoc_append | exact Hq | now apply find_snoc_None].
Qed.

(** A space outside quotes ends the argument that was being read. *)
Lemma splitCommand_loop_space (p : string) : forall current rest : string,
  find QUOTE p = None ->
  splitCommand_loop (p +:+ String SP rest) false current []
  = splitCommand_loop p false current [] ++ splitCommand_loop rest false EmptyString [].
Proof.
  induction p as [|c p IH]; intros current rest Hq.
  - cbn [String.append splitCommand_loop]. cbn [Ascii.eqb andb negb].
    change (Ascii.eqb SP QUOTE) with false. rewrite Ascii.eqb_refl. cbn [andb].
    destruct current as [|x cur]; [reflexivity|]. cbn [empty]. apply splitCommand_loop_args.
  - apply find_cons_None in Hq as [Hc Hq]. cbn [String.append splitCommand_loop].
    destruct (Ascii.eqb_spec c QUOTE) as [E|_]; [contradiction|].
    destruct (Ascii.eqb c SP && negb false).
    + destruct (empty current); [now apply IH|].
      cbn [app].
      rewrite (splitCommand_loop_args (p +:+ String SP rest) false EmptyString [current]).
      rewrite (splitCommand_loop_args p false EmptyString [current]).
      rewrite <- app_assoc. f_equal. now apply IH.
    + now apply IH.
Qed.

(** Inside quotes every character up to the closing quote is kept. *)
Lemma splitCommand_loop_quoted (w : string) : forall (current rest : string)
    (args : list string),
  find QUOTE w = None ->
  splitCommand_loop (w +:+ String QUOTE rest) true current args
  = splitCommand_loop rest false (current +:+ w) args.
Proof.
  induction w as [|c w IH]; intros current rest args Hq.
  - cbn [String.append splitCommand_loop]. change (Ascii.eqb QUOTE QUOTE) with true.
    cbn [negb]. now rewrite append_nil_r.
  - apply find_cons_None in Hq as [Hc Hq]. cbn [String.append splitCommand_loop].
    destruct (Ascii.eqb_spec c QUOTE) as [E|_]; [contradiction|].
    rewrite andb_false_r. rewrite IH by exact Hq. now rewrite snoc_append.
Qed.

(** X28.  [splitCommand]: no argument is empty and none holds a quote
    character; a command without quotes is cut at its spaces, runs of
    spaces counting as one, so no argument holds a space; and after a
    command without quotes, a space and a quoted text that is not empty
    give that text as one more argument, with the spaces in it. *)
Theorem splitCommand_spec (command : string) :
  Forall (fun arg => arg <> "" /\ find QUOTE arg = None) (splitCommand command)
  /\ (find QUOTE command = None ->
      splitCommand command = List.filter (fun t => negb (empty t)) (split SP command)
      /\ Forall (fun arg => find SP arg = None) (splitCommand command))
  /\ (forall text : string,
        find QUOTE command = None -> find QUOTE text = None -> text <> "" ->
        splitCommand (command +:+ String SP (String QUOTE (text +:+ String QUOTE "")))
        = splitCommand command ++ [text]).
Proof.
  split; [apply splitCommand_loop_tokens; reflexivity|]. split.
  - intros Hq.
    assert (E : splitCommand command = List.filter (fun t => negb (empty t)) (split SP command))
      by (unfold splitCommand; now rewrite splitCommand_loop_words).
    split; [exact E|]. rewrite E. apply List.Forall_forall. intros arg Hin.
    apply filter_In in Hin as [Hin _]. now apply (split_tokens_free SP command).
  - intros text Hq Ht Hne. unfold splitCommand.
    rewrite splitCommand_loop_space by exact Hq. f_equal.
    cbn [splitCommand_loop]. change (Ascii.eqb QUOTE QUOTE) with true. cbn [negb].
    rewrite splitCommand_loop_quoted by exact Ht. cbn [String.append splitCommand_loop].
    destruct text; [contradiction | reflexivity].
Qed.

Lemma splitCommand_spec_witness :
  find QUOTE "commit  -m" = None
  /\ splitCommand "commit  -m" = ["commit"; "-m"]
  /\ splitCommand ("commit  -m" +:+ String SP (String QUOTE ("first  try" +:+ String QUOTE "")))
     = ["commit"; "-m"; "first  try"].
Proof.
  destruct (splitCommand_spec "commit  -m") as (_ & Hwords & Hquoted).
  destruct (Hwords eq_refl) as [E _].
  split; [reflexivity|]. split; [rewrite E; reflexivity|].
  rewrite (Hquoted "first  try" eq_refl eq_refl); [|discriminate].
  rewrite E. reflexivity.
Defined.

End CommandLine.

(** ** Visibility *)

Section Visibility.

Implicit Types (fs : gmap (list string) node) (storageRoot : list string)
  (kv m : gmap string string).

Lemma find_at (c : ascii) (a b : string) :
  find c a = None -> find c (a +:+ String c b) = Some (String.length a).
Proof.
  induction a as [|x a IH]; intros H.
  - cbn. now rewrite Ascii.eqb_refl.
  - apply find_cons_None in H as [Hx H]. cbn [String.append find String.length].
    destruct (Ascii.eqb_spec x c) as [E|_]; [contradiction|]. now rewrite IH.
Qed.

Lemma substr0_app (a b : string) : substr0 (String.length a) (a +:+ b) = a.
Proof.
  induction a as [|x a IH]; [now destruct b|]. cbn [String.length String.append substr0].
  now rewrite IH.
Qed.

Lemma substr_app (a b : string) (c : ascii) :
  substr (S (String.length a)) (a +:+ String c b) = b.
Proof.
  induction a as [|x a IH]; [now destruct b|]. cbn [String.length String.append].
  change (substr (S (S (String.length a))) (String x (a +:+ String c b)))
    with (substr (S (String.length a)) (a +:+ String c b)).
  exact IH.
Qed.

Lemma key_value_line_written m (key value : string) :
  find "=" key = None -> key_value_line m (key +:+ String "=" value) = <[key := value]> m.
Proof.
  intros H. unfold key_value_line.
  assert (E : empty (key +:+ String "=" value) = false) by (destruct key; reflexivity).
  rewrite E, (find_at "=" key value H). now rewrite substr0_app, substr_app.
Qed.

Lemma key_value_line_ok m (line : string) :
  find NL line = None -> config_ok m -> config_ok (key_value_line m line).
Proof.
  intros Hline Hm. unfold key_value_line. destruct (empty line); [exact Hm|].
  destruct (find "=" line) as [pos|] eqn:E; [|exact Hm].
  apply map_Forall_insert_2; [|exact Hm].
  split; [now apply find_before|]. split; [now apply substr0_find | now apply substr_find].
Qed.

Lemma parseKeyValueFile_ok fs (p : list string) : config_ok (parseKeyValueFile fs p).
Proof.
  unfold parseKeyValueFile. destruct (ifstream fs p) as [content|]; [|apply map_Forall_empty].
  assert (H : forall (lines : list string) m,
             Forall (fun line => find NL line = None) lines -> config_ok m ->
             config_ok (fold_left key_value_line lines m)).
  { induction lines as [|line lines IH]; intros m Hl Hm; [exact Hm|].
    inversion Hl; subst. cbn [fold_left]. apply IH; [assumption|].
    now apply key_value_line_ok. }
  apply H; [apply getlines_free | apply map_Forall_empty].
Qed.

Lemma fold_key_value_lines kv (keys : list string) : forall m,
  Forall (fun key => find "=" key = None) keys ->
  fold_left key_value_line
            (map (fun key => key +:+ String "=" (default EmptyString (kv !! key))) keys) m
  = fold_left (fun acc key => <[key := default EmptyString (kv !! key)]> acc) keys m.
Proof.
  induction keys as [|key keys IH]; intros m Hk; [reflexivity|].
  inversion Hk; subst. cbn [map fold_left].
  rewrite key_value_line_written by assumption. now apply IH.
Qed.

Lemma fold_key_inserts kv (keys : list string) : forall m (x : string),
  fold_left (fun acc key => <[key := default EmptyString (kv !! key)]> acc) keys m !! x
  = if bool_decide (x ∈ keys) then Some (default EmptyString (kv !! x)) else m !! x.
Proof.
  induction keys as [|key keys IH]; intros m x; [reflexivity|].
  cbn [fold_left]. rewrite IH.
  destruct (bool_decide (x ∈ keys)) eqn:E.
  - apply bool_decide_eq_true_1 in E. rewrite bool_decide_eq_true_2; [reflexivity|].
    now apply elem_of_cons; right.
  - apply bool_decide_eq_false_1 in E.
    destruct (decide (x = key)) as [->|Hne].
    + rewrite lookup_insert_eq. rewrite bool_decide_eq_true_2; [reflexivity|].
      apply elem_of_cons. now left.
    + rewrite lookup_insert_ne by congruence. rewrite bool_decide_eq_false_2; [reflexivity|].
      intros [?|?]%elem_of_cons; contradiction.
Qed.

Lemma key_value_text_lines kv :
  key_value_text kv
  = lines_text (map (fun key => key +:+ String "=" (default EmptyString (kv !! key)))
                    (sorted_elements (dom kv))).
Proof.
  unfold key_value_text, lines_text. rewrite map_map. f_equal. apply map_ext.
  intros key. now rewrite append_assoc.
Qed.

(** A key-value file is read back as it was written. *)
Lemma parseKeyValueFile_written fs (p : list string) kv :
  config_ok kv -> ifstream fs p = Some (key_value_text kv) -> parseKeyValueFile fs p = kv.
Proof.
  intros Hok Hread. unfold parseKeyValueFile. rewrite Hread, key_value_text_lines.
  assert (Hkeys : forall key, key ∈ sorted_elements (dom kv) -> is_Some (kv !! key)).
  { intros key Hk. apply elem_of_sorted_elements in Hk. now apply elem_of_dom. }
  rewrite getlines_written.
  - rewrite fold_key_value_lines.
    + apply map_eq. intros x. rewrite fold_key_inserts.
      destruct (bool_decide (x ∈ sorted_elements (dom kv))) eqn:E.
      * apply bool_decide_eq_true_1 in E. destruct (Hkeys x E) as [v Hv]. now rewrite Hv.
      * apply bool_decide_eq_false_1 in E. rewrite lookup_empty. symmetry.
        apply not_elem_of_dom. intros Hd. apply E. now apply elem_of_sorted_elements.
    + apply List.Forall_forall. intros key Hk%list_elem_of_In.
      destruct (Hkeys key Hk) as [v Hv]. exact (proj1 (Hok key v Hv)).
  - apply Forall_map. apply List.Forall_forall. intros key Hk%list_elem_of_In.
    destruct (Hkeys key Hk) as [v Hv]. destruct (Hok key v Hv) as (_ & H1 & H2).
    rewrite Hv. cbn [default]. apply find_app_None. split; [exact H1|].
    apply find_cons_None. split; [discriminate | exact H2].
Qed.

(** X29.  [setVisibility] and [getVisibility]: a repository without config
    file is private and its visibility cannot be set.  When the config file
    exists in the .glite directory, [setVisibility] succeeds, the key-value
    map read from the file afterwards is the old one with "visibility" set,
    so the other keys keep their values, [getVisibility] returns the new
    state and [isPublic] holds exactly for "public"; every other file reads
    as before. *)
Theorem setVisibility_getVisibility fs storageRoot (owner repo : string) (public : bool) :
  let root := repoPath storageRoot owner repo in
  let cfg := config_file root in
  let state := if public then "public" else "private" in
  let result := setVisibility fs storageRoot owner repo public in
  (fs_exists fs cfg = false ->
     result = (fs, false) /\ getVisibility fs storageRoot owner repo = "private")
  /\ (fs_exists fs cfg = true ->
      is_directory fs (glite_dir root) = true -> is_directory fs cfg = false ->
      result.2 = true
      /\ parseKeyValueFile result.1 cfg = <["visibility" := state]> (parseKeyValueFile fs cfg)
      /\ getVisibility result.1 storageRoot owner repo = state
      /\ isPublic result.1 storageRoot owner repo = public
      /\ (forall p, normalize p <> normalize cfg -> ifstream result.1 p = ifstream fs p)).
Proof.
  intros root cfg state result. split.
  - intros E. subst result. unfold setVisibility, getVisibility. fold root cfg.
    now rewrite E.
  - intros E Hg Hc.
    set (kv := <["visibility" := state]> (parseKeyValueFile fs cfg)).
    assert (Hcfg : cfg = glite_dir root ++ ["config"])
      by (unfold cfg, config_file, glite_dir; now rewrite <- app_assoc).
    destruct (write_then_read fs (glite_dir root) "config" (key_value_text kv) eq_refl Hg)
      as [Hw Hr]; [now rewrite <- Hcfg|].
    rewrite <- Hcfg in Hw, Hr.
    assert (Hres : result = (<[normalize (glite_dir root) ++ ["config"]
                               := File (key_value_text kv)]> fs, true)).
    { subst result. unfold setVisibility. fold root cfg. rewrite E. cbn [negb].
      unfold writeKeyValueFile. fold state kv. exact Hw. }
    assert (Hok : config_ok kv).
    { apply map_Forall_insert_2; [|apply parseKeyValueFile_ok].
      split; [reflexivity|]. split; [reflexivity | now destruct public]. }
    assert (Hparse : parseKeyValueFile result.1 cfg = kv).
    { apply parseKeyValueFile_written; [exact Hok|]. rewrite Hres. cbn [fst].
      rewrite Hw in Hr. exact Hr. }
    assert (Hget : getVisibility result.1 storageRoot owner repo = state).
    { unfold getVisibility. fold root cfg. rewrite Hparse.
      unfold kv. rewrite lookup_insert_eq.
      assert (Hex : fs_exists result.1 cfg = true).
      { rewrite Hres. cbn [fst]. rewrite Hw in Hr. unfold ifstream in Hr.
        unfold fs_exists. now destruct (node_at _ cfg). }
      now rewrite Hex. }
    split; [now rewrite Hres|]. split; [exact Hparse|]. split; [exact Hget|]. split.
    + unfold isPublic. rewrite Hget. now destruct public.
    + intros p Hp. rewrite Hres. cbn [fst]. apply ifstream_beside.
      rewrite Hcfg in Hp.
      now rewrite normalize_app_plain in Hp by (repeat constructor).
Qed.

Lemma setVisibility_getVisibility_witness :
  fs_exists demo_committed (config_file (repoPath demo_storage "alice" "proj")) = true
  /\ isPublic demo_committed demo_storage "alice" "proj" = false
  /\ isPublic (setVisibility demo_committed demo_storage "alice" "proj" true).1
              demo_storage "alice" "proj" = true
  /\ parseKeyValueFile (setVisibility demo_committed demo_storage "alice" "proj" true).1
                       (config_file (repoPath demo_storage "alice" "proj")) !! "owner"
     = Some "alice".
Proof.
  assert (E : fs_exists demo_committed (config_file (repoPath demo_storage "alice" "proj"))
              = true) by (vm_compute; reflexivity).
  assert (G : is_directory demo_committed (glite_dir (repoPath demo_storage "alice" "proj"))
              = true) by (vm_compute; reflexivity).
  assert (C : is_directory demo_committed (config_file (repoPath demo_storage "alice" "proj"))
              = false) by (vm_compute; reflexivity).
  destruct (setVisibility_getVisibility demo_committed demo_storage "alice" "proj" true)
    as [_ Hset].
  destruct (Hset E G C) as (_ & Hparse & _ & Hpub & _).
  split; [exact E|]. split; [vm_compute; reflexivity|]. split; [exact Hpub|].
  rewrite Hparse. rewrite lookup_insert_ne by discriminate. vm_compute. reflexivity.
Defined.

End Visibility.

(** ** Deleting a repository *)

Section DeleteRepository.

Implicit Types (fs : gmap (list string) node) (storageRoot : list string).

Lemma norm_repoPath storageRoot (owner repo : string) :
  is_name owner = true -> is_name repo = true ->
  normalize (repoPath storageRoot owner repo) = normalize storageRoot ++ [owner; repo].
Proof.
  intros Ho Hr. unfold repoPath. rewrite !normalize_child by assumption.
  now rewrite <- app_assoc.
Qed.

Lemma node_at_remove_all fs (p q : list string) :
  ~ normalize p `prefix_of` normalize q -> node_at (remove_all fs p) q = node_at fs q.
Proof.
  intros H. unfold node_at, lookup_node. destruct (normalize q) as [|a l] eqn:E; [reflexivity|].
  rewrite remove_all_lookup. now rewrite decide_False.
Qed.

(** X30.  [handleDeleteCommand] of a logged-in user, for a user name and a
    repository name that are one path component each and hold no tab or
    line end, when the storage directory exists: the repository is looked up
    in the namespace of the session user only, and a missing one is refused
    with the disk unchanged.  Otherwise the command succeeds: nothing is
    left at or below the path of the repository, the permission map read
    afterwards is the old one without the key "owner/repo", so a user who is
    neither admin nor the owner has no write access to a repository of that
    name, and every entry outside the repository other than the permission
    file is unchanged. *)
Theorem handleDeleteCommand_spec fs storageRoot (me : User) (repo : string) :
  is_directory fs storageRoot = true ->
  is_directory fs (permissions_file storageRoot) = false ->
  is_name (username me) = true -> is_name repo = true ->
  field (username me) -> field repo ->
  let key := username me +:+ "/" +:+ repo in
  let root := normalize storageRoot ++ [username me; repo] in
  let result := handleDeleteCommand fs storageRoot (Some me) repo in
  (repoExists fs storageRoot (username me) repo = false ->
     result = (Reply "Error: Repository not found.", fs))
  /\ (repoExists fs storageRoot (username me) repo = true ->
      result.1 = Reply ("Repository '" +:+ repo +:+ "' deleted.")
      /\ repoExists result.2 storageRoot (username me) repo = false
      /\ (forall x, root `prefix_of` x -> result.2 !! x = None)
      /\ loadPermissions result.2 storageRoot = delete key (loadPermissions fs storageRoot)
      /\ (forall u, role u <> "admin" -> username u <> username me ->
            hasWriteAccess result.2 storageRoot (Some u) (username me) repo = false)
      /\ (forall x, ~ root `prefix_of` x ->
            x <> normalize (permissions_file storageRoot) -> result.2 !! x = fs !! x)).
Proof.
  intros Hd Hf Hme Hrepo Fme Frepo key root result.
  assert (Hroot : normalize (repoPath storageRoot (username me) repo) = root)
    by now apply norm_repoPath.
  assert (Hrne : root <> []) by (apply app_nonempty; discriminate).
  set (pf := normalize storageRoot ++ ["permissions.tsv"]).
  assert (Hpf : normalize (permissions_file storageRoot) = pf)
    by (apply normalize_app_plain; repeat constructor).
  assert (Hpfne : pf <> []) by (apply app_nonempty; discriminate).
  assert (Hoff : forall l : list string, length l <= 1 -> ~ root `prefix_of` normalize storageRoot ++ l).
  { intros l Hl H%prefix_app_inv. apply prefix_length in H. cbn in H. lia. }
  split.
  - intros E. subst result. unfold handleDeleteCommand. now rewrite E.
  - intros E.
    set (fs1 := remove_all fs (repoPath storageRoot (username me) repo)).
    assert (Hgate : hasWriteAccess fs storageRoot (Some me) (username me) repo = true).
    { unfold hasWriteAccess. destruct (String.eqb (role me) "admin"); [reflexivity|].
      now rewrite String.eqb_refl. }
    assert (Hperm1 : loadPermissions fs1 storageRoot = loadPermissions fs storageRoot).
    { unfold loadPermissions, ifstream, fs1. rewrite node_at_remove_all; [reflexivity|].
      rewrite Hroot, Hpf. apply Hoff. cbn. lia. }
    assert (Hd1 : is_directory fs1 storageRoot = true).
    { unfold is_directory, fs1. rewrite node_at_remove_all; [exact Hd|].
      rewrite Hroot, <- (app_nil_r (normalize storageRoot)). apply Hoff. cbn. lia. }
    assert (Hf1 : is_directory fs1 (permissions_file storageRoot) = false).
    { unfold is_directory, fs1. rewrite node_at_remove_all; [exact Hf|].
      rewrite Hroot, Hpf. apply Hoff. cbn. lia. }
    set (perms := delete key (loadPermissions fs storageRoot)).
    assert (Hres : result = (Reply ("Repository '" +:+ repo +:+ "' deleted."),
                             savePermissions fs1 storageRoot perms)).
    { subst result. unfold handleDeleteCommand. rewrite E, Hgate. cbn [negb].
      rewrite andb_false_r. cbv zeta. fold fs1. now rewrite Hperm1. }
    assert (Hok : perms_ok perms) by (apply map_Forall_delete, loadPermissions_ok).
    assert (Hload : loadPermissions result.2 storageRoot = perms).
    { rewrite Hres. cbn [snd]. now apply savePermissions_read. }
    assert (Hsave : savePermissions fs1 storageRoot perms
                    = <[pf := File (concat_strings
                          (map (fun entry : string * gset string =>
                                  entry.1 +:+ tab +:+ join_commas (sorted_elements entry.2) +:+ nl)
                               (map_to_list perms)))]> fs1).
    { unfold savePermissions, permissions_file in *.
      now rewrite (proj1 (write_then_read fs1 storageRoot "permissions.tsv" _ eq_refl Hd1 Hf1)). }
    assert (Hlook : forall x, x <> pf ->
              result.2 !! x = if decide (root `prefix_of` x) then None else fs !! x).
    { intros x Hx. rewrite Hres. cbn [snd]. rewrite Hsave.
      rewrite lookup_insert_ne by congruence. unfold fs1.
      now rewrite remove_all_lookup, Hroot. }
    assert (Hbelow : forall x, root `prefix_of` x -> x <> pf).
    { intros x Hx ->. revert Hx. unfold pf. apply Hoff. cbn. lia. }
    split; [now rewrite Hres|]. split; [|split; [|split; [exact Hload | split]]].
    + unfold repoExists. rewrite (fs_exists_at _ _ root Hroot Hrne).
      rewrite Hlook by (apply Hbelow; reflexivity). now rewrite decide_True.
    + intros x Hx. rewrite Hlook by now apply Hbelow. now rewrite decide_True.
    + intros u Hrole Hu. unfold hasWriteAccess. rewrite Hload. fold key.
      unfold perms. rewrite lookup_delete_eq.
      destruct (String.eqb_spec (role u) "admin"); [contradiction|].
      destruct (String.eqb_spec (username u) (username me)); [contradiction | reflexivity].
    + intros x Hx Hxp. rewrite Hpf in Hxp. rewrite Hlook by exact Hxp.
      now rewrite decide_False.
Qed.

Lemma handleDeleteCommand_spec_witness :
  repoExists demo_committed demo_storage "alice" "proj" = true
  /\ hasWriteAccess demo_committed demo_storage (Some demo_bob) "alice" "proj" = true
  /\ repoExists (handleDeleteCommand demo_committed demo_storage (Some demo_alice) "proj").2
                demo_storage "alice" "proj" = false
  /\ hasWriteAccess (handleDeleteCommand demo_committed demo_storage (Some demo_alice) "proj").2
                    demo_storage (Some demo_bob) "alice" "proj" = false
  /\ handleDeleteCommand demo_committed demo_storage (Some demo_bob) "proj"
     = (Reply "Error: Repository not found.", demo_committed).
Proof.
  assert (D : is_directory demo_committed demo_storage = true) by (vm_compute; reflexivity).
  assert (F : is_directory demo_committed (permissions_file demo_storage) = false)
    by (vm_compute; reflexivity).
  assert (F1 : field (username demo_alice)) by (split; reflexivity).
  assert (F2 : field "proj") by (split; reflexivity).
  assert (F3 : field (username demo_bob)) by (split; reflexivity).
  assert (E : repoExists demo_committed demo_storage "alice" "proj" = true)
    by (vm_compute; reflexivity).
  destruct (handleDeleteCommand_spec demo_committed demo_storage demo_alice "proj"
              D F eq_refl eq_refl F1 F2) as [_ Hdel].
  destruct (handleDeleteCommand_spec demo_committed demo_storage demo_bob "proj"
              D F eq_refl eq_refl F3 F2) as [Hno _].
  destruct (Hdel E) as (_ & Hgone & _ & _ & Hacc & _).
  split; [exact E|]. split; [vm_compute; reflexivity|]. split; [exact Hgone|].
  split; [apply Hacc; discriminate|]. apply Hno. vm_compute. reflexivity.
Defined.

End DeleteRepository.
